(* ===== verification/_CoqProject ===== *)
-Q . S2P
Prelude.v
GoStd.v
Libs.v
Core.v
Pools.v
Messages.v
StorageDB.v
Chain.v
Ledger.v
Execution.v
Query.v
Pbft.v
Network.v
PbftProps.v
RelayMod.v
RelayProps.v
Quorum.v
Shard.v
System.v
Partition.v
PartitionProps.v
ClpaMod.v
MigrationProps.v
BrokerMod.v
BrokerProps.v
UtxoSet.v
UtxoProps.v
UtxoChain.v
UtxoMod.v
UtxoModProps.v
Hotstuff.v
HotstuffProps.v
Committee.v
CommitteeProps.v
BrokerProtocol.v
Measure.v
MeasureProps.v
Results.v
Supervisor.v
SupervisorProps.v
Tool.v
Build.v
BuildProps.v
ToolProps.v
