(* ===== verification/Prelude.v ===== *)
(** * A verification of BlockEmulator

    BlockEmulator (src/) emulates a sharded blockchain.  A process is a node of
    a shard, which runs a consensus protocol and keeps a chain, or the
    supervisor, which feeds transactions to the shards and measures them.
    This library models the Go code file by file and proves what its parts
    guarantee, alone and together.  This header is the guide to it.

    ** The program and the files that model it

    - src/params, src/utils and what is used of the standard library: [GoStd].
      The databases (the go-ethereum trie, boltdb): classes with laws in [Libs].
    - src/core, the data: [Core]; its two transaction pools: [Pools].
    - src/message, src/shard and the framing of messages: [Messages]; the pool
      of TCP connections (src/networks): [Network].
    - src/storage, the block store: [StorageDB].  src/chain/blockchain.go, the
      chain of the account model: [Chain]; the abstract ledger it refines:
      [Ledger]; their theorems: [Execution].  src/query: [Query].
    - src/consensus_shard/pbft_all.  The PBFT node: [Pbft], [PbftProps].  A node
      delegates what is proposed and committed to two modules, the Go interfaces
      of pbftMod_interface.go, which are the classes [InsideMod] and [OutsideMod];
      the node's theorems hold for every module with [InsideLaws] and
      [OutsideLaws], and each pair of modules has an instance: relay ([RelayMod],
      [RelayProps]), CLPA re-partitioning with the transfer of accounts ([ClpaMod],
      [MigrationProps]), broker and CLPA with brokers ([BrokerMod], [BrokerProps]),
      relay of UTXO transactions ([UtxoMod], [UtxoModProps]).  All nodes of one
      relay shard in a round, with the messages between them: [Shard], over the
      counting of [Quorum].  The shards of the relay method together: [System].
    - src/partition, the graph and the CLPA algorithm: [Partition],
      [PartitionProps].
    - src/chain/utxo_set.go and the making of UTXO transactions: [UtxoSet],
      [UtxoProps]; the set of unspent outputs of a stored chain: [UtxoChain].
    - src/consensus_shard/synchotstuff_all: [Hotstuff], [HotstuffProps].
    - src/supervisor/{signal,committee} and src/broker: [Committee],
      [CommitteeProps], [BrokerProtocol]; src/supervisor/measure: [Measure],
      [MeasureProps]; src/supervisor/supervisor.go: [Supervisor],
      [SupervisorProps]; the csv files of the nodes and of the supervisor:
      [Results].
    - src/build/tool.go, the start scripts, and the flags of src/main.go: [Tool],
      [ToolProps]; src/build/build.go and main itself: [Build], [BuildProps].

    The parts interact by messages.  The supervisor's committee injects
    transactions ([CInject]) into the pools of the shards' leaders; a leader
    proposes a block from its pool, its shard agrees on it, every node adds it
    to its chain, and the leader relays the transactions that leave the shard
    ([CRelay]) and reports the block ([CBlockInfo]).  The supervisor hands the
    report to its measures and its committee, which answers with the second
    halves of broker transactions or, under CLPA, with a new partition
    ([CPartitionMsg]); the leaders then exchange accounts and pooled transactions
    ([AccountState_and_TX]).  A handler's writes are the [Event]s of its step, in
    their order; what the receiver reads of them is [Network] and [Messages].

    ** How the code is rendered

    A Go struct is a record and a method a function that returns the new
    record.  Failure is [res]: [Panic] for a panic or a fatal error, [Blocked] for
    a goroutine that waits for ever on what no other goroutine can give it.
    Handlers are written in the monad [M] (state, events, failure) below.
    [uint64] and [int] are [Z], wrapped by [u64] and [i64] where the code
    computes; [big.Int] is [Z]; [float64] is the specification of binary64.
    Go's [range] over a map has no order: where the result may depend on it
    the order is an argument, or the theorem is about the result up to order;
    else the model visits [map_to_list].  Pointers are values, except where
    identity matters: the [*shard.Node] keys of the vote sets are numbered.

    A step is a message handler, one iteration of a goroutine's loop, or a
    timer: the mutexes of the code make these atomic ([tcpPoolLock], [tcpLock],
    [connMaplock]); a mutex or channel that outlives a handler is a field.  Steps
    interleave in any order, and [run], [sync_run] and [sup_run] are the runs of
    a process, [sys_run] of several leaders.  Two goroutines are coarser than in
    the code: [txSending] sleeps between its batches and is one step with what
    calls it, and a round of [TxTransform] is one step.  In UTXO mode the stop signal of a PBFT node may
    be taken by [TxTransform] for [Propose]; [Pbft] models the latter,
    [Hotstuff] both.

    Serialisation (gob, JSON), SHA-256, the trie, bolt, the flag library and the
    shell are classes with their documented laws (a round trip, a length, what a
    read returns after a write).  Each has an instance, and every theorem with hypotheses has a
    witness, named after it, that applies it to a concrete input there.

    ** What is shown

    - Execution: executing a block is the abstract ledger, conserves money up to
      what crosses the shard's border, and overdraws no account; the chain's tip
      is the newest stored block; restarting a node recovers its chain; the
      queries return the history.
    - Consensus, over all runs and messages: commits need their quorum, are
      broadcast once and executed once; a pre-prepare's outcomes; catching up; a
      round keeps replicas equal; a round of three nodes or more completes, in
      any order of its messages in which votes do not overtake the proposal, and
      the nodes that [BuildNewNode] makes are ready for one; where copies of one
      vote make a quorum, where a handler waits for ever, and two nodes stuck.
      A round of SyncHotstuff commits; who waits; a vote that comes too early.
    - Sharding: each cross-shard transaction is relayed once; over all shards,
      pools, blocks and messages money is conserved, however their steps
      interleave, up to transactions nobody paid; a broker's two halves; exactly
      the accounts that move are sent, arrive, and leave the nodes of the shard
      replicas; the wait for them ends.
    - CLPA: the incremental counts are the recount, the graph's invariant
      survives, and the algorithm returns a partition into existing shards,
      whatever the order; the supervisor's map is what the shards were told.
    - UTXO: transactions balance, a round of [TxTransform] changes the supply by
      what it mints, the unspent outputs of a chain are found, and no UTXO
      transaction is ever relayed.
    - The edge: pools are first in, first out; what a connection delivers; what
      a committee injects; the measures' shape and the result files; the addresses
      of the nodes; a generated script starts every node and the supervisor once.

    ** Bounds and fuel

    Recursion is structural but for four loops with fuel.  [old_requests] has one
    round more than [height2Digest] has entries, and visits at most these
    ([old_requests_spec]); [add_old_blocks] and [adopt_olds] have one more than
    there are requests, after which the index has panicked; [scan_chain] has as
    many as the chain has blocks, which [scan_chain_ok] shows to be enough (and
    too few give [Blocked], never a result).  A round of [N] nodes has at most
    [2 * N * (N - 1)] deliveries, and ends after exactly these.  A leader's waits for the other
    shards are states of its goroutine, not fuel, and [partition_round_ends]
    shows that they end.

    ** Not modelled

    - Log files (supervisor_log, nodelogger) and printing: output only.
    - The accept loops ([TcpListen], [OldTcpListen]): which connection a message
      comes from is the order of the steps.
    - src/test, programs that print what the modelled functions do.
    - [isVoteBordcast] of the SyncHotstuff node, which nothing reads, and the
      commented-out code.
    - Gob, JSON, SHA-256, the trie, bolt, pflag and the shell, and the Go scheduler. *)
From stdpp Require Import base gmap strings list sorting.
From Stdlib Require Import ZArith Lia.

(** ** Bytes, integers and time

    A Go [string] and a Go [[]byte] are both byte sequences; both are
    [string] here, and [nil] is the empty sequence. *)
Abbreviation bytes := string (only parsing).

#[global] Open Scope Z_scope.
Declare Scope go_scope.
Delimit Scope go_scope with go.
#[global] Open Scope go_scope.

(** Wrap-around of the 64-bit machine integers [uint64] and [int]. *)
Definition u64 (z : Z) : Z := z mod 2 ^ 64.
Definition i64 (z : Z) : Z := (z + 2 ^ 63) mod 2 ^ 64 - 2 ^ 63.

Lemma u64_small z : 0 <= z < 2 ^ 64 -> u64 z = z.
Proof. intros; unfold u64; apply Z.mod_small; lia. Qed.

Lemma u64_range z : 0 <= u64 z < 2 ^ 64.
Proof. unfold u64; apply Z.mod_pos_bound; lia. Qed.

Lemma i64_small z : - 2 ^ 63 <= z < 2 ^ 63 -> i64 z = z.
Proof. intros; unfold i64; rewrite Z.mod_small; lia. Qed.

(** [time.Time] as nanoseconds; Go's zero time is 0. *)
Definition IsZero (t : Z) : bool := t =? 0.

(** ** Results

    [Panic] is a Go panic (also [log.Panic] and the runtime's fatal errors);
    [Blocked] is a goroutine that waits on a lock or channel. *)
Inductive res (A : Type) : Type :=
  | Ret (a : A)
  | Panic
  | Blocked.
Arguments Ret {A} a.
Arguments Panic {A}.
Arguments Blocked {A}.

#[global] Instance res_eq_dec {A} `{EqDecision A} : EqDecision (res A).
Proof. solve_decision. Defined.

#[global] Instance res_ret : MRet res := @Ret.
#[global] Instance res_bind : MBind res := fun A B f m =>
  match m with Ret a => f a | Panic => Panic | Blocked => Blocked end.

(** Go's [v, ok := ...; if !ok { log.Panic() }]. *)
Definition must {A} (o : option A) : res A :=
  match o with Some a => Ret a | None => Panic end.

Definition is_Ret {A} (r : res A) : Prop := exists a, r = Ret a.

Lemma bind_Ret {A B} (m : res A) (f : A -> res B) b :
  (m ≫= f) = Ret b <-> exists a, m = Ret a /\ f a = Ret b.
Proof.
  destruct m as [a| |]; cbn; split; try done.
  - intros H; by exists a.
  - by intros (a' & [= <-] & H).
  - by intros (a' & ? & _).
  - by intros (a' & ? & _).
Qed.

Lemma must_Ret {A} (o : option A) a : must o = Ret a <-> o = Some a.
Proof. destruct o; cbn; split; congruence. Qed.

Lemma is_Ret_intro {A} (a : A) : is_Ret (Ret a).
Proof. eexists; reflexivity. Qed.

(** A fold whose body may fail: [for _, x := range l { s = f(s, x) }]. *)
Fixpoint foldM {A S} (f : S -> A -> res S) (s : S) (l : list A) : res S :=
  match l with
  | [] => Ret s
  | x :: l => s' ← f s x; foldM f s' l
  end.

Lemma foldM_app {A S} (f : S -> A -> res S) s l1 l2 :
  foldM f s (l1 ++ l2) = s' ← foldM f s l1; foldM f s' l2.
Proof.
  revert s; induction l1 as [|x l1 IH]; intros s; cbn; [done|].
  destruct (f s x); cbn; auto.
Qed.

(** The rule for an invariant of a loop. *)
Lemma foldM_inv {A S} (I : S -> Prop) (f : S -> A -> res S) l s s' :
  I s ->
  (forall s x s1, x ∈ l -> I s -> f s x = Ret s1 -> I s1) ->
  foldM f s l = Ret s' -> I s'.
Proof.
  revert s; induction l as [|x l IH]; intros s HI Hstep Hf; cbn in Hf.
  - by inversion Hf; subst.
  - apply bind_Ret in Hf as (s1 & H1 & H2).
    eapply IH; [| |exact H2].
    + eapply Hstep; [left| |exact H1]; done.
    + intros; eapply Hstep; [by right| |]; eauto.
Qed.

(** The rule for a loop that cannot fail. *)
Lemma foldM_total {A S} (I : S -> Prop) (f : S -> A -> res S) l s :
  I s ->
  (forall s x, x ∈ l -> I s -> exists s1, f s x = Ret s1 /\ I s1) ->
  exists s', foldM f s l = Ret s' /\ I s'.
Proof.
  revert s; induction l as [|x l IH]; intros s HI Hstep; cbn.
  - by exists s.
  - destruct (Hstep s x) as (s1 & -> & HI1); [left|done|]; cbn.
    apply IH; [done|]. intros; apply Hstep; [by right|done].
Qed.

(** Two computations that fail alike, or return related values. *)
Definition res_rel {A B} (R : A -> B -> Prop) (r1 : res A) (r2 : res B) : Prop :=
  match r1, r2 with
  | Ret a, Ret b => R a b
  | Panic, Panic | Blocked, Blocked => True
  | _, _ => False
  end.

Lemma res_rel_bind {A B A' B'} (R : A -> B -> Prop) (R' : A' -> B' -> Prop)
    (r1 : res A) (r2 : res B) (f : A -> res A') (g : B -> res B') :
  res_rel R r1 r2 -> (forall a b, R a b -> res_rel R' (f a) (g b)) ->
  res_rel R' (r1 ≫= f) (r2 ≫= g).
Proof. destruct r1, r2; cbn; auto; contradiction. Qed.

Lemma res_rel_refl {A} (r : res A) : res_rel (=) r r.
Proof. by destruct r. Qed.

Lemma res_rel_foldM {A S T} (R : S -> T -> Prop) (f : S -> A -> res S) (g : T -> A -> res T) l :
  (forall s t x, R s t -> res_rel R (f s x) (g t x)) ->
  forall s t, R s t -> res_rel R (foldM f s l) (foldM g t l).
Proof.
  intros Hstep. induction l as [|x l IH]; intros s t HR; cbn [foldM]; [done|].
  eapply res_rel_bind; [by apply Hstep|exact IH].
Qed.

(** Inversion of a computation that returned. *)
Ltac inv_res :=
  repeat match goal with
  | H : Ret _ = Ret _ |- _ => injection H as H; try subst
  | H : Panic = Ret _ |- _ => discriminate H
  | H : Blocked = Ret _ |- _ => discriminate H
  | H : @mret res _ _ _ = Ret _ |- _ => injection H as H; try subst
  | H : must _ = Ret _ |- _ => apply must_Ret in H
  | H : (_ ≫= _) = Ret _ |- _ => apply bind_Ret in H as (? & ? & H)
  end.

(** ** Lists *)
Lemma filter_true {A} (Q : A -> Prop) `{!forall x, Decision (Q x)} (l : list A) :
  (forall x, x ∈ l -> Q x) -> filter Q l = l.
Proof.
  induction l as [|x l IH]; intros HQ; [done|]. rewrite filter_cons, decide_True by (apply HQ; by left).
  by rewrite IH by (intros; apply HQ; by right).
Qed.

Lemma filter_none {A} (Q : A -> Prop) `{!forall x, Decision (Q x)} (l : list A) :
  (forall x, x ∈ l -> ~ Q x) -> filter Q l = [].
Proof.
  induction l as [|x l IH]; intros HQ; [done|]. rewrite filter_cons, decide_False by (apply HQ; by left).
  apply IH. intros. apply HQ. by right.
Qed.

Lemma filter_unique {A} (Q : A -> Prop) `{!forall x, Decision (Q x)} l : forall i x,
  l !! i = Some x -> Q x -> (forall j y, l !! j = Some y -> Q y -> j = i) -> filter Q l = [x].
Proof.
  induction l as [|y l IH]; intros i x Hi Hx Hu; [done|]. destruct i as [|i]; cbn in Hi.
  - injection Hi as ->. rewrite filter_cons_True by done. f_equal. apply filter_none.
    intros y [j Hj]%list_elem_of_lookup Hy. by specialize (Hu (S j) y Hj Hy).
  - rewrite filter_cons_False.
    + apply (IH i); [done|done|]. intros j z Hj Hz. specialize (Hu (S j) z Hj Hz). lia.
    + intros Hy. by specialize (Hu 0%nat y eq_refl Hy).
Qed.

Lemma list_bind_ext_in {A B} (f g : A -> list B) (l : list A) :
  (forall x, x ∈ l -> f x = g x) -> l ≫= f = l ≫= g.
Proof.
  induction l as [|x l IH]; intros H; [done|]. rewrite !bind_cons, H by left. f_equal.
  apply IH. intros. apply H. by right.
Qed.

Lemma Forall2_in {A B} (R S : A -> B -> Prop) l k :
  Forall2 R l k -> (forall x y, x ∈ l -> R x y -> S x y) -> Forall2 S l k.
Proof.
  induction 1 as [|x y l k Hxy _ IH]; intros H; constructor.
  - apply H; [by left|done].
  - apply IH. intros. apply H; [by right|done].
Qed.

(** A list, sorted into the buckets [ks] of a key, and what is in none. *)
Lemma bucket_perm {A K} `{EqDecision K} (f : A -> K) (ks : list K) (l : list A) :
  NoDup ks ->
  l ≡ₚ (ks ≫= fun k => filter (fun x => f x = k) l) ++ filter (fun x => f x ∉ ks) l.
Proof.
  revert l. induction ks as [|k ks IH]; intros l Hnd.
  - cbn. rewrite filter_true; [done|]. intros x _ Hx. by apply not_elem_of_nil in Hx.
  - apply list.NoDup_cons in Hnd as [Hk Hnd]. rewrite bind_cons, <- app_assoc.
    rewrite <- (filter_app_complement (fun x => f x = k) l) at 1. f_equiv.
    rewrite (IH (filter (fun x => f x <> k) l) Hnd) at 1. f_equiv.
    + apply Permutation_refl'. apply list_bind_ext_in. intros k' Hk'. rewrite list_filter_filter.
      apply list_filter_iff. intros x. split; [tauto|]. intros <-. split; [done|]. by intros <-.
    + apply Permutation_refl'. rewrite (list_filter_filter (fun x => f x ∉ ks) (fun x => f x <> k)). apply list_filter_iff. intros x.
      rewrite not_elem_of_cons. tauto.
Qed.

(** ** Sums over lists *)
Definition zsum {A} (f : A -> Z) (l : list A) : Z := foldr (fun a s => f a + s) 0 l.

Section zsum.
Context {A : Type}.
Implicit Types (f g : A -> Z) (l : list A).

Lemma zsum_cons f x l : zsum f (x :: l) = f x + zsum f l.
Proof. done. Qed.
Lemma zsum_app f l1 l2 : zsum f (l1 ++ l2) = zsum f l1 + zsum f l2.
Proof. induction l1 as [|x l1 IH]; [done|]. cbn [app]. rewrite !zsum_cons, IH. lia. Qed.
Lemma zsum_ext f g l : (forall x, x ∈ l -> f x = g x) -> zsum f l = zsum g l.
Proof.
  induction l as [|x l IH]; intros H; [done|]. rewrite !zsum_cons, H by left.
  rewrite IH; [done|]. intros. apply H. by right.
Qed.
Lemma zsum_add f g l : zsum (fun x => f x + g x) l = zsum f l + zsum g l.
Proof. induction l as [|x l IH]; [done|]. rewrite !zsum_cons, IH. lia. Qed.
Lemma zsum_scale c f l : zsum (fun x => c * f x) l = c * zsum f l.
Proof. induction l as [|x l IH]; [cbn; lia|]. rewrite !zsum_cons, IH. lia. Qed.
Lemma zsum_nonneg f l : (forall x, 0 <= f x) -> 0 <= zsum f l.
Proof. intros H. induction l as [|x l IH]; [done|]. rewrite zsum_cons. specialize (H x). lia. Qed.
Lemma zsum_zero f l : (forall x, x ∈ l -> f x = 0) -> zsum f l = 0.
Proof.
  induction l as [|x l IH]; intros H; [done|]. rewrite zsum_cons, H by left.
  rewrite IH; [done|]. intros. apply H. by right.
Qed.

(** A sum over distinct elements of which one counts. *)
Lemma zsum_single `{EqDecision A} f v l :
  NoDup l -> v ∈ l -> (forall x, x ∈ l -> x <> v -> f x = 0) -> zsum f l = f v.
Proof.
  induction l as [|x l IH]; intros Hnd Hv Hz; [by apply not_elem_of_nil in Hv|].
  apply list.NoDup_cons in Hnd as [Hx Hnd]. rewrite zsum_cons.
  destruct (decide (x = v)) as [->|Hne].
  - rewrite zsum_zero; [lia|]. intros y Hy. apply Hz; [by right|]. by intros ->.
  - apply elem_of_cons in Hv as [->|Hv]; [done|]. rewrite Hz by (done || left).
    rewrite IH; [lia|done|done|]. intros. apply Hz; [by right|done].
Qed.

Definition occ `{EqDecision A} (x : A) (l : list A) : Z := zsum (fun y => if decide (y = x) then 1 else 0) l.

(** A sum over a list, by values. *)
Lemma zsum_occ `{EqDecision A} f l keys :
  NoDup keys -> (forall u, u ∈ l -> u ∈ keys) -> zsum f l = zsum (fun x => occ x l * f x) keys.
Proof.
  intros Hnd. induction l as [|u l IH]; intros Hin.
  - symmetry. apply zsum_zero. done.
  - rewrite zsum_cons, IH by (intros; apply Hin; by right).
    assert (Hu : zsum (fun x => (if decide (u = x) then 1 else 0) * f x) keys = f u).
    { rewrite (zsum_single _ u); [rewrite decide_True by done; lia|done|apply Hin; left|].
      intros x _ Hx. by rewrite decide_False. }
    rewrite <- Hu, <- zsum_add. apply zsum_ext. intros x _. unfold occ. rewrite zsum_cons. lia.
Qed.
End zsum.

Lemma zsum_swap {A B} (f : A -> B -> Z) (l : list A) (m : list B) :
  zsum (fun x => zsum (f x) m) l = zsum (fun y => zsum (fun x => f x y) l) m.
Proof.
  induction l as [|x l IH]; [symmetry; by apply zsum_zero|].
  rewrite zsum_cons, IH, <- zsum_add. apply zsum_ext. done.
Qed.

Lemma zsum_perm {A} (f : A -> Z) l1 l2 : l1 ≡ₚ l2 -> zsum f l1 = zsum f l2.
Proof. induction 1; rewrite ?zsum_cons; lia. Qed.

Lemma zsum_insert {A} (f : A -> Z) (l : list A) i x y :
  l !! i = Some x -> zsum f (<[i := y]> l) = zsum f l - f x + f y.
Proof.
  revert i. induction l as [|z l IH]; intros i Hi; [done|]. destruct i as [|i]; cbn in Hi.
  - injection Hi as ->. cbn [insert list_insert]. rewrite !zsum_cons. lia.
  - cbn [insert list_insert]. rewrite !zsum_cons, IH by done. lia.
Qed.

Lemma zsum_bind {A B} (f : B -> Z) (g : A -> list B) l : zsum f (l ≫= g) = zsum (fun x => zsum f (g x)) l.
Proof. induction l as [|x l IH]; [done|]. by rewrite bind_cons, zsum_app, zsum_cons, IH. Qed.

Lemma zsum_fmap {A B} (f : B -> Z) (g : A -> B) l : zsum f (g <$> l) = zsum (fun x => f (g x)) l.
Proof. induction l as [|x l IH]; [done|]. cbn [fmap list_fmap]. by rewrite !zsum_cons, IH. Qed.

(** ** Node monad: state, outgoing events and failure *)
Definition M (S O A : Type) : Type := S -> res (A * S * list O).

Section monad.
Context {S O : Type}.
#[global] Instance M_ret : MRet (M S O) := fun A a s => Ret (a, s, []).
#[global] Instance M_bind : MBind (M S O) := fun A B f m s =>
  match m s with
  | Ret (a, s1, o1) =>
      match f a s1 with
      | Ret (b, s2, o2) => Ret (b, s2, o1 ++ o2)
      | Panic => Panic
      | Blocked => Blocked
      end
  | Panic => Panic
  | Blocked => Blocked
  end.
Definition get : M S O S := fun s => Ret (s, s, []).
Definition gets {A} (f : S -> A) : M S O A := fun s => Ret (f s, s, []).
Definition modify (f : S -> S) : M S O () := fun s => Ret (tt, f s, []).
Definition emit (o : O) : M S O () := fun s => Ret (tt, s, [o]).
Definition lift {A} (r : res A) : M S O A := fun s =>
  match r with Ret a => Ret (a, s, []) | Panic => Panic | Blocked => Blocked end.
Definition panic {A} : M S O A := fun _ => Panic.
Definition block {A} : M S O A := fun _ => Blocked.
Fixpoint forM {A} (l : list A) (f : A -> M S O ()) : M S O () :=
  match l with
  | [] => mret tt
  | x :: l => f x ≫= fun _ => forM l f
  end.

Lemma M_bind_Ret {A B} (m : M S O A) (f : A -> M S O B) s b s2 o :
  (m ≫= f) s = Ret (b, s2, o) <->
  exists a s1 o1 o2, m s = Ret (a, s1, o1) /\ f a s1 = Ret (b, s2, o2) /\ o = o1 ++ o2.
Proof.
  unfold mbind, M_bind. split.
  - destruct (m s) as [[[a s1] o1]| |]; [|done..].
    destruct (f a s1) as [[[b' s2'] o2]| |] eqn:Hf; [|done..].
    intros [= <- <- <-]. exists a, s1, o1, o2. eauto.
  - intros (a & s1 & o1 & o2 & -> & -> & ->). done.
Qed.

(** The first command of a computation, executed. *)
Lemma get_bind {A} (f : S -> M S O A) s : (get ≫= f) s = f s s.
Proof. unfold mbind, M_bind, get. destruct (f s s) as [[[a s'] o]| |]; done. Qed.
Lemma modify_bind {A} g (f : () -> M S O A) s : (modify g ≫= f) s = f tt (g s).
Proof. unfold mbind, M_bind, modify. destruct (f tt (g s)) as [[[a s'] o]| |]; done. Qed.
Lemma lift_bind {A B} (r : res A) (f : A -> M S O B) s a :
  r = Ret a -> (lift r ≫= f) s = f a s.
Proof. intros ->. unfold mbind, M_bind, lift. destruct (f a s) as [[[b s'] o]| |]; done. Qed.
Lemma quiet_bind {A B} (m : M S O A) (f : A -> M S O B) s a s1 :
  m s = Ret (a, s1, []) -> (m ≫= f) s = f a s1.
Proof. intros H. unfold mbind, M_bind. rewrite H. destruct (f a s1) as [[[b s'] o]| |]; done. Qed.
Lemma ret_bind {A B} (a : A) (f : A -> M S O B) s : (mret a ≫= f) s = f a s.
Proof. unfold mbind, M_bind, mret, M_ret. destruct (f a s) as [[[b s'] o]| |]; done. Qed.
Lemma bind_bind {A B C} (m : M S O A) (f : A -> M S O B) (g : B -> M S O C) s :
  ((m ≫= f) ≫= g) s = (m ≫= fun a => f a ≫= g) s.
Proof.
  unfold mbind, M_bind. destruct (m s) as [[[a s1] o1]| |]; [|done..].
  destruct (f a s1) as [[[b s2] o2]| |]; [|done..].
  destruct (g b s2) as [[[c s3] o3]| |]; [|done..]. by rewrite app_assoc.
Qed.

Lemma bind_returns {A B} (m : M S O A) (f : A -> M S O B) s a s1 o1 b s2 o2 :
  m s = Ret (a, s1, o1) -> f a s1 = Ret (b, s2, o2) -> (m ≫= f) s = Ret (b, s2, o1 ++ o2).
Proof. intros H1 H2. unfold mbind, M_bind. by rewrite H1, H2. Qed.

(** [obeys R m]: whenever [m] returns, its start, end and outputs are
    related.  For a reflexive and transitive [R] the rule is compositional. *)
Definition obeys {A} (R : S -> S -> list O -> Prop) (m : M S O A) : Prop :=
  forall s a s' o, m s = Ret (a, s', o) -> R s s' o.

Class Composes (R : S -> S -> list O -> Prop) : Prop := {
  composes_refl : forall s, R s s [];
  composes_trans : forall s1 s2 s3 o1 o2, R s1 s2 o1 -> R s2 s3 o2 -> R s1 s3 (o1 ++ o2) }.

Section obeys.
Context (R : S -> S -> list O -> Prop) `{!Composes R}.

Lemma obeys_ret {A} (a : A) : obeys R (mret a : M S O A).
Proof. intros s a' s' o [= <- <- <-]. apply composes_refl. Qed.
Lemma obeys_bind {A B} (m : M S O A) (f : A -> M S O B) :
  obeys R m -> (forall a, obeys R (f a)) -> obeys R (m ≫= f).
Proof.
  intros Hm Hf s b s' o (a & s1 & o1 & o2 & H1 & H2 & ->)%M_bind_Ret.
  eapply composes_trans; [by eapply Hm|by eapply Hf].
Qed.
Lemma obeys_get : obeys R get.
Proof. intros s a s' o [= <- <- <-]. apply composes_refl. Qed.
Lemma obeys_lift {A} (r : res A) : obeys R (lift r).
Proof. intros s a s' o H. destruct r; [|done..]. injection H as <- <- <-. apply composes_refl. Qed.
Lemma obeys_lift_bind {A B} (r : res A) (f : A -> M S O B) :
  (forall a, r = Ret a -> obeys R (f a)) -> obeys R (lift r ≫= f).
Proof.
  intros Hf s b s' o H. destruct r as [a| |]; [|done..]. rewrite (lift_bind _ _ _ a eq_refl) in H.
  by eapply Hf.
Qed.
Lemma obeys_get_bind {B} (f : S -> M S O B) :
  (forall s b s' o, f s s = Ret (b, s', o) -> R s s' o) -> obeys R (get ≫= f).
Proof. intros Hf s b s' o H. rewrite get_bind in H. by eapply Hf. Qed.
Lemma obeys_panic {A} : obeys R (panic : M S O A).
Proof. by intros s a s' o H. Qed.
Lemma obeys_block {A} : obeys R (block : M S O A).
Proof. by intros s a s' o H. Qed.
Lemma obeys_modify f : (forall s, R s (f s) []) -> obeys R (modify f).
Proof. intros Hf s a s' o [= <- <- <-]. apply Hf. Qed.
Lemma obeys_emit x : (forall s, R s s [x]) -> obeys R (emit x).
Proof. intros Hx s a s' o [= <- <- <-]. apply Hx. Qed.
Lemma obeys_forM {A} (l : list A) f : (forall x, x ∈ l -> obeys R (f x)) -> obeys R (forM l f).
Proof.
  induction l as [|x l IH]; intros Hf; [apply obeys_ret|]. apply obeys_bind.
  - apply Hf. by left.
  - intros _. apply IH. intros. apply Hf. by right.
Qed.
End obeys.
End monad.

Create HintDb obeys.
#[export] Hint Resolve obeys_ret obeys_get obeys_lift obeys_panic obeys_block : obeys.

(** ** Record update: [r <| field := v |>] *)
Class Eta (R : Type) := eta_record : R -> R.
Class Setter {R F : Type} (proj : R -> F) := set_field : (F -> F) -> R -> R.
Arguments set_field {R F} proj {_} f r /.

Ltac solve_setter :=
  match goal with
  | |- @Setter ?R ?F ?proj =>
      let inst := constr:(_ : Eta R) in
      let body := eval red in inst in
      match eval pattern proj in body with
      | (fun _ => ?b) _ => fail 2 "no such field"
      | ?gen _ =>
          let t := constr:(fun (f : F -> F) => gen (fun r => f (proj r))) in
          let t := eval cbv beta in t in
          exact t
      end
  end.
#[export] Hint Extern 1 (Setter _) => solve_setter : typeclass_instances.

Notation "r <| proj := v |>" := (set_field proj (fun _ => v) r)
  (at level 12, left associativity, proj at level 10, v at level 99) : go_scope.
Notation "r <| proj ::= f |>" := (set_field proj f r)
  (at level 12, left associativity, proj at level 10, f at level 99) : go_scope.
