(* ===== verification/GoStd.v ===== *)
(** * GoStd: the parts of the Go standard library and of [utils] the program uses

    [strconv.ParseUint]/[ParseInt] in base 16 and [encoding/hex] are written
    out.  Serialisation ([encoding/gob], [encoding/json]) is the interface
    [Codec] with its round-trip law, [crypto/sha256] the interface [Sha256].
    [Params] holds the package-level variables of src/params, and
    [Addr2Shard] is src/utils. *)
From stdpp Require Import base gmap strings list countable.
From Stdlib Require Import ZArith Lia Ascii.
From S2P Require Import Prelude.

(** ** Hexadecimal digits and numbers *)
Definition byte_val (c : ascii) : Z := Z.of_N (N_of_ascii c).
Definition byte_of (z : Z) : ascii := ascii_of_N (Z.to_N z).

Definition hex_val (c : ascii) : option Z :=
  let n := byte_val c in
  if (48 <=? n) && (n <=? 57) then Some (n - 48)
  else if (97 <=? n) && (n <=? 102) then Some (n - 87)
  else if (65 <=? n) && (n <=? 70) then Some (n - 55)
  else None.

Definition hex_char (d : Z) : ascii := if d <? 10 then byte_of (48 + d) else byte_of (87 + d).

Fixpoint hex_digits (acc : Z) (s : string) : option Z :=
  match s with
  | EmptyString => Some acc
  | String c s => d ← hex_val c; hex_digits (16 * acc + d) s
  end.

(** [strconv.ParseUint(s, 16, 64)]; [None] is a syntax or range error. *)
Definition ParseUint16 (s : string) : option Z :=
  match s with
  | EmptyString => None
  | _ => v ← hex_digits 0 s; if v <? 2 ^ 64 then Some v else None
  end.

(** [strconv.ParseInt(s, 16, 64)]: an optional sign, then digits. *)
Definition ParseInt16 (s : string) : option Z :=
  match s with
  | String "-" s => v ← ParseUint16 s; if v <=? 2 ^ 63 then Some (- v) else None
  | String "+" s => v ← ParseUint16 s; if v <? 2 ^ 63 then Some v else None
  | _ => v ← ParseUint16 s; if v <? 2 ^ 63 then Some v else None
  end.

(** [hex.EncodeToString] and [hex.DecodeString]. *)
Fixpoint EncodeToString (s : bytes) : string :=
  match s with
  | EmptyString => EmptyString
  | String c s =>
      String (hex_char (byte_val c / 16)) (String (hex_char (byte_val c mod 16)) (EncodeToString s))
  end.

Fixpoint DecodeString (s : string) : option bytes :=
  match s with
  | EmptyString => Some EmptyString
  | String a (String b s) =>
      x ← hex_val a; y ← hex_val b; r ← DecodeString s; Some (String (byte_of (16 * x + y)) r)
  | String _ EmptyString => None
  end.

Lemma byte_of_val c : byte_of (byte_val c) = c.
Proof. unfold byte_of, byte_val. rewrite N2Z.id. apply ascii_N_embedding. Qed.

Lemma byte_val_range c : 0 <= byte_val c < 256.
Proof.
  unfold byte_val. pose proof (N_ascii_bounded c). lia.
Qed.

Lemma byte_val_of z : 0 <= z < 256 -> byte_val (byte_of z) = z.
Proof.
  intros. unfold byte_val, byte_of. rewrite N_ascii_embedding by lia. lia.
Qed.

Lemma hex_val_char d : 0 <= d < 16 -> hex_val (hex_char d) = Some d.
Proof.
  intros Hd. unfold hex_char, hex_val.
  destruct (Z.ltb_spec d 10); rewrite byte_val_of by lia;
    repeat match goal with |- context [?a <=? ?b] => destruct (Z.leb_spec a b); try lia end;
    cbn; f_equal; lia.
Qed.

Lemma hex_val_range c d : hex_val c = Some d -> 0 <= d < 16.
Proof.
  unfold hex_val. intros H.
  repeat match type of H with context [?a <=? ?b] => destruct (Z.leb_spec a b) end;
    cbn in H; simplify_eq; lia.
Qed.

Lemma hex_digits_range s : forall acc v,
  0 <= acc -> hex_digits acc s = Some v ->
  0 <= v < (acc + 1) * 16 ^ Z.of_nat (String.length s).
Proof.
  induction s as [|c s IH]; intros acc v Hacc H; cbn [hex_digits String.length] in *.
  - simplify_eq. lia.
  - apply bind_Some in H as (d & Hd & H). apply hex_val_range in Hd.
    apply IH in H; [|lia]. rewrite Nat2Z.inj_succ, Z.pow_succ_r by lia. nia.
Qed.

(** [DecodeString] inverts [EncodeToString]; so the hexadecimal names of
    transaction ids are unique. *)
Lemma DecodeString_EncodeToString s : DecodeString (EncodeToString s) = Some s.
Proof.
  induction s as [|c s IH]; [done|]. cbn [EncodeToString DecodeString].
  pose proof (byte_val_range c).
  assert (0 <= byte_val c / 16 < 16)
    by (split; [apply Z.div_pos; lia|apply Z.div_lt_upper_bound; lia]).
  pose proof (Z.mod_pos_bound (byte_val c) 16).
  rewrite !hex_val_char, IH by lia.
  cbn. do 2 f_equal. rewrite <- Z_div_mod_eq_full. apply byte_of_val.
Qed.

#[export] Instance EncodeToString_inj : Inj (=) (=) EncodeToString.
Proof.
  intros x y H. apply (f_equal DecodeString) in H.
  rewrite !DecodeString_EncodeToString in H. congruence.
Qed.

(** ** Serialisation *)
Class Codec (A : Type) := { enc : A -> bytes; dec : bytes -> option A }.
Class CodecLaws (A : Type) {C : Codec A} : Prop := {
  dec_enc : forall x : A, dec (enc x) = Some x;
  enc_nonempty : forall x : A, enc x <> EmptyString }.

#[export] Instance enc_inj A `{CodecLaws A} : Inj (=) (=) (enc (A := A)).
Proof. intros x y Hxy. apply (inj Some). by rewrite <- !dec_enc, Hxy. Qed.

(** A concrete codec for any countable type, to instantiate the interface. *)
Fixpoint pos_str (p : positive) : bytes :=
  match p with
  | xH => "."
  | xO p => String "0" (pos_str p)
  | xI p => String "1" (pos_str p)
  end.
Fixpoint str_pos (s : bytes) : positive :=
  match s with
  | String "0" s => xO (str_pos s)
  | String "1" s => xI (str_pos s)
  | _ => xH
  end.
Lemma str_pos_str p : str_pos (pos_str p) = p.
Proof. induction p; cbn; congruence. Qed.
Lemma pos_str_nonempty p : pos_str p <> EmptyString.
Proof. by destruct p. Qed.

Definition countable_codec A `{Countable A} : Codec A :=
  {| enc x := pos_str (encode x); dec s := decode (str_pos s) |}.
Lemma countable_codec_laws A `{Countable A} : @CodecLaws A (countable_codec A).
Proof.
  split; intros x; cbn.
  - by rewrite str_pos_str, decode_encode.
  - apply pos_str_nonempty.
Qed.

(** ** SHA-256: only its output length is used. *)
Class Sha256 := sha256 : bytes -> bytes.
Class Sha256Laws {H : Sha256} : Prop := {
  sha256_length : forall b, String.length (sha256 b) = 32%nat }.

(** ** Durations: [int64] nanoseconds; [time.Time.Sub] saturates. *)
Definition Second : Z := 1000000000.
Definition time_Sub (t u : Z) : Z := Z.max (- 2 ^ 63) (Z.min (2 ^ 63 - 1) (t - u)).

(** ** src/params/global_config.go: the package-level variables in use *)
Record Params := {
  MaxLatency : Z;
  UTXO : bool;
  UseSyncHotstuff : bool;
  TxInputCount : Z;
  Block_Interval : Z;
  MaxBlockSize_global : Z;
  InjectSpeed : Z;
  TotalDataSize : Z;
  BatchSize : Z;
  BrokerNum : Z;
  NodesInShard : Z;
  ShardNum : Z;
  SupervisorAddr : string }.

(** ** src/params/static_config.go *)
Record ChainConfig := {
  ChainID : Z;
  NodeID : Z;
  ShardID : Z;
  Nodes_perShard : Z;
  ShardNums : Z;
  BlockSize : Z;
  BlockInterval : Z;
  cc_InjectSpeed : Z;
  MaxRelayBlockSize : Z }.

Definition DeciderShard : Z := 0xffffffff.
Definition Init_Balance : Z := 100000000000000000000000000000000000000000000.

(** ** src/utils *)
(** [s[len(s)-8:]], a run-time panic on a shorter string. *)
Definition last8 (s : string) : res string :=
  if (8 <=? String.length s)%nat then Ret (String.substring (String.length s - 8) 8 s) else Panic.

Definition Addr2Shard (P : Params) (addr : string) : res Z :=
  last16_addr ← last8 addr;
  num ← must (ParseUint16 last16_addr);
  if ShardNum P =? 0 then Panic else Ret (Z.rem (i64 num) (ShardNum P)).

Lemma length_substring n m s :
  (n + m <= String.length s)%nat -> String.length (String.substring n m s) = m.
Proof.
  revert n m; induction s as [|c s IH]; intros n m H; cbn in *.
  - by destruct n, m; cbn; lia.
  - destruct n, m; cbn; try lia.
    + f_equal. apply IH. lia.
    + apply IH. lia.
    + apply IH. lia.
Qed.

Lemma ParseUint16_range s v :
  ParseUint16 s = Some v -> 0 <= v < 16 ^ Z.of_nat (String.length s).
Proof.
  unfold ParseUint16. destruct s as [|c s]; [done|]. intros H.
  apply bind_Some in H as (w & Hw & H). apply hex_digits_range in Hw; [|lia].
  destruct (w <? 2 ^ 64); simplify_eq. lia.
Qed.

(** The default shard of an address is a valid shard number. *)
Lemma Addr2Shard_range P addr r :
  0 < ShardNum P -> Addr2Shard P addr = Ret r -> 0 <= r < ShardNum P.
Proof.
  unfold Addr2Shard, last8. intros Hn H.
  destruct (Nat.leb_spec 8 (String.length addr)) as [Hlen|]; cbn in H; [|done].
  destruct (ParseUint16 _) as [num|] eqn:Hp; cbn in H; [|done].
  destruct (Z.eqb_spec (ShardNum P) 0); [done|]. inv_res.
  apply ParseUint16_range in Hp.
  rewrite length_substring in Hp by lia. change (16 ^ Z.of_nat 8) with (2 ^ 32) in Hp.
  rewrite i64_small by lia. rewrite Z.rem_mod_nonneg by lia. apply Z.mod_pos_bound. lia.
Qed.
