(* ===== verification/Libs.v ===== *)
(** * Libs: the third-party databases as interfaces

    The go-ethereum Merkle-Patricia trie with its node database
    ([TrieLib]) and the boltdb key-value store ([BoltLib]) are not part of the
    repository.  Each is a class of operations, with the documented behaviour
    the program relies on as a class of laws, and one small instance that
    shows the laws can hold and lets concrete inputs be evaluated. *)
From stdpp Require Import base gmap strings list countable.
From Stdlib Require Import ZArith Lia.
From S2P Require Import Prelude GoStd.

(** ** github.com/ethereum/go-ethereum/trie *)
Class TrieLib := {
  Trie : Type;
  TrieDB : Type;
  NodeSet : Type;
  EthDB : Type;
  (** [common.BytesToHash(b)], as the bytes of the hash *)
  BytesToHash : bytes -> bytes;
  (** [trie.NewDatabaseWithConfig(db, _)] and
      [trie.NewDatabase(rawdb.NewMemoryDatabase())] *)
  triedb_open : EthDB -> TrieDB;
  triedb_mem : TrieDB;
  (** [trie.New(trie.TrieID(root), triedb)]; [None] is an error *)
  trie_New : bytes -> TrieDB -> option Trie;
  trie_NewEmpty : TrieDB -> Trie;
  (** [st.Get(key)]; [None] is [nil] *)
  trie_Get : Trie -> bytes -> option bytes;
  trie_Update : Trie -> bytes -> bytes -> Trie;
  trie_Hash : Trie -> bytes;
  (** [st.Commit(false)] *)
  trie_Commit : Trie -> bytes * NodeSet;
  (** [triedb.Update(trie.NewWithNodeSet(ns))] and [triedb.Commit(root, false)];
      [None] is an error *)
  triedb_Update : TrieDB -> NodeSet -> option TrieDB;
  triedb_Commit : TrieDB -> bytes -> option TrieDB }.

(** Two tries with the same bindings. *)
Definition same_content {TL : TrieLib} (t1 t2 : Trie) : Prop :=
  forall k, trie_Get t1 k = trie_Get t2 k.

Class TrieLaws (TL : TrieLib) := {
  (** [t] was opened from the node database [d] and possibly updated since *)
  opened : Trie -> TrieDB -> Prop;
  opened_New : forall r d t, trie_New r d = Some t -> opened t d;
  opened_NewEmpty : forall d, opened (trie_NewEmpty d) d;
  opened_Update : forall t d k v, opened t d -> opened (trie_Update t k v) d;
  get_empty : forall d k, trie_Get (trie_NewEmpty d) k = None;
  (** the root of the empty trie can be opened in every database *)
  open_empty : forall d d', exists t,
    trie_New (trie_Hash (trie_NewEmpty d)) d' = Some t /\ same_content t (trie_NewEmpty d');
  get_update_eq : forall t k v, v <> EmptyString -> trie_Get (trie_Update t k v) k = Some v;
  get_update_ne : forall t k k' v, k <> k' -> trie_Get (trie_Update t k v) k' = trie_Get t k';
  (** the Merkle root is a function of the bindings *)
  hash_ext : forall t1 t2, same_content t1 t2 -> trie_Hash t1 = trie_Hash t2;
  root_hash : forall t, BytesToHash (trie_Hash t) = trie_Hash t;
  to_hash_idem : forall b, BytesToHash (BytesToHash b) = BytesToHash b;
  commit_hash : forall t, fst (trie_Commit t) = trie_Hash t;
  (** a committed root can be opened again, with the same bindings *)
  commit_open : forall t d d',
    opened t d -> triedb_Update d (snd (trie_Commit t)) = Some d' ->
    exists t', trie_New (trie_Hash t) d' = Some t' /\ same_content t' t;
  (** and no operation loses a root that could be opened *)
  update_keeps : forall r d t ns d', trie_New r d = Some t -> triedb_Update d ns = Some d' ->
    exists t', trie_New r d' = Some t' /\ same_content t' t;
  commit_keeps : forall r d t r' d', trie_New r d = Some t -> triedb_Commit d r' = Some d' ->
    exists t', trie_New r d' = Some t' /\ same_content t' t }.

(** The node database accepts every write (no I/O error). *)
Class TrieLive (TL : TrieLib) {TW : TrieLaws TL} : Prop := {
  trie_update_ok : forall t d, opened t d -> is_Some (triedb_Update d (snd (trie_Commit t)));
  trie_commit_ok : forall d r, is_Some (triedb_Commit d r) }.

#[export] Instance same_content_equiv {TL : TrieLib} : Equivalence (@same_content TL).
Proof.
  split.
  - by intros x k.
  - by intros x y H k.
  - intros x y z H1 H2 k. by rewrite H1.
Qed.

(** Updates of the same key preserve equality of content. *)
Lemma same_content_update {TL : TrieLib} {TW : TrieLaws TL} t1 t2 k v :
  v <> EmptyString -> same_content t1 t2 -> same_content (trie_Update t1 k v) (trie_Update t2 k v).
Proof.
  intros Hv H k'. destruct (decide (k = k')) as [<-|].
  - by rewrite !get_update_eq.
  - rewrite !get_update_ne by done. apply H.
Qed.

(** [Commit], [triedb.Update] and [triedb.Commit] in a row keep the bindings
    under the new root, and every root that could be opened before. *)
Lemma commit_all {TL : TrieLib} {TW : TrieLaws TL} t d d1 r d2 :
  opened t d -> triedb_Update d (snd (trie_Commit t)) = Some d1 -> triedb_Commit d1 r = Some d2 ->
  exists t', trie_New (trie_Hash t) d2 = Some t' /\ same_content t' t.
Proof.
  intros Ho H1 H2. destruct (commit_open _ _ _ Ho H1) as (t1 & Ht1 & Hs1).
  destruct (commit_keeps _ _ _ _ _ Ht1 H2) as (t2 & Ht2 & Hs2).
  exists t2. split; [done|]. by transitivity t1.
Qed.

(** *** An instance: a trie is its map of bindings, its root their code, the
    node database the set of committed tries. *)
Module RefTrie.
Definition root (t : gmap bytes bytes) : bytes := pos_str (encode t).

Definition find (r : bytes) (d : gset (gmap bytes bytes)) : option (gmap bytes bytes) :=
  t ← decode (A := gmap bytes bytes) (str_pos r);
  if decide (t = ∅ \/ t ∈ d) then Some t else None.

#[export] Instance lib : TrieLib := {|
  Trie := gmap bytes bytes;
  TrieDB := gset (gmap bytes bytes);
  NodeSet := gmap bytes bytes;
  EthDB := gset (gmap bytes bytes);
  BytesToHash b := b;
  triedb_open d := d;
  triedb_mem := ∅;
  trie_New := find;
  trie_NewEmpty _ := ∅;
  trie_Get t k := t !! k;
  trie_Update t k v := <[k := v]> t;
  trie_Hash := root;
  trie_Commit t := (root t, t);
  triedb_Update d ns := Some ({[ns]} ∪ d);
  triedb_Commit d r := Some d |}.

Lemma find_root t d : t = ∅ \/ t ∈ d -> find (root t) d = Some t.
Proof.
  intros H. unfold find, root. rewrite str_pos_str, decode_encode. cbn.
  by rewrite decide_True.
Qed.

Lemma find_mono r d t ns : find r d = Some t -> find r ({[ns]} ∪ d) = Some t.
Proof.
  unfold find. destruct (decode _) as [t'|]; [|done]; cbn.
  intros Ht. case_decide as H1; simplify_eq. rewrite decide_True by set_solver. done.
Qed.

#[export] Instance laws : TrieLaws lib.
Proof.
  refine {| opened _ _ := True |}; try done; cbn.
  - intros d d'. exists ∅. split; [|done]. apply find_root. by left.
  - intros t k v _. by rewrite lookup_insert_eq.
  - intros t k k' v Hne. by rewrite lookup_insert_ne.
  - intros t1 t2 H. f_equal. apply map_eq. exact H.
  - intros t d d' _ [= <-]. exists t. split; [|done]. apply find_root. set_solver.
  - intros r d t ns d' Ht [= <-]. exists t. split; [|done]. by apply find_mono.
  - intros r d t r' d' Ht [= <-]. by exists t.
Qed.

#[export] Instance live : TrieLive lib.
Proof. split; cbn; eauto. Qed.
End RefTrie.

(** ** github.com/boltdb/bolt *)
Class BoltLib := {
  BoltDB : Type;
  (** [tx.CreateBucketIfNotExists], [tx.CreateBucket], [tx.DeleteBucket];
      [None] is an error ([ErrBucketNotFound] leaves the database unchanged) *)
  bolt_CreateBucketIfNotExists : BoltDB -> bytes -> option BoltDB;
  bolt_CreateBucket : BoltDB -> bytes -> option BoltDB;
  bolt_DeleteBucket : BoltDB -> bytes -> option BoltDB;
  (** [b.Get], [b.Put], [b.Delete] and the cursor's items in order, for the
      bucket of that name; the outer [None] is an error, or the nil
      dereference of a missing bucket; the inner one is [nil] *)
  bolt_Get : BoltDB -> bytes -> bytes -> option (option bytes);
  bolt_Put : BoltDB -> bytes -> bytes -> bytes -> option BoltDB;
  bolt_Delete : BoltDB -> bytes -> bytes -> option BoltDB;
  bolt_Items : BoltDB -> bytes -> option (list (bytes * bytes)) }.

Definition has_bucket {BL : BoltLib} (d : BoltDB) (b : bytes) : Prop :=
  forall k, is_Some (bolt_Get d b k).

Class BoltLaws (BL : BoltLib) := {
  put_get_eq : forall d b k v d', bolt_Put d b k v = Some d' -> bolt_Get d' b k = Some (Some v);
  put_get_ne : forall d b k v d' b' k',
    bolt_Put d b k v = Some d' -> (b, k) <> (b', k') -> bolt_Get d' b' k' = bolt_Get d b' k';
  del_get_eq : forall d b k d', bolt_Delete d b k = Some d' -> bolt_Get d' b k = Some None;
  del_get_ne : forall d b k d' b' k',
    bolt_Delete d b k = Some d' -> (b, k) <> (b', k') -> bolt_Get d' b' k' = bolt_Get d b' k';
  create_get : forall d b d' b' k,
    bolt_CreateBucketIfNotExists d b = Some d' ->
    bolt_Get d' b' k =
      if decide (b = b') then Some (default None (bolt_Get d b k)) else bolt_Get d b' k;
  recreate_get : forall d b d0 d1 b' k,
    bolt_DeleteBucket d b = Some d0 -> bolt_CreateBucket d0 b = Some d1 ->
    bolt_Get d1 b' k = if decide (b = b') then Some None else bolt_Get d b' k;
  items_nodup : forall d b l, bolt_Items d b = Some l -> NoDup l.*1;
  items_get : forall d b l k v,
    bolt_Items d b = Some l -> (k, v) ∈ l <-> bolt_Get d b k = Some (Some v);
  items_ok : forall d b, has_bucket d b -> is_Some (bolt_Items d b) }.

(** Writes of a key of acceptable length to an existing bucket succeed (no
    I/O error); the limits are bolt's [MaxKeySize] and [MaxValueSize]. *)
Definition bolt_key_ok (k : bytes) : Prop := 0 < Z.of_nat (String.length k) <= 32768.
Definition bolt_val_ok (v : bytes) : Prop := Z.of_nat (String.length v) <= 2 ^ 31 - 2.

Class BoltLive (BL : BoltLib) : Prop := {
  create_ok : forall d b, b <> EmptyString -> is_Some (bolt_CreateBucketIfNotExists d b);
  put_ok : forall d b k v,
    has_bucket d b -> bolt_key_ok k -> bolt_val_ok v -> is_Some (bolt_Put d b k v);
  del_ok : forall d b k, has_bucket d b -> is_Some (bolt_Delete d b k);
  recreate_ok : forall d b, has_bucket d b ->
    exists d0, bolt_DeleteBucket d b = Some d0 /\ is_Some (bolt_CreateBucket d0 b) }.

Section bolt.
Context {BL : BoltLib} {BW : BoltLaws BL}.

Lemma put_has_bucket d b k v d' b' :
  bolt_Put d b k v = Some d' -> has_bucket d b' -> has_bucket d' b'.
Proof.
  intros H Hb k'. destruct (decide ((b, k) = (b', k'))) as [[= <- <-]|].
  - erewrite put_get_eq by done. eauto.
  - erewrite put_get_ne by done. apply Hb.
Qed.

Lemma del_has_bucket d b k d' b' :
  bolt_Delete d b k = Some d' -> has_bucket d b' -> has_bucket d' b'.
Proof.
  intros H Hb k'. destruct (decide ((b, k) = (b', k'))) as [[= <- <-]|].
  - erewrite del_get_eq by done. eauto.
  - erewrite del_get_ne by done. apply Hb.
Qed.

Lemma create_has_bucket d b d' b' :
  bolt_CreateBucketIfNotExists d b = Some d' -> b = b' \/ has_bucket d b' -> has_bucket d' b'.
Proof.
  intros H Hb k. erewrite create_get by done. case_decide; [eauto|].
  destruct Hb as [Hb|Hb]; [done|apply Hb].
Qed.
End bolt.

(** *** An instance: a map of buckets, each a map. *)
Module RefBolt.
#[export] Instance lib : BoltLib := {|
  BoltDB := gmap bytes (gmap bytes bytes);
  bolt_CreateBucketIfNotExists d b := Some (<[b := default ∅ (d !! b)]> d);
  bolt_CreateBucket d b := match d !! b with Some _ => None | None => Some (<[b := ∅]> d) end;
  bolt_DeleteBucket d b := Some (delete b d);
  bolt_Get d b k := (fun m => m !! k) <$> d !! b;
  bolt_Put d b k v := m ← d !! b; Some (<[b := <[k := v]> m]> d);
  bolt_Delete d b k := m ← d !! b; Some (<[b := delete k m]> d);
  bolt_Items d b := map_to_list <$> d !! b |}.

#[export] Instance laws : BoltLaws lib.
Proof.
  split; cbn.
  - intros d b k v d' H. apply bind_Some in H as (m & Hm & [= <-]). by simplify_map_eq.
  - intros d b k v d' b' k' H Hne. apply bind_Some in H as (m & Hm & [= <-]).
    destruct (decide (b = b')) as [<-|]; simplify_map_eq; [|done].
    rewrite lookup_insert_ne; [done|congruence].
  - intros d b k d' H. apply bind_Some in H as (m & Hm & [= <-]). by simplify_map_eq.
  - intros d b k d' b' k' H Hne. apply bind_Some in H as (m & Hm & [= <-]).
    destruct (decide (b = b')) as [<-|]; simplify_map_eq; [|done].
    rewrite lookup_delete_ne; [done|congruence].
  - intros d b d' b' k [= <-]. case_decide; subst.
    + rewrite lookup_insert_eq. by destruct (d !! b'); cbn; rewrite ?lookup_empty.
    + by rewrite lookup_insert_ne.
  - intros d b d0 d1 b' k [= <-]. rewrite lookup_delete_eq. intros [= <-].
    case_decide; subst; by simplify_map_eq.
  - intros d b l H. destruct (d !! b) as [m|]; simplify_eq/=. apply NoDup_fst_map_to_list.
  - intros d b l k v H. destruct (d !! b) as [m|]; simplify_eq/=.
    rewrite elem_of_map_to_list. split; [by intros ->|by intros [= ->]].
  - intros d b H. specialize (H EmptyString). cbn in H.
    rewrite fmap_is_Some in H. by rewrite fmap_is_Some.
Qed.

#[export] Instance live : BoltLive lib.
Proof.
  split; cbn; [eauto| | |].
  - intros d b k v H _ _. specialize (H k). cbn in H.
    apply fmap_is_Some in H as [m ->]. eauto.
  - intros d b k H. specialize (H k). cbn in H.
    apply fmap_is_Some in H as [m ->]. eauto.
  - intros d b _. eexists. split; [done|]. rewrite lookup_delete_eq. eauto.
Qed.
End RefBolt.
