(* ===== verification/Core.v ===== *)
(** * Core: the data of src/core and its operations

    Accounts ([core/account.go], [core/utxo_account.go]), transactions of the
    account model and of the UTXO model ([core/transaction.go],
    [core/utxo_transaction.go]) and blocks ([core/block.go]).  A [*big.Int]
    is a [Z]; [TxHash : option bytes] where the code tests for [nil]. *)
From stdpp Require Import base gmap strings list countable.
From Stdlib Require Import ZArith Lia.
From S2P Require Import Prelude GoStd.

(** ** core/account.go *)
Record AccountState := mkAccountState {
  as_AcAddress : string;
  as_Nonce : Z;
  as_Balance : Z;
  as_StorageRoot : bytes;
  as_CodeHash : bytes }.
#[export] Instance AccountState_eta : Eta AccountState := fun r =>
  mkAccountState (as_AcAddress r) (as_Nonce r) (as_Balance r) (as_StorageRoot r) (as_CodeHash r).

(** [Deduct] and [Deposit] of an [AccountState]; the balance is updated in place. *)
Definition Deduct (s : AccountState) (val : Z) : bool * AccountState :=
  if as_Balance s <? val then (false, s)
  else (true, s <| as_Balance ::= fun b => b - val |>).

Definition Deposit (s : AccountState) (value : Z) : AccountState :=
  s <| as_Balance ::= fun b => b + value |>.

(** ** core/utxo_account.go *)
Record UTXOAccountState := mkUTXOAccountState {
  uas_PubkeyHash : bytes;
  uas_Nonce : Z;
  uas_Balance : Z;
  uas_UTXOs : gmap string (gmap Z Z) }.
#[export] Instance UTXOAccountState_eta : Eta UTXOAccountState := fun r =>
  mkUTXOAccountState (uas_PubkeyHash r) (uas_Nonce r) (uas_Balance r) (uas_UTXOs r).

Definition UTXO_Deduct (s : UTXOAccountState) (val : Z) : bool * UTXOAccountState :=
  if uas_Balance s <? val then (false, s)
  else (true, s <| uas_Balance ::= fun b => b - val |>).

Definition UTXO_Deposit (s : UTXOAccountState) (value : Z) : UTXOAccountState :=
  s <| uas_Balance ::= fun b => b + value |>.

(** ** core/transaction.go *)
Record Transaction := mkTransaction {
  tx_Sender : string;
  tx_Recipient : string;
  tx_Nonce : Z;
  tx_Signature : bytes;
  tx_Value : Z;
  tx_TxHash : bytes;
  tx_Time : Z;
  tx_Relayed : bool;
  tx_HasBroker : bool;
  tx_SenderIsBroker : bool;
  tx_OriginalSender : string;
  tx_FinalRecipient : string;
  tx_RawTxHash : bytes }.
#[export] Instance Transaction_eta : Eta Transaction := fun r =>
  mkTransaction (tx_Sender r) (tx_Recipient r) (tx_Nonce r) (tx_Signature r) (tx_Value r)
    (tx_TxHash r) (tx_Time r) (tx_Relayed r) (tx_HasBroker r) (tx_SenderIsBroker r)
    (tx_OriginalSender r) (tx_FinalRecipient r) (tx_RawTxHash r).

(** [&Transaction{...}] with the fields not named left at their zero value. *)
Definition zero_Transaction : Transaction :=
  mkTransaction "" "" 0 "" 0 "" 0 false false false "" "" "".

Section transaction.
Context {HL : Sha256} {CT : Codec Transaction}.

Definition NewTransaction (sender recipient : string) (value nonce : Z) : Transaction :=
  let tx := zero_Transaction
    <| tx_Sender := sender |> <| tx_Recipient := recipient |>
    <| tx_Value := value |> <| tx_Nonce := nonce |> in
  tx <| tx_TxHash := sha256 (enc tx) |> <| tx_Relayed := false |>
     <| tx_FinalRecipient := ""%string |> <| tx_OriginalSender := ""%string |>
     <| tx_RawTxHash := ""%string |>
     <| tx_HasBroker := false |> <| tx_SenderIsBroker := false |>.
End transaction.

(** ** core/utxo_transaction.go *)
Record TxIn := mkTxIn {
  in_PrevTxId : bytes;
  in_Index : Z;
  in_Signature : bytes;
  in_PubKey : bytes }.

Record TxOut := mkTxOut {
  out_Value : Z;
  out_PubKeyHash : bytes }.

Record UTXOTransaction := mkUTXOTransaction {
  utx_TxId : bytes;
  utx_Vin : list TxIn;
  utx_Vout : list TxOut;
  utx_Nonce : Z;
  utx_Time : Z;
  utx_TxHash : bytes;
  utx_Relayed : bool;
  utx_Recipient : string }.
#[export] Instance UTXOTransaction_eta : Eta UTXOTransaction := fun r =>
  mkUTXOTransaction (utx_TxId r) (utx_Vin r) (utx_Vout r) (utx_Nonce r) (utx_Time r)
    (utx_TxHash r) (utx_Relayed r) (utx_Recipient r).

Definition zero_UTXOTransaction : UTXOTransaction := mkUTXOTransaction "" [] [] 0 0 "" false "".

(** [len(tx.Vin) == 1 && len(tx.Vin[0].PrevTxId) == 0 && tx.Vin[0].Index == -1] *)
Definition IsCoinbase (tx : UTXOTransaction) : bool :=
  match utx_Vin tx with
  | [vin] => (String.length (in_PrevTxId vin) =? 0)%nat && (in_Index vin =? -1)
  | _ => false
  end.

Section utxo_transaction.
Context {HL : Sha256} {CU : Codec UTXOTransaction}.

(** [(tx *UTXOTransaction) Hash()]: the id is blanked, every other field counts. *)
Definition UTXO_Hash (tx : UTXOTransaction) : bytes :=
  sha256 (enc (tx <| utx_TxId := ""%string |>)).

(** [rnd] is the value of [randomGenerator.Int63()]. *)
Definition NewCoinbaseTX (PubkeyHash : bytes) (val : Z) (TxHash : option bytes) (rnd : Z) :
    UTXOTransaction :=
  let txin := mkTxIn "" (-1) "" "" in
  let txout := mkTxOut val PubkeyHash in
  let tx := zero_UTXOTransaction <| utx_Vin := [txin] |> <| utx_Vout := [txout] |> in
  let tx := tx <| utx_Nonce := rnd |> in
  let tx := tx <| utx_TxId := UTXO_Hash tx |> in
  match TxHash with
  | Some h => tx <| utx_TxHash := h |>
  | None => tx <| utx_TxHash := UTXO_Hash tx |>
  end.

Lemma NewCoinbaseTX_IsCoinbase pk val h rnd : IsCoinbase (NewCoinbaseTX pk val h rnd) = true.
Proof. by destruct h. Qed.

Lemma NewCoinbaseTX_Vout pk val h rnd :
  utx_Vout (NewCoinbaseTX pk val h rnd) = [mkTxOut val pk].
Proof. by destruct h. Qed.
End utxo_transaction.

(** ** core/block.go *)
Record BlockHeader := mkBlockHeader {
  bh_ParentBlockHash : bytes;
  bh_StateRoot : bytes;
  bh_TxRoot : bytes;
  bh_Number : Z;
  bh_Time : Z;
  bh_Miner : Z }.
#[export] Instance BlockHeader_eta : Eta BlockHeader := fun r =>
  mkBlockHeader (bh_ParentBlockHash r) (bh_StateRoot r) (bh_TxRoot r) (bh_Number r)
    (bh_Time r) (bh_Miner r).

Definition zero_BlockHeader : BlockHeader := mkBlockHeader "" "" "" 0 0 0.

Record Block := mkBlock {
  b_Header : BlockHeader;
  b_Body : list Transaction;
  b_UTXO : list UTXOTransaction;
  b_Hash : bytes }.
#[export] Instance Block_eta : Eta Block := fun r =>
  mkBlock (b_Header r) (b_Body r) (b_UTXO r) (b_Hash r).

Definition NewBlock (bh : BlockHeader) (txs : list Transaction) (utxos : list UTXOTransaction) :
    Block :=
  mkBlock bh txs utxos "".

(** [(bh *BlockHeader) Hash()] *)
Definition BH_Hash {HL : Sha256} {CH : Codec BlockHeader} (bh : BlockHeader) : bytes :=
  sha256 (enc bh).

(** ** Decidable equality and codes *)
#[export] Instance AccountState_eq_dec : EqDecision AccountState.
Proof. solve_decision. Defined.
#[export] Instance UTXOAccountState_eq_dec : EqDecision UTXOAccountState.
Proof. solve_decision. Defined.
#[export] Instance Transaction_eq_dec : EqDecision Transaction.
Proof. solve_decision. Defined.
#[export] Instance TxIn_eq_dec : EqDecision TxIn.
Proof. solve_decision. Defined.
#[export] Instance TxOut_eq_dec : EqDecision TxOut.
Proof. solve_decision. Defined.
#[export] Instance UTXOTransaction_eq_dec : EqDecision UTXOTransaction.
Proof. solve_decision. Defined.
#[export] Instance BlockHeader_eq_dec : EqDecision BlockHeader.
Proof. solve_decision. Defined.
#[export] Instance Block_eq_dec : EqDecision Block.
Proof. solve_decision. Defined.

#[export] Instance AccountState_countable : Countable AccountState.
Proof.
  refine (inj_countable'
    (fun r => (as_AcAddress r, as_Nonce r, as_Balance r, as_StorageRoot r, as_CodeHash r))
    (fun '(a, b, c, d, e) => mkAccountState a b c d e) _); by intros [].
Defined.
#[export] Instance UTXOAccountState_countable : Countable UTXOAccountState.
Proof.
  refine (inj_countable' (fun r => (uas_PubkeyHash r, uas_Nonce r, uas_Balance r, uas_UTXOs r))
    (fun '(a, b, c, d) => mkUTXOAccountState a b c d) _); by intros [].
Defined.
#[export] Instance Transaction_countable : Countable Transaction.
Proof.
  refine (inj_countable' (fun r => (tx_Sender r, tx_Recipient r, tx_Nonce r, tx_Signature r,
      tx_Value r, tx_TxHash r, (tx_Time r, tx_Relayed r, tx_HasBroker r, tx_SenderIsBroker r,
      tx_OriginalSender r, tx_FinalRecipient r, tx_RawTxHash r)))
    (fun '(a, b, c, d, e, f, (g, h, i, j, k, l, m)) =>
       mkTransaction a b c d e f g h i j k l m) _); by intros [].
Defined.
#[export] Instance TxIn_countable : Countable TxIn.
Proof.
  refine (inj_countable' (fun r => (in_PrevTxId r, in_Index r, in_Signature r, in_PubKey r))
    (fun '(a, b, c, d) => mkTxIn a b c d) _); by intros [].
Defined.
#[export] Instance TxOut_countable : Countable TxOut.
Proof.
  refine (inj_countable' (fun r => (out_Value r, out_PubKeyHash r))
    (fun '(a, b) => mkTxOut a b) _); by intros [].
Defined.
#[export] Instance UTXOTransaction_countable : Countable UTXOTransaction.
Proof.
  refine (inj_countable' (fun r => (utx_TxId r, utx_Vin r, utx_Vout r, utx_Nonce r,
      (utx_Time r, utx_TxHash r, utx_Relayed r, utx_Recipient r)))
    (fun '(a, b, c, d, (e, f, g, h)) => mkUTXOTransaction a b c d e f g h) _); by intros [].
Defined.
#[export] Instance BlockHeader_countable : Countable BlockHeader.
Proof.
  refine (inj_countable' (fun r => (bh_ParentBlockHash r, bh_StateRoot r, bh_TxRoot r,
      bh_Number r, bh_Time r, bh_Miner r))
    (fun '(a, b, c, d, e, f) => mkBlockHeader a b c d e f) _); by intros [].
Defined.
#[export] Instance Block_countable : Countable Block.
Proof.
  refine (inj_countable' (fun r => (b_Header r, b_Body r, b_UTXO r, b_Hash r))
    (fun '(a, b, c, d) => mkBlock a b c d) _); by intros [].
Defined.

(** The gob codecs of the program's data, as one bundle. *)
Class CoreCodecs := {
  #[global] cc_as :: Codec AccountState;
  #[global] cc_uas :: Codec UTXOAccountState;
  #[global] cc_tx :: Codec Transaction;
  #[global] cc_utx :: Codec UTXOTransaction;
  #[global] cc_outs :: Codec (list TxOut);
  #[global] cc_bh :: Codec BlockHeader;
  #[global] cc_block :: Codec Block }.

Class CoreCodecsLaws {CC : CoreCodecs} : Prop := {
  #[global] ccl_as :: CodecLaws AccountState;
  #[global] ccl_uas :: CodecLaws UTXOAccountState;
  #[global] ccl_tx :: CodecLaws Transaction;
  #[global] ccl_utx :: CodecLaws UTXOTransaction;
  #[global] ccl_outs :: CodecLaws (list TxOut);
  #[global] ccl_bh :: CodecLaws BlockHeader;
  #[global] ccl_block :: CodecLaws Block }.

(** Concrete codecs, for evaluating the model on inputs. *)
Module RefCodecs.
#[export] Instance codecs : CoreCodecs := {|
  cc_as := countable_codec _; cc_uas := countable_codec _; cc_tx := countable_codec _;
  cc_utx := countable_codec _; cc_outs := countable_codec _; cc_bh := countable_codec _;
  cc_block := countable_codec _ |}.
#[export] Instance laws : CoreCodecsLaws.
Proof. split; apply countable_codec_laws. Qed.
End RefCodecs.
