(* ===== verification/Pools.v ===== *)
(** * Pools: src/core/txpool.go and src/core/utxo_txpool.go

    The two pools are the same code over two transaction types, so the
    operations are written once, for any type with a time stamp, in [Section
    pool]; [TxPool_*] and [UTXOTxPool_*] are their two uses.  Every
    method runs between [lock.Lock()] and [lock.Unlock()], so it is one atomic
    step on the pool; a nil [RelayPool] is [None]. *)
From stdpp Require Import base gmap strings list.
From Stdlib Require Import ZArith Lia.
From S2P Require Import Prelude GoStd Core.

Class PoolTx (A : Type) := { pt_Time : A -> Z; pt_SetTime : Z -> A -> A }.
#[export] Instance Transaction_PoolTx : PoolTx Transaction :=
  {| pt_Time := tx_Time; pt_SetTime t tx := tx <| tx_Time := t |> |}.
#[export] Instance UTXOTransaction_PoolTx : PoolTx UTXOTransaction :=
  {| pt_Time := utx_Time; pt_SetTime t tx := tx <| utx_Time := t |> |}.

Record Pool (A : Type) := mkPool {
  TxQueue : list A;
  RelayPool : option (gmap Z (list A)) }.
Arguments mkPool {A} _ _.
Arguments TxQueue {A} _.
Arguments RelayPool {A} _.
#[export] Instance Pool_eta A : Eta (Pool A) := fun r => mkPool (TxQueue r) (RelayPool r).

Section pool.
Context {A : Type} `{PoolTx A}.
Implicit Types (p : Pool A) (tx : A) (txs : list A).

Definition NewPool : Pool A := mkPool [] (Some ∅).

(** [if tx.Time.IsZero() { tx.Time = time.Now() }]: the transaction the
    pointer designates is stamped when it enters the pool. *)
Definition stamp (now : Z) tx : A := if IsZero (pt_Time tx) then pt_SetTime now tx else tx.

Definition pool_AddTx2Pool (now : Z) tx p : Pool A :=
  p <| TxQueue ::= fun q => q ++ [stamp now tx] |>.

Definition pool_AddTxs2Pool (now : Z) txs p : Pool A :=
  foldl (fun p tx => p <| TxQueue ::= fun q => q ++ [stamp now tx] |>) p txs.

Definition pool_AddTxs2Pool_Head txs p : Pool A := p <| TxQueue ::= fun q => txs ++ q |>.

(** [txNum := max_txs; if uint64(len(q)) < txNum { txNum = uint64(len(q)) }] *)
Definition clip (max : Z) (q : list A) : Z :=
  if u64 (Z.of_nat (length q)) <? max then u64 (Z.of_nat (length q)) else max.

Definition pool_PackTxs (max_txs : Z) p : list A * Pool A :=
  let txNum := Z.to_nat (clip max_txs (TxQueue p)) in
  (take txNum (TxQueue p), p <| TxQueue := drop txNum (TxQueue p) |>).

(** A read of the relay map; reading a nil map gives nothing. *)
Definition relay_lookup p (shardID : Z) : option (list A) := RelayPool p ≫= (.!! shardID).

(** A write to a nil map is a run-time panic. *)
Definition pool_AddRelayTx tx (shardID : Z) p : res (Pool A) :=
  match RelayPool p with
  | None => Panic
  | Some m =>
      let m := match m !! shardID with None => <[shardID := []]> m | Some _ => m end in
      Ret (p <| RelayPool := Some (<[shardID := default [] (m !! shardID) ++ [tx]]> m) |>)
  end.

Definition pool_GetTxQueueLen p : Z := Z.of_nat (length (TxQueue p)).

Definition pool_ClearRelayPool p : Pool A := p <| RelayPool := None |>.

Definition pool_PackRelayTxs (shardID minRelaySize maxRelaySize : Z) p : option (list A) * Pool A :=
  match relay_lookup p shardID with
  | None => (None, p)
  | Some l =>
      if Z.of_nat (length l) <? i64 minRelaySize then (None, p)
      else
        let txNum := Z.to_nat (clip maxRelaySize l) in
        (Some (take txNum l),
         p <| RelayPool ::= fmap (M := option) (<[shardID := drop txNum l]>) |>)
  end.
End pool.

(** ** [TransferTxs] (account model only): the transactions of [addr] leave
    the queue and the relay pool.  [order] is the order in which [range]
    visits the relay pool. *)
Definition transfer_queue_step (addr : string) (tq : list Transaction * list Transaction)
    (tx : Transaction) : list Transaction * list Transaction :=
  let '(t, q) := tq in
  if bool_decide (tx_Sender tx = addr) then (t ++ [tx], q) else (t, q ++ [tx]).

Definition transfer_relay_step (addr : string) (shardID : Z)
    (tm : list Transaction * gmap Z (list Transaction)) (tx : Transaction) :
    list Transaction * gmap Z (list Transaction) :=
  let '(t, m) := tm in
  if bool_decide (tx_Sender tx = addr) then (t ++ [tx], m)
  else (t, <[shardID := default [] (m !! shardID) ++ [tx]]> m).

Definition TransferTxs (addr : string) (order : list (Z * list Transaction))
    (p : Pool Transaction) : list Transaction * Pool Transaction :=
  let '(txTransfered, newTxQueue) := foldl (transfer_queue_step addr) ([], []) (TxQueue p) in
  let '(txTransfered, newRelayPool) :=
    foldl (fun tm '(shardID, shardPool) => foldl (transfer_relay_step addr shardID) tm shardPool)
      (txTransfered, ∅) order in
  (txTransfered, mkPool newTxQueue (Some newRelayPool)).

(** ** The two pools *)
Definition NewTxPool : Pool Transaction := NewPool.
Definition TxPool_AddTx2Pool := pool_AddTx2Pool (A := Transaction).
Definition TxPool_AddTxs2Pool := pool_AddTxs2Pool (A := Transaction).
Definition TxPool_AddTxs2Pool_Head := pool_AddTxs2Pool_Head (A := Transaction).
Definition TxPool_PackTxs := pool_PackTxs (A := Transaction).
Definition TxPool_AddRelayTx := pool_AddRelayTx (A := Transaction).
Definition TxPool_GetTxQueueLen := pool_GetTxQueueLen (A := Transaction).
Definition TxPool_ClearRelayPool := pool_ClearRelayPool (A := Transaction).
Definition TxPool_PackRelayTxs := pool_PackRelayTxs (A := Transaction).

Definition NewUTXOTxPool : Pool UTXOTransaction := NewPool.
Definition UTXOTxPool_AddTx2Pool := pool_AddTx2Pool (A := UTXOTransaction).
Definition UTXOTxPool_AddTxs2Pool := pool_AddTxs2Pool (A := UTXOTransaction).
Definition UTXOTxPool_AddTxs2Pool_Head := pool_AddTxs2Pool_Head (A := UTXOTransaction).
Definition UTXOTxPool_PackTxs := pool_PackTxs (A := UTXOTransaction).
Definition UTXOTxPool_AddRelayTx := pool_AddRelayTx (A := UTXOTransaction).
Definition UTXOTxPool_GetTxQueueLen := pool_GetTxQueueLen (A := UTXOTransaction).
Definition UTXOTxPool_ClearRelayPool := pool_ClearRelayPool (A := UTXOTransaction).
Definition UTXOTxPool_PackRelayTxs := pool_PackRelayTxs (A := UTXOTransaction).

(** ** Lemmas *)
Section lemmas.
Context {A : Type} `{PoolTx A}.
Implicit Types (p : Pool A) (tx : A) (txs : list A).

(** A queue is a Go slice, so its length is an [int]. *)
Definition slice_ok (q : list A) : Prop := Z.of_nat (length q) < 2 ^ 63.

Lemma clip_spec max q : slice_ok q -> clip max q = Z.min max (Z.of_nat (length q)).
Proof.
  unfold slice_ok, clip. intros. rewrite u64_small by lia.
  destruct (Z.ltb_spec (Z.of_nat (length q)) max); lia.
Qed.

Lemma pool_AddTxs2Pool_TxQueue now txs p :
  TxQueue (pool_AddTxs2Pool now txs p) = TxQueue p ++ (stamp now <$> txs).
Proof.
  unfold pool_AddTxs2Pool. revert p; induction txs as [|tx txs IH]; intros p; cbn.
  - by rewrite app_nil_r.
  - rewrite IH. cbn. by rewrite <- app_assoc.
Qed.

Lemma pool_AddTxs2Pool_RelayPool now txs p : RelayPool (pool_AddTxs2Pool now txs p) = RelayPool p.
Proof.
  unfold pool_AddTxs2Pool. revert p; induction txs as [|tx txs IH]; intros p; cbn; [done|].
  by rewrite IH.
Qed.

Lemma pool_PackTxs_app max p txs p' : pool_PackTxs max p = (txs, p') -> txs ++ TxQueue p' = TxQueue p.
Proof. intros [= <- <-]. apply take_drop. Qed.

Lemma pool_PackTxs_length max p txs p' :
  slice_ok (TxQueue p) -> 0 <= max -> pool_PackTxs max p = (txs, p') ->
  Z.of_nat (length txs) = Z.min max (Z.of_nat (length (TxQueue p))).
Proof.
  intros Hs Hm [= <- <-]. rewrite length_take, clip_spec by done. lia.
Qed.

Lemma pool_AddRelayTx_lookup tx sid p p' sid' :
  pool_AddRelayTx tx sid p = Ret p' ->
  default [] (relay_lookup p' sid') =
    default [] (relay_lookup p sid') ++ (if decide (sid = sid') then [tx] else []).
Proof.
  unfold pool_AddRelayTx, relay_lookup. destruct (RelayPool p) as [m|]; [|done].
  intros Hr. injection Hr as <-. cbn. case_decide as Hs; subst.
  - rewrite lookup_insert_eq. cbn. destruct (m !! sid') eqn:E; cbn.
    + by rewrite E.
    + by rewrite lookup_insert_eq.
  - rewrite lookup_insert_ne, app_nil_r by done.
    destruct (m !! sid) eqn:E; [done|]. by rewrite lookup_insert_ne.
Qed.

Lemma pool_AddRelayTx_open tx sid p p' : pool_AddRelayTx tx sid p = Ret p' -> is_Some (RelayPool p').
Proof.
  unfold pool_AddRelayTx. destruct (RelayPool p); [|done]. intros Hr. injection Hr as <-. eauto.
Qed.

Lemma pool_AddRelayTx_TxQueue tx sid p p' : pool_AddRelayTx tx sid p = Ret p' -> TxQueue p' = TxQueue p.
Proof.
  unfold pool_AddRelayTx. destruct (RelayPool p); [|done]. intros Hr. by injection Hr as <-.
Qed.
End lemmas.

(** The transfer loop over one list splits it by the sender. *)
Lemma transfer_queue addr txs : forall t q,
  foldl (transfer_queue_step addr) (t, q) txs
  = (t ++ filter (fun tx => tx_Sender tx = addr) txs,
     q ++ filter (fun tx => tx_Sender tx <> addr) txs).
Proof.
  induction txs as [|tx txs IH]; intros t q; [by rewrite !app_nil_r|].
  cbn [foldl transfer_queue_step]. rewrite !filter_cons. case_bool_decide; rewrite IH.
  - rewrite decide_True, decide_False by tauto. by rewrite <- app_assoc.
  - rewrite decide_False, decide_True by tauto. by rewrite <- app_assoc.
Qed.

Lemma transfer_shard addr sid txs : forall t (m : gmap Z (list Transaction)),
  exists m',
    foldl (transfer_relay_step addr sid) (t, m) txs
    = (t ++ filter (fun tx => tx_Sender tx = addr) txs, m') /\
    (forall s, default [] (m' !! s) = default [] (m !! s) ++
       (if decide (s = sid) then filter (fun tx => tx_Sender tx <> addr) txs else [])).
Proof.
  induction txs as [|tx txs IH]; intros t m.
  - exists m. cbn. rewrite app_nil_r. split; [done|]. intros s.
    case_decide; by rewrite app_nil_r.
  - cbn [foldl transfer_relay_step]. rewrite !filter_cons. case_bool_decide as Hs.
    + destruct (IH (t ++ [tx]) m) as (m' & -> & Hm'). exists m'.
      rewrite (decide_True (P := tx_Sender tx = addr)), <- app_assoc by done.
      split; [done|]. intros s. rewrite Hm'. case_decide; [|done].
      by rewrite (decide_False (P := tx_Sender tx <> addr)) by tauto.
    + destruct (IH t (<[sid := default [] (m !! sid) ++ [tx]]> m)) as (m' & -> & Hm').
      exists m'. rewrite (decide_False (P := tx_Sender tx = addr)) by done.
      split; [done|]. intros s. rewrite Hm'.
      rewrite (decide_True (P := tx_Sender tx <> addr)) by done.
      case_decide as Hd; subst.
      * rewrite lookup_insert_eq. cbn. by rewrite <- app_assoc.
      * by rewrite lookup_insert_ne.
Qed.

(** The relay part of the transfer, for any order of the shards. *)
Lemma transfer_relay addr (order : list (Z * list Transaction)) :
  forall t (m : gmap Z (list Transaction)), NoDup order.*1 ->
  exists m',
    foldl (fun tm '(shardID, shardPool) => foldl (transfer_relay_step addr shardID) tm shardPool)
      (t, m) order
    = (t ++ filter (fun tx => tx_Sender tx = addr) (concat order.*2), m') /\
    (forall k l, (k, l) ∈ order ->
       default [] (m' !! k) = default [] (m !! k) ++ filter (fun tx => tx_Sender tx <> addr) l) /\
    (forall k, k ∉ order.*1 -> default [] (m' !! k) = default [] (m !! k)).
Proof.
  induction order as [|[sid l] order IH]; intros t m Hnd.
  - exists m. cbn. rewrite app_nil_r. split; [done|]. split; [|done]. intros k l H. inversion H.
  - cbn [foldl fmap list_fmap fst snd concat] in *. apply NoDup_cons in Hnd as [Hni Hnd].
    destruct (transfer_shard addr sid l t m) as (m1 & -> & Hm1).
    destruct (IH (t ++ filter (fun tx => tx_Sender tx = addr) l) m1 Hnd) as (m' & -> & H1 & H2).
    exists m'. rewrite filter_app, <- app_assoc. split; [done|]. split.
    + intros k l' [[= -> ->]|Hin]%elem_of_cons.
      * rewrite H2, Hm1 by done. by rewrite decide_True.
      * rewrite (H1 k l' Hin), Hm1. rewrite decide_False, app_nil_r; [done|].
        intros ->. apply Hni, list_elem_of_fmap. by exists (sid, l').
    + intros k Hk. rewrite H2, Hm1 by set_solver.
      rewrite decide_False, app_nil_r; [done|]. set_solver.
Qed.

(** ** Properties *)

(** Transactions leave the pool in the order they entered it, each once:
    after [txs] are added (and stamped), [PackTxs max] takes the first
    [min(max, length)] of the old queue followed by the new transactions,
    leaves exactly the rest, and does not touch the relay pool. *)
Theorem PackTxs_fifo now max (txs : list Transaction) (p p' : Pool Transaction) packed :
  0 <= max ->
  slice_ok (TxQueue p ++ txs) ->
  TxPool_PackTxs max (TxPool_AddTxs2Pool now txs p) = (packed, p') ->
  packed ++ TxQueue p' = TxQueue p ++ (stamp now <$> txs) /\
  Z.of_nat (length packed) = Z.min max (Z.of_nat (length (TxQueue p) + length txs)) /\
  RelayPool p' = RelayPool p.
Proof.
  intros Hmax Hok HP. unfold slice_ok in Hok. rewrite length_app in Hok.
  pose proof (pool_PackTxs_app _ _ _ _ HP) as Happ.
  apply pool_PackTxs_length in HP as Hlen; [|unfold slice_ok, TxPool_AddTxs2Pool;
    rewrite pool_AddTxs2Pool_TxQueue, length_app, length_fmap; lia|done].
  unfold TxPool_AddTxs2Pool in *.
  rewrite pool_AddTxs2Pool_TxQueue in Happ, Hlen. rewrite length_app, length_fmap in Hlen.
  split_and!; [done|done|]. inversion HP. cbn. apply pool_AddTxs2Pool_RelayPool.
Qed.

(** A transfer of the account [addr] takes out of the pool exactly the
    transactions it sends, from the queue and from every shard's relay list,
    and keeps all others in place and in order, whatever the order in which
    the relay map is visited. *)
Theorem TransferTxs_partition addr order (p p' : Pool Transaction) transfered :
  order ≡ₚ map_to_list (default ∅ (RelayPool p)) ->
  TransferTxs addr order p = (transfered, p') ->
  TxQueue p' = filter (fun tx => tx_Sender tx <> addr) (TxQueue p) /\
  (forall sid, default [] (relay_lookup p' sid) =
     filter (fun tx => tx_Sender tx <> addr) (default [] (relay_lookup p sid))) /\
  transfered = filter (fun tx => tx_Sender tx = addr) (TxQueue p ++ concat order.*2).
Proof.
  intros Hord HT. unfold TransferTxs in HT. rewrite transfer_queue in HT.
  assert (Hnd : NoDup order.*1) by (rewrite Hord; apply NoDup_fst_map_to_list).
  destruct (transfer_relay addr order
    ([] ++ filter (fun tx => tx_Sender tx = addr) (TxQueue p)) ∅ Hnd) as (m' & Hf & H1 & H2).
  rewrite Hf in HT. injection HT as <- <-. cbn.
  split_and!; [done| |by rewrite filter_app].
  intros sid. unfold relay_lookup. cbn.
  destruct (default ∅ (RelayPool p) !! sid) as [l|] eqn:El.
  - rewrite (H1 sid l) by (rewrite Hord; by apply elem_of_map_to_list).
    rewrite lookup_empty.
    destruct (RelayPool p); cbn in *; [by rewrite El|by rewrite lookup_empty in El].
  - rewrite H2.
    + rewrite lookup_empty. destruct (RelayPool p); cbn in *; by rewrite ?El.
    + rewrite Hord. intros ([k l] & -> & Hin)%list_elem_of_fmap.
      apply elem_of_map_to_list in Hin. cbn in *. congruence.
Qed.

(** *** Concrete runs *)
Definition sample_tx (s r : string) (v : Z) (h : bytes) : Transaction :=
  zero_Transaction <| tx_Sender := s |> <| tx_Recipient := r |> <| tx_Value := v |>
    <| tx_TxHash := h |>.

Definition sample_pool : Pool Transaction :=
  mkPool [sample_tx "a" "b" 5 "h1"; sample_tx "b" "a" 6 "h2"]
    (Some {[ 1 := [sample_tx "a" "c" 7 "h3"; sample_tx "b" "c" 8 "h4"] ]}).

Lemma PackTxs_fifo_witness :
  exists packed p',
    TxPool_PackTxs 2 (TxPool_AddTxs2Pool 9 [sample_tx "c" "d" 1 "h5"] sample_pool) = (packed, p') /\
    packed ++ TxQueue p' = TxQueue sample_pool ++ (stamp 9 <$> [sample_tx "c" "d" 1 "h5"]) /\
    Z.of_nat (length packed) = 2 /\ RelayPool p' = RelayPool sample_pool.
Proof.
  eexists _, _. split; [reflexivity|].
  apply (PackTxs_fifo 9 2 [sample_tx "c" "d" 1 "h5"] sample_pool); [lia|done|reflexivity].
Defined.

Lemma TransferTxs_partition_witness :
  let r := TransferTxs "a" (map_to_list (default ∅ (RelayPool sample_pool))) sample_pool in
  r.1 = [sample_tx "a" "b" 5 "h1"; sample_tx "a" "c" 7 "h3"] /\
  TxQueue r.2 = [sample_tx "b" "a" 6 "h2"] /\
  default [] (relay_lookup r.2 1) = [sample_tx "b" "c" 8 "h4"].
Proof.
  intros r.
  destruct (TransferTxs_partition "a" (map_to_list (default ∅ (RelayPool sample_pool))) sample_pool
    r.2 r.1 (reflexivity _) (surjective_pairing _))
    as (H1 & H2 & H3).
  split; [exact H3|]. split; [exact H1|exact (H2 1)].
Defined.
