(* ===== verification/Messages.v ===== *)
(** * Messages: src/message, src/shard and the wire format

    The message types and records of [message/*.go] and [shard/nodes.go], the
    30-byte type prefix of [MergeMessage]/[SplitMessage], and the framing of
    [networks.TcpDial] (which appends a newline) with the receivers'
    [ReadBytes('\n')].  JSON is the interface [Json]. *)
From stdpp Require Import base gmap strings list countable.
From Stdlib Require Import ZArith Lia Ascii.
From S2P Require Import Prelude GoStd Core.
#[local] Arguments String.append : simpl nomatch.

(** ** Bytes as a sequence *)
Fixpoint btake (n : nat) (s : bytes) : bytes :=
  match n, s with
  | S n, String c s => String c (btake n s)
  | _, _ => ""
  end.
Fixpoint bdrop (n : nat) (s : bytes) : bytes :=
  match n, s with
  | S n, String _ s => bdrop n s
  | O, s => s
  | _, _ => ""
  end.
Fixpoint bzeros (n : nat) : bytes :=
  match n with O => "" | S n => String zero (bzeros n) end.
Fixpoint bfilter (f : ascii -> bool) (s : bytes) : bytes :=
  match s with
  | "" => ""
  | String c s => if f c then String c (bfilter f s) else bfilter f s
  end.
Fixpoint ball (f : ascii -> bool) (s : bytes) : bool :=
  match s with "" => true | String c s => f c && ball f s end.

Definition nonzero (c : ascii) : bool := negb (Ascii.eqb c zero).
Definition newline : ascii := "010"%char.
Arguments newline : simpl never.
Definition not_newline (c : ascii) : bool := negb (Ascii.eqb c newline).

(** ** message/message.go: types *)
Abbreviation MessageType := string (only parsing).
Definition prefixMSGtypeLen : nat := 30.

Definition CPropose : MessageType := "propose".
Definition CVote : MessageType := "vote".
Definition CPrePrepare : MessageType := "preprepare".
Definition CPrepare : MessageType := "prepare".
Definition CCommit : MessageType := "commit".
Definition CRequestOldrequest : MessageType := "requestOldrequest".
Definition CSendOldrequest : MessageType := "sendOldrequest".
Definition CStop : MessageType := "stop".
Definition CRelay : MessageType := "relay".
Definition CInject : MessageType := "inject".
Definition CBlockInfo : MessageType := "BlockInfo".
Definition CSeqIDinfo : MessageType := "SequenceID".
(** message/message_CLPA.go *)
Definition AccountState_and_TX : MessageType := "AccountState&txs".
Definition CPartitionMsg : MessageType := "PartitionModifiedMap".
Definition CPartitionReady : MessageType := "ready for partition".
(** message/message_broker.go *)
Definition BrokerRawTx : MessageType := "brokerRawTx".
Definition BrokerConfirm1 : MessageType := "brokerConfirm1".
Definition BrokerConfirm2 : MessageType := "brokerConfirm2".
Definition BrokerType1 : MessageType := "brokerType1".
Definition BrokerType2 : MessageType := "brokerType2".
Definition CInjectBroker : MessageType := "InjectTx_Broker".
Definition CBrokerTxMap : MessageType := "BrokerTxMap".
Definition CAccountTransferMsg_broker : MessageType := "BrokerAS_transfer".
Definition CInner2CrossTx : MessageType := "innerShardTx_be_crossShard".

Definition message_types : list string :=
  [CPropose; CVote; CPrePrepare; CPrepare; CCommit; CRequestOldrequest; CSendOldrequest; CStop;
   CRelay; CInject; CBlockInfo; CSeqIDinfo; AccountState_and_TX; CPartitionMsg; CPartitionReady;
   BrokerRawTx; BrokerConfirm1; BrokerConfirm2; BrokerType1; BrokerType2; CInjectBroker;
   CBrokerTxMap; CAccountTransferMsg_broker; CInner2CrossTx].

(** [RequestType] *)
Definition BlockRequest : string := "Block".
Definition PartitionReq : string := "PartitionReq".

(** ** [MergeMessage] and [SplitMessage] *)

(** [b := make([]byte, 30); for i, v := range []byte(msgType) { b[i] = v }]
    panics on an index out of range when the type is longer than 30 bytes. *)
Definition MergeMessage (msgType : MessageType) (content : bytes) : res bytes :=
  if (String.length msgType <=? prefixMSGtypeLen)%nat then
    Ret (msgType +:+ bzeros (prefixMSGtypeLen - String.length msgType) +:+ content)
  else Panic.

(** [message[:30]] panics on a shorter message. *)
Definition SplitMessage (message : bytes) : res (MessageType * bytes) :=
  if (prefixMSGtypeLen <=? String.length message)%nat then
    Ret (bfilter nonzero (btake prefixMSGtypeLen message), bdrop prefixMSGtypeLen message)
  else Panic.

(** ** Framing: [conn.Write(append(context, '\n'))] and [ReadBytes('\n')] *)
Definition frame (context : bytes) : bytes := context +:+ String newline "".

(** The messages [ReadBytes] returns from a byte stream, each with its
    delimiter; the rest of the stream after the last newline is an [io.EOF]. *)
Fixpoint read_frames (acc : bytes) (stream : bytes) : list bytes :=
  match stream with
  | "" => []
  | String c s =>
      if Ascii.eqb c newline then (acc +:+ String c "") :: read_frames "" s
      else read_frames (acc +:+ String c "") s
  end.

(** ** Records *)
Record Node := mkNode { nd_NodeID : Z; nd_ShardID : Z; nd_IPaddr : string }.

Record Request := mkRequest {
  req_RequestType : string;
  req_Msg : bytes;
  req_ReqTime : Z }.

Record Propose := mkPropose { pr_RequestMsg : Request; pr_Digest : bytes; pr_SeqID : Z }.
Record Vote := mkVote {
  vt_RequestMsg : Request; vt_Digest : bytes; vt_SeqID : Z; vt_SenderNode : Node }.
Record PrePrepare := mkPrePrepare { pp_RequestMsg : Request; pp_Digest : bytes; pp_SeqID : Z }.
Record Prepare := mkPrepare { p_Digest : bytes; p_SeqID : Z; p_SenderNode : Node }.
Record Commit := mkCommit { c_Digest : bytes; c_SeqID : Z; c_SenderNode : Node }.
Record RequestOldMessage := mkRequestOldMessage {
  ro_SeqStartHeight : Z; ro_SeqEndHeight : Z; ro_ServerNode : Node; ro_SenderNode : Node }.
Record SendOldMessage := mkSendOldMessage {
  so_SeqStartHeight : Z; so_SeqEndHeight : Z; so_OldRequest : list Request; so_SenderNode : Node }.
Record InjectTxs := mkInjectTxs { it_Txs : list Transaction; it_ToShardID : Z }.
Record BlockInfoMsg := mkBlockInfoMsg {
  bim_BlockBodyLength : Z;
  bim_ExcutedTxs : list Transaction;
  bim_Epoch : Z;
  bim_ProposeTime : Z;
  bim_CommitTime : Z;
  bim_SenderShardID : Z;
  bim_Relay1TxNum : Z;
  bim_Relay1Txs : list Transaction;
  bim_Broker1TxNum : Z;
  bim_Broker1Txs : list Transaction;
  bim_Broker2TxNum : Z;
  bim_Broker2Txs : list Transaction }.
Record SeqIDinfo := mkSeqIDinfo { si_SenderShardID : Z; si_SenderSeq : Z }.
(** message/message_relay.go *)
Record Relay := mkRelay { rl_Txs : list Transaction; rl_SenderShardID : Z; rl_SenderSeq : Z }.
Record RelayUTXO := mkRelayUTXO {
  ru_Txs : list UTXOTransaction; ru_SenderShardID : Z; ru_SenderSeq : Z }.
(** message/message_CLPA.go *)
Record PartitionModifiedMap := mkPartitionModifiedMap { pm_PartitionModified : gmap string Z }.
Record AccountTransferMsg := mkAccountTransferMsg {
  atm_ModifiedMap : gmap string Z;
  atm_Addrs : list string;
  atm_AccountState : list AccountState;
  atm_ATid : Z }.
Record PartitionReady := mkPartitionReady { prd_FromShard : Z; prd_NowSeqID : Z }.
Record AccountStateAndTx := mkAccountStateAndTx {
  ast_Addrs : list string;
  ast_AccountState : list AccountState;
  ast_Txs : list Transaction;
  ast_FromShard : Z }.

(** message/message_broker.go *)
Record BrokerRawMeg := mkBrokerRawMeg {
  brm_Tx : Transaction;
  brm_Broker : string;
  brm_Hlock : Z;
  brm_Snonce : Z;
  brm_Bnonce : Z;
  brm_Signature : bytes }.
Record BrokerType1Meg := mkBrokerType1Meg {
  bt1_RawMeg : BrokerRawMeg; bt1_Hcurrent : Z; bt1_Broker : string }.
Record Mag1Confirm := mkMag1Confirm { mc1_Tx1Hash : bytes; mc1_RawMeg : BrokerRawMeg }.
Record BrokerType2Meg := mkBrokerType2Meg { bt2_RawMeg : BrokerRawMeg; bt2_Broker : string }.
Record Mag2Confirm := mkMag2Confirm { mc2_Tx2Hash : bytes; mc2_RawMeg : BrokerRawMeg }.
Record BrokerTxMap := mkBrokerTxMap { btm_BrokerTx2Broker12 : gmap string (list string) }.
Record InnerTx2CrossTx := mkInnerTx2CrossTx { ic_Txs : list Transaction }.

(** ** JSON: [json.Marshal] emits no raw newline, and [json.Unmarshal]
    accepts white space after the value (here the frame's delimiter). *)
Class Json (A : Type) := { json_enc : A -> bytes; json_dec : bytes -> option A }.
Class JsonLaws (A : Type) {J : Json A} : Prop := {
  json_dec_enc : forall x : A, json_dec (json_enc x) = Some x;
  json_dec_frame : forall x : A, json_dec (frame (json_enc x)) = Some x;
  json_no_newline : forall x : A, ball not_newline (json_enc x) = true }.

Definition countable_json A `{Countable A} : Json A :=
  {| json_enc x := pos_str (encode x); json_dec s := decode (str_pos s) |}.

Lemma str_pos_frame p : str_pos (frame (pos_str p)) = p.
Proof. unfold frame. induction p as [p IH|p IH|]; cbn; [by rewrite IH|by rewrite IH|done]. Qed.

Lemma countable_json_laws A `{Countable A} : @JsonLaws A (countable_json A).
Proof.
  split; intros x; cbn [json_enc json_dec countable_json].
  - by rewrite str_pos_str, decode_encode.
  - by rewrite str_pos_frame, decode_encode.
  - induction (encode x); cbn; auto.
Qed.

(** ** Facts on byte sequences *)
Lemma bapp_assoc (a b c : bytes) : (a +:+ b) +:+ c = a +:+ (b +:+ c).
Proof. induction a; cbn; congruence. Qed.
Lemma bapp_nil_r (a : bytes) : a +:+ "" = a.
Proof. induction a; cbn; congruence. Qed.
Lemma bapp_length (a b : bytes) :
  String.length (a +:+ b) = (String.length a + String.length b)%nat.
Proof. induction a; cbn; congruence. Qed.
Lemma bzeros_length n : String.length (bzeros n) = n.
Proof. induction n; cbn; congruence. Qed.
Lemma btake_app (a b : bytes) : btake (String.length a) (a +:+ b) = a.
Proof. induction a; cbn; [by destruct b|congruence]. Qed.
Lemma bdrop_app (a b : bytes) : bdrop (String.length a) (a +:+ b) = b.
Proof. induction a; cbn; [by destruct b|congruence]. Qed.
Lemma bfilter_app f (a b : bytes) : bfilter f (a +:+ b) = bfilter f a +:+ bfilter f b.
Proof. induction a as [|c a IH]; cbn; [done|]. destruct (f c); cbn; congruence. Qed.
Lemma bfilter_all f (a : bytes) : ball f a = true -> bfilter f a = a.
Proof.
  induction a as [|c a IH]; cbn; [done|]. intros [-> H]%andb_true_iff. by rewrite IH.
Qed.
Lemma bfilter_zeros n : bfilter nonzero (bzeros n) = "".
Proof. by induction n. Qed.
Lemma ball_zeros n : ball not_newline (bzeros n) = true.
Proof. by induction n. Qed.
Lemma ball_app f (a b : bytes) : ball f (a +:+ b) = ball f a && ball f b.
Proof. induction a as [|c a IH]; cbn; [done|]. by rewrite IH, andb_assoc. Qed.

Lemma read_frames_acc acc m s :
  ball not_newline m = true ->
  read_frames acc (m +:+ String newline s) = (acc +:+ frame m) :: read_frames "" s.
Proof.
  unfold frame. revert acc. induction m as [|c m IH]; intros acc Hm; cbn in *.
  - done.
  - apply andb_true_iff in Hm as [Hc Hm]. unfold not_newline in Hc.
    apply negb_true_iff in Hc. rewrite Hc, IH by done. by rewrite bapp_assoc.
Qed.

Lemma read_stream l : Forall (fun m => ball not_newline m = true) l ->
  read_frames "" (foldr (fun m s => frame m +:+ s) "" l) = frame <$> l.
Proof.
  induction 1 as [|m l Hm _ IH]; [done|]. cbn [foldr fmap list_fmap]. unfold frame at 1.
  rewrite bapp_assoc. change (String newline "" +:+ ?s) with (String newline s).
  rewrite read_frames_acc by done. cbn. by f_equal.
Qed.

Definition type_ok (t : MessageType) : Prop :=
  (String.length t <= prefixMSGtypeLen)%nat /\ ball nonzero t = true /\ ball not_newline t = true.

Lemma SplitMessage_MergeMessage t c m :
  type_ok t -> MergeMessage t c = Ret m -> SplitMessage m = Ret (t, c).
Proof.
  intros (Hlen & Hnz & _) Hm. unfold MergeMessage in Hm. case_match; [|done]. inv_res.
  rewrite <- bapp_assoc. set (pre := t +:+ _).
  assert (Hpre : String.length pre = prefixMSGtypeLen)
    by (unfold pre; rewrite bapp_length, bzeros_length; lia).
  unfold SplitMessage. rewrite bapp_length, Hpre.
  destruct (Nat.leb_spec prefixMSGtypeLen (prefixMSGtypeLen + String.length c)); [|lia].
  rewrite <- Hpre, btake_app, bdrop_app. unfold pre.
  by rewrite bfilter_app, bfilter_zeros, bapp_nil_r, bfilter_all.
Qed.

Lemma MergeMessage_ok t c : type_ok t -> is_Ret (MergeMessage t c).
Proof.
  intros (Hlen & _). unfold MergeMessage.
  destruct (Nat.leb_spec (String.length t) prefixMSGtypeLen); [apply is_Ret_intro|lia].
Qed.

Lemma type_ok_dec t :
  (String.length t <=? prefixMSGtypeLen)%nat && ball nonzero t && ball not_newline t = true ->
  type_ok t.
Proof.
  intros [[H1 H2]%andb_true_iff H3]%andb_true_iff. split; [by apply Nat.leb_le|done].
Qed.

Lemma message_types_ok t : t ∈ message_types -> type_ok t.
Proof.
  intros Ht. apply type_ok_dec.
  assert (H : forallb (fun t => (String.length t <=? prefixMSGtypeLen)%nat && ball nonzero t
      && ball not_newline t) message_types = true) by (vm_compute; reflexivity).
  rewrite forallb_forall in H. apply H. by apply list_elem_of_In.
Qed.

(** ** Decidable equality, codes and the JSON codecs of the messages *)
#[export] Instance Node_eq_dec : EqDecision Node.
Proof. solve_decision. Defined.
#[export] Instance Request_eq_dec : EqDecision Request.
Proof. solve_decision. Defined.
#[export] Instance Propose_eq_dec : EqDecision Propose.
Proof. solve_decision. Defined.
#[export] Instance Vote_eq_dec : EqDecision Vote.
Proof. solve_decision. Defined.
#[export] Instance PrePrepare_eq_dec : EqDecision PrePrepare.
Proof. solve_decision. Defined.
#[export] Instance Prepare_eq_dec : EqDecision Prepare.
Proof. solve_decision. Defined.
#[export] Instance Commit_eq_dec : EqDecision Commit.
Proof. solve_decision. Defined.
#[export] Instance RequestOldMessage_eq_dec : EqDecision RequestOldMessage.
Proof. solve_decision. Defined.
#[export] Instance SendOldMessage_eq_dec : EqDecision SendOldMessage.
Proof. solve_decision. Defined.
#[export] Instance InjectTxs_eq_dec : EqDecision InjectTxs.
Proof. solve_decision. Defined.
#[export] Instance BlockInfoMsg_eq_dec : EqDecision BlockInfoMsg.
Proof. solve_decision. Defined.
#[export] Instance SeqIDinfo_eq_dec : EqDecision SeqIDinfo.
Proof. solve_decision. Defined.
#[export] Instance Relay_eq_dec : EqDecision Relay.
Proof. solve_decision. Defined.
#[export] Instance RelayUTXO_eq_dec : EqDecision RelayUTXO.
Proof. solve_decision. Defined.
#[export] Instance PartitionModifiedMap_eq_dec : EqDecision PartitionModifiedMap.
Proof. solve_decision. Defined.
#[export] Instance AccountTransferMsg_eq_dec : EqDecision AccountTransferMsg.
Proof. solve_decision. Defined.
#[export] Instance PartitionReady_eq_dec : EqDecision PartitionReady.
Proof. solve_decision. Defined.
#[export] Instance AccountStateAndTx_eq_dec : EqDecision AccountStateAndTx.
Proof. solve_decision. Defined.
#[export] Instance BrokerRawMeg_eq_dec : EqDecision BrokerRawMeg.
Proof. solve_decision. Defined.
#[export] Instance InnerTx2CrossTx_eq_dec : EqDecision InnerTx2CrossTx.
Proof. solve_decision. Defined.
#[export] Instance BrokerRawMeg_countable : Countable BrokerRawMeg.
Proof.
  refine (inj_countable' (fun r => (brm_Tx r, brm_Broker r, brm_Hlock r, brm_Snonce r, brm_Bnonce r, brm_Signature r))
    (fun '(x0, x1, x2, x3, x4, x5) => mkBrokerRawMeg x0 x1 x2 x3 x4 x5) _); by intros [].
Defined.
#[export] Instance InnerTx2CrossTx_countable : Countable InnerTx2CrossTx.
Proof. refine (inj_countable' ic_Txs mkInnerTx2CrossTx _); by intros []. Defined.
#[export] Instance Node_countable : Countable Node.
Proof.
  refine (inj_countable' (fun r => (nd_NodeID r, nd_ShardID r, nd_IPaddr r))
    (fun '(x0, x1, x2) => mkNode x0 x1 x2) _); by intros [].
Defined.
#[export] Instance Request_countable : Countable Request.
Proof.
  refine (inj_countable' (fun r => (req_RequestType r, req_Msg r, req_ReqTime r))
    (fun '(x0, x1, x2) => mkRequest x0 x1 x2) _); by intros [].
Defined.
#[export] Instance Propose_countable : Countable Propose.
Proof.
  refine (inj_countable' (fun r => (pr_RequestMsg r, pr_Digest r, pr_SeqID r))
    (fun '(x0, x1, x2) => mkPropose x0 x1 x2) _); by intros [].
Defined.
#[export] Instance Vote_countable : Countable Vote.
Proof.
  refine (inj_countable' (fun r => (vt_RequestMsg r, vt_Digest r, vt_SeqID r, vt_SenderNode r))
    (fun '(x0, x1, x2, x3) => mkVote x0 x1 x2 x3) _); by intros [].
Defined.
#[export] Instance PrePrepare_countable : Countable PrePrepare.
Proof.
  refine (inj_countable' (fun r => (pp_RequestMsg r, pp_Digest r, pp_SeqID r))
    (fun '(x0, x1, x2) => mkPrePrepare x0 x1 x2) _); by intros [].
Defined.
#[export] Instance Prepare_countable : Countable Prepare.
Proof.
  refine (inj_countable' (fun r => (p_Digest r, p_SeqID r, p_SenderNode r))
    (fun '(x0, x1, x2) => mkPrepare x0 x1 x2) _); by intros [].
Defined.
#[export] Instance Commit_countable : Countable Commit.
Proof.
  refine (inj_countable' (fun r => (c_Digest r, c_SeqID r, c_SenderNode r))
    (fun '(x0, x1, x2) => mkCommit x0 x1 x2) _); by intros [].
Defined.
#[export] Instance RequestOldMessage_countable : Countable RequestOldMessage.
Proof.
  refine (inj_countable' (fun r => (ro_SeqStartHeight r, ro_SeqEndHeight r, ro_ServerNode r, ro_SenderNode r))
    (fun '(x0, x1, x2, x3) => mkRequestOldMessage x0 x1 x2 x3) _); by intros [].
Defined.
#[export] Instance SendOldMessage_countable : Countable SendOldMessage.
Proof.
  refine (inj_countable' (fun r => (so_SeqStartHeight r, so_SeqEndHeight r, so_OldRequest r, so_SenderNode r))
    (fun '(x0, x1, x2, x3) => mkSendOldMessage x0 x1 x2 x3) _); by intros [].
Defined.
#[export] Instance InjectTxs_countable : Countable InjectTxs.
Proof.
  refine (inj_countable' (fun r => (it_Txs r, it_ToShardID r))
    (fun '(x0, x1) => mkInjectTxs x0 x1) _); by intros [].
Defined.
#[export] Instance BlockInfoMsg_countable : Countable BlockInfoMsg.
Proof.
  refine (inj_countable' (fun r => (bim_BlockBodyLength r, bim_ExcutedTxs r, bim_Epoch r, bim_ProposeTime r, bim_CommitTime r, bim_SenderShardID r,
     (bim_Relay1TxNum r, bim_Relay1Txs r, bim_Broker1TxNum r, bim_Broker1Txs r, bim_Broker2TxNum r, bim_Broker2Txs r)))
    (fun '(x0, x1, x2, x3, x4, x5, (x6, x7, x8, x9, x10, x11)) => mkBlockInfoMsg x0 x1 x2 x3 x4 x5 x6 x7 x8 x9 x10 x11) _); by intros [].
Defined.
#[export] Instance SeqIDinfo_countable : Countable SeqIDinfo.
Proof.
  refine (inj_countable' (fun r => (si_SenderShardID r, si_SenderSeq r))
    (fun '(x0, x1) => mkSeqIDinfo x0 x1) _); by intros [].
Defined.
#[export] Instance Relay_countable : Countable Relay.
Proof.
  refine (inj_countable' (fun r => (rl_Txs r, rl_SenderShardID r, rl_SenderSeq r))
    (fun '(x0, x1, x2) => mkRelay x0 x1 x2) _); by intros [].
Defined.
#[export] Instance RelayUTXO_countable : Countable RelayUTXO.
Proof.
  refine (inj_countable' (fun r => (ru_Txs r, ru_SenderShardID r, ru_SenderSeq r))
    (fun '(x0, x1, x2) => mkRelayUTXO x0 x1 x2) _); by intros [].
Defined.
#[export] Instance PartitionModifiedMap_countable : Countable PartitionModifiedMap.
Proof.
  refine (inj_countable' (fun r => pm_PartitionModified r)
    (fun x0 => mkPartitionModifiedMap x0) _); by intros [].
Defined.
#[export] Instance AccountTransferMsg_countable : Countable AccountTransferMsg.
Proof.
  refine (inj_countable' (fun r => (atm_ModifiedMap r, atm_Addrs r, atm_AccountState r, atm_ATid r))
    (fun '(x0, x1, x2, x3) => mkAccountTransferMsg x0 x1 x2 x3) _); by intros [].
Defined.
#[export] Instance PartitionReady_countable : Countable PartitionReady.
Proof.
  refine (inj_countable' (fun r => (prd_FromShard r, prd_NowSeqID r))
    (fun '(x0, x1) => mkPartitionReady x0 x1) _); by intros [].
Defined.
#[export] Instance AccountStateAndTx_countable : Countable AccountStateAndTx.
Proof.
  refine (inj_countable' (fun r => (ast_Addrs r, ast_AccountState r, ast_Txs r, ast_FromShard r))
    (fun '(x0, x1, x2, x3) => mkAccountStateAndTx x0 x1 x2 x3) _); by intros [].
Defined.

Class MsgCodecs := {
  #[global] mc_Request :: Json Request;
  #[global] mc_Propose :: Json Propose;
  #[global] mc_Vote :: Json Vote;
  #[global] mc_PrePrepare :: Json PrePrepare;
  #[global] mc_Prepare :: Json Prepare;
  #[global] mc_Commit :: Json Commit;
  #[global] mc_RequestOldMessage :: Json RequestOldMessage;
  #[global] mc_SendOldMessage :: Json SendOldMessage;
  #[global] mc_InjectTxs :: Json InjectTxs;
  #[global] mc_BlockInfoMsg :: Json BlockInfoMsg;
  #[global] mc_SeqIDinfo :: Json SeqIDinfo;
  #[global] mc_Relay :: Json Relay;
  #[global] mc_RelayUTXO :: Json RelayUTXO;
  #[global] mc_PartitionModifiedMap :: Json PartitionModifiedMap;
  #[global] mc_PartitionReady :: Json PartitionReady;
  #[global] mc_AccountStateAndTx :: Json AccountStateAndTx;
  #[global] mc_BrokerRawMeg :: Json BrokerRawMeg;
  #[global] mc_InnerTx2CrossTx :: Json InnerTx2CrossTx;
  (** gob-encoded, in [message_CLPA.go] *)
  #[global] mc_AccountTransferMsg :: Codec AccountTransferMsg }.

Class MsgCodecsLaws {MC : MsgCodecs} : Prop := {
  #[global] ml_Request :: JsonLaws Request;
  #[global] ml_Propose :: JsonLaws Propose;
  #[global] ml_Vote :: JsonLaws Vote;
  #[global] ml_PrePrepare :: JsonLaws PrePrepare;
  #[global] ml_Prepare :: JsonLaws Prepare;
  #[global] ml_Commit :: JsonLaws Commit;
  #[global] ml_RequestOldMessage :: JsonLaws RequestOldMessage;
  #[global] ml_SendOldMessage :: JsonLaws SendOldMessage;
  #[global] ml_InjectTxs :: JsonLaws InjectTxs;
  #[global] ml_BlockInfoMsg :: JsonLaws BlockInfoMsg;
  #[global] ml_SeqIDinfo :: JsonLaws SeqIDinfo;
  #[global] ml_Relay :: JsonLaws Relay;
  #[global] ml_RelayUTXO :: JsonLaws RelayUTXO;
  #[global] ml_PartitionModifiedMap :: JsonLaws PartitionModifiedMap;
  #[global] ml_PartitionReady :: JsonLaws PartitionReady;
  #[global] ml_AccountStateAndTx :: JsonLaws AccountStateAndTx;
  #[global] ml_BrokerRawMeg :: JsonLaws BrokerRawMeg;
  #[global] ml_InnerTx2CrossTx :: JsonLaws InnerTx2CrossTx;
  #[global] ml_AccountTransferMsg :: CodecLaws AccountTransferMsg }.

Module RefJson.
#[export] Instance codecs : MsgCodecs := {|
  mc_Request := countable_json _;
  mc_Propose := countable_json _;
  mc_Vote := countable_json _;
  mc_PrePrepare := countable_json _;
  mc_Prepare := countable_json _;
  mc_Commit := countable_json _;
  mc_RequestOldMessage := countable_json _;
  mc_SendOldMessage := countable_json _;
  mc_InjectTxs := countable_json _;
  mc_BlockInfoMsg := countable_json _;
  mc_SeqIDinfo := countable_json _;
  mc_Relay := countable_json _;
  mc_RelayUTXO := countable_json _;
  mc_PartitionModifiedMap := countable_json _;
  mc_PartitionReady := countable_json _;
  mc_AccountStateAndTx := countable_json _;
  mc_BrokerRawMeg := countable_json _;
  mc_InnerTx2CrossTx := countable_json _;
  mc_AccountTransferMsg := countable_codec _ |}.
#[export] Instance laws : MsgCodecsLaws.
Proof. split; first [apply countable_json_laws|apply countable_codec_laws]. Qed.
End RefJson.

(** What [ReadBytes] hands over is the message of the framed content. *)
Lemma MergeMessage_frame t c m : MergeMessage t c = Ret m -> MergeMessage t (frame c) = Ret (frame m).
Proof. unfold MergeMessage, frame. case_match; [|done]. intros Hm. inv_res. by rewrite !bapp_assoc. Qed.

(** ** Properties *)

(** Every message type of the program survives the wire.  A message
    built by [MergeMessage] never panics, [SplitMessage] gives back its type
    and content, and no two kinds of messages share a type, so a receiver
    dispatches on the kind the sender meant. *)
Theorem message_types_roundtrip :
  NoDup message_types /\
  forall t content, t ∈ message_types ->
    exists m, MergeMessage t content = Ret m /\ SplitMessage m = Ret (t, content).
Proof.
  split; [by apply (bool_decide_unpack _); vm_compute|].
  intros t c Ht. apply message_types_ok in Ht.
  destruct (MergeMessage_ok t c Ht) as [m Hm]. exists m. split; [done|].
  by eapply SplitMessage_MergeMessage.
Qed.

(** The stream [TcpDial] writes for a sequence of JSON messages is
    read back by [ReadBytes('\n')] as those messages, in order and with their
    boundaries, each followed by its newline; and the content the receiver
    hands to [json.Unmarshal] decodes to the value sent. *)
Theorem framing_roundtrip {A} `{JsonLaws A} t (l : list A) (ms : list bytes) :
  t ∈ message_types ->
  Forall2 (fun x m => MergeMessage t (json_enc x) = Ret m) l ms ->
  read_frames "" (foldr (fun m s => frame m +:+ s) "" ms) = frame <$> ms /\
  Forall2 (fun x m => exists c, SplitMessage (frame m) = Ret (t, c) /\ json_dec c = Some x) l ms.
Proof.
  intros Ht%message_types_ok Hl. split.
  - apply read_stream. induction Hl as [|x m l ms Hm Hl IH]; constructor; [|done].
    unfold MergeMessage in Hm. case_match; [|done]. inv_res.
    rewrite !ball_app, json_no_newline, andb_true_r. destruct Ht as (_ & _ & ->).
    apply ball_zeros.
  - refine (list.Forall2_impl _ _ _ _ Hl _). intros x m Hm. exists (frame (json_enc x)). split; [|apply json_dec_frame].
    apply SplitMessage_MergeMessage; [done|]. by apply MergeMessage_frame.
Qed.

Lemma framing_roundtrip_witness :
  let l := [mkSeqIDinfo 1 10; mkSeqIDinfo 2 7] in
  let ms := (fun x => CSeqIDinfo +:+ bzeros 20 +:+ json_enc (Json := RefJson.codecs.(mc_SeqIDinfo)) x) <$> l in
  read_frames "" (foldr (fun m s => frame m +:+ s) "" ms) = frame <$> ms.
Proof.
  intros l ms.
  refine (proj1 (framing_roundtrip (J := RefJson.codecs.(mc_SeqIDinfo)) CSeqIDinfo l ms _ _)).
  - apply RefJson.laws.
  - apply (bool_decide_unpack _). reflexivity.
  - repeat constructor.
Defined.
