(* ===== verification/StorageDB.v ===== *)
(** * StorageDB: src/storage/storage.go

    The block store: four buckets of a bolt database.  A method that returns
    [(value, error)] returns [inl message] for an error. *)
From stdpp Require Import base gmap strings list countable pretty.
From Stdlib Require Import ZArith Lia.
From S2P Require Import Prelude GoStd Libs Core Pools.

Section storage.
Context {BL : BoltLib} {HL : Sha256} {CC : CoreCodecs}.

Record Storage := mkStorage {
  dbFilePath : string;
  blockBucket : bytes;
  blockHeaderBucket : bytes;
  newestBlockHashBucket : bytes;
  UTXOBucket : bytes;
  DataBase : BoltDB }.
#[global] Instance Storage_eta : Eta Storage := fun r =>
  mkStorage (dbFilePath r) (blockBucket r) (blockHeaderBucket r) (newestBlockHashBucket r)
    (UTXOBucket r) (DataBase r).

(** [db] is the database [bolt.Open] returns for the path. *)
Definition NewStorage (cc : ChainConfig) (db : BoltDB) : res Storage :=
  let s := mkStorage
    ("./record/" +:+ pretty (ShardID cc) +:+ "_" +:+ pretty (NodeID cc) +:+ "_database")
    "block" "blockHeader" "newestBlockHash" "utxo" db in
  db ← must (bolt_CreateBucketIfNotExists db (blockBucket s));
  db ← must (bolt_CreateBucketIfNotExists db (blockHeaderBucket s));
  db ← must (bolt_CreateBucketIfNotExists db (newestBlockHashBucket s));
  db ← must (bolt_CreateBucketIfNotExists db (UTXOBucket s));
  Ret (s <| DataBase := db |>).

Definition OnlyNewestBlock : bytes := "OnlyNewestBlock".

Definition UpdateNewestBlock (newestbhash : bytes) (s : Storage) : res Storage :=
  db ← must (bolt_Put (DataBase s) (newestBlockHashBucket s) OnlyNewestBlock newestbhash);
  Ret (s <| DataBase := db |>).

Definition AddBlockHeader (blockhash : bytes) (bh : BlockHeader) (s : Storage) : res Storage :=
  db ← must (bolt_Put (DataBase s) (blockHeaderBucket s) blockhash (enc bh));
  Ret (s <| DataBase := db |>).

Definition Storage_AddBlock (b : Block) (s : Storage) : res Storage :=
  db ← must (bolt_Put (DataBase s) (blockBucket s) (b_Hash b) (enc b));
  s ← AddBlockHeader (b_Hash b) (b_Header b) (s <| DataBase := db |>);
  UpdateNewestBlock (b_Hash b) s.

Definition GetBlockHeader (bhash : bytes) (s : Storage) : res (string + BlockHeader) :=
  bh_encoded ← must (bolt_Get (DataBase s) (blockHeaderBucket s) bhash);
  match bh_encoded with
  | None => Ret (inl "the block is not existed")
  | Some e => bh ← must (dec e); Ret (inr bh)
  end.

Definition GetBlock (bhash : bytes) (s : Storage) : res (string + Block) :=
  b_encoded ← must (bolt_Get (DataBase s) (blockBucket s) bhash);
  match b_encoded with
  | None => Ret (inl "the block is not existed")
  | Some e => b ← must (dec e); Ret (inr b)
  end.

Definition GetNewestBlockHash (s : Storage) : res (string + bytes) :=
  nhb ← must (bolt_Get (DataBase s) (newestBlockHashBucket s) OnlyNewestBlock);
  match nhb with
  | None => Ret (inl "cannot find the newest block hash")
  | Some h => Ret (inr h)
  end.

(** ** The invariant of a store: [NewStorage]'s four distinct buckets exist. *)
Record storage_ok (s : Storage) : Prop := {
  so_distinct : NoDup [blockBucket s; blockHeaderBucket s; newestBlockHashBucket s; UTXOBucket s];
  so_block : has_bucket (DataBase s) (blockBucket s);
  so_header : has_bucket (DataBase s) (blockHeaderBucket s);
  so_newest : has_bucket (DataBase s) (newestBlockHashBucket s);
  so_utxo : has_bucket (DataBase s) (UTXOBucket s) }.

(** What [bolt] accepts as a stored block. *)
Definition storable (b : Block) : Prop :=
  bolt_key_ok (b_Hash b) /\ bolt_val_ok (enc b) /\ bolt_val_ok (enc (b_Header b)).

Context {BW : BoltLaws BL} {CL : CoreCodecsLaws}.

Lemma NewStorage_ok cc db s : NewStorage cc db = Ret s -> storage_ok s.
Proof.
  unfold NewStorage. intros H. inv_res. cbn in *.
  split; cbn; [apply (bool_decide_unpack _); vm_compute; done|..];
    eauto 10 using create_has_bucket.
Qed.

(** The effect of adding a block on every key of the store. *)
Lemma Storage_AddBlock_get b s s' :
  storage_ok s -> Storage_AddBlock b s = Ret s' ->
  s' = s <| DataBase := DataBase s' |> /\ storage_ok s' /\
  (forall bkt k, bolt_Get (DataBase s') bkt k =
     if decide (bkt = blockBucket s /\ k = b_Hash b) then Some (Some (enc b))
     else if decide (bkt = blockHeaderBucket s /\ k = b_Hash b) then
       Some (Some (enc (b_Header b)))
     else if decide (bkt = newestBlockHashBucket s /\ k = OnlyNewestBlock) then
       Some (Some (b_Hash b))
     else bolt_Get (DataBase s) bkt k).
Proof.
  intros [Hd H1 H2 H3 H4]. unfold Storage_AddBlock, AddBlockHeader, UpdateNewestBlock.
  intros H. inv_res. cbn in *.
  split; [done|]. split; [split; cbn; eauto 10 using put_has_bucket|].
  rewrite !NoDup_cons in Hd. destruct Hd as (Hn1 & Hn2 & Hn3 & _).
  - intros bkt k. repeat case_decide; destruct_and?; subst;
      repeat first
        [ erewrite put_get_eq by done; reflexivity
        | erewrite put_get_ne by (done || (intros [=]; subst; set_solver)) ]; done.
Qed.

Lemma Storage_AddBlock_total {LV : BoltLive BL} b s :
  storage_ok s -> storable b -> is_Ret (Storage_AddBlock b s).
Proof.
  intros [Hd H1 H2 H3 H4] (Hk & Hv & Hh). unfold Storage_AddBlock.
  destruct (put_ok (DataBase s) (blockBucket s) (b_Hash b) (enc b)) as [d1 E1]; [done..|].
  rewrite E1. cbn. unfold AddBlockHeader. cbn.
  destruct (put_ok d1 (blockHeaderBucket s) (b_Hash b) (enc (b_Header b))) as [d2 E2];
    [by eapply put_has_bucket|done..|].
  rewrite E2. cbn. unfold UpdateNewestBlock. cbn.
  destruct (put_ok d2 (newestBlockHashBucket s) OnlyNewestBlock (b_Hash b)) as [d3 E3].
  - eapply put_has_bucket; [done|]. by eapply put_has_bucket.
  - unfold bolt_key_ok. cbn. lia.
  - unfold bolt_key_ok, bolt_val_ok in *. lia.
  - rewrite E3. apply is_Ret_intro.
Qed.

Lemma GetBlock_spec h s :
  storage_ok s ->
  GetBlock h s = match bolt_Get (DataBase s) (blockBucket s) h with
                 | Some (Some e) => match dec e with Some b => Ret (inr b) | None => Panic end
                 | _ => Ret (inl "the block is not existed"%string)
                 end.
Proof.
  intros Hs. destruct (so_block _ Hs h) as [o Ho]. unfold GetBlock. rewrite Ho. cbn.
  destruct o as [e|]; [|done]. by destruct (dec e).
Qed.

Lemma storage_ok_ne s :
  storage_ok s ->
  blockBucket s <> blockHeaderBucket s /\ blockBucket s <> newestBlockHashBucket s /\
  blockHeaderBucket s <> newestBlockHashBucket s.
Proof.
  intros [Hd _ _ _ _]. rewrite !NoDup_cons in Hd. destruct Hd as (H1 & H2 & _).
  split_and!; intros E; [apply H1|apply H1|apply H2]; rewrite E; repeat constructor.
Qed.

(** ** Properties *)

(** The store is a faithful record.  Adding a storable block to a
    well-formed store succeeds; afterwards the block and its header are read
    back under its hash, the newest hash is its hash, and every other block
    is what it was. *)
Theorem AddBlock_roundtrip {LV : BoltLive BL} b s :
  storage_ok s -> storable b ->
  exists s', Storage_AddBlock b s = Ret s' /\ storage_ok s' /\
    GetBlock (b_Hash b) s' = Ret (inr b) /\
    GetBlockHeader (b_Hash b) s' = Ret (inr (b_Header b)) /\
    GetNewestBlockHash s' = Ret (inr (b_Hash b)) /\
    (forall h, h <> b_Hash b -> GetBlock h s' = GetBlock h s).
Proof.
  intros Hs Hb. destruct (Storage_AddBlock_total b s Hs Hb) as [s' Hs'].
  exists s'. destruct (Storage_AddBlock_get b s s' Hs Hs') as (Heq & Hok & Hget).
  destruct (storage_ok_ne s Hs) as (Hn1 & Hn2 & Hn3).
  split; [done|]. split; [done|].
  unfold GetBlock, GetBlockHeader, GetNewestBlockHash. rewrite Heq. split_and!.
  - rewrite Hget. cbn. rewrite decide_True by done. cbn. by rewrite dec_enc.
  - rewrite Hget. cbn. rewrite decide_False, decide_True by (done || intros []; congruence).
    cbn. by rewrite dec_enc.
  - rewrite Hget. cbn. by rewrite !decide_False, decide_True by (done || intros []; congruence).
  - intros h Hh. rewrite Hget. cbn. by rewrite !decide_False by (intros []; congruence).
Qed.
End storage.
Arguments Storage {BL}.

(** *** A concrete store *)
Module RefStorage.
#[export] Existing Instance RefBolt.lib.
#[export] Existing Instance RefBolt.laws.
#[export] Existing Instance RefBolt.live.
#[export] Existing Instance RefCodecs.codecs.
#[export] Existing Instance RefCodecs.laws.

Definition config : ChainConfig :=
  {| ChainID := 0; NodeID := 0; ShardID := 0; Nodes_perShard := 4; ShardNums := 2;
     BlockSize := 3; BlockInterval := 1; cc_InjectSpeed := 1; MaxRelayBlockSize := 0 |}.
Definition store : Storage :=
  match NewStorage config ∅ with
  | Ret s => s
  | _ => mkStorage "" "" "" "" "" (∅ : BoltDB)
  end.
Definition block : Block :=
  mkBlock (zero_BlockHeader <| bh_Number := 1 |>) [sample_tx "a" "b" 5 "h1"] [] "hash1".
End RefStorage.

Import RefStorage.
Lemma AddBlock_roundtrip_witness :
  exists s', Storage_AddBlock RefStorage.block RefStorage.store = Ret s' /\
    GetNewestBlockHash s' = Ret (inr "hash1"%string) /\
    GetBlock "hash1" s' = Ret (inr RefStorage.block).
Proof.
  destruct (AddBlock_roundtrip RefStorage.block RefStorage.store) as (s' & H1 & _ & H2 & _ & H3 & _).
  - apply (NewStorage_ok RefStorage.config ∅). reflexivity.
  - unfold storable, bolt_key_ok, bolt_val_ok. vm_compute. intuition congruence.
  - exists s'. split; [exact H1|]. split; [exact H3|exact H2].
Defined.
