(* ===== verification/Chain.v ===== *)
(** * Chain: src/chain/blockchain.go, the account model

    A [BlockChain] owns the trie database of the account states, the block
    store, the two pools and the partition map.  A method with side effects
    returns the new [BlockChain]; a nil [triedb] is [None].  [now] is
    [time.Now()]. *)
From stdpp Require Import base gmap strings list countable.
From Stdlib Require Import ZArith Lia.
From S2P Require Import Prelude GoStd Libs Core Pools StorageDB.

(** [for i, x := range l] *)
Definition indexed {A} (l : list A) : list (Z * A) := imap (fun i x => (Z.of_nat i, x)) l.

Section chain.
Context (P : Params).
Context {TL : TrieLib} {BL : BoltLib} {HL : Sha256} {CC : CoreCodecs}.

Record BlockChain := mkBlockChain {
  bc_db : EthDB;
  bc_triedb : option TrieDB;
  bc_ChainConfig : ChainConfig;
  bc_CurrentBlock : Block;
  bc_Storage : Storage;
  bc_Txpool : Pool Transaction;
  bc_UTXOTxpool : Pool UTXOTransaction;
  bc_PartitionMap : gmap string Z;
  bc_UTXOStateRoot : bytes }.
#[global] Instance BlockChain_eta : Eta BlockChain := fun r =>
  mkBlockChain (bc_db r) (bc_triedb r) (bc_ChainConfig r) (bc_CurrentBlock r) (bc_Storage r)
    (bc_Txpool r) (bc_UTXOTxpool r) (bc_PartitionMap r) (bc_UTXOStateRoot r).

(** ** Transaction roots *)
Definition GetTxTreeRoot (txs : list Transaction) : bytes :=
  trie_Hash (foldl (fun t tx => trie_Update t (tx_TxHash tx) (enc tx))
               (trie_NewEmpty triedb_mem) txs).

Definition GetUTXOTxTreeRoot (txs : list UTXOTransaction) : bytes :=
  trie_Hash (foldl (fun t tx => trie_Update t (utx_TxHash tx) (enc tx))
               (trie_NewEmpty triedb_mem) txs).

(** ** The partition map *)
Definition Update_PartitionMap (key : string) (val : Z) (bc : BlockChain) : BlockChain :=
  bc <| bc_PartitionMap ::= <[key := val]> |>.

Definition Get_PartitionMap (key : string) (bc : BlockChain) : res Z :=
  match bc_PartitionMap bc !! key with
  | None => s ← Addr2Shard P key; Ret (u64 s)
  | Some v => Ret v
  end.

Definition SendTx2Pool (now : Z) (txs : list Transaction) (bc : BlockChain) : BlockChain :=
  bc <| bc_Txpool ::= TxPool_AddTxs2Pool now txs |>.

(** ** [GetUpdateStatusTrie]: execution of a block's transactions *)

(** The account of an address, or a new one with the initial balance. *)
Definition load_account (st : Trie) (addr : string) (nonce : Z) : res AccountState :=
  match trie_Get st addr with
  | None => Ret (mkAccountState "" nonce (0 + Init_Balance) "" "")
  | Some e => must (dec e)
  end.

(** The recipient's half of the loop body. *)
Definition exec_recipient (bc : BlockChain) (i : Z) (tx : Transaction) (st : Trie) (cnt : Z) :
    res (Trie * Z) :=
  rsid ← Get_PartitionMap (tx_Recipient tx) bc;
  if (rsid =? ShardID (bc_ChainConfig bc)) || tx_HasBroker tx then
    r_state ← load_account st (tx_Recipient tx) (u64 i);
    let r_state := Deposit r_state (tx_Value tx) in
    Ret (trie_Update st (tx_Recipient tx) (enc r_state), cnt + 1)
  else Ret (st, cnt).

(** The loop body; [continue] when the sender's balance is too small. *)
Definition exec_tx (bc : BlockChain) (sc : Trie * Z) (itx : Z * Transaction) : res (Trie * Z) :=
  let '(st, cnt) := sc in
  let '(i, tx) := itx in
  senderIn ← (if negb (tx_Relayed tx) then
                ssid ← Get_PartitionMap (tx_Sender tx) bc;
                Ret ((ssid =? ShardID (bc_ChainConfig bc)) || tx_HasBroker tx)
              else Ret false);
  if (senderIn : bool) then
    s_state ← load_account st (tx_Sender tx) (u64 i);
    if as_Balance s_state <? tx_Value tx then Ret (st, cnt)
    else
      let '(_, s_state) := Deduct s_state (tx_Value tx) in
      exec_recipient bc i tx (trie_Update st (tx_Sender tx) (enc s_state)) (cnt + 1)
  else exec_recipient bc i tx st cnt.

(** [common.BytesToHash(bc.CurrentBlock.Header.StateRoot)] *)
Definition state_root (bc : BlockChain) : bytes :=
  BytesToHash (bh_StateRoot (b_Header (bc_CurrentBlock bc))).

Definition GetUpdateStatusTrie (txs : list Transaction) (bc : BlockChain) :
    res (bytes * BlockChain) :=
  if (length txs =? 0)%nat then Ret (state_root bc, bc)
  else
    td ← must (bc_triedb bc);
    st ← must (trie_New (state_root bc) td);
    '(st, cnt) ← foldM (exec_tx bc) (st, 0) (indexed txs);
    if cnt =? 0 then Ret (state_root bc, bc)
    else
      let '(rt, ns) := trie_Commit st in
      td ← must (triedb_Update td ns);
      td ← must (triedb_Commit td rt);
      Ret (rt, bc <| bc_triedb := Some td |>).

(** ** Blocks *)
Definition GenerateBlock (now : Z) (bc : BlockChain) : res (Block * BlockChain) :=
  let bh := zero_BlockHeader
    <| bh_ParentBlockHash := b_Hash (bc_CurrentBlock bc) |>
    <| bh_Number := u64 (bh_Number (b_Header (bc_CurrentBlock bc)) + 1) |>
    <| bh_Time := now |> in
  '(b, bc) ←
    (if UTXO P then
       let '(txs, pool) := UTXOTxPool_PackTxs (BlockSize (bc_ChainConfig bc)) (bc_UTXOTxpool bc) in
       let bc := bc <| bc_UTXOTxpool := pool |> in
       let bh := bh <| bh_TxRoot := GetUTXOTxTreeRoot txs |> in
       Ret (NewBlock bh [] txs, bc)
     else
       let '(txs, pool) := TxPool_PackTxs (BlockSize (bc_ChainConfig bc)) (bc_Txpool bc) in
       let bc := bc <| bc_Txpool := pool |> in
       '(rt, bc) ← GetUpdateStatusTrie txs bc;
       let bh := bh <| bh_StateRoot := rt |> <| bh_TxRoot := GetTxTreeRoot txs |> in
       Ret (NewBlock bh txs [] <| b_Header ::= fun h => h <| bh_Miner := 0 |> |>, bc));
  Ret (b <| b_Hash := BH_Hash (b_Header b) |>, bc).

Definition NewGenisisBlock (bc : BlockChain) : Block * BlockChain :=
  let bh := zero_BlockHeader <| bh_Number := 0 |> in
  let triedb := triedb_open (bc_db bc) in
  let bc := bc <| bc_triedb := Some triedb |> in
  let statusTrie := trie_NewEmpty triedb in
  let '(b, bc) :=
    if UTXO P then
      let bc := bc <| bc_UTXOStateRoot := trie_Hash statusTrie |> in
      (NewBlock (bh <| bh_TxRoot := GetUTXOTxTreeRoot [] |>) [] [], bc)
    else
      (NewBlock (bh <| bh_StateRoot := trie_Hash statusTrie |>
                    <| bh_TxRoot := GetTxTreeRoot [] |>) [] [], bc) in
  (b <| b_Hash := BH_Hash (b_Header b) |>, bc).

(** A result [(v, err)] whose error is a [log.Panic()]. *)
Definition must_ok {A} (r : res (string + A)) : res A :=
  x ← r; match x with inl _ => Panic | inr a => Ret a end.

Definition AddGenisisBlock (gb : Block) (bc : BlockChain) : res BlockChain :=
  s ← Storage_AddBlock gb (bc_Storage bc);
  newestHash ← must_ok (GetNewestBlockHash s);
  curb ← must_ok (GetBlock newestHash s);
  Ret (bc <| bc_Storage := s |> <| bc_CurrentBlock := curb |>).

(** A block of the wrong height is ignored; the recomputed root is only printed. *)
Definition AddBlock (b : Block) (bc : BlockChain) : res BlockChain :=
  if negb (bh_Number (b_Header b) =? u64 (bh_Number (b_Header (bc_CurrentBlock bc)) + 1)) then
    Ret bc
  else
    bc ← (if negb (bh_Miner (b_Header b) =? NodeID (bc_ChainConfig bc)) && negb (UTXO P) then
            '(rt, bc) ← GetUpdateStatusTrie (b_Body b) bc;
            Ret bc
          else Ret bc);
    let bc := bc <| bc_CurrentBlock := b |> in
    s ← Storage_AddBlock b (bc_Storage bc);
    Ret (bc <| bc_Storage := s |>).

(** [file] is what [bolt.Open] finds on disk. *)
Definition NewBlockChain (cc : ChainConfig) (db : EthDB) (file : BoltDB) : res BlockChain :=
  s ← NewStorage cc file;
  let bc := mkBlockChain db None cc (NewBlock zero_BlockHeader [] []) s
              NewTxPool NewUTXOTxPool ∅ "" in
  curHash ← GetNewestBlockHash (bc_Storage bc);
  match curHash with
  | inl err =>
      if bool_decide (err = "cannot find the newest block hash"%string) then
        let '(genisisBlock, bc) := NewGenisisBlock bc in
        AddGenisisBlock genisisBlock bc
      else Panic
  | inr h =>
      curb ← must_ok (GetBlock h (bc_Storage bc));
      let bc := bc <| bc_CurrentBlock := curb |> in
      if negb (UTXO P) then
        let triedb := triedb_open db in
        let bc := bc <| bc_triedb := Some triedb |> in
        _ ← must (trie_New (BytesToHash (bh_StateRoot (b_Header curb))) triedb);
        Ret bc
      else Ret bc
  end.

(** [None] is a nil error. *)
Definition IsValidBlock (b : Block) (bc : BlockChain) : option string :=
  if negb (bool_decide (bh_ParentBlockHash (b_Header b) = b_Hash (bc_CurrentBlock bc))) then
    Some "the parentblock hash is not equal to the current block hash"%string
  else if negb (bool_decide (GetTxTreeRoot (b_Body b) = bh_TxRoot (b_Header b))) then
    Some "the transaction root is wrong"%string
  else None.

Definition IsValidUTXOBlock (b : Block) (bc : BlockChain) : option string :=
  if negb (bool_decide (bh_ParentBlockHash (b_Header b) = b_Hash (bc_CurrentBlock bc))) then
    Some "the parentblock hash is not equal to the current block hash"%string
  else if negb (bool_decide (GetUTXOTxTreeRoot (b_UTXO b) = bh_TxRoot (b_Header b))) then
    Some "the transaction root is wrong"%string
  else None.

(** ** Account migration *)

(** One address of [AddAccounts]; [as[i]] panics when the list is shorter. *)
Definition add_account (bc : BlockChain) (accounts : list AccountState) (st : Trie)
    (iaddr : Z * string) : res Trie :=
  let '(i, addr) := iaddr in
  sid ← Get_PartitionMap addr bc;
  if sid =? ShardID (bc_ChainConfig bc) then
    a ← must (accounts !! Z.to_nat i);
    let new_state := mkAccountState "" (as_Nonce a) (0 + as_Balance a) "" "" in
    Ret (trie_Update st addr (enc new_state))
  else Ret st.

(** [triedb.Commit] is called with the old root [rt], as in the source. *)
Definition AddAccounts (ac : list string) (accounts : list AccountState) (bc : BlockChain) :
    res BlockChain :=
  let bh := zero_BlockHeader
    <| bh_ParentBlockHash := b_Hash (bc_CurrentBlock bc) |>
    <| bh_Number := u64 (bh_Number (b_Header (bc_CurrentBlock bc)) + 1) |>
    <| bh_Time := 0 |> in
  let rt := state_root bc in
  '(rt, bc) ←
    (if negb (length ac =? 0)%nat then
       td ← must (bc_triedb bc);
       st ← must (trie_New (state_root bc) td);
       st ← foldM (add_account bc accounts) st (indexed ac);
       let '(rrt, ns) := trie_Commit st in
       td ← must (triedb_Update td ns);
       td ← must (triedb_Commit td rt);
       Ret (rrt, bc <| bc_triedb := Some td |>)
     else Ret (rt, bc));
  let bh := bh <| bh_StateRoot := rt |> <| bh_TxRoot := GetTxTreeRoot [] |> in
  let b := NewBlock bh [] [] <| b_Header ::= fun h => h <| bh_Miner := 0 |> |> in
  let b := b <| b_Hash := BH_Hash (b_Header b) |> in
  let bc := bc <| bc_CurrentBlock := b |> in
  s ← Storage_AddBlock b (bc_Storage bc);
  Ret (bc <| bc_Storage := s |>).

Definition FetchAccounts (addrs : list string) (bc : BlockChain) : res (list AccountState) :=
  td ← must (bc_triedb bc);
  st ← must (trie_New (state_root bc) td);
  foldM (fun r addr => a ← load_account st addr 0; Ret (r ++ [a])) [] addrs.
End chain.
