(* ===== verification/Ledger.v ===== *)
(** * Ledger: the abstract ledger and the execution of transactions

    The specification of [GetUpdateStatusTrie]: balances are a function from
    addresses to integers ([ledger]), every account starts with
    [Init_Balance], and a transaction moves its value ([ledger_tx]).  The
    trie-level execution of Chain.v refines it, and conservation,
    solvency and determinism follow. *)
From Stdlib Require Import ZArith Lia.
From stdpp Require Import base gmap strings list countable.
From S2P Require Import Prelude GoStd Libs Core Pools StorageDB Chain.

(** ** Specification *)
Definition ledger := string -> Z.

Definition upd (l : ledger) (a : string) (v : Z) : ledger :=
  fun x => if decide (x = a) then v else l x.

Section spec.
(** The addresses this shard keeps. *)
Context (loc : string -> bool).

Definition debits (tx : Transaction) : bool :=
  negb (tx_Relayed tx) && (loc (tx_Sender tx) || tx_HasBroker tx).
Definition credits (tx : Transaction) : bool := loc (tx_Recipient tx) || tx_HasBroker tx.

(** A transaction whose debit would overdraw the sender has no effect. *)
Definition executes (l : ledger) (tx : Transaction) : bool :=
  negb (debits tx && (l (tx_Sender tx) <? tx_Value tx)).

Definition ledger_tx (l : ledger) (tx : Transaction) : ledger :=
  if executes l tx then
    let l1 := if debits tx then upd l (tx_Sender tx) (l (tx_Sender tx) - tx_Value tx) else l in
    if credits tx then upd l1 (tx_Recipient tx) (l1 (tx_Recipient tx) + tx_Value tx) else l1
  else l.

Definition ledger_run (l : ledger) (txs : list Transaction) : ledger := foldl ledger_tx l txs.

(** What a transaction adds to the shard's total. *)
Definition net_tx (l : ledger) (tx : Transaction) : Z :=
  if executes l tx then
    (if credits tx then tx_Value tx else 0) - (if debits tx then tx_Value tx else 0)
  else 0.

Fixpoint net_run (l : ledger) (txs : list Transaction) : Z :=
  match txs with
  | [] => 0
  | tx :: txs => net_tx l tx + net_run (ledger_tx l tx) txs
  end.
End spec.

Definition total (l : ledger) (addrs : list string) : Z := foldr (fun a s => l a + s) 0 addrs.

Definition ledger_eq : relation ledger := pointwise_relation string (=).

#[export] Instance ledger_tx_proper loc : Proper (ledger_eq ==> (=) ==> ledger_eq) (ledger_tx loc).
Proof.
  intros l1 l2 H tx ? <- a. unfold ledger_tx, executes, upd.
  rewrite (H (tx_Sender tx)). repeat case_match; subst; rewrite ?H; auto.
Qed.

#[export] Instance ledger_run_proper loc :
  Proper (ledger_eq ==> (=) ==> ledger_eq) (ledger_run loc).
Proof.
  intros l1 l2 H txs ? <-. unfold ledger_run. revert l1 l2 H.
  induction txs as [|tx txs IH]; intros l1 l2 H; cbn; [done|].
  apply IH. by rewrite H.
Qed.

#[export] Instance total_proper : Proper (ledger_eq ==> (=) ==> (=)) total.
Proof.
  intros l1 l2 H addrs ? <-. induction addrs as [|a addrs IH]; cbn; [done|].
  f_equal; [apply H|apply IH].
Qed.

#[export] Instance ledger_eq_equiv : Equivalence ledger_eq.
Proof. unfold ledger_eq. apply _. Qed.

Lemma upd_eq l a v : upd l a v a = v.
Proof. unfold upd. by rewrite decide_True. Qed.
Lemma upd_ne l a v x : x <> a -> upd l a v x = l x.
Proof. intros. unfold upd. by rewrite decide_False. Qed.

Lemma total_cons l a addrs : total l (a :: addrs) = l a + total l addrs.
Proof. done. Qed.

Lemma total_upd_out l a v addrs : a ∉ addrs -> total (upd l a v) addrs = total l addrs.
Proof.
  induction addrs as [|x addrs IH]; [done|]. intros [Hx Ha]%not_elem_of_cons.
  by rewrite !total_cons, upd_ne, IH by done.
Qed.

Lemma total_upd l a v addrs :
  NoDup addrs -> a ∈ addrs -> total (upd l a v) addrs = total l addrs + (v - l a).
Proof.
  induction addrs as [|x addrs IH]; intros Hnd Ha; [by inversion Ha|].
  apply list.NoDup_cons in Hnd as [Hx Hnd]. rewrite !total_cons.
  destruct (decide (x = a)) as [->|Hne].
  - rewrite upd_eq, total_upd_out by done. lia.
  - apply elem_of_cons in Ha as [->|Ha]; [done|]. rewrite upd_ne, IH by done. lia.
Qed.

(** One step changes the total by its net value. *)
Lemma total_ledger_tx loc l tx addrs :
  NoDup addrs ->
  (debits loc tx = true -> tx_Sender tx ∈ addrs) ->
  (credits loc tx = true -> tx_Recipient tx ∈ addrs) ->
  total (ledger_tx loc l tx) addrs = total l addrs + net_tx loc l tx.
Proof.
  intros Hnd Hs Hr. unfold ledger_tx, net_tx.
  destruct (executes loc l tx); [|lia].
  destruct (debits loc tx) eqn:Ed, (credits loc tx) eqn:Ec; rewrite ?total_upd by auto; lia.
Qed.

Lemma total_ledger_run loc txs addrs : forall l,
  NoDup addrs ->
  Forall (fun tx => (debits loc tx = true -> tx_Sender tx ∈ addrs) /\
                    (credits loc tx = true -> tx_Recipient tx ∈ addrs)) txs ->
  total (ledger_run loc l txs) addrs = total l addrs + net_run loc l txs.
Proof.
  induction txs as [|tx txs IH]; intros l Hnd Hall; cbn; [lia|].
  apply list.Forall_cons in Hall as [[H1 H2] Hall].
  unfold ledger_run in *. rewrite IH, total_ledger_tx by done. lia.
Qed.

Lemma ledger_run_ext loc1 loc2 txs : (forall a, loc1 a = loc2 a) ->
  forall l, ledger_run loc1 l txs = ledger_run loc2 l txs.
Proof.
  intros H. induction txs as [|tx txs IH]; intros l; [done|]. unfold ledger_run in *. cbn [foldl].
  rewrite IH. f_equal. unfold ledger_tx, executes, debits, credits. by rewrite !H.
Qed.

(** Solvency of one step. *)
Lemma ledger_tx_nonneg loc l tx :
  0 <= tx_Value tx -> (forall a, 0 <= l a) -> forall a, 0 <= ledger_tx loc l tx a.
Proof.
  intros Hv Hl a. unfold ledger_tx, executes.
  pose proof (Hl (tx_Recipient tx)). pose proof (Hl a). pose proof (Hl (tx_Sender tx)).
  destruct (debits loc tx); cbn; [destruct (Z.ltb_spec (l (tx_Sender tx)) (tx_Value tx)); cbn; [done|]|];
    (destruct (credits loc tx); unfold upd; repeat case_decide; lia).
Qed.

Lemma ledger_run_nonneg loc txs : forall l,
  Forall (fun tx => 0 <= tx_Value tx) txs -> (forall a, 0 <= l a) ->
  forall a, 0 <= ledger_run loc l txs a.
Proof.
  induction txs as [|tx txs IH]; intros l Hv Hl; [done|].
  apply list.Forall_cons in Hv as [Hv1 Hv]. apply IH; [done|]. by apply ledger_tx_nonneg.
Qed.

(** ** Refinement *)
Section refine.
Context (P : Params).
Context {TL : TrieLib} {BL : BoltLib} {HL : Sha256} {CC : CoreCodecs}.
Context {TW : TrieLaws TL} {CL : CoreCodecsLaws}.

(** The balance a state trie records for an address. *)
Definition balance (st : Trie) : ledger := fun a =>
  match trie_Get st a with
  | None => Init_Balance
  | Some e => match dec (A := AccountState) e with Some s => as_Balance s | None => 0 end
  end.

(** Every stored account can be decoded. *)
Definition wf_trie (st : Trie) : Prop :=
  forall a e, trie_Get st a = Some e -> is_Some (dec (A := AccountState) e).

Definition local_in (bc : BlockChain) (a : string) : bool :=
  match Get_PartitionMap P a bc with
  | Ret s => s =? ShardID (bc_ChainConfig bc)
  | _ => false
  end.

(** The addresses the loop looks up have a shard. *)
Definition addr_ok (bc : BlockChain) (tx : Transaction) : Prop :=
  (tx_Relayed tx = false -> is_Ret (Get_PartitionMap P (tx_Sender tx) bc)) /\
  is_Ret (Get_PartitionMap P (tx_Recipient tx) bc).

Lemma balance_update st a s :
  ledger_eq (balance (trie_Update st a (enc s))) (upd (balance st) a (as_Balance s)).
Proof.
  intros x. unfold balance, upd. case_decide as Hx; subst.
  - rewrite get_update_eq by apply enc_nonempty. by rewrite dec_enc.
  - by rewrite get_update_ne.
Qed.

Lemma wf_update st a s : wf_trie st -> wf_trie (trie_Update st a (enc (A := AccountState) s)).
Proof.
  intros Hwf x e. destruct (decide (a = x)) as [<-|].
  - rewrite get_update_eq by apply enc_nonempty. intros [= <-]. rewrite dec_enc. eauto.
  - rewrite get_update_ne by done. apply Hwf.
Qed.

Lemma load_account_spec st a n :
  wf_trie st -> exists s, load_account st a n = Ret s /\ as_Balance s = balance st a.
Proof.
  intros Hwf. unfold load_account, balance. destruct (trie_Get st a) as [e|] eqn:E.
  - destruct (Hwf a e E) as [s Hs]. rewrite Hs. cbn. eauto.
  - eexists. split; [done|]. done.
Qed.

Lemma same_content_balance t1 t2 : same_content t1 t2 -> ledger_eq (balance t1) (balance t2).
Proof. intros H a. unfold balance. by rewrite H. Qed.

Lemma same_content_wf t1 t2 : same_content t1 t2 -> wf_trie t2 -> wf_trie t1.
Proof. intros H Hwf a e. rewrite H. apply Hwf. Qed.

(** The state of the loop against the ledger: the trie is a decodable
    trie of the database, with the ledger's balances. *)
Record exec_inv (td : TrieDB) (l : ledger) (st : Trie) : Prop := {
  ei_opened : opened st td;
  ei_wf : wf_trie st;
  ei_bal : ledger_eq (balance st) l }.

Lemma exec_inv_update td l st a s v :
  exec_inv td l st -> as_Balance s = v ->
  exec_inv td (upd l a v) (trie_Update st a (enc s)).
Proof.
  intros [Ho Hwf Hb] <-. split; [by apply opened_Update|by apply wf_update|].
  rewrite balance_update. intros x. unfold upd. case_decide; [done|apply Hb].
Qed.

Lemma exec_recipient_spec bc td l st i tx cnt :
  exec_inv td l st -> is_Ret (Get_PartitionMap P (tx_Recipient tx) bc) ->
  exists st' cnt',
    exec_recipient P bc i tx st cnt = Ret (st', cnt') /\
    exec_inv td (if credits (local_in bc) tx
                 then upd l (tx_Recipient tx) (l (tx_Recipient tx) + tx_Value tx) else l) st' /\
    cnt <= cnt' /\ (cnt' = cnt -> st' = st).
Proof.
  intros Hinv [r Hr]. unfold exec_recipient, credits, local_in. rewrite Hr. cbn.
  destruct ((r =? ShardID (bc_ChainConfig bc)) || tx_HasBroker tx).
  - destruct (load_account_spec st (tx_Recipient tx) (u64 i)) as (s & -> & Hs);
      [apply Hinv|]. cbn.
    eexists _, _. split; [done|]. split; [|lia].
    apply exec_inv_update; [done|]. cbn. rewrite Hs. by rewrite (ei_bal _ _ _ Hinv).
  - eexists _, _. split; [done|]. split; [done|]. split; [lia|done].
Qed.

Lemma exec_tx_spec bc td l st i tx cnt :
  exec_inv td l st -> addr_ok bc tx ->
  exists st' cnt',
    exec_tx P bc (st, cnt) (i, tx) = Ret (st', cnt') /\
    exec_inv td (ledger_tx (local_in bc) l tx) st' /\
    cnt <= cnt' /\ (cnt' = cnt -> st' = st).
Proof.
  intros Hinv [Hs Hr]. unfold exec_tx, ledger_tx, executes.
  assert (Hd : (if negb (tx_Relayed tx) then
                  ssid ← Get_PartitionMap P (tx_Sender tx) bc;
                  Ret ((ssid =? ShardID (bc_ChainConfig bc)) || tx_HasBroker tx)
                else Ret false) = Ret (debits (local_in bc) tx)).
  { unfold debits, local_in. destruct (tx_Relayed tx); cbn; [done|].
    destruct Hs as [s ->]; done. }
  rewrite Hd. cbn. destruct (debits (local_in bc) tx); cbn.
  - destruct (load_account_spec st (tx_Sender tx) (u64 i)) as (s & -> & Hbal); [apply Hinv|].
    cbn. rewrite Hbal, (ei_bal _ _ _ Hinv).
    destruct (Z.ltb_spec (l (tx_Sender tx)) (tx_Value tx)) as [Hlt|Hge]; cbn.
    + eexists _, _. split; [done|]. split; [done|]. split; [lia|done].
    + unfold Deduct. rewrite Hbal, (ei_bal _ _ _ Hinv).
      destruct (Z.ltb_spec (l (tx_Sender tx)) (tx_Value tx)); [lia|]. cbn.
      edestruct exec_recipient_spec as (st' & cnt' & He & Hi & Hc & _); [|exact Hr|].
      { eapply exec_inv_update; [exact Hinv|reflexivity]. }
      eexists _, _. split; [exact He|]. split; [|lia].
      cbn in Hi. rewrite Hbal, (ei_bal _ _ _ Hinv) in Hi. exact Hi.
  - by apply exec_recipient_spec.
Qed.

Lemma exec_loop_spec bc td itxs : forall l st cnt,
  exec_inv td l st -> Forall (fun itx => addr_ok bc itx.2) itxs ->
  exists st' cnt',
    foldM (exec_tx P bc) (st, cnt) itxs = Ret (st', cnt') /\
    exec_inv td (ledger_run (local_in bc) l itxs.*2) st' /\
    cnt <= cnt' /\ (cnt' = cnt -> st' = st).
Proof.
  induction itxs as [|[i tx] itxs IH]; intros l st cnt Hinv Hok; cbn [foldM].
  - eexists _, _. split; [done|]. split; [done|]. split; [lia|done].
  - apply list.Forall_cons in Hok as [Hok1 Hok].
    destruct (exec_tx_spec bc td l st i tx cnt Hinv Hok1) as (st1 & cnt1 & -> & H1 & Hc1 & He1).
    cbn [mbind res_bind]. destruct (IH _ _ cnt1 H1 Hok) as (st' & cnt' & -> & H2 & Hc2 & He2).
    eexists _, _. split; [done|]. split; [exact H2|]. split; [lia|].
    intros ->. rewrite He2, He1 by lia. done.
Qed.

Lemma indexed_snd {A} (l : list A) : (indexed l).*2 = l.
Proof.
  unfold indexed. rewrite fmap_imap. unfold compose. cbn.
  induction l as [|x l IH]; cbn; [done|]. f_equal. rewrite <- IH at 2. apply imap_ext. done.
Qed.

(** The state of a chain can be opened and has the balances [l]. *)
Definition state_is (bc : BlockChain) (root : bytes) (l : ledger) : Prop :=
  exists td t, bc_triedb bc = Some td /\ trie_New root td = Some t /\
    wf_trie t /\ ledger_eq (balance t) l.

(** Every root that could be opened still can, with the same content. *)
Definition keeps (bc bc' : BlockChain) : Prop :=
  forall td r t, bc_triedb bc = Some td -> trie_New r td = Some t ->
    exists td' t', bc_triedb bc' = Some td' /\ trie_New r td' = Some t' /\ same_content t' t.

Lemma keeps_refl bc : keeps bc bc.
Proof. intros td r t H1 H2. by exists td, t. Qed.

(** [GetUpdateStatusTrie] runs the block on the ledger and returns the root
    of the new state. *)
Lemma GetUpdateStatusTrie_exec {LV : TrieLive TL} txs bc l :
  state_is bc (state_root bc) l -> Forall (addr_ok bc) txs ->
  exists rt bc', GetUpdateStatusTrie P txs bc = Ret (rt, bc') /\
    state_is bc' rt (ledger_run (local_in bc) l txs) /\ BytesToHash rt = rt /\
    bc' = bc <| bc_triedb := bc_triedb bc' |> /\ keeps bc bc'.
Proof.
  intros (td & t & Htd & Ht & Hwf & Hbal) Hok. unfold GetUpdateStatusTrie.
  destruct txs as [|tx txs]; cbn [length Nat.eqb].
  { exists (state_root bc), bc. split; [done|]. split; [by exists td, t|].
    split; [apply to_hash_idem|]. split; [by destruct bc|apply keeps_refl]. }
  rewrite Htd. cbn [must mbind res_bind]. rewrite Ht. cbn [must mbind res_bind].
  destruct (exec_loop_spec bc td (indexed (tx :: txs)) l t 0) as (st & cnt & -> & Hi & Hc & He).
  { split; [by eapply opened_New|done|done]. }
  { apply list.Forall_fmap with (f := snd) (P := addr_ok bc). by rewrite indexed_snd. }
  rewrite indexed_snd in Hi. cbn [must mbind res_bind].
  destruct (Z.eqb_spec cnt 0) as [->|Hne].
  - rewrite He in Hi by done. destruct Hi as [_ Hw Hb].
    exists (state_root bc), bc. split; [done|]. split; [by exists td, t|].
    split; [apply to_hash_idem|]. split; [by destruct bc|apply keeps_refl].
  - destruct Hi as [Ho Hw Hb].
    pose proof (commit_hash st) as Hh. destruct (trie_update_ok st td Ho) as [d1 H1].
    destruct (trie_Commit st) as [rt ns] eqn:Ec. cbn in Hh, H1. subst rt.
    destruct (trie_commit_ok d1 (trie_Hash st)) as [d2 H2].
    rewrite H1. cbn [must mbind res_bind]. rewrite H2. cbn [must mbind res_bind].
    exists (trie_Hash st), (bc <| bc_triedb := Some d2 |>).
    split; [done|]. split; [|split; [apply root_hash|split; [done|]]].
    + destruct (commit_all st td d1 (trie_Hash st) d2) as (t' & Ht' & Hs');
        [done|by rewrite Ec|done|].
      exists d2, t'. split; [done|]. split; [done|]. split.
      * by eapply same_content_wf.
      * by rewrite (same_content_balance _ _ Hs').
    + intros td0 r t0 Htd0 Hr. rewrite Htd in Htd0. injection Htd0 as <-.
      destruct (update_keeps _ _ _ _ _ Hr H1) as (t1 & Ht1 & Hs1).
      destruct (commit_keeps _ _ _ _ _ Ht1 H2) as (t2 & Ht2 & Hs2).
      exists d2, t2. split; [done|]. split; [done|]. by rewrite Hs2.
Qed.
End refine.

(** ** Two replicas of a shard *)
Section replicas.
Context (P : Params).
Context {TL : TrieLib} {BL : BoltLib} {HL : Sha256} {CC : CoreCodecs}.
Context {TW : TrieLaws TL} {CL : CoreCodecsLaws}.

(** What later blocks depend on of the tip. *)
Definition tip_of (b : Block) : BlockHeader * bytes := (b_Header b, b_Hash b).

(** Two nodes of a shard: the same tip, partition and state, in possibly
    different databases. *)
Record replica (bc1 bc2 : BlockChain) : Prop := {
  rp_block : tip_of (bc_CurrentBlock bc1) = tip_of (bc_CurrentBlock bc2);
  rp_map : bc_PartitionMap bc1 = bc_PartitionMap bc2;
  rp_shard : ShardID (bc_ChainConfig bc1) = ShardID (bc_ChainConfig bc2);
  rp_state : exists td1 td2 t1 t2,
    bc_triedb bc1 = Some td1 /\ bc_triedb bc2 = Some td2 /\
    trie_New (state_root bc1) td1 = Some t1 /\ trie_New (state_root bc2) td2 = Some t2 /\
    same_content t1 t2 }.

Lemma load_account_ext t1 t2 a n : same_content t1 t2 -> load_account t1 a n = load_account t2 a n.
Proof. intros H. unfold load_account. by rewrite H. Qed.

Lemma Get_PartitionMap_ext bc1 bc2 a :
  bc_PartitionMap bc1 = bc_PartitionMap bc2 -> Get_PartitionMap P a bc1 = Get_PartitionMap P a bc2.
Proof. intros H. unfold Get_PartitionMap. by rewrite H. Qed.

Section loop.
Context (bc1 bc2 : BlockChain) (td1 td2 : TrieDB).
Context (Hmap : bc_PartitionMap bc1 = bc_PartitionMap bc2).
Context (Hshard : ShardID (bc_ChainConfig bc1) = ShardID (bc_ChainConfig bc2)).

Definition trie_rel (t1 t2 : Trie) : Prop :=
  opened t1 td1 /\ opened t2 td2 /\ same_content t1 t2.
Definition exec_rel (a b : Trie * Z) : Prop := trie_rel a.1 b.1 /\ a.2 = b.2.

Lemma trie_rel_update t1 t2 k (s : AccountState) :
  trie_rel t1 t2 -> trie_rel (trie_Update t1 k (enc s)) (trie_Update t2 k (enc s)).
Proof.
  intros (H1 & H2 & H3). split; [by apply opened_Update|]. split; [by apply opened_Update|].
  apply same_content_update; [apply enc_nonempty|done].
Qed.

Lemma exec_recipient_rel i tx t1 t2 c :
  trie_rel t1 t2 ->
  res_rel exec_rel (exec_recipient P bc1 i tx t1 c) (exec_recipient P bc2 i tx t2 c).
Proof.
  intros Hs. unfold exec_recipient.
  rewrite (Get_PartitionMap_ext bc1 bc2) by done. rewrite Hshard.
  eapply res_rel_bind; [apply res_rel_refl|]. intros r ? <-. case_match; [|by cbn].
  rewrite (load_account_ext t1 t2) by apply Hs.
  eapply res_rel_bind; [apply res_rel_refl|]. intros s ? <-. cbn. split; [|done].
  by apply trie_rel_update.
Qed.

Lemma exec_tx_rel s1 s2 itx :
  exec_rel s1 s2 -> res_rel exec_rel (exec_tx P bc1 s1 itx) (exec_tx P bc2 s2 itx).
Proof.
  destruct s1 as [t1 c], s2 as [t2 c2], itx as [i tx]. intros [Hs Hc]. cbn in Hs, Hc. subst c2.
  unfold exec_tx. rewrite (Get_PartitionMap_ext bc1 bc2) by done. rewrite Hshard.
  eapply res_rel_bind; [apply res_rel_refl|]. intros b ? <-. destruct b; [|by apply exec_recipient_rel].
  rewrite (load_account_ext t1 t2) by apply Hs.
  eapply res_rel_bind; [apply res_rel_refl|]. intros s ? <-. case_match; [by cbn|].
  destruct (Deduct s (tx_Value tx)) as [ok s']. apply exec_recipient_rel.
  by apply trie_rel_update.
Qed.
End loop.

(** The content a root stands for in two databases. *)
Definition same_state (bc1 bc2 : BlockChain) (root : bytes) : Prop :=
  exists td1 td2 t1 t2, bc_triedb bc1 = Some td1 /\ bc_triedb bc2 = Some td2 /\
    trie_New root td1 = Some t1 /\ trie_New root td2 = Some t2 /\ same_content t1 t2.

(** Replicas that execute the same transactions compute the same root, and
    it opens to the same content in both databases. *)
Lemma GetUpdateStatusTrie_replica txs bc1 bc2 rt1 rt2 bc1' bc2' :
  replica bc1 bc2 ->
  GetUpdateStatusTrie P txs bc1 = Ret (rt1, bc1') ->
  GetUpdateStatusTrie P txs bc2 = Ret (rt2, bc2') ->
  rt1 = rt2 /\ BytesToHash rt1 = rt1 /\ same_state bc1' bc2' rt1.
Proof.
  intros [Hb Hm Hsh (td1 & td2 & t1 & t2 & Hd1 & Hd2 & Ht1 & Ht2 & Hs)] H1 H2.
  assert (Hroot : state_root bc1 = state_root bc2) by (injection Hb as Hb _; unfold state_root; by rewrite Hb).
  assert (Hold : bc1' = bc1 -> bc2' = bc2 -> rt1 = state_root bc1 -> rt2 = state_root bc1 ->
    rt1 = rt2 /\ BytesToHash rt1 = rt1 /\ same_state bc1' bc2' rt1).
  { intros -> -> -> ->. split; [done|]. split; [apply to_hash_idem|].
    exists td1, td2, t1, t2. by rewrite Hroot at 2. }
  unfold GetUpdateStatusTrie in H1, H2. case_match; [apply Hold; congruence|].
  rewrite Hd1 in H1. rewrite Hd2 in H2. cbn [must mbind res_bind] in H1, H2.
  rewrite Ht1 in H1. rewrite Ht2 in H2. cbn [must mbind res_bind] in H1, H2.
  pose proof (res_rel_foldM (exec_rel td1 td2) (exec_tx P bc1) (exec_tx P bc2) (indexed txs)
    (exec_tx_rel bc1 bc2 td1 td2 Hm Hsh) (t1, 0) (t2, 0)) as Hr.
  apply bind_Ret in H1 as ([st1 c1] & H1 & H1'). apply bind_Ret in H2 as ([st2 c2] & H2 & H2').
  rewrite H1, H2 in Hr. destruct Hr as [(Ho1 & Ho2 & Hst) Hc].
  { split; [|done]. split; [by eapply opened_New|]. split; [by eapply opened_New|done]. }
  cbn in Ho1, Ho2, Hst, Hc. subst c2. destruct (c1 =? 0); [apply Hold; congruence|].
  pose proof (commit_hash st1) as Hh1. pose proof (commit_hash st2) as Hh2.
  destruct (trie_Commit st1) as [r1 n1] eqn:E1, (trie_Commit st2) as [r2 n2] eqn:E2.
  cbn in Hh1, Hh2. inv_res. rewrite (hash_ext st2 st1) by done. split; [done|].
  split; [apply root_hash|].
  edestruct (commit_all st1) as (u1 & Hu1 & Hc1); [exact Ho1|by rewrite E1|done|].
  edestruct (commit_all st2) as (u2 & Hu2 & Hc2); [exact Ho2|by rewrite E2|done|].
  rewrite (hash_ext st2 st1) in Hu2 by done. eexists _, _, u1, u2.
  repeat (split; [done|]). by rewrite Hc1, Hc2.
Qed.
End replicas.
