(* ===== verification/Execution.v ===== *)
(** * Execution: properties of the block pipeline of the account model

    What Chain.v's operations guarantee together: executing a block refines
    the ledger, conserves value and keeps accounts solvent; replicas agree;
    a leader's block is accepted by a follower; the chain can be restarted
    from its store; accounts survive a migration. *)
From stdpp Require Import base gmap strings list countable.
From Stdlib Require Import ZArith Lia.
From S2P Require Import Prelude GoStd Libs Core Pools StorageDB Chain Ledger.

Lemma net_run_zero loc txs : forall l,
  Forall (fun tx => debits loc tx = credits loc tx) txs -> net_run loc l txs = 0.
Proof.
  induction txs as [|tx txs IH]; intros l Hall; [done|].
  apply list.Forall_cons in Hall as [H Hall]. cbn [net_run]. rewrite IH by done.
  unfold net_tx. rewrite H. repeat case_match; lia.
Qed.

(** The addresses a block's transactions move money at. *)
Definition covers (loc : string -> bool) (addrs : list string) (tx : Transaction) : Prop :=
  (debits loc tx = true -> tx_Sender tx ∈ addrs) /\
  (credits loc tx = true -> tx_Recipient tx ∈ addrs).

Section execution.
Context (P : Params).
Context {TL : TrieLib} {BL : BoltLib} {HL : Sha256} {CC : CoreCodecs}.
Context {TW : TrieLaws TL} {CL : CoreCodecsLaws} {BW : BoltLaws BL}.
Context {LV : TrieLive TL} {LB : BoltLive BL}.

(** The tip of a chain is what its store says it is: the stored block has the
    tip's header and hash. *)
Record chain_ok (bc : BlockChain) : Prop := {
  co_storage : storage_ok (bc_Storage bc);
  co_newest : GetNewestBlockHash (bc_Storage bc) = Ret (inr (b_Hash (bc_CurrentBlock bc)));
  co_tip : exists b, GetBlock (b_Hash (bc_CurrentBlock bc)) (bc_Storage bc) = Ret (inr b) /\
    tip_of b = tip_of (bc_CurrentBlock bc) }.

Lemma Storage_AddBlock_chain b s s' :
  storage_ok s -> Storage_AddBlock b s = Ret s' ->
  storage_ok s' /\ GetNewestBlockHash s' = Ret (inr (b_Hash b)) /\
  GetBlock (b_Hash b) s' = Ret (inr b).
Proof.
  intros Hs Ha. destruct (Storage_AddBlock_get b s s' Hs Ha) as (Heq & Hok & Hget).
  destruct (storage_ok_ne s Hs) as (Hn1 & Hn2 & Hn3).
  split; [done|]. unfold GetBlock, GetNewestBlockHash. rewrite Heq. cbn. rewrite !Hget. split.
  - by rewrite !decide_False, decide_True by (done || intros []; congruence).
  - rewrite decide_True by done. cbn. by rewrite dec_enc.
Qed.

(** [GetUpdateStatusTrie] changes the node database and nothing else. *)
Lemma GetUpdateStatusTrie_frame txs bc rt bc' :
  GetUpdateStatusTrie P txs bc = Ret (rt, bc') -> bc' = bc <| bc_triedb := bc_triedb bc' |>.
Proof.
  unfold GetUpdateStatusTrie. intros H. case_match; [inv_res; by destruct bc'|].
  inv_res. destruct x1 as [st cnt]. case_match; [inv_res; by destruct bc'|].
  destruct (trie_Commit st). inv_res. by destruct bc.
Qed.

Lemma AddBlock_cases b bc bc' :
  AddBlock P b bc = Ret bc' ->
  (bh_Number (b_Header b) <> u64 (bh_Number (b_Header (bc_CurrentBlock bc)) + 1) /\ bc' = bc) \/
  (bh_Number (b_Header b) = u64 (bh_Number (b_Header (bc_CurrentBlock bc)) + 1) /\
   Storage_AddBlock b (bc_Storage bc) = Ret (bc_Storage bc') /\
   bc' = bc <| bc_triedb := bc_triedb bc' |> <| bc_CurrentBlock := b |>
            <| bc_Storage := bc_Storage bc' |>).
Proof.
  unfold AddBlock. intros H.
  destruct (Z.eqb_spec (bh_Number (b_Header b))
              (u64 (bh_Number (b_Header (bc_CurrentBlock bc)) + 1))); cbn [negb] in H.
  2: { left. inv_res. done. }
  right. apply bind_Ret in H as (bc1 & H1 & H).
  assert (Hf : bc1 = bc <| bc_triedb := bc_triedb bc1 |>).
  { destruct (negb _ && _); [|inv_res; by destruct bc1].
    apply bind_Ret in H1 as ([rt bc2] & H1 & H2). inv_res. by eapply GetUpdateStatusTrie_frame. }
  inv_res. rewrite Hf in *. cbn in *. auto.
Qed.

(** ** The transaction trie *)
Lemma tx_trie_get txs t : NoDup (tx_TxHash <$> txs) -> forall k,
  trie_Get (foldl (fun t tx => trie_Update t (tx_TxHash tx) (enc tx)) t txs) k =
    match list_find (fun tx => tx_TxHash tx = k) txs with
    | Some (_, tx) => Some (enc tx)
    | None => trie_Get t k
    end.
Proof.
  revert t; induction txs as [|tx txs IH]; intros t Hnd k; [done|].
  apply list.NoDup_cons in Hnd as [Hni Hnd]. cbn [foldl list_find]. rewrite IH by done.
  case_decide as Hk; subst.
  - destruct (list_find _ txs) as [[i tx']|] eqn:E.
    + apply list_find_Some in E as (Hi & He & _). destruct Hni. rewrite <- He.
      apply list_elem_of_fmap. exists tx'. split; [done|]. by eapply list_elem_of_lookup_2.
    + by rewrite get_update_eq by apply enc_nonempty.
  - destruct (list_find (fun tx => tx_TxHash tx = k) txs) as [[i tx']|]; cbn; [done|].
    by rewrite get_update_ne.
Qed.

Definition tx_trie (txs : list Transaction) : Trie :=
  foldl (fun t tx => trie_Update t (tx_TxHash tx) (enc tx)) (trie_NewEmpty triedb_mem) txs.

(** The trie holds exactly the block's transactions, each under its hash. *)
Lemma tx_trie_elem txs tx : NoDup (tx_TxHash <$> txs) ->
  tx ∈ txs <-> trie_Get (tx_trie txs) (tx_TxHash tx) = Some (enc tx).
Proof.
  intros Hnd. unfold tx_trie. rewrite tx_trie_get by done. split.
  - intros Hin. destruct (list_find _ txs) as [[i tx']|] eqn:E.
    + apply list_find_Some in E as (Hi & He & _). apply list_elem_of_lookup in Hin as [j Hj].
      assert (i = j) as ->; [|congruence].
      eapply (NoDup_lookup (tx_TxHash <$> txs)); [done| |].
      * by rewrite list_lookup_fmap, Hi.
      * rewrite list_lookup_fmap, Hj. cbn. by rewrite He.
    + eapply list_find_None in E. rewrite List.Forall_forall in E.
      exfalso. eapply E; [by apply list_elem_of_In|done].
  - destruct (list_find _ txs) as [[i tx']|] eqn:E; [|by rewrite get_empty].
    intros [= He]. apply (inj enc) in He as <-. apply list_find_Some in E as (Hi & _ & _).
    by eapply list_elem_of_lookup_2.
Qed.

Lemma tx_trie_perm txs1 txs2 :
  NoDup (tx_TxHash <$> txs1) -> txs1 ≡ₚ txs2 -> same_content (tx_trie txs1) (tx_trie txs2).
Proof.
  intros Hnd Hp k. assert (Hnd2 : NoDup (tx_TxHash <$> txs2)) by (by rewrite <- Hp).
  unfold tx_trie. rewrite !tx_trie_get by done.
  destruct (list_find _ txs1) as [[i tx]|] eqn:E1.
  - apply list_find_Some in E1 as (Hi & Hk & _). apply list_elem_of_lookup_2 in Hi.
    pose proof (proj1 (tx_trie_elem txs2 tx Hnd2)) as Hel. unfold tx_trie in Hel.
    rewrite tx_trie_get, Hk, get_empty in Hel by done. symmetry. rewrite get_empty.
    apply Hel. by rewrite <- Hp.
  - assert (E2 : list_find (fun tx => tx_TxHash tx = k) txs2 = None).
    { apply list_find_None. apply list_find_None in E1. by rewrite <- Hp. }
    by rewrite E2.
Qed.

(** ** Properties *)


(** C18: execution creates and destroys no money.  The total over
    all addresses a block touches changes by the value its executed
    transactions bring in from, less the value they send to, other shards;
    when every transaction is inside the shard the total is unchanged. *)
Theorem GetUpdateStatusTrie_conserves txs bc l addrs rt bc' :
  state_is bc (state_root bc) l -> Forall (addr_ok P bc) txs ->
  NoDup addrs -> Forall (covers (local_in P bc) addrs) txs ->
  GetUpdateStatusTrie P txs bc = Ret (rt, bc') ->
  exists l', state_is bc' rt l' /\
    total l' addrs = total l addrs + net_run (local_in P bc) l txs /\
    (Forall (fun tx => debits (local_in P bc) tx = credits (local_in P bc) tx) txs ->
     total l' addrs = total l addrs).
Proof.
  intros Hl Hok Hnd Hc Hr.
  destruct (GetUpdateStatusTrie_exec P txs bc l Hl Hok) as (rt0 & bc0 & H1 & H2 & _).
  rewrite H1 in Hr. inv_res. eexists. split; [done|].
  rewrite total_ledger_run by done. split; [done|].
  intros Hz. rewrite net_run_zero by done. lia.
Qed.

(** C19: no account is ever overdrawn.  If every balance and every
    value is non-negative before a block, every balance is after it. *)
Theorem GetUpdateStatusTrie_solvent txs bc l rt bc' :
  state_is bc (state_root bc) l -> Forall (addr_ok P bc) txs ->
  (forall a, 0 <= l a) -> Forall (fun tx => 0 <= tx_Value tx) txs ->
  GetUpdateStatusTrie P txs bc = Ret (rt, bc') ->
  exists l', state_is bc' rt l' /\ forall a, 0 <= l' a.
Proof.
  intros Hl Hok Hnn Hv Hr.
  destruct (GetUpdateStatusTrie_exec P txs bc l Hl Hok) as (rt0 & bc0 & H1 & H2 & _).
  rewrite H1 in Hr. inv_res. eexists. split; [done|]. by apply ledger_run_nonneg.
Qed.

(** The transaction root binds the set of a block's transactions
    and nothing else.  If the trie's root binds its content, two lists of
    transactions with distinct hashes have the same root exactly when they
    are permutations of each other: their order is not bound. *)
Theorem GetTxTreeRoot_perm txs1 txs2 :
  (forall t1 t2, trie_Hash t1 = trie_Hash t2 -> same_content t1 t2) ->
  NoDup (tx_TxHash <$> txs1) -> NoDup (tx_TxHash <$> txs2) ->
  GetTxTreeRoot txs1 = GetTxTreeRoot txs2 <-> txs1 ≡ₚ txs2.
Proof.
  intros Hbind H1 H2. split; intros H.
  - apply Hbind in H. apply NoDup_Permutation; [by eapply NoDup_fmap_1..|].
    intros tx. rewrite (tx_trie_elem txs1), (tx_trie_elem txs2) by done.
    unfold tx_trie. by rewrite (H _).
  - apply hash_ext. by apply tx_trie_perm.
Qed.

Lemma replica_state bc1 bc2 l :
  replica bc1 bc2 -> state_is bc1 (state_root bc1) l ->
  state_is bc2 (state_root bc2) l.
Proof.
  intros [_ _ _ (td1 & td2 & t1 & t2 & Hd1 & Hd2 & Ht1 & Ht2 & Hs)].
  intros (td & t & Hd & Ht & Hwf & Hb). simplify_eq.
  exists td2, t2. split; [done|]. split; [done|]. symmetry in Hs. split.
  - by eapply same_content_wf.
  - by rewrite (same_content_balance _ _ Hs).
Qed.

Lemma addr_ok_ext bc1 bc2 tx :
  bc_PartitionMap bc1 = bc_PartitionMap bc2 -> addr_ok P bc1 tx -> addr_ok P bc2 tx.
Proof. intros H. unfold addr_ok. by rewrite !(Get_PartitionMap_ext P bc1 bc2). Qed.

Lemma local_in_ext bc1 bc2 a :
  bc_PartitionMap bc1 = bc_PartitionMap bc2 ->
  ShardID (bc_ChainConfig bc1) = ShardID (bc_ChainConfig bc2) ->
  local_in P bc1 a = local_in P bc2 a.
Proof. intros H1 H2. unfold local_in. by rewrite (Get_PartitionMap_ext P bc1 bc2), H2. Qed.

(** What the leader proposes: the packed transactions, their root and the
    root of the state after them. *)
Lemma GenerateBlock_spec now bc packed pool rt bc1 :
  UTXO P = false ->
  TxPool_PackTxs (BlockSize (bc_ChainConfig bc)) (bc_Txpool bc) = (packed, pool) ->
  GetUpdateStatusTrie P packed (bc <| bc_Txpool := pool |>) = Ret (rt, bc1) ->
  exists b, GenerateBlock P now bc = Ret (b, bc1) /\ b_Body b = packed /\
    b_Header b = mkBlockHeader (b_Hash (bc_CurrentBlock bc)) rt (GetTxTreeRoot packed)
      (u64 (bh_Number (b_Header (bc_CurrentBlock bc)) + 1)) now 0.
Proof.
  intros HU HP HG. unfold GenerateBlock. rewrite HU, HP. cbn [mbind res_bind].
  rewrite HG. cbn. eexists. split; [done|]. done.
Qed.

(** A proposal touches the pools and the node database only. *)
Lemma GenerateBlock_chain now bc b bc1 :
  GenerateBlock P now bc = Ret (b, bc1) ->
  bc_Storage bc1 = bc_Storage bc /\ bc_ChainConfig bc1 = bc_ChainConfig bc /\
  bc_PartitionMap bc1 = bc_PartitionMap bc.
Proof.
  unfold GenerateBlock. intros H. apply bind_Ret in H as ([b' bc'] & H & H'). inv_res.
  destruct (UTXO P).
  - destruct (UTXOTxPool_PackTxs _ _). inv_res. done.
  - destruct (TxPool_PackTxs _ _) as [txs pool]. apply bind_Ret in H as ([rt bc2] & H & H').
    inv_res. apply GetUpdateStatusTrie_frame in H. rewrite H. done.
Qed.

Lemma IsValidBlock_ok b bc :
  IsValidBlock b bc = None <->
  bh_ParentBlockHash (b_Header b) = b_Hash (bc_CurrentBlock bc) /\
  bh_TxRoot (b_Header b) = GetTxTreeRoot (b_Body b).
Proof.
  unfold IsValidBlock. repeat case_bool_decide; cbn; split; try done; intuition congruence.
Qed.

(** The miner adopts its own block. *)
Lemma AddBlock_own b bc :
  storage_ok (bc_Storage bc) -> storable b ->
  bh_Number (b_Header b) = u64 (bh_Number (b_Header (bc_CurrentBlock bc)) + 1) ->
  bh_Miner (b_Header b) = NodeID (bc_ChainConfig bc) ->
  exists s, AddBlock P b bc = Ret (bc <| bc_CurrentBlock := b |> <| bc_Storage := s |>).
Proof.
  intros Hs Hb Hn Hm. destruct (Storage_AddBlock_total b _ Hs Hb) as [s Ha].
  exists s. unfold AddBlock. rewrite Hn, Hm, !Z.eqb_refl. cbn. by rewrite Ha.
Qed.

(** Another node executes the block first. *)
Lemma AddBlock_other b bc rt bc1 :
  UTXO P = false -> storage_ok (bc_Storage bc) -> storable b ->
  bh_Number (b_Header b) = u64 (bh_Number (b_Header (bc_CurrentBlock bc)) + 1) ->
  bh_Miner (b_Header b) <> NodeID (bc_ChainConfig bc) ->
  GetUpdateStatusTrie P (b_Body b) bc = Ret (rt, bc1) ->
  exists s, AddBlock P b bc = Ret (bc1 <| bc_CurrentBlock := b |> <| bc_Storage := s |>).
Proof.
  intros HU Hs Hb Hn Hm He. destruct (Storage_AddBlock_total b _ Hs Hb) as [s Ha].
  exists s. unfold AddBlock. rewrite HU, Hn, Z.eqb_refl. apply Z.eqb_neq in Hm. rewrite Hm.
  cbn [negb andb]. rewrite He. cbn [mbind res_bind].
  rewrite (GetUpdateStatusTrie_frame _ _ _ _ He). cbn. by rewrite Ha.
Qed.

(** Replicas stay replicas through a block.  When the leader
    (node 0) and a follower are replicas, the leader's [GenerateBlock]
    returns a block of the packed transactions which the follower's
    [IsValidBlock] accepts; after both run [AddBlock] they are replicas
    again, at that block, one higher, with the balances of [ledger_run]. *)
Lemma GenerateBlock_replicated now leader follower l :
  UTXO P = false ->
  NodeID (bc_ChainConfig leader) = 0 -> NodeID (bc_ChainConfig follower) <> 0 ->
  replica leader follower -> state_is leader (state_root leader) l ->
  storage_ok (bc_Storage leader) -> storage_ok (bc_Storage follower) ->
  let packed := (TxPool_PackTxs (BlockSize (bc_ChainConfig leader)) (bc_Txpool leader)).1 in
  Forall (addr_ok P leader) packed ->
  exists b leader1, GenerateBlock P now leader = Ret (b, leader1) /\
    b_Body b = packed /\ IsValidBlock b follower = None /\
    bh_Number (b_Header b) = u64 (bh_Number (b_Header (bc_CurrentBlock leader)) + 1) /\
    (storable b -> exists leader2 follower2,
      AddBlock P b leader1 = Ret leader2 /\ AddBlock P b follower = Ret follower2 /\
      bc_CurrentBlock follower2 = b /\ replica leader2 follower2 /\
      state_is leader2 (state_root leader2) (ledger_run (local_in P leader) l packed)).
Proof.
  intros HU Hl0 Hf0 Hrep Hl Hsl Hsf packed Hok.
  destruct (TxPool_PackTxs _ _) as [txs pool] eqn:EP. subst packed. cbn [fst] in *.
  set (leader0 := leader <| bc_Txpool := pool |>).
  destruct (GetUpdateStatusTrie_exec P txs leader0 l Hl Hok)
    as (rt & leader1 & H1 & S1 & B1 & F1 & K1).
  destruct (GenerateBlock_spec now leader txs pool rt leader1 HU EP H1) as (b & Hgen & Hbody & Hhdr).
  destruct Hrep as [Rb Rm Rs Rt]. assert (Hrep : replica leader0 follower) by done.
  exists b, leader1. split; [done|]. split; [done|]. split; [|split; [by rewrite Hhdr|]].
  { apply IsValidBlock_ok. rewrite Hhdr, Hbody. cbn. by injection Rb as _ ->. }
  intros Hst.
  destruct (GetUpdateStatusTrie_exec P txs follower l) as (rt2 & fol1 & H2 & S2 & _ & F2 & _).
  { by eapply (replica_state leader0). }
  { eapply list.Forall_impl; [done|]. intros tx. by apply addr_ok_ext. }
  destruct (GetUpdateStatusTrie_replica P txs leader0 follower rt rt2 leader1 fol1)
    as (<- & _ & Hsame); [done..|].
  destruct (AddBlock_own b leader1) as [sl Hal]; [by rewrite F1|done|by rewrite F1, Hhdr|
    by rewrite F1, Hhdr|].
  destruct (AddBlock_other b follower rt fol1) as [sf Haf]; [done|done|done|
    injection Rb as Rb _; by rewrite Hhdr, <- Rb|rewrite Hhdr; cbn; congruence|by rewrite Hbody|].
  eexists _, _. split; [exact Hal|]. split; [exact Haf|]. split; [done|].
  assert (Hroot : forall bc s, state_root (bc <| bc_CurrentBlock := b |> <| bc_Storage := s |>) = rt).
  { intros. unfold state_root. cbn. by rewrite Hhdr. }
  split; [|rewrite Hroot; exact S1].
  split; [done|by rewrite F1, F2|by rewrite F1, F2|]. rewrite !Hroot.
  exact Hsame.
Qed.

(** C20: the chain grows one height at a time and its tip is what
    is stored.  Any sequence of [AddBlock]s keeps the invariant that the
    store's newest block is the tip, leaves pools and partition map alone,
    and a block is either ignored, leaving everything as it was, because
    its height is not the next one, or becomes the tip. *)
Theorem AddBlock_chain blocks bc bc' :
  chain_ok bc -> foldM (fun bc b => AddBlock P b bc) bc blocks = Ret bc' ->
  chain_ok bc' /\ bc_Txpool bc' = bc_Txpool bc /\ bc_PartitionMap bc' = bc_PartitionMap bc /\
  (forall b bc2, AddBlock P b bc' = Ret bc2 ->
     let next := u64 (bh_Number (b_Header (bc_CurrentBlock bc')) + 1) in
     if bh_Number (b_Header b) =? next then bc_CurrentBlock bc2 = b else bc2 = bc').
Proof.
  intros Hok Hf.
  assert (H : chain_ok bc' /\ bc_Txpool bc' = bc_Txpool bc /\ bc_PartitionMap bc' = bc_PartitionMap bc).
  { revert Hf. apply (foldM_inv (fun bc1 => chain_ok bc1 /\ bc_Txpool bc1 = bc_Txpool bc /\
      bc_PartitionMap bc1 = bc_PartitionMap bc)); [done|].
    intros s b s1 _ ([Hs Hn Ht] & Hp & Hm) [[_ ->]|(_ & Ha & Heq)]%AddBlock_cases; [done|].
    destruct (Storage_AddBlock_chain _ _ _ Hs Ha) as (Hs' & Hn' & Ht').
    rewrite Heq. split; [split; cbn; [done|done|by exists b]|done]. }
  destruct H as (Hc & Hp & Hm). split; [done|]. split; [done|]. split; [done|].
  intros b bc2 [[Hne ->]|(He & _ & Heq)]%AddBlock_cases; cbn zeta.
  - by rewrite (proj2 (Z.eqb_neq _ _) Hne).
  - rewrite He, Z.eqb_refl. by rewrite Heq.
Qed.

(** The bucket names [NewStorage] uses. *)
Definition std_buckets (s : Storage) : Prop :=
  blockBucket s = "block"%string /\ blockHeaderBucket s = "blockHeader"%string /\
  newestBlockHashBucket s = "newestBlockHash"%string /\ UTXOBucket s = "utxo"%string.

(** Opening an existing store finds what it held. *)
Lemma NewStorage_reopen cc s :
  storage_ok s -> std_buckets s ->
  exists s', NewStorage cc (DataBase s) = Ret s' /\ std_buckets s' /\
    forall b k, has_bucket (DataBase s) b ->
      bolt_Get (DataBase s') b k = bolt_Get (DataBase s) b k.
Proof.
  intros [_ H1 H2 H3 H4] (N1 & N2 & N3 & N4). unfold NewStorage. cbn.
  assert (Hstep : forall d b, b <> EmptyString ->
    exists d', bolt_CreateBucketIfNotExists d b = Some d' /\
      forall b' k, has_bucket d b' -> bolt_Get d' b' k = bolt_Get d b' k).
  { intros d b Hb. destruct (create_ok d b Hb) as [d' Hd]. exists d'. split; [done|].
    intros b' k Hbk. erewrite create_get by done. case_decide; subst; [|done].
    by destruct (Hbk k) as [o ->]. }
  assert (Hhas : forall d d' b, has_bucket d b ->
    (forall b' k, has_bucket d b' -> bolt_Get d' b' k = bolt_Get d b' k) -> has_bucket d' b).
  { intros d d' b Hb He k. rewrite He by done. apply Hb. }
  destruct (Hstep (DataBase s) "block"%string) as (d1 & -> & E1); [done|]. cbn.
  destruct (Hstep d1 "blockHeader"%string) as (d2 & -> & E2); [done|]. cbn.
  destruct (Hstep d2 "newestBlockHash"%string) as (d3 & -> & E3); [done|]. cbn.
  destruct (Hstep d3 "utxo"%string) as (d4 & -> & E4); [done|]. cbn.
  eexists. split; [done|]. split; [done|]. intros b k Hb. cbn.
  rewrite E4, E3, E2, E1 by eauto. done.
Qed.

(** C21: a node restarts where it stopped.  [NewBlockChain] on the
    block store of a chain, with a state database that still has the tip's
    root, returns a chain with the same tip and state, no pending
    transactions and no partition map. *)
Theorem NewBlockChain_restart cc db bc t :
  UTXO P = false -> chain_ok bc -> std_buckets (bc_Storage bc) ->
  trie_New (state_root bc) (triedb_open db) = Some t ->
  exists bc', NewBlockChain P cc db (DataBase (bc_Storage bc)) = Ret bc' /\
    tip_of (bc_CurrentBlock bc') = tip_of (bc_CurrentBlock bc) /\ chain_ok bc' /\
    bc_triedb bc' = Some (triedb_open db) /\ trie_New (state_root bc') (triedb_open db) = Some t /\
    bc_Txpool bc' = NewTxPool /\ bc_PartitionMap bc' = ∅.
Proof.
  intros HU [Hs Hn (tb & Ht & Htb)] Hstd Htr.
  destruct (NewStorage_reopen cc _ Hs Hstd) as (s' & Hnew & (N1 & N2 & N3 & N4) & Hget).
  destruct Hstd as (M1 & M2 & M3 & M4).
  assert (Hn' : GetNewestBlockHash s' = GetNewestBlockHash (bc_Storage bc)).
  { unfold GetNewestBlockHash. rewrite N3, M3, Hget; [done|]. rewrite <- M3. apply so_newest, Hs. }
  assert (Ht' : forall h, GetBlock h s' = GetBlock h (bc_Storage bc)).
  { intros h. unfold GetBlock. rewrite N1, M1, Hget; [done|]. rewrite <- M1. apply so_block, Hs. }
  pose proof (NewStorage_ok _ _ _ Hnew) as Hok'.
  unfold NewBlockChain. rewrite Hnew. cbn [mbind res_bind bc_Storage]. rewrite Hn', Hn.
  cbn [mbind res_bind]. unfold must_ok. cbn [bc_Storage]. rewrite Ht', Ht.
  cbn [mbind res_bind]. rewrite HU. cbn [negb]. injection Htb as Hhd Hhs.
  unfold state_root in *. rewrite Hhd, Htr.
  cbn. eexists. split; [done|]. split; [unfold tip_of; cbn; congruence|].
  split; [|split; [done|split; [by cbn; rewrite Hhd|done]]].
  split; cbn; [done|by rewrite Hn', Hn, Hhs|]. exists tb. by rewrite Ht', Hhs, Ht.
Qed.

(** The chain of a fresh node. *)
Definition empty_chain (db : EthDB) (cc : ChainConfig) (s : Storage) : BlockChain :=
  mkBlockChain db None cc (NewBlock zero_BlockHeader [] []) s NewTxPool NewUTXOTxPool ∅ "".
Definition genesis (db : EthDB) (cc : ChainConfig) (s : Storage) : Block :=
  (NewGenisisBlock P (empty_chain db cc s)).1.

(** All nodes start from one block: the empty trie has one hash. *)
Lemma genesis_same db1 cc1 s1 db2 cc2 s2 :
  UTXO P = false -> genesis db1 cc1 s1 = genesis db2 cc2 s2.
Proof.
  intros HU. unfold genesis, NewGenisisBlock. rewrite HU. cbn.
  by rewrite (hash_ext (trie_NewEmpty (triedb_open db1)) (trie_NewEmpty (triedb_open db2)))
    by (intros k; by rewrite !get_empty).
Qed.

Lemma NewBlockChain_fresh cc db file s :
  UTXO P = false ->
  NewStorage cc file = Ret s -> bolt_Get (DataBase s) (newestBlockHashBucket s) OnlyNewestBlock = Some None ->
  storable (genesis db cc s) ->
  exists s', Storage_AddBlock (genesis db cc s) s = Ret s' /\
    NewBlockChain P cc db file =
      Ret (mkBlockChain db (Some (triedb_open db)) cc (genesis db cc s) s' NewTxPool NewUTXOTxPool ∅ "").
Proof.
  intros HU Hs Hn Hst. pose proof (NewStorage_ok _ _ _ Hs) as Hok.
  destruct (Storage_AddBlock_total (genesis db cc s) s Hok Hst) as [s' Ha]. exists s'. split; [done|].
  unfold NewBlockChain. rewrite Hs. cbn [mbind res_bind bc_Storage]. unfold GetNewestBlockHash at 1. rewrite Hn.
  cbn [must mbind res_bind]. rewrite bool_decide_eq_true_2 by done. fold (empty_chain db cc s).
  rewrite (surjective_pairing (NewGenisisBlock P (empty_chain db cc s))). fold (genesis db cc s).
  assert (E2 : (NewGenisisBlock P (empty_chain db cc s)).2 = empty_chain db cc s <| bc_triedb := Some (triedb_open db) |>)
    by (unfold NewGenisisBlock; by rewrite HU).
  rewrite E2. unfold AddGenisisBlock. cbn [bc_Storage empty_chain set_field]. cbn [bc_Storage]. rewrite Ha.
  cbn [mbind res_bind]. destruct (Storage_AddBlock_chain _ s s' Hok Ha) as (_ & Hn' & Ht').
  unfold must_ok. rewrite Hn'. cbn [mbind res_bind]. rewrite Ht'. done.
Qed.

(** The genesis state: every account has the initial balance. *)
Lemma genesis_state db cc s s' :
  UTXO P = false ->
  let bc := mkBlockChain db (Some (triedb_open db)) cc (genesis db cc s) s' NewTxPool NewUTXOTxPool ∅ "" in
  exists t, trie_New (state_root bc) (triedb_open db) = Some t /\ same_content t (trie_NewEmpty (triedb_open db)) /\
    state_is bc (state_root bc) (fun _ => Init_Balance).
Proof.
  intros HU bc. destruct (open_empty (triedb_open db) (triedb_open db)) as (t & Hto & Hc).
  assert (Hr : state_root bc = trie_Hash (trie_NewEmpty (triedb_open db))).
  { unfold state_root, bc, genesis, NewGenisisBlock. rewrite HU. cbn. by rewrite root_hash. }
  exists t. rewrite Hr. split; [done|]. split; [done|]. exists (triedb_open db), t. split; [done|]. split; [done|].
  split.
  - intros a e. by rewrite (Hc a), get_empty.
  - intros a. unfold balance. by rewrite (Hc a), get_empty.
Qed.

(** A fresh node starts with the genesis block.  On empty
    storage [NewBlockChain] returns a chain of height 0, the genesis block
    stored and newest, in whose state every account has [Init_Balance]. *)
Theorem NewBlockChain_genesis cc db file s :
  UTXO P = false ->
  NewStorage cc file = Ret s -> bolt_Get (DataBase s) (newestBlockHashBucket s) OnlyNewestBlock = Some None ->
  storable (genesis db cc s) ->
  exists bc, NewBlockChain P cc db file = Ret bc /\ chain_ok bc /\
    bh_Number (b_Header (bc_CurrentBlock bc)) = 0 /\ b_Body (bc_CurrentBlock bc) = [] /\
    state_is bc (state_root bc) (fun _ => Init_Balance).
Proof.
  intros HU Hs Hn Hst. destruct (NewBlockChain_fresh cc db file s HU Hs Hn Hst) as (s' & Ha & E).
  destruct (Storage_AddBlock_chain _ s s' (NewStorage_ok _ _ _ Hs) Ha) as (Hok' & Hn' & Ht').
  eexists. split; [exact E|]. split; [split; cbn; [done|done|by eexists]|].
  split; [unfold genesis, NewGenisisBlock; by rewrite HU|]. split; [unfold genesis, NewGenisisBlock; by rewrite HU|].
  by destruct (genesis_state db cc s s' HU) as (t & _ & _ & H).
Qed.

(** ** Account migration *)

(** An account as [AddAccounts] stores it. *)
Definition migrated (a : AccountState) : AccountState :=
  mkAccountState "" (as_Nonce a) (as_Balance a) "" "".

Definition in_shard (bc : BlockChain) (addr : string) : Prop :=
  Get_PartitionMap P addr bc = Ret (ShardID (bc_ChainConfig bc)).

Lemma add_account_in bc accounts st k x a :
  in_shard bc x -> accounts !! k = Some a ->
  add_account P bc accounts st (Z.of_nat k, x) = Ret (trie_Update st x (enc (migrated a))).
Proof.
  intros Hi Ha. unfold in_shard in Hi. unfold add_account. rewrite Hi. cbn [mbind res_bind].
  by rewrite Z.eqb_refl, Nat2Z.id, Ha.
Qed.

Lemma add_accounts_loop bc td ac : forall k accounts st,
  opened st td -> NoDup ac -> Forall (in_shard bc) ac -> length accounts = (k + length ac)%nat ->
  exists st', foldM (add_account P bc accounts) st (imap (fun i x => (Z.of_nat (k + i), x)) ac)
              = Ret st' /\ opened st' td /\
    (forall i addr a, ac !! i = Some addr -> accounts !! (k + i)%nat = Some a ->
       trie_Get st' addr = Some (enc (migrated a))) /\
    (forall addr, addr ∉ ac -> trie_Get st' addr = trie_Get st addr).
Proof.
  induction ac as [|x ac IH]; intros k accounts st Ho Hnd Hin Hlen.
  { exists st. cbn. split; [done|]. split; [done|]. split; [done|done]. }
  apply list.NoDup_cons in Hnd as [Hx Hnd]. apply list.Forall_cons in Hin as [Hi Hin].
  cbn [length] in Hlen. destruct (lookup_lt_is_Some_2 accounts k) as [a Ha]; [lia|].
  cbn [imap foldM]. rewrite Nat.add_0_r, (add_account_in bc accounts st k x a Hi Ha).
  cbn [mbind res_bind].
  destruct (IH (S k) accounts (trie_Update st x (enc (migrated a)))) as (st' & Hf & Ho' & H1 & H2);
    [by apply opened_Update|done|done|lia|].
  exists st'. split; [|split; [done|split]].
  - rewrite <- Hf. unfold migrated. f_equal. apply imap_ext. intros i y _. cbn. f_equal. lia.
  - intros [|i] addr a' Hac Hacc; cbn in Hac.
    + injection Hac as <-. rewrite Nat.add_0_r, Ha in Hacc. injection Hacc as <-.
      rewrite H2 by done. by rewrite get_update_eq by apply enc_nonempty.
    + apply (H1 i); [done|]. by rewrite Nat.add_succ_comm.
  - intros addr [Hne Hni]%not_elem_of_cons. rewrite H2 by done. by rewrite get_update_ne.
Qed.

Lemma fetch_loop st addrs : forall acc r,
  Forall2 (fun addr a => load_account st addr 0 = Ret a) addrs r ->
  foldM (fun r addr => a ← load_account st addr 0; Ret (r ++ [a])) acc addrs = Ret (acc ++ r).
Proof.
  induction addrs as [|x addrs IH]; intros acc r Hr; inversion Hr as [|? a ? r' Ha Hr']; subst;
    cbn [foldM]; [by rewrite app_nil_r|].
  rewrite Ha. cbn [mbind res_bind]. rewrite (IH _ r') by done. by rewrite <- app_assoc.
Qed.

Lemma fetch_ext t1 t2 addrs : forall acc,
  (forall a, a ∈ addrs -> trie_Get t1 a = trie_Get t2 a) ->
  foldM (fun r addr => a ← load_account t1 addr 0; Ret (r ++ [a])) acc addrs =
  foldM (fun r addr => a ← load_account t2 addr 0; Ret (r ++ [a])) acc addrs.
Proof.
  induction addrs as [|x addrs IH]; intros acc He; [done|]. cbn [foldM].
  assert (load_account t1 x 0 = load_account t2 x 0) as ->.
  { unfold load_account. by rewrite He by left. }
  destruct (load_account t2 x 0); cbn; [|done..]. apply IH. intros. apply He. by right.
Qed.

(** [AddAccounts] leaves the pools and the partition map alone. *)
Lemma AddAccounts_frame ac accounts bc bc' :
  AddAccounts P ac accounts bc = Ret bc' ->
  bc' = bc <| bc_triedb := bc_triedb bc' |> <| bc_CurrentBlock := bc_CurrentBlock bc' |>
           <| bc_Storage := bc_Storage bc' |>.
Proof.
  unfold AddAccounts. intros H. apply bind_Ret in H as ([rt bc1] & H1 & H).
  assert (Hf : bc1 = bc <| bc_triedb := bc_triedb bc1 |>).
  { case_match; [|inv_res; by destruct bc1]. inv_res. destruct (trie_Commit _). inv_res. by destruct bc. }
  inv_res. rewrite Hf. done.
Qed.

(** The state [AddAccounts] commits. *)
Lemma AddAccounts_state ac accounts bc td t :
  bc_triedb bc = Some td -> trie_New (state_root bc) td = Some t ->
  NoDup ac -> Forall (in_shard bc) ac -> length accounts = length ac ->
  (forall b, b_Body b = [] -> b_UTXO b = [] -> is_Ret (Storage_AddBlock b (bc_Storage bc))) ->
  exists bc' td' t', AddAccounts P ac accounts bc = Ret bc' /\
    bc_triedb bc' = Some td' /\ trie_New (state_root bc') td' = Some t' /\
    bh_Number (b_Header (bc_CurrentBlock bc')) = u64 (bh_Number (b_Header (bc_CurrentBlock bc)) + 1) /\
    (forall i addr a, ac !! i = Some addr -> accounts !! i = Some a ->
       trie_Get t' addr = Some (enc (migrated a))) /\
    (forall addr, addr ∉ ac -> trie_Get t' addr = trie_Get t addr).
Proof.
  intros Htd Ht Hnd Hin Hlen Hst. unfold AddAccounts.
  destruct ac as [|x ac]; cbn [length Nat.eqb negb].
  { cbn [mbind res_bind bc_Storage].
    match goal with |- context [Storage_AddBlock ?b _] => destruct (Hst b) as [s Hs]; [done..|] end.
    cbn in Hs |- *. rewrite Hs. cbn. eexists _, td, t. split; [done|]. split; [done|].
    split; [|done]. etransitivity; [|exact Ht]. f_equal. apply to_hash_idem. }
  destruct (add_accounts_loop bc td (x :: ac) 0 accounts t) as (st & Hf & Ho & H1 & H2);
    [by eapply opened_New|done..|].
  rewrite Htd. cbn [must mbind res_bind]. rewrite Ht. cbn [must mbind res_bind].
  change (imap _ (x :: ac)) with (indexed (x :: ac)) in Hf.
  rewrite Hf. cbn [mbind res_bind].
  pose proof (commit_hash st) as Hh. destruct (trie_update_ok st td Ho) as [d1 E1].
  destruct (trie_commit_ok d1 (state_root bc)) as [d2 E2].
  destruct (commit_all st td d1 (state_root bc) d2 Ho E1 E2) as (t' & Ht' & Hc).
  destruct (trie_Commit st) as [rt ns]. cbn in Hh, E1. subst rt. rewrite E1.
  cbn [must mbind res_bind]. rewrite E2. cbn [must mbind res_bind bc_Storage].
  match goal with |- context [Storage_AddBlock ?b _] => destruct (Hst b) as [s Hs]; [done..|] end.
  cbn in Hs |- *. rewrite Hs. cbn. eexists _, d2, t'. split; [done|]. split; [done|].
  split; [etransitivity; [|exact Ht']; f_equal; apply root_hash|]. split; [done|].
  split; [|by intros; rewrite (Hc _), H2].
  intros i addr a Hi Ha. rewrite (Hc _). by apply (H1 i).
Qed.

(** Replicas that migrate the same accounts stay replicas. *)
Lemma add_account_rel bc1 bc2 accounts td1 td2 t1 t2 ia :
  bc_PartitionMap bc1 = bc_PartitionMap bc2 -> ShardID (bc_ChainConfig bc1) = ShardID (bc_ChainConfig bc2) ->
  trie_rel td1 td2 t1 t2 ->
  res_rel (trie_rel td1 td2) (add_account P bc1 accounts t1 ia) (add_account P bc2 accounts t2 ia).
Proof.
  intros Hm Hsh Ht. destruct ia as [i addr]. unfold add_account.
  rewrite (Get_PartitionMap_ext P bc1 bc2) by done. rewrite Hsh.
  eapply res_rel_bind; [apply res_rel_refl|]. intros r ? <-. case_match; [|by cbn].
  eapply res_rel_bind; [apply res_rel_refl|]. intros a ? <-. cbn. by apply trie_rel_update.
Qed.

Lemma AddAccounts_replica ac accounts bc1 bc2 bc1' bc2' :
  replica bc1 bc2 -> AddAccounts P ac accounts bc1 = Ret bc1' -> AddAccounts P ac accounts bc2 = Ret bc2' ->
  replica bc1' bc2'.
Proof.
  intros [Hb Hm Hsh (td1 & td2 & t1 & t2 & Hd1 & Hd2 & Ht1 & Ht2 & Hs)] H1 H2.
  injection Hb as Hh Hhash.
  assert (Hroot : state_root bc1 = state_root bc2) by (unfold state_root; by rewrite Hh).
  unfold AddAccounts in H1, H2. rewrite Hhash, Hh, Hroot in H1.
  destruct ac as [|x ac]; cbn [length Nat.eqb negb] in H1, H2.
  - cbn [mbind res_bind] in H1, H2. inv_res.
    split; [done|done|done|]. exists td1, td2, t1, t2. unfold state_root. cbn.
    rewrite to_hash_idem, <- Hh. split_and!; [done|done|exact Ht1| |done].
    unfold state_root in Ht2. by rewrite <- Hh in Ht2.
  - rewrite Hd1 in H1. rewrite Hd2 in H2. cbn [must mbind res_bind] in H1, H2.
    rewrite <- Hroot, Ht1 in H1. rewrite Ht2 in H2. cbn [must mbind res_bind] in H1, H2.
    pose proof (res_rel_foldM (trie_rel td1 td2) (add_account P bc1 accounts) (add_account P bc2 accounts)
      (indexed (x :: ac)) (fun s t ia => add_account_rel bc1 bc2 accounts td1 td2 s t ia Hm Hsh) t1 t2) as Hr.
    destruct (foldM (add_account P bc1 accounts) t1 _) as [st1| |] eqn:E1; [|done..].
    destruct (foldM (add_account P bc2 accounts) t2 _) as [st2| |] eqn:E2; [|done..].
    destruct Hr as (Ho1 & Ho2 & Hst).
    { split; [by eapply opened_New|]. split; [by eapply opened_New|done]. }
    cbn [mbind res_bind] in H1, H2.
    pose proof (commit_hash st1) as Hh1. pose proof (commit_hash st2) as Hh2.
    destruct (trie_Commit st1) as [r1 n1] eqn:F1, (trie_Commit st2) as [r2 n2] eqn:F2. cbn in Hh1, Hh2.
    inv_res. rewrite (hash_ext st2 st1) by done.
    edestruct (commit_all st1) as (u1 & Hu1 & Hc1); [exact Ho1|by rewrite F1|eassumption|].
    edestruct (commit_all st2) as (u2 & Hu2 & Hc2); [exact Ho2|by rewrite F2|eassumption|].
    rewrite (hash_ext st2 st1) in Hu2 by done.
    split; [done|done|done|]. eexists _, _, u1, u2. unfold state_root. cbn. rewrite root_hash.
    split_and!; [done|done|done|done|by rewrite Hc1, Hc2].
Qed.

(** Migrated accounts arrive intact.  [AddAccounts] of
    distinct addresses of this shard returns a chain one block higher in
    which [FetchAccounts] gives back exactly the balances and nonces that
    were added, and for any other address what it gave before. *)
Theorem AddAccounts_fetch ac accounts bc td t :
  bc_triedb bc = Some td -> trie_New (state_root bc) td = Some t ->
  NoDup ac -> Forall (in_shard bc) ac -> length accounts = length ac ->
  (forall b, b_Body b = [] -> b_UTXO b = [] -> is_Ret (Storage_AddBlock b (bc_Storage bc))) ->
  exists bc', AddAccounts P ac accounts bc = Ret bc' /\
    bh_Number (b_Header (bc_CurrentBlock bc')) = u64 (bh_Number (b_Header (bc_CurrentBlock bc)) + 1) /\
    FetchAccounts ac bc' = Ret (migrated <$> accounts) /\
    (forall addrs, (forall a, a ∈ addrs -> a ∉ ac) -> FetchAccounts addrs bc' = FetchAccounts addrs bc).
Proof.
  intros Htd Ht Hnd Hin Hlen Hst.
  destruct (AddAccounts_state ac accounts bc td t Htd Ht Hnd Hin Hlen Hst)
    as (bc' & td' & t' & Ha & Htd' & Ht' & Hn & H1 & H2).
  exists bc'. split; [done|]. split; [done|].
  unfold FetchAccounts. rewrite Htd', Htd. cbn [must mbind res_bind]. rewrite Ht', Ht.
  cbn [must mbind res_bind]. split.
  - rewrite (fetch_loop t' ac [] (migrated <$> accounts)); [done|].
    apply Forall2_fmap_r, Forall2_same_length_lookup_2; [done|].
    intros i addr a Hi Ha'. unfold load_account. by rewrite (H1 i addr a Hi Ha'), dec_enc.
  - intros addrs Hout. apply fetch_ext. intros a Hin'. apply H2. by apply Hout.
Qed.
End execution.

(** *** A concrete shard: two shards, this one is shard 0 *)
Module RefChain.
#[export] Existing Instance RefTrie.lib.
#[export] Existing Instance RefTrie.laws.
#[export] Existing Instance RefTrie.live.
Export RefStorage.
#[export] Instance sha : Sha256 := fun _ => "0123456789abcdef0123456789abcdef"%string.

Definition params : Params :=
  {| MaxLatency := 0; UTXO := false; UseSyncHotstuff := false; TxInputCount := 20000;
     Block_Interval := 1000; MaxBlockSize_global := 500; InjectSpeed := 100; TotalDataSize := 100000;
     BatchSize := 4000; BrokerNum := 10; NodesInShard := 4; ShardNum := 2;
     SupervisorAddr := "127.0.0.1:18800" |}.
Definition node (n : Z) : ChainConfig :=
  {| ChainID := 0; NodeID := n; ShardID := 0; Nodes_perShard := 4; ShardNums := 2;
     BlockSize := 2; BlockInterval := 1; cc_InjectSpeed := 1; MaxRelayBlockSize := 0 |}.
Definition fallback (n : Z) : BlockChain :=
  mkBlockChain (∅ : EthDB) None (node n) (NewBlock zero_BlockHeader [] []) RefStorage.store
    NewTxPool NewUTXOTxPool ∅ "".
Definition chain (n : Z) : BlockChain :=
  match NewBlockChain params (node n) (∅ : EthDB) (∅ : BoltDB) with
  | Ret bc => bc
  | _ => fallback n
  end.

(** "0000000a" and "0000000c" are accounts of shard 0, "0000000b" of shard 1. *)
Definition t1 : Transaction := sample_tx "0000000a" "0000000c" 5 "h1".
Definition t2 : Transaction := sample_tx "0000000a" "0000000b" 7 "h2".
Definition with_txs (n : Z) : BlockChain := SendTx2Pool 1 [t1; t2] (chain n).

(** Unfolded last: its store is a large term. *)
#[global] Strategy 1000 [chain].

Lemma chain_node n : bc_ChainConfig (chain n) = node n.
Proof. reflexivity. Qed.
Lemma chain_state n : state_is (chain n) (state_root (chain n)) (fun _ => Init_Balance).
Proof.
  exists ∅, ∅. split; [reflexivity|]. split; [reflexivity|]. split; [done|]. done.
Qed.
Lemma chain_tip n : chain_ok (chain n).
Proof.
  split; [|reflexivity|exists (bc_CurrentBlock (chain n)); split; reflexivity].
  destruct (NewStorage (node n) ∅) as [s| |] eqn:E; [|discriminate E..].
  apply (NewStorage_ok _ _ _) in E as Hok. injection E as <-.
  eapply Storage_AddBlock_chain; [exact Hok|reflexivity].
Qed.
Lemma chain_replica : replica (with_txs 0) (chain 1).
Proof.
  split; [reflexivity..|]. exists ∅, ∅, ∅, ∅. split_and!; reflexivity.
Qed.
Lemma txs_ok bc : bc_PartitionMap bc = ∅ -> Forall (addr_ok params bc) [t1; t2].
Proof.
  intros H. unfold addr_ok, Get_PartitionMap. rewrite H.
  repeat constructor; eexists; reflexivity.
Qed.
End RefChain.

Import RefChain.


Lemma GetUpdateStatusTrie_conserves_witness :
  exists rt bc' l', GetUpdateStatusTrie params [t1] (chain 0) = Ret (rt, bc') /\
    state_is bc' rt l' /\
    total l' ["0000000a"; "0000000c"]%string = Init_Balance + (Init_Balance + 0).
Proof.
  destruct (GetUpdateStatusTrie_exec params [t1] (chain 0) _ (chain_state 0)
    ltac:(pose proof (txs_ok (chain 0) eq_refl) as H; inversion H; repeat constructor; apply H2))
    as (rt & bc' & H1 & _).
  destruct (GetUpdateStatusTrie_conserves params [t1] (chain 0) _
    ["0000000a"; "0000000c"]%string rt bc' (chain_state 0)) as (l' & H2 & _ & H3).
  - pose proof (txs_ok (chain 0) eq_refl) as H. inversion H. repeat constructor; apply H3.
  - apply (bool_decide_unpack _). reflexivity.
  - repeat constructor; intros _; apply (bool_decide_unpack _); reflexivity.
  - exact H1.
  - exists rt, bc', l'. split; [exact H1|]. split; [exact H2|]. apply H3. repeat constructor.
Defined.

Lemma GetUpdateStatusTrie_solvent_witness :
  exists rt bc' l', GetUpdateStatusTrie params [t1; t2] (chain 0) = Ret (rt, bc') /\
    state_is bc' rt l' /\ (forall a, 0 <= l' a).
Proof.
  destruct (GetUpdateStatusTrie_exec params [t1; t2] (chain 0) _ (chain_state 0) (txs_ok (chain 0) eq_refl))
    as (rt & bc' & H1 & _).
  destruct (GetUpdateStatusTrie_solvent params [t1; t2] (chain 0) _ rt bc' (chain_state 0)
    (txs_ok (chain 0) eq_refl)) as (l' & H2 & H3).
  - intros a. vm_compute. discriminate.
  - repeat constructor; vm_compute; discriminate.
  - exact H1.
  - exists rt, bc', l'. split; [exact H1|]. split; [exact H2|exact H3].
Defined.

Lemma GetTxTreeRoot_perm_witness :
  GetTxTreeRoot [t1; t2] = GetTxTreeRoot [t2; t1] /\ [t1; t2] <> [t2; t1].
Proof.
  split; [|discriminate]. apply GetTxTreeRoot_perm.
  - intros a b H k. unfold trie_Hash, RefTrie.lib, RefTrie.root in H.
    apply (f_equal str_pos) in H. rewrite !str_pos_str in H. apply (inj encode) in H. by subst.
  - apply (bool_decide_unpack _). reflexivity.
  - apply (bool_decide_unpack _). reflexivity.
  - apply Permutation_swap.
Defined.

Lemma AddBlock_chain_witness :
  exists bc', foldM (fun bc b => AddBlock params b bc) (chain 0) [RefStorage.block] = Ret bc' /\
    chain_ok bc' /\ bc_CurrentBlock bc' = RefStorage.block.
Proof.
  destruct (AddBlock_own params RefStorage.block (chain 0)) as [s Hs].
  - apply (chain_tip 0).
  - unfold storable, bolt_key_ok, bolt_val_ok. vm_compute. intuition congruence.
  - reflexivity.
  - reflexivity.
  - eexists. split; [cbn [foldM mbind res_bind]; rewrite Hs; reflexivity|]. split; [|reflexivity].
    refine (proj1 (AddBlock_chain params [RefStorage.block] (chain 0) _ (chain_tip 0) _)).
    cbn [foldM mbind res_bind]. rewrite Hs. reflexivity.
Defined.

Lemma NewBlockChain_restart_witness :
  exists bc', NewBlockChain params (node 0) (∅ : EthDB) (DataBase (bc_Storage (chain 0))) = Ret bc' /\
    tip_of (bc_CurrentBlock bc') = tip_of (bc_CurrentBlock (chain 0)).
Proof.
  destruct (NewBlockChain_restart params (node 0) (∅ : EthDB) (chain 0) ∅) as (bc' & H1 & H2 & _).
  - reflexivity.
  - exact (chain_tip 0).
  - repeat split.
  - reflexivity.
  - exists bc'. split; [exact H1|exact H2].
Defined.

Lemma NewBlockChain_genesis_witness :
  exists bc, NewBlockChain params (node 0) (∅ : EthDB) (∅ : BoltDB) = Ret bc /\
    bh_Number (b_Header (bc_CurrentBlock bc)) = 0.
Proof.
  destruct (NewBlockChain_genesis params (node 0) (∅ : EthDB) (∅ : BoltDB) (RefStorage.store))
    as (bc & H1 & _ & H2 & _).
  - reflexivity.
  - reflexivity.
  - reflexivity.
  - unfold storable, bolt_key_ok, bolt_val_ok. vm_compute. intuition congruence.
  - exists bc. split; [exact H1|exact H2].
Defined.

Lemma AddAccounts_fetch_witness :
  let acc := mkAccountState "" 3 42 "" "" in
  exists bc', AddAccounts params ["0000000a"%string] [acc] (chain 0) = Ret bc' /\
    FetchAccounts ["0000000a"%string] bc' = Ret [acc].
Proof.
  intros acc.
  destruct (AddAccounts_fetch params ["0000000a"%string] [acc] (chain 0) ∅ ∅) as (bc' & H1 & _ & H2 & _).
  - reflexivity.
  - reflexivity.
  - apply (bool_decide_unpack _). reflexivity.
  - repeat constructor.
  - reflexivity.
  - intros b _ _. eexists. reflexivity.
  - exists bc'. split; [exact H1|exact H2].
Defined.
