(* ===== verification/Query.v ===== *)
(** * Query: src/query

    Reading the block store and the state of a stopped node.  [file] is what
    [bolt.Open] finds at the node's path and [db] its LevelDB; an empty
    [core.Block] or a nil pointer is [None]. *)
From stdpp Require Import base gmap strings list countable.
From Stdlib Require Import ZArith Lia.
From S2P Require Import Prelude GoStd Libs Core Pools StorageDB Chain Ledger Execution.

Section query.
Context {TL : TrieLib} {BL : BoltLib} {HL : Sha256} {CC : CoreCodecs}.

Definition initStorage (sid nid : Z) (file : BoltDB) : res Storage :=
  NewStorage {| ChainID := sid; NodeID := nid; ShardID := sid; Nodes_perShard := 0; ShardNums := 0;
                BlockSize := 0; BlockInterval := 0; cc_InjectSpeed := 0; MaxRelayBlockSize := 0 |} file.

(** [bbucket.ForEach] on the bucket "block", decoding every value *)
Definition ForEachBlock {A} (f : A -> Block -> A) (a : A) (db : BoltDB) : res A :=
  items ← must (bolt_Items db "block");
  foldM (fun a kv => b ← must (dec kv.2); Ret (f a b)) a items.

Definition QueryBlocks (sid nid : Z) (file : BoltDB) : res (list Block) :=
  s ← initStorage sid nid file;
  ForEachBlock (fun blocks b => blocks ++ [b]) [] (DataBase s).

Definition QueryBlock (sid nid Number : Z) (file : BoltDB) : res (option Block) :=
  s ← initStorage sid nid file;
  ForEachBlock (fun block b => if bh_Number (b_Header b) =? Number then Some b else block) None (DataBase s).

(** The errors of [GetNewestBlockHash] and [GetBlock] are ignored. *)
Definition newest_block (s : Storage) : res (option Block) :=
  h ← GetNewestBlockHash s;
  b ← GetBlock (match h with inl _ => "" | inr h => h end)%string s;
  Ret (match b with inl _ => None | inr b => Some b end).

Definition QueryNewestBlock (sid nid : Z) (file : BoltDB) : res (option Block) :=
  s ← initStorage sid nid file; newest_block s.

Definition QueryBlockTxs (sid nid Number : Z) (file : BoltDB) : res (list Transaction) :=
  block ← QueryBlock sid nid Number file;
  Ret (match block with None => [] | Some b => b_Body b end).

(** [DecodeAS] of nil fails, and so does the header of a nil block. *)
Definition QueryAccountState (sid nid : Z) (address : string) (db : EthDB) (file : BoltDB) : res AccountState :=
  let triedb := triedb_open db in
  s ← initStorage sid nid file;
  curb ← newest_block s;
  curb ← must curb;
  st ← must (trie_New (BytesToHash (bh_StateRoot (b_Header curb))) triedb);
  asenc ← must (trie_Get st address);
  must (dec asenc).
End query.

(** ** The blocks a node has adopted *)
Section history.
Context {TL : TrieLib} {BL : BoltLib} {HL : Sha256} {CC : CoreCodecs}.
Context {BW : BoltLaws BL} {CL : CoreCodecsLaws}.
Implicit Types (bs l : list Block) (b : Block).

Definition height b : Z := bh_Number (b_Header b).

(** The blocks [AddBlock] accepts when the next height is [n]. *)
Fixpoint accepted (n : Z) (blocks : list Block) : list Block :=
  match blocks with
  | [] => []
  | b :: blocks => if height b =? n then b :: accepted (n + 1) blocks else accepted n blocks
  end.

(** The store holds exactly the blocks [bs], of the heights 0, 1, ... *)
Record history bs (bc : BlockChain) : Prop := {
  hy_ok : storage_ok (bc_Storage bc);
  hy_std : std_buckets (bc_Storage bc);
  hy_stored : forall h e, bolt_Get (DataBase (bc_Storage bc)) "block"%string h = Some (Some e) <->
    exists b, b ∈ bs /\ b_Hash b = h /\ e = enc b;
  hy_nodup : NoDup (b_Hash <$> bs);
  hy_heights : height <$> bs = seqZ 0 (Z.of_nat (length bs));
  hy_last : list.last bs = Some (bc_CurrentBlock bc);
  hy_newest : GetNewestBlockHash (bc_Storage bc) = Ret (inr (b_Hash (bc_CurrentBlock bc))) }.

Lemma history_height bs bc : history bs bc -> height (bc_CurrentBlock bc) = Z.of_nat (length bs) - 1.
Proof.
  intros H. pose proof (hy_last _ _ H) as Hl. apply last_Some in Hl as [bs' Hbs].
  pose proof (hy_heights _ _ H) as Hh. rewrite Hbs, length_app in *. cbn [length] in *.
  apply (f_equal (fun hs : list Z => hs !! length bs')) in Hh.
  rewrite list_lookup_fmap, lookup_app_r, Nat.sub_diag in Hh by lia. cbn in Hh.
  rewrite lookup_seqZ_lt in Hh by lia. injection Hh as ->. lia.
Qed.

Lemma stored_add bs b s s' :
  storage_ok s -> std_buckets s -> Storage_AddBlock b s = Ret s' -> b_Hash b ∉ b_Hash <$> bs ->
  (forall h e, bolt_Get (DataBase s) "block"%string h = Some (Some e) <-> exists b, b ∈ bs /\ b_Hash b = h /\ e = enc b) ->
  forall h e, bolt_Get (DataBase s') "block"%string h = Some (Some e) <->
    exists b', b' ∈ bs ++ [b] /\ b_Hash b' = h /\ e = enc b'.
Proof.
  intros Hs (Hb & Hbh & Hnb & _) Ha Hnew Hst h e.
  destruct (Storage_AddBlock_get b s s' Hs Ha) as (_ & _ & Hget). rewrite Hget, Hb, Hbh, Hnb.
  destruct (decide (h = b_Hash b)) as [->|Hne].
  - rewrite decide_True by done. split.
    + intros [= <-]. exists b. split; [|done]. apply elem_of_app. right. by apply list_elem_of_singleton.
    + intros (b' & [Hin| ->%list_elem_of_singleton]%elem_of_app & Heq & ->); [|done].
      destruct Hnew. rewrite <- Heq. by apply list_elem_of_fmap_2.
  - rewrite !decide_False by (intros []; congruence). rewrite Hst. split.
    + intros (b' & Hin & H). exists b'. split; [|done]. apply elem_of_app. by left.
    + intros (b' & [Hin| ->%list_elem_of_singleton]%elem_of_app & Heq & ->); [by exists b'|congruence].
Qed.

Lemma std_add b s s' : std_buckets s -> storage_ok s -> Storage_AddBlock b s = Ret s' -> std_buckets s'.
Proof. intros Hstd Hs Ha. destruct (Storage_AddBlock_get b s s' Hs Ha) as (-> & _). exact Hstd. Qed.

Lemma history_add P bs bc b bc' :
  history bs bc -> AddBlock P b bc = Ret bc' -> b_Hash b ∉ b_Hash <$> bs -> Z.of_nat (length bs) < 2 ^ 64 ->
  if height b =? Z.of_nat (length bs) then history (bs ++ [b]) bc' else bc' = bc.
Proof.
  intros H Ha Hnew Hlen. pose proof (history_height _ _ H) as Hh. fold (height (bc_CurrentBlock bc)) in *.
  apply AddBlock_cases in Ha. fold (height b) (height (bc_CurrentBlock bc)) in Ha.
  rewrite Hh, Z.sub_add, u64_small in Ha by lia. destruct Ha as [[Hne ->]|(He & Hs & Heq)].
  - by rewrite (proj2 (Z.eqb_neq _ _) Hne).
  - rewrite (proj2 (Z.eqb_eq _ _) He).
    destruct (Storage_AddBlock_chain _ _ _ (hy_ok _ _ H) Hs) as (Hok & Hn & _).
    split; [done| | | | | |].
    + by eapply std_add; [apply (hy_std _ _ H)|apply (hy_ok _ _ H)|].
    + eapply stored_add; [apply (hy_ok _ _ H)|apply (hy_std _ _ H)|done|done|apply (hy_stored _ _ H)].
    + rewrite fmap_app. apply list.NoDup_app. split; [apply (hy_nodup _ _ H)|]. split.
      * intros h Hin ->%list_elem_of_singleton. done.
      * apply NoDup_singleton.
    + rewrite fmap_app, (hy_heights _ _ H), length_app. cbn [length fmap list_fmap].
      rewrite Nat2Z.inj_add, seqZ_app by lia. cbn. by rewrite He.
    + rewrite last_snoc, Heq. done.
    + rewrite Heq. cbn. exact Hn.
Qed.

Lemma history_run P blocks : forall bs bc bc',
  history bs bc -> foldM (fun bc b => AddBlock P b bc) bc blocks = Ret bc' ->
  NoDup (b_Hash <$> bs ++ blocks) -> Z.of_nat (length bs + length blocks) < 2 ^ 64 ->
  history (bs ++ accepted (Z.of_nat (length bs)) blocks) bc'.
Proof.
  induction blocks as [|b blocks IH]; intros bs bc bc' H Hf Hnd Hlen; cbn [foldM accepted length] in *.
  - injection Hf as <-. by rewrite app_nil_r.
  - apply bind_Ret in Hf as (bc1 & Ha & Hf).
    assert (Hnew : b_Hash b ∉ b_Hash <$> bs).
    { rewrite fmap_app in Hnd. apply list.NoDup_app in Hnd as (_ & Hd & _). intros Hin. apply (Hd _ Hin). left. }
    pose proof (history_add P bs bc b bc1 H Ha Hnew ltac:(lia)) as H1.
    destruct (height b =? Z.of_nat (length bs)).
    + replace (bs ++ b :: accepted _ blocks) with ((bs ++ [b]) ++ accepted (Z.of_nat (length (bs ++ [b]))) blocks).
      * apply (IH _ bc1); [done|done|by rewrite <- app_assoc|]. rewrite length_app. cbn [length]. lia.
      * rewrite <- app_assoc, length_app. cbn [length app]. do 3 f_equal. lia.
    + subst bc1. apply (IH _ bc); [done|done| |lia]. eapply sublist_NoDup; [exact Hnd|].
      apply fmap_sublist. apply sublist_app; [done|]. by apply sublist_cons.
Qed.

Lemma NewGenisisBlock_spec P bc :
  height (NewGenisisBlock P bc).1 = 0 /\ bc_Storage (NewGenisisBlock P bc).2 = bc_Storage bc.
Proof. unfold NewGenisisBlock. by destruct (UTXO P). Qed.

(** A fresh node has the genesis block. *)
Lemma genesis_history P cc db file s0 bc :
  NewStorage cc file = Ret s0 -> (forall h, bolt_Get (DataBase s0) "block"%string h = Some None) ->
  bolt_Get (DataBase s0) "newestBlockHash"%string OnlyNewestBlock = Some None ->
  NewBlockChain P cc db file = Ret bc -> history [bc_CurrentBlock bc] bc.
Proof.
  intros Hs0 Hempty Hn Hbc. assert (Hok : storage_ok s0) by by eapply NewStorage_ok.
  assert (Hstd : std_buckets s0) by (unfold NewStorage in Hs0; inv_res; by repeat split).
  unfold NewBlockChain in Hbc. rewrite Hs0 in Hbc. cbn [mbind res_bind bc_Storage] in Hbc.
  unfold GetNewestBlockHash in Hbc at 1. pose proof Hstd as (_ & _ & HN & _). rewrite HN, Hn in Hbc.
  cbn [must mbind res_bind] in Hbc. rewrite bool_decide_eq_true_2 in Hbc by done.
  match type of Hbc with context [NewGenisisBlock P ?bc0] => pose proof (NewGenisisBlock_spec P bc0) as [Hh Hst] end.
  destruct (NewGenisisBlock P _) as [gb bc1]. cbn [fst snd bc_Storage] in Hh, Hst. unfold AddGenisisBlock in Hbc.
  rewrite Hst in Hbc. apply bind_Ret in Hbc as (s & Ha & Hbc).
  destruct (Storage_AddBlock_chain _ _ _ Hok Ha) as (Hoks & Hns & Hgb). unfold must_ok in Hbc.
  rewrite Hns in Hbc. cbn [mbind res_bind] in Hbc. rewrite Hgb in Hbc. cbn in Hbc. injection Hbc as <-. cbn.
  split; cbn; [done|by eapply std_add| |apply NoDup_singleton|by rewrite Hh|done|done].
  apply (stored_add [] gb s0 s Hok Hstd Ha); [by apply not_elem_of_nil|].
  intros h e. rewrite Hempty. split; [done|]. by intros (b & ?%not_elem_of_nil & _).
Qed.

(** The store as a query opens it. *)
Definition same_disk (s' s : Storage) : Prop :=
  forall bkt k, has_bucket (DataBase s) bkt -> bolt_Get (DataBase s') bkt k = bolt_Get (DataBase s) bkt k.

Context {LV : BoltLive BL}.

Lemma initStorage_ok sid nid s :
  storage_ok s -> std_buckets s ->
  exists s', initStorage sid nid (DataBase s) = Ret s' /\ storage_ok s' /\ std_buckets s' /\ same_disk s' s.
Proof.
  intros Hs Hstd. destruct (NewStorage_reopen {| ChainID := sid; NodeID := nid; ShardID := sid; Nodes_perShard := 0; ShardNums := 0;
    BlockSize := 0; BlockInterval := 0; cc_InjectSpeed := 0; MaxRelayBlockSize := 0 |} s Hs Hstd) as (s' & H1 & H2 & H3).
  exists s'. split_and!; [exact H1|by eapply NewStorage_ok|done|done].
Qed.

(** A loop over the bucket visits the blocks of the history, each once. *)
Lemma ForEachBlock_ok {A} (f : A -> Block -> A) bs bc s' :
  history bs bc -> storage_ok s' -> std_buckets s' -> same_disk s' (bc_Storage bc) ->
  exists l, l ≡ₚ bs /\ forall a, ForEachBlock f a (DataBase s') = Ret (foldl f a l).
Proof.
  intros H Hok (Hb & _) Hsame. pose proof (hy_std _ _ H) as (Hb0 & _).
  pose proof (so_block _ Hok) as Hbk. rewrite Hb in Hbk.
  pose proof (so_block _ (hy_ok _ _ H)) as Hbk0. rewrite Hb0 in Hbk0.
  destruct (items_ok _ _ Hbk) as [items Hi].
  assert (Hp : items ≡ₚ (fun b => (b_Hash b, enc b)) <$> bs).
  { apply NoDup_Permutation.
    - eapply NoDup_fmap_1. by eapply items_nodup.
    - apply (NoDup_fmap_1 fst). rewrite <- list_fmap_compose. apply (hy_nodup _ _ H).
    - intros [h e]. rewrite (items_get _ _ _ _ _ Hi), (Hsame _ _ Hbk0), (hy_stored _ _ H), list_elem_of_fmap.
      split; [intros (b & Hin & <- & ->)|intros (b & [= -> ->] & Hin)]; eauto. }
  symmetry in Hp. apply Permutation_sym, Permutation_map_inv in Hp as (l & -> & Hl).
  exists l. split; [by symmetry|]. intros a. unfold ForEachBlock. rewrite Hi. cbn [must mbind res_bind].
  clear -CL. revert a. induction l as [|b l IH]; intros a; [done|]. cbn. rewrite dec_enc. cbn. apply IH.
Qed.

Lemma foldl_snoc_all l : forall acc : list Block, foldl (fun bs b => bs ++ [b]) acc l = acc ++ l.
Proof. induction l as [|b l IH]; intros acc; cbn; [by rewrite app_nil_r|]. by rewrite IH, <- app_assoc. Qed.

Lemma foldl_height n l : forall r, NoDup (height <$> l) ->
  foldl (fun block b => if height b =? n then Some b else block) r l =
  match list_find (fun b => height b = n) l with Some (_, b) => Some b | None => r end.
Proof.
  induction l as [|b l IH]; intros r Hnd; [done|]. cbn [foldl fmap list_fmap] in *.
  apply list.NoDup_cons in Hnd as [Hb Hnd]. rewrite IH by done. cbn. destruct (Z.eqb_spec (height b) n) as [Heq|Hne].
  - rewrite decide_True by done. destruct (list_find _ l) as [[i b']|] eqn:Hf; [|done].
    apply list_find_Some in Hf as (Hl & Hb' & _). destruct Hb. rewrite Heq, <- Hb'.
    apply list_elem_of_fmap_2. by eapply list_elem_of_lookup_2.
  - rewrite decide_False by done. by destruct (list_find _ l) as [[i b']|].
Qed.

(** The block of height [n] is the [n]-th. *)
Lemma find_height bs bc l n :
  history bs bc -> l ≡ₚ bs -> 0 <= n ->
  foldl (fun block b => if height b =? n then Some b else block) None l = bs !! Z.to_nat n.
Proof.
  intros H Hl Hn. assert (Hhs : height <$> l ≡ₚ seqZ 0 (Z.of_nat (length bs))).
  { rewrite <- (hy_heights _ _ H). by rewrite Hl. }
  rewrite foldl_height by (rewrite Hhs; apply NoDup_seqZ).
  assert (Hat : forall i b, bs !! i = Some b -> height b = Z.of_nat i).
  { intros i b Hb. apply (f_equal (fmap height)) in Hb. rewrite <- list_lookup_fmap, (hy_heights _ _ H) in Hb.
    cbn in Hb. apply lookup_seqZ in Hb as [Hb _]. lia. }
  destruct (list_find _ l) as [[i b]|] eqn:Hf.
  - apply list_find_Some in Hf as (Hi & Hb & _). apply list_elem_of_lookup_2 in Hi. rewrite Hl in Hi.
    apply list_elem_of_lookup_1 in Hi as [j Hj]. rewrite <- Hb, (Hat _ _ Hj), Nat2Z.id. done.
  - symmetry. apply eq_None_not_Some. intros [b Hb]. apply list_find_None in Hf.
    eapply list.Forall_forall in Hf; [|rewrite Hl; by eapply list_elem_of_lookup_2]. apply Hf.
    rewrite (Hat _ _ Hb). lia.
Qed.

Lemma newest_block_ok bs bc s' :
  history bs bc -> std_buckets s' -> same_disk s' (bc_Storage bc) -> newest_block s' = Ret (Some (bc_CurrentBlock bc)).
Proof.
  intros H (Hb & _ & Hn & _) Hsame. pose proof (hy_std _ _ H) as (Hb0 & _ & Hn0 & _).
  pose proof (hy_newest _ _ H) as Hnew. pose proof (hy_ok _ _ H) as Hok.
  pose proof (so_block _ Hok) as B1. rewrite Hb0 in B1. pose proof (so_newest _ Hok) as B2. rewrite Hn0 in B2.
  assert (E : GetNewestBlockHash s' = GetNewestBlockHash (bc_Storage bc)).
  { unfold GetNewestBlockHash. by rewrite Hn, Hn0, Hsame. }
  unfold newest_block. rewrite E, Hnew. cbn [mbind res_bind]. unfold GetBlock.
  rewrite Hb, Hsame by done.
  rewrite (proj2 (hy_stored _ _ H (b_Hash (bc_CurrentBlock bc)) (enc (bc_CurrentBlock bc)))).
  - cbn. by rewrite dec_enc.
  - exists (bc_CurrentBlock bc). split; [|done]. pose proof (hy_last _ _ H) as [l' ->]%last_Some.
    apply elem_of_app. right. left.
Qed.

(** C24: the queries find the chain a node has built.  When a fresh node
    ran any [AddBlock]s, of blocks whose hashes differ, its store holds exactly
    the genesis block and the blocks of the next heights, each once:
    [QueryBlocks] lists them, [QueryBlock] and [QueryBlockTxs] find the one of
    each height and nothing beyond, and [QueryNewestBlock] is the chain's tip.
    [QueryAccountState] reads an account from the tip's state, and panics for
    an account the chain has not touched. *)
Theorem query_history P cc db file s0 bc0 blocks bc sid nid :
  NewStorage cc file = Ret s0 -> (forall h, bolt_Get (DataBase s0) "block"%string h = Some None) ->
  bolt_Get (DataBase s0) "newestBlockHash"%string OnlyNewestBlock = Some None ->
  NewBlockChain P cc db file = Ret bc0 -> foldM (fun bc b => AddBlock P b bc) bc0 blocks = Ret bc ->
  NoDup (b_Hash <$> bc_CurrentBlock bc0 :: blocks) -> Z.of_nat (length blocks) < 2 ^ 64 - 1 ->
  let bs := bc_CurrentBlock bc0 :: accepted 1 blocks in
  let disk := DataBase (bc_Storage bc) in
  (exists l, QueryBlocks sid nid disk = Ret l /\ l ≡ₚ bs) /\
  (forall n, 0 <= n -> QueryBlock sid nid n disk = Ret (bs !! Z.to_nat n) /\
     QueryBlockTxs sid nid n disk = Ret (match bs !! Z.to_nat n with None => [] | Some b => b_Body b end)) /\
  QueryNewestBlock sid nid disk = Ret (Some (bc_CurrentBlock bc)) /\
  list.last bs = Some (bc_CurrentBlock bc) /\
  (forall edb t address, trie_New (state_root bc) (triedb_open edb) = Some t ->
     QueryAccountState sid nid address edb disk = must (trie_Get t address ≫= dec)).
Proof.
  intros Hs0 He Hn Hbc0 Hrun Hnd Hlen bs disk.
  pose proof (genesis_history _ _ _ _ _ _ Hs0 He Hn Hbc0) as H0.
  assert (H : history bs bc) by (apply (history_run P blocks [_] bc0 bc H0 Hrun Hnd); cbn [length]; lia).
  destruct (initStorage_ok sid nid _ (hy_ok _ _ H) (hy_std _ _ H)) as (s' & Hini & Hok' & Hstd' & Hsame).
  unfold QueryBlockTxs, QueryBlocks, QueryBlock, QueryNewestBlock, QueryAccountState, disk. rewrite Hini.
  cbn [mbind res_bind]. split_and!; [| | |apply (hy_last _ _ H)|].
  - destruct (ForEachBlock_ok (fun blocks b => blocks ++ [b]) bs bc s' H Hok' Hstd' Hsame) as (l & Hl & Hf).
    exists l. rewrite Hf. by rewrite foldl_snoc_all.
  - intros n H1. destruct (ForEachBlock_ok (fun block b => if height b =? n then Some b else block) bs bc s' H Hok' Hstd' Hsame)
      as (l & Hl & Hf). unfold height in Hf at 1. rewrite Hf, (find_height bs bc l n) by done. done.
  - by eapply newest_block_ok.
  - intros edb t address Ht. rewrite (newest_block_ok bs bc s') by done. cbn [must mbind res_bind].
    unfold state_root in Ht. rewrite Ht. cbn [must mbind res_bind]. by destruct (trie_Get t address).
Qed.
End history.

(** *** On a concrete chain *)
Import RefChain.
Lemma query_history_witness :
  exists bc, foldM (fun bc b => AddBlock params b bc) (chain 0) [RefStorage.block] = Ret bc /\
    let disk := DataBase (bc_Storage bc) in
    QueryBlock 0 0 1 disk = Ret (Some RefStorage.block) /\ QueryBlock 0 0 2 disk = Ret None /\
    QueryBlockTxs 0 0 1 disk = Ret [sample_tx "a" "b" 5 "h1"] /\
    QueryNewestBlock 0 0 disk = Ret (Some RefStorage.block).
Proof.
  destruct (AddBlock_own params RefStorage.block (chain 0)) as [s Hs].
  - apply (chain_tip 0).
  - unfold storable, bolt_key_ok, bolt_val_ok. vm_compute. intuition congruence.
  - reflexivity.
  - reflexivity.
  - set (bc := chain 0 <| bc_CurrentBlock := RefStorage.block |> <| bc_Storage := s |>) in *.
    assert (Hcb : bc_CurrentBlock bc = RefStorage.block) by reflexivity. clearbody bc.
    assert (Hrun : foldM (fun bc b => AddBlock params b bc) (chain 0) [RefStorage.block] = Ret bc)
      by (cbn [foldM mbind res_bind]; rewrite Hs; reflexivity).
    exists bc. split; [exact Hrun|].
    destruct (query_history params (node 0) (∅ : EthDB) (∅ : BoltDB) RefStorage.store (chain 0) [RefStorage.block] bc 0 0)
      as (_ & Hn & Hnew & _).
    + reflexivity.
    + intros h. exact (f_equal Some (lookup_empty h)).
    + reflexivity.
    + reflexivity.
    + exact Hrun.
    + apply (bool_decide_unpack _). vm_compute. exact I.
    + cbn. lia.
    + split; [exact (proj1 (Hn 1 ltac:(lia)))|]. split; [exact (proj1 (Hn 2 ltac:(lia)))|].
      split; [exact (proj2 (Hn 1 ltac:(lia)))|rewrite <- Hcb; exact Hnew].
Defined.
