(* ===== verification/Pbft.v ===== *)
(** * Pbft: src/consensus_shard/pbft_all/{pbft,messageHandle,toolFuncs,pbftMod_interface}.go

    A PBFT node as a state machine.  [tcpPoolLock] runs the message handlers
    one at a time and the leader's [Propose] goroutine shares the node with
    them; a handler, and one iteration of [Propose] from its [select] to the
    next, is one step.  [json.Unmarshal] allocates, so the [*shard.Node] of a
    decoded message is a fresh pointer, drawn from [next_ptr].  [askForLock] and
    [sequenceLock] outlive a handler and are fields; locking a held mutex blocks
    the goroutine ([Blocked]), unlocking a free one is a fatal error ([Panic]).
    The two modules the node delegates to are the type classes [InsideMod]
    and [OutsideMod] over their own state [X]; [now] is [time.Now()]. *)
From stdpp Require Import base gmap strings list countable.
From Stdlib Require Import ZArith Lia.
From S2P Require Import Prelude GoStd Libs Core Pools Messages StorageDB Chain.

(** What a node does to the outside: a TCP write, a line of its result file. *)
Inductive Event :=
  | TcpDial (msg : bytes) (addr : string)
  | CSVline (cells : list Z).

#[export] Instance Event_eq_dec : EqDecision Event.
Proof. solve_decision. Defined.

(** Where the [Propose] goroutine is: at its [select], past it and on the way
    to [sequenceLock.Lock()], asleep inside [HandleinPropose] with the mutex
    held, or returned. *)
Inductive ProposePC := AtSelect | AtLock | InPropose | Returned.

#[export] Instance ProposePC_eq_dec : EqDecision ProposePC.
Proof. solve_decision. Defined.

(** A step's cause: a message read from a connection, or the goroutine. *)
Inductive Input :=
  | Receive (now : Z) (msg : bytes)
  | RunPropose (now : Z).

Section node.
Context {TL : TrieLib} {BL : BoltLib} {HL : Sha256} {CC : CoreCodecs} {MC : MsgCodecs}.
Context {X : Type}.

Record PbftConsensusNode := mkPbft {
  RunningNode : Node;
  p_ShardID : Z;
  p_NodeID : Z;
  CurChain : BlockChain;
  pbftChainConfig : ChainConfig;
  ip_nodeTable : gmap Z (gmap Z string);
  node_nums : Z;
  malicious_nums : Z;
  view : Z;
  sequenceID : Z;
  stop : bool;
  requestPool : gmap bytes Request;
  cntPrepareConfirm : gmap bytes (gset Z);
  cntCommitConfirm : gmap bytes (gset Z);
  isCommitBordcast : gmap bytes bool;
  isReply : gmap bytes bool;
  height2Digest : gmap Z bytes;
  sequenceLock : bool;
  askForLock : bool;
  seqIDMap : gmap Z Z;
  propose_pc : ProposePC;
  next_ptr : Z;
  modData : X }.
#[global] Instance PbftConsensusNode_eta : Eta PbftConsensusNode := fun r =>
  mkPbft (RunningNode r) (p_ShardID r) (p_NodeID r) (CurChain r) (pbftChainConfig r)
    (ip_nodeTable r) (node_nums r) (malicious_nums r) (view r) (sequenceID r) (stop r)
    (requestPool r) (cntPrepareConfirm r) (cntCommitConfirm r) (isCommitBordcast r) (isReply r)
    (height2Digest r) (sequenceLock r) (askForLock r) (seqIDMap r) (propose_pc r) (next_ptr r)
    (modData r).

#[local] Abbreviation Pm := (M PbftConsensusNode Event).

(** The request a reference to [map[...]*T] gives when the key is absent is
    [nil]; using it is a panic.  [HandleinPropose] may wait for messages from
    other shards in a loop around [time.Sleep]: [None] says that it sleeps, and
    the next call resumes it where the module's data say it is. *)
Class InsideMod := {
  HandleinPropose : Z -> Pm (option (bool * Request));
  HandleinPrePrepare : PrePrepare -> Pm bool;
  HandleinPrepare : Prepare -> Pm bool;
  HandleinCommit : Z -> Commit -> Pm bool;
  HandleReqestforOldSeq : RequestOldMessage -> Pm bool;
  HandleforSequentialRequest : SendOldMessage -> Pm bool }.

Class OutsideMod := {
  HandleMessageOutsidePBFT : Z -> MessageType -> bytes -> Pm bool }.

(** [db] and [file] are what the node finds on disk, [x] the new module data. *)
Definition NewPbftNode (P : Params) (shardID nodeID : Z) (pcc : ChainConfig)
    (ips : gmap Z (gmap Z string)) (db : EthDB) (file : BoltDB) (x : X) : res PbftConsensusNode :=
  chain ← NewBlockChain P pcc db file;
  Ret {| RunningNode := mkNode nodeID shardID (default "" (ips !! shardID ≫= (.!! nodeID)));
         p_ShardID := shardID; p_NodeID := nodeID; CurChain := chain; pbftChainConfig := pcc;
         ip_nodeTable := ips; node_nums := Nodes_perShard pcc;
         malicious_nums := u64 (Nodes_perShard pcc - 1) / 3; view := 0;
         sequenceID := u64 (bh_Number (b_Header (bc_CurrentBlock chain)) + 1); stop := false;
         requestPool := ∅; cntPrepareConfirm := ∅; cntCommitConfirm := ∅;
         isCommitBordcast := ∅; isReply := ∅; height2Digest := ∅;
         sequenceLock := false; askForLock := false; seqIDMap := ∅;
         propose_pc := if nodeID =? 0 then AtSelect else Returned; next_ptr := 0; modData := x |}.

(** ** toolFuncs.go *)
Definition set2DMap (isPrePareConfirm : bool) (key : bytes) (val : Z) : Pm () :=
  if isPrePareConfirm then
    modify (fun p => p <| cntPrepareConfirm ::=
      fun m => <[key := {[val]} ∪ default ∅ (m !! key)]> m |>)
  else
    modify (fun p => p <| cntCommitConfirm ::=
      fun m => <[key := {[val]} ∪ default ∅ (m !! key)]> m |>).

Definition getNeighborNodes (p : PbftConsensusNode) : list string :=
  (map_to_list (default ∅ (ip_nodeTable p !! p_ShardID p))).*2.

Definition getDigest (r : Request) : bytes := sha256 (json_enc r).

(** The address of a node; a missing entry of a Go map is the zero value. *)
Definition node_ip (p : PbftConsensusNode) (shardID nodeID : Z) : string :=
  default "" (ip_nodeTable p !! shardID ≫= (.!! nodeID)).

(** networks.Broadcast; the receivers are a map's values, in any order *)
Definition Broadcast (sender : string) (receivers : list string) (msg : bytes) : Pm () :=
  forM receivers (fun ip => if bool_decide (ip = sender) then mret tt else emit (TcpDial msg ip)).

Definition broadcast_neighbors (t : MessageType) (content : bytes) : Pm () :=
  msg ← lift (MergeMessage t content);
  p ← get;
  Broadcast (nd_IPaddr (RunningNode p)) (getNeighborNodes p) msg.

Definition dial (t : MessageType) (content : bytes) (addr : string) : Pm () :=
  msg ← lift (MergeMessage t content);
  emit (TcpDial msg addr).

(** Unmarshalling allocates the message's [SenderNode]. *)
Definition new_ptr : Pm Z :=
  p ← get;
  _ ← modify (fun p => p <| next_ptr ::= Z.succ |>);
  mret (next_ptr p).

(** [sync.Mutex] *)
Definition lock_askForLock : Pm () :=
  p ← get;
  if askForLock p then block else modify (fun p => p <| askForLock := true |>).
Definition unlock_askForLock : Pm () :=
  p ← get;
  if askForLock p then modify (fun p => p <| askForLock := false |>) else panic.
Definition unlock_sequenceLock : Pm () :=
  p ← get;
  if sequenceLock p then modify (fun p => p <| sequenceLock := false |>) else panic.

Section handlers.
Context {IM : InsideMod} {OM : OutsideMod}.

(** ** Propose: what it does with a request, and one iteration from the lock
    on; the result says whether the iteration is over *)
Definition propose_request (r : Request) : Pm () :=
  let digest := getDigest r in
  _ ← modify (fun p => p <| requestPool ::= <[digest := r]> |>);
  p ← get;
  let ppmsg := mkPrePrepare r digest (sequenceID p) in
  _ ← modify (fun p => p <| height2Digest ::= <[sequenceID p := digest]> |>);
  broadcast_neighbors CPrePrepare (json_enc ppmsg).

Definition propose_body (now : Z) : Pm bool :=
  res ← HandleinPropose now;
  match res with
  | None => mret false
  | Some (_, r) => _ ← propose_request r; mret true
  end.

(** The goroutine's next move: it passes the [select], or, when the mutex is
    free, proposes; it blocks on a held mutex. *)
Definition propose_step (now : Z) : Pm () :=
  p ← get;
  if negb (view p =? p_NodeID p) then mret tt
  else match propose_pc p with
  | Returned => mret tt
  | AtSelect => modify (fun p => p <| propose_pc := AtLock |>)
  | AtLock =>
      if sequenceLock p then block
      else
        _ ← modify (fun p => p <| sequenceLock := true |>);
        over ← propose_body now;
        modify (fun p => p <| propose_pc := if (over : bool) then AtSelect else InPropose |>)
  | InPropose =>
      over ← propose_body now;
      modify (fun p => p <| propose_pc := if (over : bool) then AtSelect else InPropose |>)
  end.

(** The prepare message that answers an accepted pre-prepare. *)
Definition broadcast_prepare (ppmsg : PrePrepare) : Pm () :=
  p ← get;
  let pre := mkPrepare (pp_Digest ppmsg) (pp_SeqID ppmsg) (RunningNode p) in
  broadcast_neighbors CPrepare (json_enc pre).

Definition store_request (seq : Z) (r : Request) : Pm () :=
  modify (fun p => p <| requestPool ::= <[getDigest r := r]> |>
                     <| height2Digest ::= <[seq := getDigest r]> |>).

Definition handlePrePrepare (content : bytes) : Pm () :=
  ppmsg ← lift (must (json_dec content));
  p ← get;
  flag ←
    (if negb (bool_decide (getDigest (pp_RequestMsg ppmsg) = pp_Digest ppmsg)) then mret false
     else if sequenceID p <? pp_SeqID ppmsg then
       _ ← store_request (pp_SeqID ppmsg) (pp_RequestMsg ppmsg);
       mret false
     else
       flag ← HandleinPrePrepare ppmsg;
       _ ← store_request (pp_SeqID ppmsg) (pp_RequestMsg ppmsg);
       mret flag);
  if (flag : bool) then broadcast_prepare ppmsg else mret tt.

(** [len(m[key])] by counting *)
Definition count (m : gmap bytes (gset Z)) (key : bytes) : Z := Z.of_nat (size (default ∅ (m !! key))).

(** A read of a [map[string]bool] *)
Definition flag_of (m : gmap bytes bool) (key : bytes) : bool := default false (m !! key).

Definition specifiedcnt (p : PbftConsensusNode) : Z :=
  let c := i64 (u64 (2 * malicious_nums p)) in
  if negb (p_NodeID p =? view p) then c - 1 else c.

Definition required_cnt (p : PbftConsensusNode) : Z := i64 (u64 (2 * malicious_nums p)).

(** With enough prepares, and once, the node broadcasts its commit. *)
Definition commit_if_prepared (pmsg : Prepare) : Pm () :=
  p ← get;
  let cnt := count (cntPrepareConfirm p) (p_Digest pmsg) in
  if (specifiedcnt p <=? cnt) && negb (flag_of (isCommitBordcast p) (p_Digest pmsg)) then
    let c := mkCommit (p_Digest pmsg) (p_SeqID pmsg) (RunningNode p) in
    _ ← broadcast_neighbors CCommit (json_enc c);
    modify (fun p => p <| isCommitBordcast ::= <[p_Digest pmsg := true]> |>)
  else mret tt.

Definition handlePrepare (content : bytes) : Pm () :=
  pmsg ← lift (must (json_dec content : option Prepare));
  ptr ← new_ptr;
  p ← get;
  match requestPool p !! p_Digest pmsg with
  | None => mret tt
  | Some _ =>
      if sequenceID p <? p_SeqID pmsg then mret tt
      else
        _ ← HandleinPrepare pmsg;
        _ ← set2DMap true (p_Digest pmsg) ptr;
        commit_if_prepared pmsg
  end.

(** The node misses the request: it asks the leader for the missing heights. *)
Definition request_old (cmsg : Commit) : Pm () :=
  _ ← modify (fun p => p <| isReply ::= <[c_Digest cmsg := true]> |>);
  _ ← lock_askForLock;
  p ← get;
  let sn := mkNode (view p) (p_ShardID p) (node_ip p (p_ShardID p) (view p)) in
  let orequest := mkRequestOldMessage (u64 (sequenceID p + 1)) (c_SeqID cmsg) sn (RunningNode p) in
  dial CRequestOldrequest (json_enc orequest) (nd_IPaddr sn).

Definition execute_commit (now : Z) (cmsg : Commit) : Pm () :=
  _ ← HandleinCommit now cmsg;
  modify (fun p => p <| isReply ::= <[c_Digest cmsg := true]> |>
                     <| sequenceID ::= fun s => u64 (s + 1) |>).

Definition handleCommit (now : Z) (content : bytes) : Pm () :=
  cmsg ← lift (must (json_dec content));
  ptr ← new_ptr;
  _ ← set2DMap false (c_Digest cmsg) ptr;
  p ← get;
  let cnt := count (cntCommitConfirm p) (c_Digest cmsg) in
  if (required_cnt p <=? cnt) && negb (flag_of (isReply p) (c_Digest cmsg)) then
    _ ← (match requestPool p !! c_Digest cmsg with
         | None => request_old cmsg
         | Some _ => execute_commit now cmsg
         end);
    if p_NodeID p =? view p then unlock_sequenceLock else mret tt
  else mret tt.

(** The requests from [height] on; the loop stops at the first height it has
    not, so it runs at most once per entry of [height2Digest]. *)
Fixpoint old_requests (fuel : nat) (h2d : gmap Z bytes) (pool : gmap bytes Request)
    (height last : Z) : list Request :=
  match fuel with
  | O => []
  | S fuel =>
      if last <? height then []
      else
        match h2d !! height with
        | None => []
        | Some d =>
            match pool !! d with
            | None => []
            | Some r => r :: old_requests fuel h2d pool (u64 (height + 1)) last
            end
        end
  end.

Definition handleRequestOldSeq (content : bytes) : Pm () :=
  p ← get;
  if negb (view p =? p_NodeID p) then mret tt
  else
    rom ← lift (must (json_dec content));
    let oldR := old_requests (S (size (height2Digest p))) (height2Digest p) (requestPool p)
                  (ro_SeqStartHeight rom) (ro_SeqEndHeight rom) in
    _ ← HandleReqestforOldSeq rom;
    p ← get;
    let sb := mkSendOldMessage (ro_SeqStartHeight rom) (ro_SeqEndHeight rom) oldR (RunningNode p) in
    dial CSendOldrequest (json_enc sb) (nd_IPaddr (ro_SenderNode rom)).

(** One request of the answer, at its height. *)
Definition adopt_request (beginSeq : Z) (ir : Z * Request) (p : PbftConsensusNode) : PbftConsensusNode :=
  let '(idx, r) := ir in
  p <| requestPool ::= <[getDigest r := r]> |>
    <| height2Digest ::= <[u64 (idx + beginSeq) := getDigest r]> |>
    <| isReply ::= <[getDigest r := true]> |>.

Definition adopt_requests (beginSeq : Z) (rs : list Request) (p : PbftConsensusNode) : PbftConsensusNode :=
  foldl (fun p ir => adopt_request beginSeq ir p) p (indexed rs).

Definition handleSendOldSeq (content : bytes) : Pm () :=
  som ← lift (must (json_dec content));
  _ ← HandleforSequentialRequest som;
  _ ← modify (adopt_requests (so_SeqStartHeight som) (so_OldRequest som));
  _ ← modify (fun p => p <| sequenceID := u64 (so_SeqEndHeight som + 1) |>);
  p ← get;
  _ ← (match height2Digest p !! sequenceID p ≫= (requestPool p !!.) with
       | None => mret tt
       | Some r =>
           let ppmsg := mkPrePrepare r (getDigest r) (sequenceID p) in
           flag ← HandleinPrePrepare ppmsg;
           if (flag : bool) then broadcast_prepare ppmsg else mret tt
       end);
  unlock_askForLock.

(** [p.pStop <- 1] is received at the [select] of [Propose]: at once, or after
    the proposal it is on the way to, or never when it waits for
    [sequenceLock] or for another shard, which only a later message could end. *)
Definition send_pStop (now : Z) : Pm () :=
  p ← get;
  match propose_pc p with
  | AtSelect => modify (fun p => p <| propose_pc := Returned |>)
  | AtLock =>
      if sequenceLock p then block
      else
        _ ← modify (fun p => p <| sequenceLock := true |>);
        over ← propose_body now;
        if (over : bool) then modify (fun p => p <| propose_pc := Returned |>) else block
  | InPropose =>
      over ← propose_body now;
      if (over : bool) then modify (fun p => p <| propose_pc := Returned |>) else block
  | Returned => block
  end.

Definition WaitToStop (now : Z) : Pm () :=
  _ ← modify (fun p => p <| stop := true |>);
  p ← get;
  if p_NodeID p =? view p then send_pStop now else mret tt.

Definition handleMessage (now : Z) (msg : bytes) : Pm () :=
  '(msgType, content) ← lift (SplitMessage msg);
  if bool_decide (msgType = CPrePrepare) then handlePrePrepare content
  else if bool_decide (msgType = CPrepare) then handlePrepare content
  else if bool_decide (msgType = CCommit) then handleCommit now content
  else if bool_decide (msgType = CRequestOldrequest) then handleRequestOldSeq content
  else if bool_decide (msgType = CSendOldrequest) then handleSendOldSeq content
  else if bool_decide (msgType = CStop) then WaitToStop now
  else
    _ ← HandleMessageOutsidePBFT now msgType content;
    mret tt.

(** ** Runs *)

(** A message that arrives after the stop signal is not handled. *)
Definition step (i : Input) : Pm () :=
  match i with
  | Receive now msg =>
      p ← get;
      if stop p then mret tt else handleMessage now msg
  | RunPropose now => propose_step now
  end.

(** The states a node goes through, with each step's input and output. *)
Inductive run : PbftConsensusNode -> list (Input * list Event) -> PbftConsensusNode -> Prop :=
  | run_refl p : run p [] p
  | run_step p tr p1 i p2 evs :
      run p tr p1 -> step i p1 = Ret (tt, p2, evs) -> run p (tr ++ [(i, evs)]) p2.
End handlers.
End node.
Arguments PbftConsensusNode {TL BL} X.
Abbreviation Pm X := (M (PbftConsensusNode X) Event).
Arguments InsideMod {TL BL} X.
Arguments OutsideMod {TL BL} X.
