(* ===== verification/Network.v ===== *)
(** * Network: src/networks/p2pNetwork.go

    The connections of one process.  [connectionPool] is the package's map of
    the connections dialled so far, [conns] the connections themselves, a
    [net.Conn] being an index; a connection keeps the bytes its peer can read.
    [TcpDial] runs under [connMaplock], so a call is one step, and [go TcpDial]
    leaves the order of the steps open.  A [Write] on a connection that either
    end has closed loses its bytes, whether or not it also returns an error. *)
From stdpp Require Import base gmap strings list.
From Stdlib Require Import ZArith Lia.
From S2P Require Import Prelude Messages Pbft.

Record Conn := mkConn { cn_addr : string; cn_open : bool; cn_stream : bytes }.
Record Net := mkNet { connectionPool : gmap string nat; conns : list Conn }.

(** The package variables at the start. *)
Definition new_net : Net := mkNet ∅ [].

(** [net.Dial]; [up] tells whether [addr] accepts. *)
Definition Dial (up : bool) (addr : string) (n : Net) : option (nat * Net) :=
  if up then Some (length (conns n), mkNet (connectionPool n) (conns n ++ [mkConn addr true ""])) else None.

Definition Write_conn (b : bytes) (c : Conn) : Conn :=
  if cn_open c then mkConn (cn_addr c) true (cn_stream c +:+ b) else c.
Definition Close_conn (c : Conn) : Conn := mkConn (cn_addr c) false (cn_stream c).

Definition net_Write (conn : nat) (b : bytes) (n : Net) : Net :=
  mkNet (connectionPool n) (alter (Write_conn b) conn (conns n)).

Definition net_TcpDial (up : bool) (context : bytes) (addr : string) (n : Net) : Net :=
  match connectionPool n !! addr with
  | Some conn => net_Write conn (frame context) n
  | None =>
      match Dial up addr n with
      | None => n
      | Some (conn, n) =>
          net_Write conn (frame context) (mkNet (<[addr := conn]> (connectionPool n)) (conns n))
      end
  end.

(** The map is not emptied. *)
Definition CloseAllConnInPool (n : Net) : Net :=
  mkNet (connectionPool n) (foldr (fun p cs => alter Close_conn p.2 cs) (conns n) (map_to_list (connectionPool n))).

(** The process at [addr] closes what it accepted: its [handleClientRequest]
    returned, or it died. *)
Definition peer_close (addr : string) (c : Conn) : Conn :=
  if bool_decide (cn_addr c = addr) then Close_conn c else c.

Inductive NetStep :=
  | Dials (up : bool) (context : bytes) (addr : string)
  | PeerCloses (addr : string)
  | ClosesAll.

Definition net_step (n : Net) (s : NetStep) : Net :=
  match s with
  | Dials up context addr => net_TcpDial up context addr n
  | PeerCloses addr => mkNet (connectionPool n) (peer_close addr <$> conns n)
  | ClosesAll => CloseAllConnInPool n
  end.

(** What the handlers at [addr] have read from this process. *)
Definition inbox (addr : string) (n : Net) : list bytes :=
  filter (fun c => cn_addr c = addr) (conns n) ≫= fun c => read_frames "" (cn_stream c).

(** ** The specification: a link to an address *)

(** Before the first dial that succeeds, after it, and after the connection
    is closed; [got] is what arrived. *)
Inductive Link := Unconnected | Connected (got : list bytes) | Gone (got : list bytes).

Definition link_close (l : Link) : Link := match l with Connected got => Gone got | _ => l end.

Definition link_send (up : bool) (m : bytes) (l : Link) : Link :=
  match l with
  | Unconnected => if up then Connected [m] else Unconnected
  | Connected got => Connected (got ++ [m])
  | Gone got => Gone got
  end.

Definition link_step (addr : string) (l : Link) (s : NetStep) : Link :=
  match s with
  | Dials up m a => if bool_decide (a = addr) then link_send up m l else l
  | PeerCloses a => if bool_decide (a = addr) then link_close l else l
  | ClosesAll => link_close l
  end.

Definition link_got (l : Link) : list bytes :=
  match l with Unconnected => [] | Connected got | Gone got => got end.

Definition sendable (s : NetStep) : Prop :=
  match s with Dials _ m _ => ball not_newline m = true | _ => True end.

(** The connection a link stands for. *)
Definition link_conn (addr : string) (l : Link) : option Conn :=
  match l with
  | Unconnected => None
  | Connected got => Some (mkConn addr true (foldr (fun m s => frame m +:+ s) "" got))
  | Gone got => Some (mkConn addr false (foldr (fun m s => frame m +:+ s) "" got))
  end.

(** ** The simulation *)

(** The pool maps an address to the index of the one connection to it. *)
Definition net_wf (n : Net) : Prop :=
  forall i a, (cn_addr <$> conns n) !! i = Some a <-> connectionPool n !! a = Some i.

Definition conn_of (addr : string) (n : Net) : option Conn :=
  i ← connectionPool n !! addr; conns n !! i.

Lemma new_net_wf : net_wf new_net.
Proof. intros i a. cbn. by rewrite lookup_empty. Qed.

(** Most steps change neither the pool nor the addresses. *)
Lemma net_wf_same n n' :
  connectionPool n' = connectionPool n -> cn_addr <$> conns n' = cn_addr <$> conns n -> net_wf n -> net_wf n'.
Proof. unfold net_wf. by intros -> ->. Qed.

Lemma addrs_alter (f : Conn -> Conn) (i : nat) (cs : list Conn) : (forall c, cn_addr (f c) = cn_addr c) -> cn_addr <$> alter f i cs = cn_addr <$> cs.
Proof.
  intros Hf. apply list_eq. intros j. rewrite !list_lookup_fmap, list_lookup_alter.
  case_decide; [subst j|done]. destruct (cs !! i); cbn; [by rewrite Hf|done].
Qed.

Lemma addrs_alters (f : Conn -> Conn) (ps : list (string * nat)) (cs : list Conn) :
  (forall c, cn_addr (f c) = cn_addr c) ->
  cn_addr <$> foldr (fun p cs => alter f p.2 cs) cs ps = cn_addr <$> cs.
Proof. intros Hf. induction ps as [|p ps IH]; [done|]. cbn [foldr]. by rewrite addrs_alter. Qed.

Lemma lookup_alters (f : Conn -> Conn) (ps : list (string * nat)) (cs : list Conn) i : (forall c, f (f c) = f c) ->
  foldr (fun p cs => alter f p.2 cs) cs ps !! i = if decide (i ∈ ps.*2) then f <$> cs !! i else cs !! i.
Proof.
  intros Hf. induction ps as [|p ps IH]; [done|]. cbn [foldr fmap list_fmap]. rewrite list_lookup_alter, IH.
  destruct (decide (i ∈ ps.*2)) as [Hi|Hi].
  - rewrite (decide_True (P := i ∈ _ :: _)) by by right. case_decide; [subst i|done].
    rewrite IH. destruct (cs !! p.2); cbn; [by rewrite Hf|done].
  - destruct (decide (p.2 = i)) as [Heq|Hne].
    + rewrite (decide_True (P := i ∈ _ :: _)) by (subst; left). subst i. by rewrite IH.
    + rewrite decide_False; [done|]. by intros [?| ?]%elem_of_cons.
Qed.

Lemma Write_addr b c : cn_addr (Write_conn b c) = cn_addr c.
Proof. unfold Write_conn. by destruct (cn_open c). Qed.

Lemma wf_index n a b i : net_wf n -> connectionPool n !! a = Some i -> connectionPool n !! b = Some i -> a = b.
Proof. intros H Ha%H Hb%H. congruence. Qed.

(** A write reaches the connection of its address and no other. *)
Lemma conn_of_Write n conn b a addr :
  net_wf n -> connectionPool n !! a = Some conn ->
  conn_of addr (net_Write conn b n) = if bool_decide (a = addr) then Write_conn b <$> conn_of addr n else conn_of addr n.
Proof.
  intros Hwf Ha. unfold conn_of, net_Write. cbn [connectionPool conns].
  destruct (connectionPool n !! addr) as [i|] eqn:Hi; cbn; [|by case_bool_decide].
  rewrite list_lookup_alter. case_bool_decide as Heq.
  - subst. rewrite Ha in Hi. injection Hi as <-. by rewrite decide_True.
  - rewrite decide_False; [done|]. intros ->. apply Heq. by eapply wf_index.
Qed.

Lemma conn_of_addr n addr c : net_wf n -> conn_of addr n = Some c -> cn_addr c = addr.
Proof.
  unfold conn_of. intros Hwf H. apply bind_Some in H as (i & Hi & Hc). apply Hwf in Hi.
  rewrite list_lookup_fmap, Hc in Hi. by injection Hi.
Qed.

Lemma Dial_wf n a : net_wf n -> connectionPool n !! a = None ->
  net_wf (mkNet (<[a := length (conns n)]> (connectionPool n)) (conns n ++ [mkConn a true ""])).
Proof.
  intros Hwf Hn i b. cbn [connectionPool conns]. rewrite fmap_app, lookup_app, lookup_insert.
  pose proof (Hwf i b) as Hib. destruct ((cn_addr <$> conns n) !! i) as [b'|] eqn:Hi.
  - destruct (decide (a = b)) as [->|]; [|done]. split.
    + intros [= ->]. apply Hwf in Hi. congruence.
    + intros [= <-]. apply lookup_lt_Some in Hi. rewrite length_fmap in Hi. lia.
  - apply lookup_ge_None in Hi. rewrite length_fmap in *. cbn [fmap list_fmap cn_addr].
    rewrite list_lookup_singleton_Some. destruct (decide (a = b)) as [<-|].
    + split; [intros []; f_equal; lia|]. intros [= <-]. split; [lia|done].
    + rewrite <- Hib. by split; [intros []|].
Qed.

Lemma conn_of_Dial n a addr : net_wf n -> connectionPool n !! a = None ->
  conn_of addr (mkNet (<[a := length (conns n)]> (connectionPool n)) (conns n ++ [mkConn a true ""])) =
  if bool_decide (a = addr) then Some (mkConn a true "") else conn_of addr n.
Proof.
  intros Hwf Hn. unfold conn_of. cbn [connectionPool conns]. case_bool_decide as Heq.
  - subst. rewrite lookup_insert_eq. cbn. rewrite lookup_app_r, Nat.sub_diag by lia. done.
  - rewrite lookup_insert_ne by done. destruct (connectionPool n !! addr) as [i|] eqn:Hi; [|done]. cbn.
    apply Hwf in Hi. rewrite list_lookup_fmap in Hi. rewrite lookup_app. by destruct (conns n !! i).
Qed.

Lemma net_Write_wf n conn b : net_wf n -> net_wf (net_Write conn b n).
Proof. apply net_wf_same; [done|]. apply addrs_alter, Write_addr. Qed.

Lemma net_step_wf n s : net_wf n -> net_wf (net_step n s).
Proof.
  intros Hwf. destruct s as [up m a|a|]; cbn [net_step].
  - unfold net_TcpDial. destruct (connectionPool n !! a) as [conn|] eqn:Ha.
    + by apply net_Write_wf.
    + unfold Dial. destruct up; [|done]. by apply net_Write_wf, Dial_wf.
  - apply (net_wf_same n); [done| |done]. cbn [conns]. rewrite <- list_fmap_compose. apply list_fmap_ext.
    intros i c _. unfold peer_close. cbn. by case_bool_decide.
  - apply (net_wf_same n); [done| |done]. by apply addrs_alters.
Qed.

Lemma net_run_wf steps : forall n, net_wf n -> net_wf (foldl net_step n steps).
Proof. induction steps as [|s steps IH]; intros n Hn; [done|]. cbn [foldl]. by apply IH, net_step_wf. Qed.

(** [foldr] of the frames and the stream written so far *)
Lemma stream_snoc l m :
  foldr (fun m s => frame m +:+ s) "" l +:+ frame m = foldr (fun m s => frame m +:+ s) "" (l ++ [m]).
Proof.
  induction l as [|x l IH]; cbn [foldr app]; [by rewrite bapp_nil_r|]. by rewrite bapp_assoc, IH.
Qed.

(** Every step does to the connection of an address what the specification
    does to the link. *)
Lemma net_step_sim addr n l s :
  net_wf n -> conn_of addr n = link_conn addr l -> conn_of addr (net_step n s) = link_conn addr (link_step addr l s).
Proof.
  intros Hwf Hl. destruct s as [up m a|a|]; cbn [net_step link_step].
  - unfold net_TcpDial. destruct (connectionPool n !! a) as [conn|] eqn:Ha.
    + rewrite (conn_of_Write _ _ _ a) by done. case_bool_decide as Heq; [|done]. subst a. rewrite Hl.
      assert (Hs : is_Some (conn_of addr n)).
      { unfold conn_of. rewrite Ha. cbn. apply Hwf in Ha. rewrite list_lookup_fmap in Ha.
        by destruct (conns n !! conn). }
      rewrite Hl in Hs. destruct l; cbn in *; [by destruct Hs| |done].
      unfold Write_conn. cbn. by rewrite stream_snoc.
    + unfold Dial. destruct up; cbn [net_step connectionPool conns].
      * rewrite (conn_of_Write _ _ _ a); [|by apply Dial_wf|by apply lookup_insert_eq].
        rewrite conn_of_Dial by done. case_bool_decide as Heq; [|done]. subst a.
        assert (Hnone : conn_of addr n = None) by (unfold conn_of; by rewrite Ha).
        rewrite Hl in Hnone. destruct l; [|done|done]. cbn. unfold Write_conn. cbn. by rewrite bapp_nil_r.
      * case_bool_decide as Heq; [|done]. subst a.
        assert (Hnone : conn_of addr n = None) by (unfold conn_of; by rewrite Ha).
        rewrite Hl in Hnone |- *. by destruct l.
  - transitivity (peer_close a <$> conn_of addr n).
    { unfold conn_of. cbn [connectionPool conns]. destruct (connectionPool n !! addr); [|done]. cbn.
      by rewrite list_lookup_fmap. }
    rewrite Hl. unfold peer_close. case_bool_decide as Heq; destruct l; cbn; try done;
      first [rewrite bool_decide_eq_true_2 by congruence|rewrite bool_decide_eq_false_2 by congruence]; done.
  - transitivity (Close_conn <$> conn_of addr n); [|rewrite Hl; by destruct l].
    unfold conn_of, CloseAllConnInPool. cbn [connectionPool conns].
    destruct (connectionPool n !! addr) as [i|] eqn:Hi; [|done]. cbn. rewrite lookup_alters by done.
    rewrite decide_True; [done|]. apply list_elem_of_fmap. exists (addr, i). split; [done|].
    by apply elem_of_map_to_list.
Qed.

Lemma net_run_sim addr steps : forall n l,
  net_wf n -> conn_of addr n = link_conn addr l ->
  conn_of addr (foldl net_step n steps) = link_conn addr (foldl (link_step addr) l steps).
Proof.
  induction steps as [|s steps IH]; intros n l Hwf Hl; [done|]. cbn [foldl].
  by apply IH; [apply net_step_wf|apply net_step_sim].
Qed.

(** All the connections to an address are the one of the pool. *)
Lemma conns_to addr n : net_wf n -> filter (fun c => cn_addr c = addr) (conns n) = option_list (conn_of addr n).
Proof.
  intros Hwf. unfold conn_of. assert (Hi : forall i c, conns n !! i = Some c -> connectionPool n !! cn_addr c = Some i).
  { intros i c Hc. apply Hwf. by rewrite list_lookup_fmap, Hc. }
  destruct (connectionPool n !! addr) as [i|] eqn:Hp; cbn.
  - assert (Hc : exists c, conns n !! i = Some c /\ cn_addr c = addr).
    { apply Hwf in Hp. rewrite list_lookup_fmap in Hp. apply fmap_Some in Hp as (c & ? & ?). by exists c. }
    destruct Hc as (c & Hc & Ha). rewrite Hc. apply (filter_unique _ _ i); [done|done|].
    intros j d Hd <-. apply Hi in Hd. congruence.
  - apply filter_none. intros c [j Hj]%list_elem_of_lookup Ha.
    apply Hi in Hj. congruence.
Qed.

(** ** Properties *)

(** The dials to [addr], in their order. *)
Definition dialled (addr : string) (steps : list NetStep) : list bytes :=
  omap (fun s => match s with Dials _ m a => if bool_decide (a = addr) then Some m else None | _ => None end) steps.

(** [addr] accepts whenever it is dialled, and nobody closes. *)
Definition stays_up (addr : string) (s : NetStep) : Prop :=
  match s with Dials up _ a => a = addr -> up = true | PeerCloses a => a <> addr | ClosesAll => False end.

Lemma link_sendable addr steps : forall l, Forall sendable steps ->
  Forall (fun m => ball not_newline m = true) (link_got l) ->
  Forall (fun m => ball not_newline m = true) (link_got (foldl (link_step addr) l steps)).
Proof.
  induction steps as [|s steps IH]; intros l Hs Hl; [done|].
  apply list.Forall_cons in Hs as [Hs Hss]. cbn [foldl]. apply IH; [done|].
  destruct s as [up m a|a|]; cbn; try case_bool_decide; [|done| |done|]; destruct l; cbn in *; try done.
  - destruct up; cbn; [by constructor|done].
  - apply Forall_app. split; [done|by constructor].
Qed.

Lemma link_up addr steps : forall l, Forall (stays_up addr) steps -> (forall got, l <> Gone got) ->
  link_got (foldl (link_step addr) l steps) = link_got l ++ dialled addr steps.
Proof.
  induction steps as [|s steps IH]; intros l Hs Hl; [by rewrite app_nil_r|].
  apply list.Forall_cons in Hs as [Hs Hss]. cbn [foldl]. destruct s as [up m a|a|]; cbn in Hs; [| |done].
  - cbn. case_bool_decide as Ha; [|by apply IH]. rewrite (Hs Ha).
    destruct l as [|got|got]; cbn; [| |by destruct (Hl got)].
    + by rewrite IH.
    + rewrite IH by done. cbn. by rewrite <- app_assoc.
  - cbn. rewrite bool_decide_eq_false_2 by done. by apply IH.
Qed.

Lemma link_gone addr steps : forall got, foldl (link_step addr) (Gone got) steps = Gone got.
Proof.
  induction steps as [|s steps IH]; intros got; [done|]. cbn [foldl].
  destruct s; cbn; try case_bool_decide; apply IH.
Qed.

Lemma inbox_link addr steps : Forall sendable steps ->
  inbox addr (foldl net_step new_net steps) = frame <$> link_got (foldl (link_step addr) Unconnected steps).
Proof.
  intros Hs. unfold inbox. rewrite conns_to by apply net_run_wf, new_net_wf.
  rewrite (net_run_sim addr steps new_net Unconnected new_net_wf eq_refl).
  pose proof (link_sendable addr steps Unconnected Hs ltac:(constructor)) as Hg.
  destruct (foldl _ Unconnected steps) as [|got|got]; cbn in *; [done| |]; by rewrite read_stream, ?app_nil_r.
Qed.

(** C28: what the connection pool delivers.  Over any
    sequence of dials by the handlers, closes by the peers and closes of the
    pool, the process at an address has read exactly the frames of the
    abstract link to it: those dialled from the first dial that is accepted
    until the connection is closed, each once and in order.  So nothing is lost
    while the address accepts and nobody closes; and after the connection was
    closed nothing is ever delivered there again, since the pool keeps it and
    never dials anew. *)
Theorem tcp_delivery addr steps :
  Forall sendable steps ->
  let n := foldl net_step new_net steps in
  inbox addr n = frame <$> link_got (foldl (link_step addr) Unconnected steps) /\
  (Forall (stays_up addr) steps -> inbox addr n = frame <$> dialled addr steps) /\
  (forall later, connectionPool n !! addr <> None -> Forall sendable later ->
     inbox addr (foldl net_step n (PeerCloses addr :: later)) = inbox addr n).
Proof.
  intros Hs n. split_and!.
  - by apply inbox_link.
  - intros Hu. subst n. rewrite inbox_link by done. f_equal. by apply link_up.
  - intros later Hp Hl. subst n. rewrite <- foldl_app, !inbox_link; [|done|by apply Forall_app; split; [|constructor]].
    f_equal. rewrite foldl_app. cbn [foldl link_step]. rewrite bool_decide_eq_true_2 by done.
    pose proof (net_run_sim addr steps new_net Unconnected new_net_wf eq_refl) as Hc.
    pose proof (net_run_wf steps new_net new_net_wf) as Hwf.
    destruct (foldl _ Unconnected steps) as [|got|got]; cbn [link_close]; [|by rewrite link_gone|by rewrite link_gone].
    destruct Hp. destruct (connectionPool _ !! addr) as [i|] eqn:Hi; [|done].
    unfold conn_of in Hc. rewrite Hi in Hc. cbn in Hc. apply Hwf in Hi. rewrite list_lookup_fmap, Hc in Hi. done.
Qed.

Lemma tcp_delivery_witness :
  let steps := [Dials false "lost" "a"; Dials true "m1" "a"; Dials true "x" "b"; Dials true "m2" "a"] in
  let n := foldl net_step new_net steps in
  inbox "a" n = [frame "m1"; frame "m2"] /\
  inbox "b" n = [frame "x"] /\
  inbox "a" (foldl net_step n [PeerCloses "a"; Dials true "m3" "a"]) = [frame "m1"; frame "m2"].
Proof.
  intros steps n. assert (Hs : Forall sendable steps) by (repeat constructor). split_and!.
  - refine (proj1 (tcp_delivery "a" steps Hs)).
  - refine (proj1 (proj2 (tcp_delivery "b" steps Hs)) _). by repeat constructor.
  - refine (eq_trans (proj2 (proj2 (tcp_delivery "a" steps Hs)) [Dials true "m3" "a"] _ _) _).
    + done.
    + by repeat constructor.
    + refine (proj1 (tcp_delivery "a" steps Hs)).
Defined.
