(* ===== verification/PbftProps.v ===== *)
(** * PbftProps: what a PBFT node guarantees, for every module that keeps to
    the interface

    [InsideLaws] and [OutsideLaws] state what a module promises to the node:
    it leaves the consensus state alone, forgets no request and sends no
    consensus message.  Under them the node's own guarantees hold over all
    runs, whatever messages arrive. *)
From stdpp Require Import base gmap strings list countable.
From Stdlib Require Import ZArith Lia.
From S2P Require Import Prelude GoStd Libs Core Pools Messages StorageDB Chain Ledger Execution Pbft.

Section laws.
Context {TL : TrieLib} {BL : BoltLib} {HL : Sha256} {CC : CoreCodecs} {MC : MsgCodecs}.
Context {X : Type}.
Implicit Types (p : PbftConsensusNode X).

(** The consensus state a module must not touch. *)
Definition control p :=
  (RunningNode p, p_ShardID p, p_NodeID p, pbftChainConfig p, ip_nodeTable p,
   node_nums p, malicious_nums p, view p, stop p,
   (cntPrepareConfirm p, cntCommitConfirm p, isCommitBordcast p, isReply p, height2Digest p),
   (sequenceLock p, askForLock p, propose_pc p, next_ptr p)).

(** An event that is not one of the consensus's own messages. *)
Definition quiet (e : Event) : Prop :=
  match e with
  | TcpDial m _ => forall t content,
      t ∈ [CPrePrepare; CPrepare; CCommit] -> MergeMessage t content <> Ret m
  | CSVline _ => True
  end.

Definition mod_rel p p' (evs : list Event) : Prop :=
  control p' = control p /\
  (forall d, is_Some (requestPool p !! d) -> is_Some (requestPool p' !! d)) /\
  Forall quiet evs.

Definition seq_rel p p' (_ : list Event) : Prop := sequenceID p' = sequenceID p.

#[global] Instance mod_rel_composes : Composes mod_rel.
Proof.
  split.
  - intros p. split; [done|]. split; [done|constructor].
  - intros p1 p2 p3 o1 o2 (C1 & R1 & Q1) (C2 & R2 & Q2).
    split; [congruence|]. split; [auto|]. by apply Forall_app_2.
Qed.
#[global] Instance seq_rel_composes : Composes seq_rel.
Proof. split; unfold seq_rel; congruence. Qed.

Class InsideLaws (IM : InsideMod X) : Prop := {
  il_Propose : forall now, obeys mod_rel (HandleinPropose now) /\ obeys seq_rel (HandleinPropose now);
  il_PrePrepare : forall m, obeys mod_rel (HandleinPrePrepare m) /\ obeys seq_rel (HandleinPrePrepare m);
  il_Prepare : forall m, obeys mod_rel (HandleinPrepare m) /\ obeys seq_rel (HandleinPrepare m);
  il_Commit : forall now m, obeys mod_rel (HandleinCommit now m) /\ obeys seq_rel (HandleinCommit now m);
  il_OldSeq : forall m, obeys mod_rel (HandleReqestforOldSeq m) /\ obeys seq_rel (HandleReqestforOldSeq m);
  (** catching up may set the sequence number *)
  il_Sequential : forall m, obeys mod_rel (HandleforSequentialRequest m) }.

Class OutsideLaws (OM : OutsideMod X) : Prop := {
  ol_Message : forall now t c,
    obeys mod_rel (HandleMessageOutsidePBFT now t c) /\ obeys seq_rel (HandleMessageOutsidePBFT now t c) }.
End laws.

Section props.
Context {TL : TrieLib} {BL : BoltLib} {HL : Sha256} {CC : CoreCodecs} {MC : MsgCodecs}.
Context {X : Type} {IM : InsideMod X} {OM : OutsideMod X}.
Context {IL : InsideLaws IM} {OL : OutsideLaws OM} {ML : MsgCodecsLaws}.
Implicit Types (p : PbftConsensusNode X).

(** The event is the broadcast of a commit for the digest [d]. *)
Definition commits (d : bytes) (e : Event) : Prop :=
  exists m a c, e = TcpDial m a /\ MergeMessage CCommit (json_enc c) = Ret m /\ c_Digest c = d.

(** ** At most one commit broadcast per digest *)
Definition commit_rel p p' (evs : list Event) : Prop :=
  (forall d, flag_of (isCommitBordcast p) d = true -> flag_of (isCommitBordcast p') d = true) /\
  (forall d, flag_of (isReply p) d = true -> flag_of (isReply p') d = true) /\
  (forall d e, e ∈ evs -> commits d e ->
     flag_of (isCommitBordcast p) d = false /\ flag_of (isCommitBordcast p') d = true).

#[global] Instance commit_rel_composes : Composes commit_rel.
Proof.
  split.
  - intros p. split; [done|]. split; [done|]. intros d e He. by apply not_elem_of_nil in He.
  - intros p1 p2 p3 o1 o2 (F1 & G1 & C1) (F2 & G2 & C2). split; [auto|]. split; [auto|].
    intros d e [He|He]%elem_of_app Hc.
    + destruct (C1 d e He Hc). auto.
    + destruct (C2 d e He Hc) as [Hf Ht]. split; [|done].
      destruct (flag_of (isCommitBordcast p1) d) eqn:E; [|done]. apply F1 in E. congruence.
Qed.

Lemma flag_insert m d d' : flag_of m d' = true -> flag_of (<[d := true]> m) d' = true.
Proof.
  unfold flag_of. destruct (decide (d = d')) as [->|]; [by rewrite lookup_insert_eq|].
  by rewrite lookup_insert_ne.
Qed.

Lemma flag_insert_eq m d : flag_of (<[d := true]> m) d = true.
Proof. unfold flag_of. by rewrite lookup_insert_eq. Qed.

Lemma commit_rel_silent p p' evs :
  isCommitBordcast p' = isCommitBordcast p ->
  (forall d, flag_of (isReply p) d = true -> flag_of (isReply p') d = true) ->
  (forall d e, e ∈ evs -> ~ commits d e) -> commit_rel p p' evs.
Proof.
  intros H1 H2 H3. split; [by rewrite H1|]. split; [done|].
  intros d e He Hc. by destruct (H3 d e He).
Qed.

Lemma quiet_commits d e : quiet e -> ~ commits d e.
Proof.
  intros Hq (m & a & c & -> & Hm & _). eapply Hq; [|exact Hm]. apply (bool_decide_unpack _). reflexivity.
Qed.

Lemma commit_rel_mod {A} (m : Pm X A) : obeys mod_rel m -> obeys commit_rel m.
Proof.
  intros Hm p a p' o H. destruct (Hm _ _ _ _ H) as (Hc & _ & Hq).
  unfold control in Hc. apply commit_rel_silent.
  - congruence.
  - assert (isReply p' = isReply p) as -> by congruence. done.
  - intros d e He. apply quiet_commits. rewrite List.Forall_forall in Hq.
    apply Hq. by apply list_elem_of_In.
Qed.

(** A message of another type is no commit. *)
Lemma other_type_commits t content m a d :
  t <> CCommit -> t ∈ message_types -> MergeMessage t content = Ret m -> ~ commits d (TcpDial m a).
Proof.
  intros Hne Ht Hm (m' & a' & c & [= <- <-] & Hc & _). apply Hne.
  apply message_types_ok in Ht. apply SplitMessage_MergeMessage in Hm; [|done].
  apply SplitMessage_MergeMessage in Hc; [congruence|].
  apply message_types_ok. apply (bool_decide_unpack _). reflexivity.
Qed.

Lemma commit_rel_modify (f : PbftConsensusNode X -> PbftConsensusNode X) :
  (forall p, isCommitBordcast (f p) = isCommitBordcast p) ->
  (forall p d, flag_of (isReply p) d = true -> flag_of (isReply (f p)) d = true) ->
  obeys commit_rel (modify f).
Proof.
  intros H1 H2. apply obeys_modify. intros p. apply commit_rel_silent; [done|apply H2|].
  intros d e He. by apply not_elem_of_nil in He.
Qed.

Lemma commit_rel_emit t content m a :
  t <> CCommit -> t ∈ message_types -> MergeMessage t content = Ret m ->
  obeys commit_rel (emit (TcpDial m a) : Pm X ()).
Proof.
  intros Hne Ht Hm. apply obeys_emit. intros p. apply commit_rel_silent; [done|done|].
  intros d e ->%list_elem_of_singleton. by eapply other_type_commits.
Qed.

Lemma commit_rel_broadcast t content :
  t <> CCommit -> t ∈ message_types -> obeys commit_rel (broadcast_neighbors t content : Pm X ()).
Proof.
  intros Hne Ht p a p' o (m & s1 & o1 & o2 & H1 & H2 & ->)%M_bind_Ret.
  unfold lift in H1. destruct (MergeMessage t content) as [m'| |] eqn:Hm; [|done..].
  injection H1 as -> <- <-. revert p a p' o2 H2.
  change (obeys commit_rel (p ← get; Broadcast (nd_IPaddr (RunningNode p)) (getNeighborNodes p) m : Pm X ())).
  apply obeys_bind; [apply _|apply obeys_get; apply _|]. intros p.
  apply obeys_forM; [apply _|]. intros x _. case_bool_decide.
  - apply obeys_ret; apply _.
  - by eapply commit_rel_emit.
Qed.

Lemma commit_rel_dial t content addr :
  t <> CCommit -> t ∈ message_types -> obeys commit_rel (dial t content addr : Pm X ()).
Proof.
  intros Hne Ht p a p' o (m & s1 & o1 & o2 & H1 & H2 & ->)%M_bind_Ret.
  unfold lift in H1. destruct (MergeMessage t content) as [m'| |] eqn:Hm; [|done..].
  injection H1 as -> <- <-. by eapply (commit_rel_emit t content m addr).
Qed.

Ltac obey_step :=
  first
    [ apply obeys_ret; apply _ | apply obeys_get; apply _ | apply obeys_lift; apply _
    | apply obeys_panic | apply obeys_block
    | apply commit_rel_broadcast; [done|apply (bool_decide_unpack _); reflexivity]
    | apply commit_rel_dial; [done|apply (bool_decide_unpack _); reflexivity]
    | apply commit_rel_modify; [done|intros; cbn; try apply flag_insert; done]
    | apply commit_rel_mod; first
        [ apply il_Propose | apply il_PrePrepare | apply il_Prepare | apply il_Commit
        | apply il_OldSeq | apply il_Sequential | apply ol_Message ]
    | apply obeys_bind; [apply _| |intros ?]
    | case_match ].
Ltac obey := repeat obey_step.

Lemma commit_rel_set2DMap b key v : obeys commit_rel (set2DMap b key v : Pm X ()).
Proof. unfold set2DMap. obey. Qed.

Lemma commit_rel_new_ptr : obeys commit_rel (new_ptr : Pm X Z).
Proof. unfold new_ptr. obey. Qed.

Lemma commit_rel_store seq r : obeys commit_rel (store_request seq r : Pm X ()).
Proof. unfold store_request. obey. Qed.

Lemma commit_rel_propose now : obeys commit_rel (propose_body now).
Proof. unfold propose_body, propose_request. obey. Qed.

Lemma commit_rel_prePrepare c : obeys commit_rel (handlePrePrepare c).
Proof. unfold handlePrePrepare, broadcast_prepare. obey; apply commit_rel_store. Qed.

Lemma commit_rel_commit now c : obeys commit_rel (handleCommit now c).
Proof.
  unfold handleCommit, request_old, execute_commit, lock_askForLock, unlock_sequenceLock.
  obey; first [apply commit_rel_new_ptr|apply commit_rel_set2DMap].
Qed.

Lemma commit_rel_requestOld c : obeys commit_rel (handleRequestOldSeq c).
Proof. unfold handleRequestOldSeq. obey. Qed.

Lemma adopt_flags b rs p :
  isCommitBordcast (adopt_requests b rs p) = isCommitBordcast p /\
  forall d, flag_of (isReply p) d = true -> flag_of (isReply (adopt_requests b rs p)) d = true.
Proof.
  unfold adopt_requests. revert p. induction (indexed rs) as [|[i r] l IH]; intros p; cbn [foldl]; [done|].
  destruct (IH (adopt_request b (i, r) p)) as [H1 H2]. rewrite H1. split; [done|].
  intros d Hd. apply H2. cbn. by apply flag_insert.
Qed.

Lemma commit_rel_sendOld c : obeys commit_rel (handleSendOldSeq c).
Proof.
  unfold handleSendOldSeq, unlock_askForLock, broadcast_prepare. obey.
  apply commit_rel_modify; intros; by apply adopt_flags.
Qed.

(** A broadcast leaves the node alone and writes its one message. *)
Definition others p : list string := filter (fun a => a <> nd_IPaddr (RunningNode p)) (getNeighborNodes p).

Lemma Broadcast_exact sender l m p :
  (Broadcast sender l m : Pm X ()) p = Ret (tt, p, (fun a => TcpDial m a) <$> filter (fun a => a <> sender) l).
Proof.
  induction l as [|x l IH]; [done|]. unfold Broadcast in *. cbn [forM]. rewrite filter_cons.
  case_bool_decide as Hx; [rewrite decide_False by tauto|rewrite decide_True by done; rewrite fmap_cons].
  - change (?o1 <$> ?l1) with ([] ++ (o1 <$> l1)). eapply bind_returns; [reflexivity|exact IH].
  - change (?e :: ?l1) with ([e] ++ l1). eapply bind_returns; [reflexivity|exact IH].
Qed.

Lemma broadcast_exact t content m p : MergeMessage t content = Ret m ->
  (broadcast_neighbors t content : Pm X ()) p = Ret (tt, p, (fun a => TcpDial m a) <$> others p).
Proof.
  intros Hm. unfold broadcast_neighbors. rewrite Hm.
  etransitivity; [apply (lift_bind (Ret m)); reflexivity|]. rewrite get_bind. apply Broadcast_exact.
Qed.

Lemma broadcast_spec t content p a p' o :
  broadcast_neighbors t content p = Ret (a, p', o) ->
  p' = p /\ exists m, MergeMessage t content = Ret m /\
    forall e, e ∈ o <-> exists ip, ip ∈ getNeighborNodes p /\ ip <> nd_IPaddr (RunningNode p) /\
      e = TcpDial m ip.
Proof.
  intros H. pose proof H as (m & s1 & o1 & o2 & H1 & _ & _)%M_bind_Ret.
  unfold lift in H1. destruct (MergeMessage t content) as [m'| |] eqn:Hm; [|done..].
  rewrite (broadcast_exact t content m' p Hm) in H. injection H as <- <- <-.
  split; [done|]. exists m'. split; [done|]. intros e. rewrite list_elem_of_fmap. unfold others.
  setoid_rewrite list_elem_of_filter. firstorder.
Qed.

(** The commit is broadcast while its flag is down, and the flag is up when
    the handler returns. *)
Lemma commit_if_prepared_spec pmsg p a p' o :
  commit_if_prepared pmsg p = Ret (a, p', o) ->
  (p' = p /\ o = []) \/
  (specifiedcnt p <= count (cntPrepareConfirm p) (p_Digest pmsg) /\
   flag_of (isCommitBordcast p) (p_Digest pmsg) = false /\
   p' = p <| isCommitBordcast ::= <[p_Digest pmsg := true]> |> /\
   exists m, MergeMessage CCommit (json_enc (mkCommit (p_Digest pmsg) (p_SeqID pmsg) (RunningNode p))) = Ret m /\
     forall e, e ∈ o <-> exists ip, ip ∈ getNeighborNodes p /\ ip <> nd_IPaddr (RunningNode p) /\
       e = TcpDial m ip).
Proof.
  unfold commit_if_prepared. rewrite get_bind. cbn zeta. intros H.
  destruct (Z.leb_spec (specifiedcnt p) (count (cntPrepareConfirm p) (p_Digest pmsg)));
    [|left; injection H as <- <- <-; done].
  destruct (flag_of (isCommitBordcast p) (p_Digest pmsg)); cbn [andb negb] in H;
    [left; injection H as <- <- <-; done|].
  apply M_bind_Ret in H as (u & s2 & o3 & o4 & H1 & H2 & ->).
  apply broadcast_spec in H1 as [-> Hm]. injection H2 as <- <- <-.
  right. rewrite app_nil_r. done.
Qed.

Lemma commit_msg_inj (c1 c2 : Commit) m :
  MergeMessage CCommit (json_enc c1) = Ret m -> MergeMessage CCommit (json_enc c2) = Ret m -> c1 = c2.
Proof.
  intros H1 H2. assert (Ht : type_ok CCommit) by (apply message_types_ok, (bool_decide_unpack _); reflexivity).
  apply SplitMessage_MergeMessage in H1, H2; [|done..]. rewrite H1 in H2. injection H2 as H2.
  apply (f_equal (json_dec (A := Commit))) in H2. rewrite !json_dec_enc in H2. by injection H2.
Qed.

Lemma commit_rel_quorum pmsg : obeys commit_rel (commit_if_prepared pmsg : Pm X ()).
Proof.
  intros p a p' o [[-> ->]|(_ & Hf & -> & m & Hm & He)]%commit_if_prepared_spec; [apply composes_refl; apply _|].
  split; [intros d; cbn; apply flag_insert|]. split; [done|].
  intros d e Hin (m' & a' & c & -> & Hc & <-). apply He in Hin as (ip & _ & _ & [= -> ->]).
  rewrite <- (commit_msg_inj _ _ _ Hm Hc). split; [done|cbn; apply flag_insert_eq].
Qed.

#[local] Opaque commit_if_prepared set2DMap new_ptr store_request.

Lemma commit_rel_prepare c : obeys commit_rel (handlePrepare c).
Proof.
  unfold handlePrepare. obey;
    first [apply commit_rel_new_ptr|apply commit_rel_set2DMap|apply commit_rel_quorum].
Qed.

#[local] Opaque handlePrePrepare handlePrepare handleCommit handleRequestOldSeq handleSendOldSeq
  propose_body.

Lemma commit_rel_step i : obeys commit_rel (step i).
Proof.
  destruct i as [now msg|now]; cbn [step].
  - unfold handleMessage, WaitToStop, send_pStop. obey;
      first [ apply commit_rel_prePrepare | apply commit_rel_prepare | apply commit_rel_commit
            | apply commit_rel_requestOld | apply commit_rel_sendOld | apply commit_rel_propose ].
  - unfold propose_step. obey; apply commit_rel_propose.
Qed.

(** ** Votes and quorums *)

(** The input delivers a vote for [d] of the given type. *)
Definition vote_digest (t : MessageType) (c : bytes) : option bytes :=
  if bool_decide (t = CPrepare) then p_Digest <$> json_dec c
  else if bool_decide (t = CCommit) then c_Digest <$> json_dec c
  else None.

Definition is_vote (t : MessageType) (d : bytes) (i : Input) : bool :=
  match i with
  | Receive _ m =>
      match SplitMessage m with
      | Ret (t', c) => bool_decide (t' = t) && bool_decide (vote_digest t c = Some d)
      | _ => false
      end
  | RunPropose _ => false
  end.

(** The votes for [d] a run delivered. *)
Definition votes (t : MessageType) (d : bytes) (tr : list (Input * list Event)) : Z :=
  Z.of_nat (length (filter (fun ie => is_vote t d ie.1 = true) tr)).

Definition ids p := (malicious_nums p, p_NodeID p, view p).

Definition frame_rel p p' (_ : list Event) : Prop :=
  cntPrepareConfirm p' = cntPrepareConfirm p /\ cntCommitConfirm p' = cntCommitConfirm p /\
  ids p' = ids p /\ isCommitBordcast p' = isCommitBordcast p.

#[global] Instance frame_rel_composes : Composes frame_rel.
Proof. split; unfold frame_rel; [done|]. intros ????? (?&?&?&?) (?&?&?&?). split_and!; congruence. Qed.

Lemma frame_rel_mod {A} (m : Pm X A) : obeys mod_rel m -> obeys frame_rel m.
Proof.
  intros Hm p a p' o H. destruct (Hm _ _ _ _ H) as (Hc & _). unfold control in Hc.
  unfold frame_rel, ids. split_and!; congruence.
Qed.

Lemma frame_rel_broadcast t c : obeys frame_rel (broadcast_neighbors t c : Pm X ()).
Proof. by intros p a p' o [-> _]%broadcast_spec. Qed.

#[local] Transparent new_ptr store_request.

Ltac frame_step :=
  first
    [ apply obeys_ret; apply _ | apply obeys_get; apply _ | apply obeys_lift; apply _
    | apply obeys_panic | apply obeys_block
    | apply frame_rel_broadcast
    | apply obeys_modify; done
    | apply obeys_emit; done
    | apply frame_rel_mod; first
        [ apply il_Propose | apply il_PrePrepare | apply il_Prepare | apply il_Commit
        | apply il_OldSeq | apply il_Sequential | apply ol_Message ]
    | apply obeys_bind; [apply _| |intros ?]
    | case_match ].
Ltac frame := repeat frame_step.

Lemma frame_adopt b rs : obeys frame_rel (modify (adopt_requests b rs) : Pm X ()).
Proof.
  apply obeys_modify. intros p. unfold adopt_requests.
  revert p. induction (indexed rs) as [|[i r] l IH]; intros p; cbn [foldl]; [done|].
  destruct (IH (adopt_request b (i, r) p)) as (H1 & H2 & H3 & H4). done.
Qed.

#[local] Transparent handlePrePrepare handleRequestOldSeq handleSendOldSeq propose_body.

Lemma frame_prePrepare c : obeys frame_rel (handlePrePrepare c).
Proof. unfold handlePrePrepare, broadcast_prepare, store_request. frame. Qed.
Lemma frame_requestOld c : obeys frame_rel (handleRequestOldSeq c).
Proof. unfold handleRequestOldSeq, dial. frame. Qed.
Lemma frame_sendOld c : obeys frame_rel (handleSendOldSeq c).
Proof.
  unfold handleSendOldSeq, unlock_askForLock, broadcast_prepare.
  apply obeys_bind; [apply _|frame|intros som]. apply obeys_bind; [apply _|frame|intros _].
  apply obeys_bind; [apply _|apply frame_adopt|intros _]. frame.
Qed.
Lemma frame_propose now : obeys frame_rel (propose_body now).
Proof. unfold propose_body, propose_request. frame. Qed.
Lemma frame_new_ptr : obeys frame_rel (new_ptr : Pm X Z).
Proof. unfold new_ptr. frame. Qed.
Lemma count_insert m d (x : Z) d' :
  count (<[d := {[x]} ∪ default ∅ (m !! d)]> m) d' <= count m d' + Z.b2z (bool_decide (d = d')).
Proof.
  unfold count. case_bool_decide as Hd; subst; cbn [Z.b2z].
  - rewrite lookup_insert_eq. cbn. pose proof (size_union_alt {[x]} (default ∅ (m !! d'))).
    pose proof (size_singleton (C := gset Z) x).
    assert (size ({[x]} ∪ default ∅ (m !! d')) <= size ({[x]} : gset Z) + size (default ∅ (m !! d')))%nat; [|lia].
    rewrite size_union_alt. apply Nat.add_le_mono_l. apply subseteq_size. set_solver.
  - rewrite lookup_insert_ne by done. lia.
Qed.

#[local] Transparent handlePrepare handleCommit set2DMap.

Lemma lift_must_inv {A} (o : option A) p a p' ev :
  (lift (must o) : Pm X A) p = Ret (a, p', ev) -> o = Some a /\ p' = p /\ ev = [].
Proof. destruct o; cbn; [|done]. intros [= <- <- <-]. done. Qed.

(** A prepare adds at most its own vote; a commit goes out only on a quorum. *)
Lemma prepare_votes c p a p' o :
  handlePrepare c p = Ret (a, p', o) ->
  cntCommitConfirm p' = cntCommitConfirm p /\ ids p' = ids p /\
  (forall d, count (cntPrepareConfirm p') d <=
     count (cntPrepareConfirm p) d + Z.b2z (bool_decide (p_Digest <$> json_dec c = Some d))) /\
  (forall d e, e ∈ o -> commits d e -> specifiedcnt p' <= count (cntPrepareConfirm p') d).
Proof.
  unfold handlePrepare. intros (pmsg & s1 & o1 & o2 & (Hd & -> & ->)%lift_must_inv & H & ->)%M_bind_Ret.
  apply M_bind_Ret in H as (ptr & s2 & o3 & o4 & H1 & H & ->).
  assert (o3 = []) as -> by (by injection H1 as <- <- <-).
  apply frame_new_ptr in H1 as (F1 & F2 & F3 & _). rewrite get_bind in H. cbn [app].
  assert (Hquiet : p' = s2 -> o4 = [] -> cntCommitConfirm p' = cntCommitConfirm p /\ ids p' = ids p /\
    (forall d, count (cntPrepareConfirm p') d <=
       count (cntPrepareConfirm p) d + Z.b2z (bool_decide (p_Digest <$> json_dec c = Some d))) /\
    (forall d e, e ∈ o4 -> commits d e -> specifiedcnt p' <= count (cntPrepareConfirm p') d)).
  { intros -> ->. rewrite F1. split; [done|]. split; [done|]. split.
    - intros d. case_bool_decide; cbn; lia.
    - intros d e He. by apply not_elem_of_nil in He. }
  case_match; [|injection H as <- <- <-; by apply Hquiet].
  case_match; [injection H as <- <- <-; by apply Hquiet|]. clear Hquiet.
  apply M_bind_Ret in H as (b & s3 & o5 & o6 & H2 & H & ->).
  pose proof (proj1 (il_Prepare pmsg) _ _ _ _ H2) as (_ & _ & Hq).
  apply (frame_rel_mod _ (proj1 (il_Prepare pmsg))) in H2 as (G1 & G2 & G3 & _).
  unfold set2DMap in H. rewrite modify_bind in H.
  set (s4 := s3 <| cntPrepareConfirm ::= _ |>) in H.
  assert (Hcnt : forall d, count (cntPrepareConfirm s4) d <=
     count (cntPrepareConfirm p) d + Z.b2z (bool_decide (p_Digest <$> json_dec c = Some d))).
  { intros d. cbn. rewrite G1, F1. etransitivity; [apply count_insert|]. rewrite Hd. cbn.
    repeat case_bool_decide; cbn; (lia || congruence). }
  assert (Hids : ids s4 = ids p) by (rewrite <- F3, <- G3; done).
  assert (Hqc : forall d e, e ∈ o5 -> commits d e -> False).
  { intros d e He. apply quiet_commits. rewrite List.Forall_forall in Hq.
    by apply Hq, list_elem_of_In. }
  apply commit_if_prepared_spec in H as [[-> ->]|(Hle & _ & -> & m & Hm & He)].
  - rewrite app_nil_r. split_and!; [by cbn; congruence|done|done|].
    intros d e Hin Hc. by destruct (Hqc d e).
  - split_and!; [by cbn; congruence|done|done|].
    intros d e [Hin|Hin]%elem_of_app Hc; [by destruct (Hqc d e)|].
    apply He in Hin as (ip & _ & _ & ->). destruct Hc as (m' & a' & cc & [= <- <-] & Hc & <-).
    by rewrite <- (commit_msg_inj _ _ _ Hm Hc).
Qed.

(** A node with its own vote counters advanced by one commit. *)
Definition voted (d : bytes) p : PbftConsensusNode X :=
  p <| next_ptr ::= Z.succ |>
    <| cntCommitConfirm ::= fun m => <[d := {[next_ptr p]} ∪ default ∅ (m !! d)]> m |>.

Lemma handleCommit_unfold now c cm p :
  json_dec c = Some cm ->
  handleCommit now c p =
    let q := voted (c_Digest cm) p in
    (if (required_cnt q <=? count (cntCommitConfirm q) (c_Digest cm)) &&
        negb (flag_of (isReply q) (c_Digest cm)) then
       _ ← (match requestPool q !! c_Digest cm with
            | None => request_old cm
            | Some _ => execute_commit now cm
            end);
       if p_NodeID q =? view q then unlock_sequenceLock else mret tt
     else mret tt) q.
Proof.
  intros Hd. unfold handleCommit. rewrite Hd.
  etransitivity; [apply (lift_bind (Ret cm)); reflexivity|]. cbn beta.
  unfold new_ptr. rewrite bind_bind, get_bind, bind_bind, modify_bind, ret_bind.
  unfold set2DMap. rewrite modify_bind, get_bind. reflexivity.
Qed.

(** A digest already replied to: only the counters move. *)
Lemma handleCommit_replied now c cm p :
  json_dec c = Some cm -> flag_of (isReply p) (c_Digest cm) = true ->
  handleCommit now c p = Ret (tt, voted (c_Digest cm) p, []).
Proof.
  intros Hd Hf. rewrite (handleCommit_unfold now c cm p Hd). cbn zeta.
  change (isReply (voted _ p)) with (isReply p). rewrite Hf, andb_false_r. done.
Qed.

Lemma unlock_spec p a p' o :
  (unlock_sequenceLock : Pm X ()) p = Ret (a, p', o) ->
  sequenceLock p = true /\ p' = p <| sequenceLock := false |> /\ o = [].
Proof.
  unfold unlock_sequenceLock. rewrite get_bind. destruct (sequenceLock p); [|done].
  by intros [= <- <- <-].
Qed.

Lemma execute_commit_spec now cm p a p' o :
  execute_commit now cm p = Ret (a, p', o) ->
  exists b p1, HandleinCommit now cm p = Ret (b, p1, o) /\
    p' = p1 <| isReply ::= <[c_Digest cm := true]> |> <| sequenceID ::= fun s => u64 (s + 1) |>.
Proof.
  unfold execute_commit. intros (b & p1 & o1 & o2 & H1 & H2 & ->)%M_bind_Ret.
  injection H2 as <- <- <-. exists b, p1. by rewrite app_nil_r.
Qed.

#[local] Arguments MergeMessage : simpl never.

Lemma dial_spec t content addr p a p' o :
  (dial t content addr : Pm X ()) p = Ret (a, p', o) ->
  p' = p /\ exists m, MergeMessage t content = Ret m /\ o = [TcpDial m addr].
Proof.
  unfold dial. intros (m & s1 & o1 & o2 & H1 & H2 & ->)%M_bind_Ret.
  unfold lift in H1. destruct (MergeMessage t content) as [m'| |] eqn:Hm; [|done..].
  injection H1 as -> <- <-. injection H2 as <- <- <-. split; [done|]. by exists m.
Qed.

Lemma request_old_spec cm p a p' o :
  (request_old cm : Pm X ()) p = Ret (a, p', o) ->
  askForLock p = false /\ p' = p <| isReply ::= <[c_Digest cm := true]> |> <| askForLock := true |> /\
  exists m, o = [TcpDial m (node_ip p (p_ShardID p) (view p))] /\
    MergeMessage CRequestOldrequest (json_enc (mkRequestOldMessage (u64 (sequenceID p + 1)) (c_SeqID cm)
      (mkNode (view p) (p_ShardID p) (node_ip p (p_ShardID p) (view p))) (RunningNode p))) = Ret m.
Proof.
  unfold request_old, lock_askForLock. rewrite modify_bind, bind_bind, get_bind. cbn.
  destruct (askForLock p); [done|]. rewrite modify_bind, get_bind.
  intros [-> (m & Hm & ->)]%dial_spec. split; [done|]. split; [done|]. by exists m.
Qed.

(** What a commit can do: vote, ask for missing requests, or execute. *)
Lemma handleCommit_cases now c p a p' o :
  handleCommit now c p = Ret (a, p', o) ->
  exists cm, json_dec c = Some cm /\ let d := c_Digest cm in
    cntPrepareConfirm p' = cntPrepareConfirm p /\ ids p' = ids p /\
    cntCommitConfirm p' = cntCommitConfirm (voted d p) /\ isCommitBordcast p' = isCommitBordcast p /\
    ((CurChain p' = CurChain p /\ sequenceID p' = sequenceID p) \/
     (flag_of (isReply p) d = false /\ flag_of (isReply p') d = true /\
      is_Some (requestPool p !! d) /\ required_cnt p' <= count (cntCommitConfirm p') d /\
      sequenceID p' = u64 (sequenceID p + 1))).
Proof.
  intros H. assert (exists cm, json_dec (A := Commit) c = Some cm) as [cm Hd].
  { unfold handleCommit in H.
    apply M_bind_Ret in H as (cm & s1 & o1 & o2 & (Hd & _)%lift_must_inv & _). by exists cm. }
  exists cm. split; [done|]. cbn zeta. rewrite (handleCommit_unfold _ _ _ _ Hd) in H. cbn zeta in H.
  set (q := voted (c_Digest cm) p) in *.
  destruct (Z.leb_spec (required_cnt q) (count (cntCommitConfirm q) (c_Digest cm))) as [Hle|];
    [|injection H as <- <- <-; split_and!; [done..|left; done]].
  destruct (flag_of (isReply q) (c_Digest cm)) eqn:Hf; cbn [andb negb] in H;
    [injection H as <- <- <-; split_and!; [done..|left; done]|].
  apply M_bind_Ret in H as (u & p1 & o1 & o2 & H1 & H2 & ->).
  assert (Hlast : cntPrepareConfirm p' = cntPrepareConfirm p1 /\ ids p' = ids p1 /\
    cntCommitConfirm p' = cntCommitConfirm p1 /\ CurChain p' = CurChain p1 /\
    sequenceID p' = sequenceID p1 /\ isReply p' = isReply p1 /\ isCommitBordcast p' = isCommitBordcast p1).
  { case_match; [apply unlock_spec in H2 as (_ & -> & _); done|injection H2 as <- <- <-; done]. }
  destruct Hlast as (L1 & L2 & L3 & L4 & L5 & L6 & L7). rewrite L1, L2, L3, L4, L5, L6, L7.
  destruct (requestPool q !! c_Digest cm) eqn:Hp.
  - apply execute_commit_spec in H1 as (b & p2 & Hc & ->).
    destruct (proj1 (il_Commit now cm) _ _ _ _ Hc) as (Hctl & _ & _). unfold control in Hctl.
    pose proof (proj2 (il_Commit now cm) _ _ _ _ Hc) as Hseq. unfold seq_rel in Hseq.
    cbn in Hctl |- *. unfold ids in *. cbn in *.
    split_and!; [congruence|congruence|congruence|congruence|right].
    rewrite flag_insert_eq. split_and!; [done|done|by eexists| |by rewrite Hseq].
    assert (malicious_nums p' = malicious_nums q) as Hm by (cbn in L2 |- *; congruence).
    unfold required_cnt in *. rewrite Hm.
    assert (cntCommitConfirm p2 = cntCommitConfirm q) as -> by (cbn; congruence). done.
  - apply request_old_spec in H1 as (_ & -> & _). split_and!; [done..|left; done].
Qed.

(** ** Steps *)

(** The messages a running node handles, by type. *)
Lemma step_receive now msg p a p' evs :
  step (Receive now msg) p = Ret (a, p', evs) ->
  (stop p = true /\ p' = p /\ evs = []) \/
  exists t c, SplitMessage msg = Ret (t, c) /\ stop p = false /\
    handleMessage now msg p = Ret (a, p', evs) /\
    (t = CPrepare -> handlePrepare c p = Ret (a, p', evs)) /\
    (t = CCommit -> handleCommit now c p = Ret (a, p', evs)) /\
    (t <> CPrepare -> t <> CCommit -> frame_rel p p' evs).
Proof.
  cbn [step]. rewrite get_bind. destruct (stop p); [intros [= <- <- <-]; by left|]. intros H. right.
  unfold handleMessage in H. destruct (SplitMessage msg) as [[t c]| |] eqn:Hs; [|done..].
  exists t, c. split; [done|]. split; [done|].
  split; [unfold handleMessage; by rewrite Hs|].
  erewrite (lift_bind (Ret (t, c)) _ p (t, c)) in H by reflexivity. cbn beta iota in H.
  split; [|split].
  - intros ->. exact H.
  - intros ->. exact H.
  - intros H1 H2. rewrite (bool_decide_eq_false_2 _ H1), (bool_decide_eq_false_2 _ H2) in H.
    revert p a p' evs H.
    match goal with |- forall p a p' evs, ?m p = _ -> _ => change (obeys frame_rel m) end.
    repeat case_bool_decide; [apply frame_prePrepare|apply frame_requestOld|apply frame_sendOld| |].
    + unfold WaitToStop, send_pStop.
      apply obeys_bind; [apply _|frame|intros ?]. apply obeys_bind; [apply _|frame|intros ?].
      case_match; [|frame]. apply obeys_bind; [apply _|frame|intros ?].
      case_match; frame; apply frame_propose.
    + frame.
Qed.

Lemma frame_propose_step now : obeys frame_rel (propose_step now).
Proof.
  unfold propose_step. apply obeys_bind; [apply _|frame|intros ?].
  case_match; [frame|]. case_match; frame; apply frame_propose.
Qed.

Lemma frame_votes p p' evs i :
  frame_rel p p' evs ->
  ids p' = ids p /\
  forall d, count (cntPrepareConfirm p') d <= count (cntPrepareConfirm p) d + Z.b2z (is_vote CPrepare d i) /\
            count (cntCommitConfirm p') d <= count (cntCommitConfirm p) d + Z.b2z (is_vote CCommit d i).
Proof.
  intros (H1 & H2 & H3 & _). split; [done|]. intros d. rewrite H1, H2.
  destruct (is_vote CPrepare d i), (is_vote CCommit d i); cbn; lia.
Qed.

Lemma step_votes i p a p' evs :
  step i p = Ret (a, p', evs) ->
  ids p' = ids p /\
  forall d, count (cntPrepareConfirm p') d <= count (cntPrepareConfirm p) d + Z.b2z (is_vote CPrepare d i) /\
            count (cntCommitConfirm p') d <= count (cntCommitConfirm p) d + Z.b2z (is_vote CCommit d i).
Proof.
  destruct i as [now msg|now].
  - intros [(_ & -> & ->)|(t & c & Hs & _ & _ & Hp & Hc & Hf)]%step_receive; [by apply (frame_votes p p [])|].
    destruct (decide (t = CPrepare)) as [->|Hnp]; [|destruct (decide (t = CCommit)) as [->|Hnc]].
    + destruct (prepare_votes _ _ _ _ _ (Hp eq_refl)) as (H1 & H2 & H3 & _).
      split; [done|]. intros d. unfold is_vote. rewrite Hs, H1. split; [|destruct (_ && _); cbn; lia].
      etransitivity; [apply H3|]. done.
    + destruct (handleCommit_cases _ _ _ _ _ _ (Hc eq_refl)) as (cm & Hd & H1 & H2 & H3 & _ & _).
      split; [done|]. intros d. unfold is_vote. rewrite Hs, H1, H3. split; [destruct (_ && _); cbn; lia|].
      cbn [voted cntCommitConfirm set_field]. etransitivity; [apply count_insert|].
      unfold vote_digest. rewrite (bool_decide_eq_false_2 (CCommit = CPrepare)) by done.
      rewrite !(bool_decide_eq_true_2 (CCommit = CCommit)) by done. rewrite Hd.
      change (c_Digest <$> Some cm) with (Some (c_Digest cm)).
      repeat case_bool_decide; cbn; (lia || congruence).
    + by eapply frame_votes, Hf.
  - intros H%frame_propose_step. by eapply frame_votes.
Qed.

Lemma votes_snoc t d tr i evs :
  votes t d (tr ++ [(i, evs)]) = votes t d tr + Z.b2z (is_vote t d i).
Proof.
  unfold votes. rewrite list.filter_app, List.length_app, filter_cons, filter_nil. cbn [fst].
  destruct (is_vote t d i); [rewrite decide_True by done|rewrite decide_False by done]; cbn [length Z.b2z]; lia.
Qed.

(** The counters never exceed the votes delivered. *)
Lemma run_votes p0 tr p :
  run p0 tr p -> cntPrepareConfirm p0 = ∅ -> cntCommitConfirm p0 = ∅ ->
  ids p = ids p0 /\
  forall d, count (cntPrepareConfirm p) d <= votes CPrepare d tr /\
            count (cntCommitConfirm p) d <= votes CCommit d tr.
Proof.
  intros Hr Hp Hc. induction Hr as [p|p0 tr p1 i p2 evs Hr IH Hs].
  - split; [done|]. intros d. rewrite Hp, Hc. unfold count, votes. rewrite !lookup_empty. cbn.
    rewrite size_empty. lia.
  - destruct (IH Hp Hc) as [I1 I2]. destruct (step_votes _ _ _ _ _ Hs) as [S1 S2].
    split; [congruence|]. intros d. rewrite !votes_snoc.
    destruct (I2 d), (S2 d). lia.
Qed.

Lemma run_flags p0 tr p d :
  run p0 tr p ->
  (flag_of (isReply p0) d = true -> flag_of (isReply p) d = true) /\
  (forall k ie e, tr !! k = Some ie -> e ∈ ie.2 -> commits d e -> flag_of (isCommitBordcast p) d = true).
Proof.
  induction 1 as [p|p0 tr p1 i p2 evs Hr [I1 I2] Hs]; [split; [done|intros k ie e Hk; done]|].
  destruct (commit_rel_step i _ _ _ _ Hs) as (F & G & C). split; [auto|].
  intros k ie e Hk He Hc. apply lookup_app_Some in Hk as [Hk|[_ Hk]]; [by eapply F, I2|].
  apply list_lookup_singleton_Some in Hk as [_ <-]. by destruct (C d e He Hc).
Qed.

(** Only a prepare can make a node broadcast a commit. *)
Lemma step_commits i p a p' evs d e :
  step i p = Ret (a, p', evs) -> e ∈ evs -> commits d e ->
  specifiedcnt p' <= count (cntPrepareConfirm p') d.
Proof.
  intros Hs He Hc. destruct a. destruct (commit_rel_step i _ _ _ _ Hs) as (_ & _ & C).
  destruct (C d e He Hc) as [Hf Ht].
  assert (Hsame : isCommitBordcast p' = isCommitBordcast p -> specifiedcnt p' <= count (cntPrepareConfirm p') d)
    by congruence.
  destruct i as [now msg|now].
  - apply step_receive in Hs as [(_ & -> & ->)|(t & c & Hs & _ & _ & Hp & Hcm & Hfr)]; [by apply Hsame|].
    destruct (decide (t = CPrepare)) as [->|Hnp]; [|destruct (decide (t = CCommit)) as [->|Hnc]].
    + destruct (prepare_votes _ _ _ _ _ (Hp eq_refl)) as (_ & _ & _ & H). by eapply H.
    + destruct (handleCommit_cases _ _ _ _ _ _ (Hcm eq_refl)) as (cm & _ & _ & _ & _ & H & _).
      by apply Hsame.
    + apply Hsame. by apply Hfr.
  - apply Hsame. by apply frame_propose_step in Hs as (_ & _ & _ & ?).
Qed.

Lemma thresholds_ids p p' :
  ids p' = ids p -> specifiedcnt p' = specifiedcnt p /\ required_cnt p' = required_cnt p.
Proof. unfold ids, specifiedcnt, required_cnt. intros [= -> -> ->]. done. Qed.

(** ** Properties *)

(** C5: a node broadcasts its commit for a digest at most once.
    Over any run, whatever messages arrive, two steps that emit a commit
    message for the same digest are the same step. *)
Theorem commit_broadcast_once p0 tr p d i j ei ej e1 e2 :
  run p0 tr p -> tr !! i = Some ei -> tr !! j = Some ej ->
  e1 ∈ ei.2 -> commits d e1 -> e2 ∈ ej.2 -> commits d e2 -> i = j.
Proof.
  intros Hr. revert i j ei ej. induction Hr as [p|p0 tr p1 k p2 evs Hr IH Hs]; [done|].
  destruct (run_flags _ _ _ d Hr) as [_ Hflag]. destruct (commit_rel_step k _ _ _ _ Hs) as (_ & _ & C).
  intros i j ei ej Hi Hj He1 Hc1 He2 Hc2.
  apply lookup_app_Some in Hi as [Hi|[Hi1 Hi]], Hj as [Hj|[Hj1 Hj]].
  - by eapply IH.
  - apply list_lookup_singleton_Some in Hj as [_ <-].
    specialize (Hflag i ei e1 Hi He1 Hc1). destruct (C d e2 He2 Hc2). congruence.
  - apply list_lookup_singleton_Some in Hi as [_ <-].
    specialize (Hflag j ej e2 Hj He2 Hc2). destruct (C d e1 He1 Hc1). congruence.
  - apply list_lookup_singleton_Some in Hi as [Hi _], Hj as [Hj _]. lia.
Qed.

(** C6: a request is executed at most once.  After any run from a
    state in which the digest has been replied to, a further commit for it
    only moves the vote counters: the chain, the sequence number and the
    request pool stay, and nothing is sent. *)
Theorem commit_executed_once p0 tr p now c cm :
  run p0 tr p -> json_dec c = Some cm -> flag_of (isReply p0) (c_Digest cm) = true ->
  exists p', handleCommit now c p = Ret (tt, p', []) /\
    CurChain p' = CurChain p /\ sequenceID p' = sequenceID p /\ requestPool p' = requestPool p /\
    isReply p' = isReply p.
Proof.
  intros Hr Hd Hf. exists (voted (c_Digest cm) p). split; [|done].
  apply handleCommit_replied; [done|]. by apply (run_flags _ _ _ (c_Digest cm) Hr).
Qed.

(** C4: nothing happens without its quorum of messages.  In any run
    of a fresh node, a step that broadcasts a commit for [d] comes after at
    least [specifiedcnt] prepare messages for [d]; and a commit message that
    changes the chain or the sequence number is at least the [required_cnt]-th
    commit message for its digest, the digest is a known request not yet
    replied to, and the sequence number moves by exactly one. *)
Theorem quorum_required p0 tr p1 i p2 evs :
  cntPrepareConfirm p0 = ∅ -> cntCommitConfirm p0 = ∅ ->
  run p0 tr p1 -> step i p1 = Ret (tt, p2, evs) ->
  (forall d e, e ∈ evs -> commits d e -> specifiedcnt p0 <= votes CPrepare d (tr ++ [(i, evs)])) /\
  (forall now msg c cm, i = Receive now msg ->
     SplitMessage msg = Ret (CCommit, c) -> json_dec c = Some cm ->
     CurChain p2 <> CurChain p1 \/ sequenceID p2 <> sequenceID p1 ->
     required_cnt p0 <= votes CCommit (c_Digest cm) (tr ++ [(i, evs)]) /\
     flag_of (isReply p1) (c_Digest cm) = false /\ flag_of (isReply p2) (c_Digest cm) = true /\
     is_Some (requestPool p1 !! c_Digest cm) /\ sequenceID p2 = u64 (sequenceID p1 + 1)).
Proof.
  intros Hp0 Hc0 Hr Hs.
  destruct (run_votes p0 (tr ++ [(i, evs)]) p2) as [Hids Hv]; [by eapply run_step|done|done|].
  destruct (thresholds_ids _ _ Hids) as [T1 T2]. split.
  - intros d e He Hc. rewrite <- T1. etransitivity; [by eapply step_commits|apply Hv].
  - intros now msg c cm -> Hsp Hd Hch.
    apply step_receive in Hs as [(_ & -> & _)|(t & c' & Hs & _ & _ & _ & Hcm & _)]; [tauto|].
    rewrite Hsp in Hs. injection Hs as <- <-.
    destruct (handleCommit_cases _ _ _ _ _ _ (Hcm eq_refl)) as (cm' & Hd' & _ & _ & _ & _ & [H|H]);
      rewrite Hd in Hd'; injection Hd' as <-; [destruct H, Hch; congruence|].
    destruct H as (H1 & H2 & H3 & H4 & H5). rewrite <- T2.
    split_and!; [|done..]. etransitivity; [exact H4|apply Hv].
Qed.

(** ** Pre-prepare *)
Definition stored (seq : Z) (r : Request) p : PbftConsensusNode X :=
  p <| requestPool ::= <[getDigest r := r]> |> <| height2Digest ::= <[seq := getDigest r]> |>.

Lemma broadcast_returns t content p :
  t ∈ message_types -> exists o, (broadcast_neighbors t content : Pm X ()) p = Ret (tt, p, o).
Proof.
  intros Ht. destruct (MergeMessage_ok t content (message_types_ok t Ht)) as [m Hm].
  eexists. by apply (broadcast_exact t content m).
Qed.

(** The branch in which the module is asked. *)
Lemma prePrepare_asks content pp p flag p1 o1 :
  json_dec content = Some pp -> getDigest (pp_RequestMsg pp) = pp_Digest pp ->
  pp_SeqID pp <= sequenceID p -> HandleinPrePrepare pp p = Ret (flag, p1, o1) ->
  exists o2, handlePrePrepare content p =
      Ret (tt, stored (pp_SeqID pp) (pp_RequestMsg pp) p1, o1 ++ o2) /\
    (flag = false -> o2 = []) /\
    (flag = true -> exists m,
       SplitMessage m = Ret (CPrepare, json_enc (mkPrepare (pp_Digest pp) (pp_SeqID pp) (RunningNode p))) /\
       forall e, e ∈ o2 <-> exists ip, ip ∈ getNeighborNodes p /\ ip <> nd_IPaddr (RunningNode p) /\
         e = TcpDial m ip).
Proof.
  intros Hd Heq Hle Hm. unfold handlePrePrepare. rewrite Hd.
  assert (Hhead : forall (f : PrePrepare -> Pm X ()), (lift (must (Some pp)) ≫= f) p = f pp p)
    by (intros f; by apply (lift_bind (Ret pp))).
  rewrite Hhead, get_bind. clear Hhead. rewrite bool_decide_eq_true_2 by done.
  apply Z.ltb_ge in Hle. rewrite Hle. cbn [negb].
  destruct (proj1 (il_PrePrepare pp) _ _ _ _ Hm) as (Hc & _). unfold control in Hc.
  assert (Hn : getNeighborNodes p1 = getNeighborNodes p).
  { unfold getNeighborNodes. congruence. }
  assert (Hr : RunningNode p1 = RunningNode p) by congruence.
  set (p2 := stored (pp_SeqID pp) (pp_RequestMsg pp) p1).
  destruct flag.
  - destruct (broadcast_returns CPrepare (json_enc (mkPrepare (pp_Digest pp) (pp_SeqID pp)
      (RunningNode p2))) p2) as [o2 Ho]; [apply (bool_decide_unpack _); reflexivity|].
    exists o2. split; [|split; [done|intros _]].
    + rewrite bind_bind. eapply bind_returns; [exact Hm|]. cbn beta. rewrite bind_bind.
      unfold store_request. rewrite modify_bind, ret_bind. unfold broadcast_prepare.
      by rewrite get_bind.
    + apply broadcast_spec in Ho as (_ & m & Hmm & He). exists m. split.
      * apply SplitMessage_MergeMessage; [|by rewrite <- Hr].
        apply message_types_ok, (bool_decide_unpack _). reflexivity.
      * intros e. rewrite He. unfold p2. cbn. rewrite Hr.
        change (getNeighborNodes (stored _ _ p1)) with (getNeighborNodes p1). by rewrite Hn.
  - exists []. split; [|split; done].
    rewrite bind_bind. eapply bind_returns; [exact Hm|]. cbn beta. rewrite bind_bind.
    unfold store_request. rewrite modify_bind, ret_bind. done.
Qed.

(** C16: what a node does with a proposal.  It refuses one whose
    digest is not the digest of its request; it stores one from the future and
    says nothing; otherwise it asks its module, stores it, and exactly when the
    module accepts tells every other node of the shard, in a prepare that
    carries the proposal's digest and sequence number. *)
Theorem handlePrePrepare_functional content pp p :
  json_dec content = Some pp ->
  (getDigest (pp_RequestMsg pp) <> pp_Digest pp -> handlePrePrepare content p = Ret (tt, p, [])) /\
  (getDigest (pp_RequestMsg pp) = pp_Digest pp -> sequenceID p < pp_SeqID pp ->
     handlePrePrepare content p = Ret (tt, stored (pp_SeqID pp) (pp_RequestMsg pp) p, [])) /\
  (getDigest (pp_RequestMsg pp) = pp_Digest pp -> pp_SeqID pp <= sequenceID p ->
   forall flag p1 o1, HandleinPrePrepare pp p = Ret (flag, p1, o1) ->
     exists o2, handlePrePrepare content p =
         Ret (tt, stored (pp_SeqID pp) (pp_RequestMsg pp) p1, o1 ++ o2) /\
       (flag = false -> o2 = []) /\
       (flag = true -> exists m,
          SplitMessage m = Ret (CPrepare, json_enc (mkPrepare (pp_Digest pp) (pp_SeqID pp) (RunningNode p))) /\
          forall e, e ∈ o2 <-> exists ip, ip ∈ getNeighborNodes p /\ ip <> nd_IPaddr (RunningNode p) /\
            e = TcpDial m ip)).
Proof.
  intros Hd. split_and!; [intros Hne|intros Heq Hlt|intros; by eapply prePrepare_asks];
    unfold handlePrePrepare; rewrite Hd;
    (etransitivity; [apply (lift_bind (Ret pp)); reflexivity|]); cbn beta; rewrite get_bind.
  - rewrite bool_decide_eq_false_2 by done. cbn [negb]. by rewrite ret_bind.
  - rewrite bool_decide_eq_true_2 by done. apply Z.ltb_lt in Hlt. rewrite Hlt.
    cbn [negb]. rewrite bind_bind. unfold store_request. by rewrite modify_bind, ret_bind.
Qed.

(** ** Catching up *)







(** ** What the handlers do not guard against *)
Lemma iter_voted d p k : cntCommitConfirm p !! d = None ->
  let q := Nat.iter k (voted d) p in
  count (cntCommitConfirm q) d = Z.of_nat k /\ next_ptr q = next_ptr p + Z.of_nat k /\
  (forall x, x ∈ default ∅ (cntCommitConfirm q !! d) -> x < next_ptr q) /\
  CurChain q = CurChain p /\ requestPool q = requestPool p /\ isReply q = isReply p /\ ids q = ids p.
Proof.
  intros Hn. induction k as [|k IH]; cbn [Nat.iter nat_rect].
  - cbn. rewrite Hn. split_and!; [unfold count; by rewrite Hn|lia|set_solver|done..].
  - change (nat_rect _ _ _ k) with (Nat.iter k (voted d) p). set (q := Nat.iter k (voted d) p) in *.
    destruct IH as (I1 & I2 & I3 & I4 & I5 & I6 & I7).
    cbn [voted cntCommitConfirm next_ptr set_field CurChain requestPool isReply ids].
    rewrite lookup_insert_eq. split_and!; [|lia| |done..].
    + unfold count in *. rewrite lookup_insert_eq. cbn. rewrite size_union, size_singleton; [lia|].
      intros x Hx1%elem_of_singleton Hx2%I3. lia.
    + intros x Hx. change (x ∈ {[next_ptr q]} ∪ default ∅ (cntCommitConfirm q !! d)) in Hx.
      apply elem_of_union in Hx as [->%elem_of_singleton|Hx%I3]; lia.
Qed.

(** C17: the quorum counts messages and not senders.  The sender of
    a decoded message is a fresh pointer, so [required_cnt] copies of one
    commit message, from one node, make a node that knows the request execute
    it: every copy but the last only votes, and the last executes. *)
Theorem one_sender_commits now c cm p k :
  json_dec c = Some cm -> required_cnt p = Z.of_nat (S k) ->
  cntCommitConfirm p !! c_Digest cm = None -> flag_of (isReply p) (c_Digest cm) = false ->
  is_Some (requestPool p !! c_Digest cm) ->
  exists q, (forM (repeat () k) (fun _ => handleCommit now c)) p = Ret (tt, q, []) /\
    CurChain q = CurChain p /\
    handleCommit now c q =
      (_ ← execute_commit now cm;
       if p_NodeID q =? view q then unlock_sequenceLock else mret tt) (voted (c_Digest cm) q).
Proof.
  intros Hd Hreq Hn Hf Hp.
  assert (Hpre : forall j, (j <= k)%nat ->
    (forM (repeat () j) (fun _ => handleCommit now c)) (Nat.iter (k - j) (voted (c_Digest cm)) p)
      = Ret (tt, Nat.iter k (voted (c_Digest cm)) p, [])).
  { induction j as [|j IH]; intros Hj; cbn [repeat forM]; [by rewrite Nat.sub_0_r|].
    set (q := Nat.iter (k - S j) (voted (c_Digest cm)) p).
    destruct (iter_voted (c_Digest cm) p (S (k - S j)) Hn) as (C1 & _ & _ & _ & _ & _ & C7).
    change (Nat.iter (S (k - S j)) _ p) with (voted (c_Digest cm) q) in C1, C7.
    change [] with (@nil Event ++ []). eapply bind_returns; [|apply IH; lia].
    rewrite (handleCommit_unfold now c cm) by done. cbn zeta.
    destruct (thresholds_ids _ _ C7) as [_ ->].
    rewrite (proj2 (Z.leb_gt _ _)) by (rewrite C1, Hreq; lia). cbn [andb].
    replace (k - j)%nat with (S (k - S j)) by lia. done. }
  exists (Nat.iter k (voted (c_Digest cm)) p).
  specialize (Hpre k ltac:(lia)). rewrite Nat.sub_diag in Hpre. split; [exact Hpre|].
  set (q := Nat.iter k (voted (c_Digest cm)) p).
  destruct (iter_voted (c_Digest cm) p k Hn) as (_ & _ & _ & Q4 & Q5 & Q6 & _).
  destruct (iter_voted (c_Digest cm) p (S k) Hn) as (C1 & _ & _ & _ & _ & _ & C7).
  change (Nat.iter (S k) _ p) with (voted (c_Digest cm) q) in C1, C7.
  split; [exact Q4|]. rewrite (handleCommit_unfold now c cm) by done. cbn zeta.
  destruct (thresholds_ids _ _ C7) as [_ ->].
  rewrite (proj2 (Z.leb_le _ _)) by (rewrite C1, Hreq; lia).
  change (isReply (voted (c_Digest cm) q)) with (isReply q). fold q in Q5, Q6. rewrite Q6, Hf.
  change (requestPool (voted (c_Digest cm) q)) with (requestPool q). rewrite Q5.
  destruct Hp as [r ->]. done.
Qed.

(** Two ways a handler waits for ever while it holds
    [tcpPoolLock], so that no later message is handled.  The stop message
    reaches a leader whose [Propose] goroutine waits for [sequenceLock], which
    only a commit would release; and a node that already waits for old
    messages sees a second quorum for a request it does not know. *)
Lemma handlers_block now p :
  (forall msg c, SplitMessage msg = Ret (CStop, c) -> stop p = false ->
     p_NodeID p = view p -> propose_pc p = AtLock -> sequenceLock p = true ->
     step (Receive now msg) p = Blocked) /\
  (forall c cm, json_dec c = Some cm -> askForLock p = true ->
     required_cnt p <= count (cntCommitConfirm (voted (c_Digest cm) p)) (c_Digest cm) ->
     flag_of (isReply p) (c_Digest cm) = false -> requestPool p !! c_Digest cm = None ->
     handleCommit now c p = Blocked).
Proof.
  split.
  - intros msg c Hs Hst Hv Hpc Hl. cbn [step]. rewrite get_bind, Hst. unfold handleMessage. rewrite Hs.
    etransitivity; [apply (lift_bind (Ret (CStop, c))); reflexivity|]. cbn beta iota.
    repeat (rewrite bool_decide_eq_false_2 by done). rewrite bool_decide_eq_true_2 by done.
    unfold WaitToStop. rewrite modify_bind, get_bind. cbn [p_NodeID view set_field].
    rewrite Hv, Z.eqb_refl. unfold send_pStop. rewrite get_bind. cbn [propose_pc sequenceLock set_field].
    by rewrite Hpc, Hl.
  - intros c cm Hd Hl Hle Hf Hp. rewrite (handleCommit_unfold now c cm) by done. cbn zeta.
    change (required_cnt (voted _ p)) with (required_cnt p). rewrite (proj2 (Z.leb_le _ _) Hle).
    change (isReply (voted _ p)) with (isReply p). rewrite Hf.
    change (requestPool (voted _ p)) with (requestPool p). rewrite Hp. cbn [andb negb].
    unfold request_old, lock_askForLock. rewrite bind_bind, modify_bind, !bind_bind, get_bind.
    cbn [askForLock voted set_field]. by rewrite Hl.
Qed.
End props.

(** *** A concrete shard of four nodes, with modules that do nothing *)
Module RefNode.
Export RefChain.
#[export] Existing Instance RefJson.codecs.
#[export] Existing Instance RefJson.laws.

#[export] Instance nop : InsideMod () := {|
  HandleinPropose now := mret (Some (true, mkRequest BlockRequest "content" now));
  HandleinPrePrepare _ := mret true;
  HandleinPrepare _ := mret true;
  HandleinCommit _ _ := mret true;
  HandleReqestforOldSeq _ := mret true;
  HandleforSequentialRequest _ := mret true |}.
#[export] Instance nop_out : OutsideMod () := {| HandleMessageOutsidePBFT _ _ _ := mret true |}.
#[export] Instance nop_laws : InsideLaws nop.
Proof. split; cbn; intros; [split..|]; apply obeys_ret; apply _. Qed.
#[export] Instance nop_out_laws : OutsideLaws nop_out.
Proof. split; cbn; intros; split; apply obeys_ret; apply _. Qed.

Definition ips : gmap Z (gmap Z string) := {[ 0 := {[ 0 := "n0"; 1 := "n1"; 2 := "n2"; 3 := "n3" ]} ]}.
Definition peer (n : Z) : Node := mkNode n 0 (default "" (ips !! 0 ≫= (.!! n))).
Definition req : Request := mkRequest BlockRequest "content" 1.

(** Node [n], which holds the request [req] at height 1. *)
Definition member (n : Z) : PbftConsensusNode () :=
  mkPbft (peer n) 0 n (RefChain.fallback n) (RefChain.node n) ips 4 1 0 1 false
    {[ getDigest req := req ]} ∅ ∅ ∅ ∅ {[ 1 := getDigest req ]} false false ∅ AtSelect 0 tt.

Definition wire (t : MessageType) (content : bytes) : bytes :=
  match MergeMessage t content with Ret m => m | _ => "" end.
Definition prepare (n : Z) : bytes := wire CPrepare (json_enc (mkPrepare (getDigest req) 1 (peer n))).
Definition commit (n : Z) : Commit := mkCommit (getDigest req) 1 (peer n).
Definition commit_msg (n : Z) : bytes := wire CCommit (json_enc (commit n)).

(** Node 1 hears prepares of nodes 2 and 3, then commits of both. *)
Definition inputs : list Input :=
  [Receive 1 (prepare 2); Receive 2 (prepare 3); Receive 3 (commit_msg 2)].

(** The run of a list of inputs, when every step returns. *)
Fixpoint trace (ins : list Input) (p : PbftConsensusNode ()) :
    option (list (Input * list Event) * PbftConsensusNode ()) :=
  match ins with
  | [] => Some ([], p)
  | i :: ins =>
      match step i p with
      | Ret (_, p1, evs) =>
          match trace ins p1 with
          | Some (tr, p2) => Some ((i, evs) :: tr, p2)
          | None => None
          end
      | _ => None
      end
  end.

Lemma trace_run ins : forall p0 tr0 p tr p2,
  run p0 tr0 p -> trace ins p = Some (tr, p2) -> run p0 (tr0 ++ tr) p2.
Proof.
  induction ins as [|i ins IH]; intros p0 tr0 p tr p2 Hr Ht; cbn [trace] in Ht.
  - injection Ht as <- <-. by rewrite app_nil_r.
  - destruct (step i p) as [[[[] p1] evs]| |] eqn:Hs; [|done..].
    destruct (trace ins p1) as [[tr1 p3]|] eqn:Ht1; [|done]. injection Ht as <- <-.
    change ((i, evs) :: tr1) with ([(i, evs)] ++ tr1). rewrite app_assoc.
    eapply IH; [|exact Ht1]. by eapply run_step.
Qed.

(** The output of a step of a trace contains an event. *)
Definition emits (tr : list (Input * list Event)) (k : nat) (e : Event) : bool :=
  match tr !! k with Some ie => bool_decide (e ∈ ie.2) | None => false end.

Lemma emits_spec tr k e : emits tr k e = true -> exists ie, tr !! k = Some ie /\ e ∈ ie.2.
Proof.
  unfold emits. destruct (tr !! k) as [ie|]; [|done]. intros H%bool_decide_eq_true. by exists ie.
Qed.

Definition returns {A} (o : option A) : bool := match o with Some _ => true | None => false end.

Definition end_of (n : nat) : PbftConsensusNode () :=
  match trace (take n inputs) (member 1) with Some (_, p) => p | None => member 1 end.
Definition trace_of (n : nat) : list (Input * list Event) :=
  match trace (take n inputs) (member 1) with Some (tr, _) => tr | None => [] end.

Lemma run_of n : returns (trace (take n inputs) (member 1)) = true ->
  run (member 1) (trace_of n) (end_of n).
Proof.
  unfold trace_of, end_of. destruct (trace _ _) as [[tr p]|] eqn:H; [intros _|done].
  change tr with ([] ++ tr). eapply trace_run; [constructor|exact H].
Qed.
End RefNode.
Import RefNode.

Lemma commit_broadcast_once_witness :
  exists e, (exists ie, trace_of 3 !! 0%nat = Some ie /\ e ∈ ie.2) /\ commits (getDigest req) e /\
    forall j ej e2, trace_of 3 !! j = Some ej -> e2 ∈ ej.2 -> commits (getDigest req) e2 -> 0%nat = j.
Proof.
  assert (Hr : run (member 1) (trace_of 3) (end_of 3)).
  { apply run_of. vm_compute. reflexivity. }
  assert (H0 : exists ie, trace_of 3 !! 0%nat = Some ie /\ TcpDial (commit_msg 1) "n0" ∈ ie.2).
  { apply emits_spec. vm_compute. reflexivity. }
  assert (Hc : commits (getDigest req) (TcpDial (commit_msg 1) "n0")).
  { exists (commit_msg 1), "n0"%string, (commit 1). split; [reflexivity|]. split; [|reflexivity].
    vm_compute. reflexivity. }
  exists (TcpDial (commit_msg 1) "n0"). split; [exact H0|]. split; [exact Hc|].
  intros j ej e2 Hj He2 Hc2. destruct H0 as (ie & Hie & Hin).
  exact (commit_broadcast_once (member 1) (trace_of 3) (end_of 3) (getDigest req) 0 j ie ej _ e2
    Hr Hie Hj Hin Hc He2 Hc2).
Defined.

Lemma commit_executed_once_witness :
  let p := member 1 <| isReply := {[ getDigest req := true ]} |> in
  exists p', handleCommit 5 (json_enc (commit 2)) p = Ret (tt, p', []) /\ sequenceID p' = 1.
Proof.
  intros p.
  destruct (commit_executed_once p [] p 5 (json_enc (commit 2)) (commit 2)) as (p' & H1 & _ & H2 & _).
  - constructor.
  - apply json_dec_enc.
  - reflexivity.
  - exists p'. split; [exact H1|exact H2].
Defined.

Lemma quorum_required_witness :
  let last := Receive 4 (commit_msg 3) in
  exists p2 evs, step last (end_of 3) = Ret (tt, p2, evs) /\ sequenceID p2 = 2 /\
    2 <= votes CCommit (getDigest req) (trace_of 3 ++ [(last, evs)]).
Proof.
  intros last.
  assert (Hr : run (member 1) (trace_of 3) (end_of 3)).
  { apply run_of. vm_compute. reflexivity. }
  destruct (step last (end_of 3)) as [[[[] p2] evs]| |] eqn:Hs.
  - assert (H2 : sequenceID p2 = 2).
    { assert (H : match step last (end_of 3) with Ret (_, q, _) => sequenceID q | _ => 0 end = 2)
        by (vm_compute; reflexivity). rewrite Hs in H. exact H. }
    assert (H1 : sequenceID (end_of 3) = 1) by (vm_compute; reflexivity).
    exists p2, evs. split; [reflexivity|]. split; [exact H2|].
    destruct (quorum_required (member 1) (trace_of 3) (end_of 3) last p2 evs) as [_ Hq].
    + reflexivity.
    + reflexivity.
    + exact Hr.
    + exact Hs.
    + refine (proj1 (Hq 4 (commit_msg 3) (json_enc (commit 3)) (commit 3) eq_refl _ (json_dec_enc _) _)).
      * vm_compute. reflexivity.
      * right. rewrite H1, H2. discriminate.
  - exfalso. assert (H : match step last (end_of 3) with Ret _ => true | _ => false end = true)
      by (vm_compute; reflexivity). rewrite Hs in H. discriminate H.
  - exfalso. assert (H : match step last (end_of 3) with Ret _ => true | _ => false end = true)
      by (vm_compute; reflexivity). rewrite Hs in H. discriminate H.
Defined.

Lemma handlePrePrepare_functional_witness :
  let pp := mkPrePrepare req (getDigest req) 1 in
  let late := mkPrePrepare req (getDigest req) 7 in
  (exists o, handlePrePrepare (json_enc pp) (member 1) = Ret (tt, stored 1 req (member 1), o)) /\
  handlePrePrepare (json_enc late) (member 1) = Ret (tt, stored 7 req (member 1), []).
Proof.
  intros pp late. split.
  - destruct (handlePrePrepare_functional (json_enc pp) pp (member 1) (json_dec_enc pp)) as (_ & _ & H).
    destruct (H eq_refl ltac:(vm_compute; discriminate) true (member 1) [] eq_refl) as (o & Ho & _).
    exists o. exact Ho.
  - apply (handlePrePrepare_functional (json_enc late) late (member 1) (json_dec_enc late)).
    + reflexivity.
    + reflexivity.
Defined.


Lemma one_sender_commits_witness :
  exists q, (forM (repeat () 1) (fun _ => handleCommit 3 (json_enc (commit 2)))) (member 1) = Ret (tt, q, []) /\
    handleCommit 3 (json_enc (commit 2)) q =
      (_ ← execute_commit 3 (commit 2);
       if p_NodeID q =? view q then unlock_sequenceLock else mret tt) (voted (getDigest req) q).
Proof.
  destruct (one_sender_commits 3 (json_enc (commit 2)) (commit 2) (member 1) 1) as (q & H1 & _ & H2).
  - apply json_dec_enc.
  - reflexivity.
  - reflexivity.
  - reflexivity.
  - eexists. reflexivity.
  - exists q. split; [exact H1|exact H2].
Defined.

Lemma handlers_block_witness :
  let leader := member 0 <| propose_pc := AtLock |> <| sequenceLock := true |> in
  step (Receive 1 (wire CStop "")) leader = Blocked.
Proof.
  intros leader. apply (proj1 (handlers_block 1 leader) (wire CStop "") "").
  - vm_compute. reflexivity.
  - reflexivity.
  - reflexivity.
  - reflexivity.
  - reflexivity.
Defined.
