(* ===== verification/RelayMod.v ===== *)
(** * RelayMod: pbft_all/pbftInside_module.go and pbftOutside_module.go

    The modules of the relay mechanism: a block per proposal; after a block is
    committed the leader relays the transactions whose recipient lives in
    another shard. *)
From stdpp Require Import base gmap strings list countable.
From Stdlib Require Import ZArith Lia.
From S2P Require Import Prelude GoStd Libs Core Pools Messages StorageDB Chain Pbft.

Section relay.
Context (P : Params).
Context {TL : TrieLib} {BL : BoltLib} {HL : Sha256} {CC : CoreCodecs} {MC : MsgCodecs}.
Context {X : Type}.
Implicit Types (p : PbftConsensusNode X).

(** ** RawRelayPbftExtraHandleMod *)
Definition Relay_HandleinPropose (now : Z) : Pm X (option (bool * Request)) :=
  p ← get;
  '(block, bc) ← lift (GenerateBlock P now (CurChain p));
  _ ← modify (fun p => p <| CurChain := bc |>);
  mret (Some (true, mkRequest BlockRequest (enc block) now)).

Definition Relay_HandleinPrePrepare (ppmsg : PrePrepare) : Pm X bool :=
  p ← get;
  b ← lift (must (dec (req_Msg (pp_RequestMsg ppmsg))));
  match IsValidBlock b (CurChain p) with
  | Some _ => mret false
  | None =>
      _ ← modify (fun p => p <| requestPool ::= <[pp_Digest ppmsg := pp_RequestMsg ppmsg]> |>);
      mret true
  end.

Definition Relay_HandleinPrepare (pmsg : Prepare) : Pm X bool := mret true.

(** What the loop over the block's body builds: [txExcuted], [relay1Txs], the
    pool, and the body itself, whose transactions it marks through their pointers. *)
Record RelayLoop := mkRelayLoop {
  rl_excuted : list Transaction;
  rl_relay1 : list Transaction;
  rl_body : list Transaction;
  rl_pool : Pool Transaction }.

Definition relay_tx (bc : BlockChain) (shard : Z) (s : RelayLoop) (tx : Transaction) : res RelayLoop :=
  rsid ← Get_PartitionMap P (tx_Recipient tx) bc;
  if negb (rsid =? shard) then
    let ntx := tx <| tx_Relayed := true |> in
    pool ← TxPool_AddRelayTx ntx rsid (rl_pool s);
    Ret (mkRelayLoop (rl_excuted s) (rl_relay1 s ++ [ntx]) (rl_body s ++ [ntx]) pool)
  else Ret (mkRelayLoop (rl_excuted s ++ [tx]) (rl_relay1 s) (rl_body s ++ [tx]) (rl_pool s)).

(** [Txpool.RelayPool = make(...)] and the loop *)
Definition relay_txs (bc : BlockChain) (shard : Z) (body : list Transaction) : res RelayLoop :=
  foldM (relay_tx bc shard) (mkRelayLoop [] [] [] (bc_Txpool bc <| RelayPool := Some ∅ |>)) body.

(** One shard of the sending loop. *)
Definition send_relay (p : PbftConsensusNode X) (pool : Pool Transaction) (sid : Z) : Pm X () :=
  let txs := default [] (relay_lookup pool sid) in
  if (sid =? p_ShardID p) || (length txs =? 0)%nat then mret tt
  else dial CRelay (json_enc (Messages.mkRelay txs (p_ShardID p) (sequenceID p))) (node_ip p sid 0).

(** [sid] for [0 <= sid < ShardNums] *)
Definition shard_ids (n : Z) : list Z := seqZ 0 n.

Definition relay_and_report (now : Z) (block : Block) (accepted : bool) (ReqTime : Z) : Pm X () :=
  p ← get;
  s ← lift (relay_txs (CurChain p) (p_ShardID p) (b_Body block));
  _ ← forM (shard_ids (ShardNums (pbftChainConfig p))) (send_relay p (rl_pool s));
  _ ← modify (fun p => p <| CurChain ::= fun bc =>
         bc <| bc_Txpool := TxPool_ClearRelayPool (rl_pool s) |>
            <| bc_CurrentBlock ::= fun b => if accepted then b <| b_Body := rl_body s |> else b |> |>);
  let bim := mkBlockInfoMsg (Z.of_nat (length (b_Body block))) (rl_excuted s) 0 ReqTime now
               (p_ShardID p) (Z.of_nat (length (rl_relay1 s))) (rl_relay1 s) 0 [] 0 [] in
  _ ← dial CBlockInfo (json_enc bim) (node_ip p DeciderShard 0);
  emit (CSVline [Z.of_nat (length (TxQueue (rl_pool s))); Z.of_nat (length (rl_excuted s));
                 Z.of_nat (length (rl_relay1 s))]).

(** [AddBlock] adopts the block it is given when its height is the next one. *)
Definition next_height (b : Block) (bc : BlockChain) : bool :=
  bh_Number (b_Header b) =? u64 (bh_Number (b_Header (bc_CurrentBlock bc)) + 1).

Definition Relay_HandleinCommit (now : Z) (cmsg : Commit) : Pm X bool :=
  p ← get;
  r ← lift (must (requestPool p !! c_Digest cmsg));
  block ← lift (must (dec (req_Msg r)));
  bc ← lift (AddBlock P block (CurChain p));
  _ ← modify (fun p => p <| CurChain := bc |>);
  _ ← (if p_NodeID p =? view p then
         relay_and_report now block (next_height block (CurChain p)) (req_ReqTime r)
       else mret tt);
  mret true.

Definition Relay_HandleReqestforOldSeq (rom : RequestOldMessage) : Pm X bool := mret true.

(** The loop over the heights; the index panics out of range, so it ends
    after at most [len(OldRequest)] rounds. *)
Fixpoint add_old_blocks (fuel : nat) (rs : list Request) (start last height : Z) (bc : BlockChain) :
    res BlockChain :=
  match fuel with
  | O => Ret bc
  | S fuel =>
      if last <? height then Ret bc
      else
        r ← must (rs !! Z.to_nat (u64 (height - start)));
        bc ← (if bool_decide (req_RequestType r = BlockRequest) then
                b ← must (dec (req_Msg r));
                AddBlock P b bc
              else Ret bc);
        add_old_blocks fuel rs start last (u64 (height + 1)) bc
  end.

Definition Relay_HandleforSequentialRequest (som : SendOldMessage) : Pm X bool :=
  let n := i64 (u64 (so_SeqEndHeight som - so_SeqStartHeight som + 1)) in
  if negb (n =? Z.of_nat (length (so_OldRequest som))) then mret true
  else
    p ← get;
    bc ← lift (add_old_blocks (S (length (so_OldRequest som))) (so_OldRequest som)
           (so_SeqStartHeight som) (so_SeqEndHeight som) (so_SeqStartHeight som) (CurChain p));
    _ ← modify (fun p => p <| CurChain := bc |>
                            <| sequenceID := u64 (so_SeqEndHeight som + 1) |>);
    mret true.

#[global] Instance RawRelayPbftExtraHandleMod : InsideMod X := {|
  HandleinPropose := Relay_HandleinPropose;
  HandleinPrePrepare := Relay_HandleinPrePrepare;
  HandleinPrepare := Relay_HandleinPrepare;
  HandleinCommit := Relay_HandleinCommit;
  HandleReqestforOldSeq := Relay_HandleReqestforOldSeq;
  HandleforSequentialRequest := Relay_HandleforSequentialRequest |}.

(** ** RawRelayOutsideModule *)
Definition handleRelay (now : Z) (content : bytes) : Pm X () :=
  relay ← lift (must (json_dec content : option Messages.Relay));
  modify (fun p => p
    <| CurChain ::= fun bc => bc <| bc_Txpool ::= TxPool_AddTxs2Pool now (rl_Txs relay) |> |>
    <| seqIDMap ::= <[rl_SenderShardID relay := rl_SenderSeq relay]> |>).

Definition handleInjectTx (now : Z) (content : bytes) : Pm X () :=
  it ← lift (must (json_dec content));
  modify (fun p => p
    <| CurChain ::= fun bc => bc <| bc_Txpool ::= TxPool_AddTxs2Pool now (it_Txs it) |> |>).

Definition Relay_HandleMessageOutsidePBFT (now : Z) (msgType : MessageType) (content : bytes) : Pm X bool :=
  _ ← (if bool_decide (msgType = CRelay) then handleRelay now content
       else if bool_decide (msgType = CInject) then handleInjectTx now content
       else mret tt);
  mret true.

#[global] Instance RawRelayOutsideModule : OutsideMod X := {|
  HandleMessageOutsidePBFT := Relay_HandleMessageOutsidePBFT |}.
End relay.
