(* ===== verification/RelayProps.v ===== *)
(** * RelayProps: the relay modules keep to the interface, a round of
    consensus keeps replicas equal, and what is relayed *)
From stdpp Require Import base gmap strings list countable.
From Stdlib Require Import ZArith Lia.
From S2P Require Import Prelude GoStd Libs Core Pools Messages StorageDB Chain Ledger Execution Pbft PbftProps RelayMod.

Section laws.
Context (P : Params).
Context {TL : TrieLib} {BL : BoltLib} {HL : Sha256} {CC : CoreCodecs} {MC : MsgCodecs}.
Context {X : Type}.
Implicit Types (p : PbftConsensusNode X).

(** A message of one of the module's own types is not a consensus message. *)
Definition module_type (t : MessageType) : Prop :=
  t ∈ message_types /\ t ∉ [CPrePrepare; CPrepare; CCommit].

Lemma dial_quiet t content addr : module_type t -> obeys mod_rel (dial t content addr : Pm X ()).
Proof.
  intros [Ht Hn] p a p' o [-> (m & Hm & ->)]%dial_spec. split; [done|]. split; [done|].
  constructor; [|constructor]. intros t' content' Ht' Hm'. apply Hn.
  assert (t' ∈ message_types).
  { repeat (apply elem_of_cons in Ht' as [->|Ht']; [apply (bool_decide_unpack _); reflexivity|]).
    by apply not_elem_of_nil in Ht'. }
  apply message_types_ok in Ht, H. eapply SplitMessage_MergeMessage in Hm; [|done].
  eapply SplitMessage_MergeMessage in Hm'; [|done]. congruence.
Qed.

Lemma mod_modify (f : PbftConsensusNode X -> PbftConsensusNode X) :
  (forall p, control (f p) = control p) ->
  (forall p d, is_Some (requestPool p !! d) -> is_Some (requestPool (f p) !! d)) ->
  obeys mod_rel (modify f).
Proof. intros H1 H2. apply obeys_modify. intros p. split; [done|]. split; [auto|constructor]. Qed.

Lemma seq_dial t content addr : obeys seq_rel (dial t content addr : Pm X ()).
Proof. by intros p a p' o [-> _]%dial_spec. Qed.

Lemma mod_emit_csv l : obeys mod_rel (emit (CSVline l) : Pm X ()).
Proof. apply obeys_emit. intros p. split; [done|]. split; [done|]. by constructor. Qed.

Lemma insert_keeps_request (m : gmap bytes Request) d r d' :
  is_Some (m !! d') -> is_Some (<[d := r]> m !! d').
Proof. intros H. apply lookup_insert_is_Some. destruct (decide (d = d')); auto. Qed.
End laws.

(** Walks through a module's handler. *)
Ltac mod_step :=
  first
    [ apply obeys_ret; apply _ | apply obeys_get; apply _ | apply obeys_lift; apply _
    | apply obeys_panic | apply obeys_block
    | apply mod_modify; [done|intros; cbn; first [assumption|by apply insert_keeps_request]]
    | apply dial_quiet; split; apply (bool_decide_unpack _); reflexivity
    | apply seq_dial
    | apply mod_emit_csv
    | apply obeys_modify; done
    | apply obeys_emit; done
    | apply obeys_forM; [apply _|intros ? ?]
    | apply obeys_bind; [apply _| |intros ?]
    | case_match ].
Ltac mod_ok := repeat mod_step.

Section instances.
Context (P : Params).
Context {TL : TrieLib} {BL : BoltLib} {HL : Sha256} {CC : CoreCodecs} {MC : MsgCodecs}.
Context {X : Type}.

#[global] Instance RawRelay_inside_laws : InsideLaws (RawRelayPbftExtraHandleMod P (X := X)).
Proof.
  split; cbn; intros; [split..|];
    unfold Relay_HandleinPropose, Relay_HandleinPrePrepare, Relay_HandleinPrepare,
      Relay_HandleinCommit, relay_and_report, send_relay, Relay_HandleReqestforOldSeq,
      Relay_HandleforSequentialRequest; mod_ok.
Qed.

#[global] Instance RawRelay_outside_laws : OutsideLaws (RawRelayOutsideModule (X := X)).
Proof.
  split; cbn; intros. split; unfold Relay_HandleMessageOutsidePBFT, handleRelay, handleInjectTx; mod_ok.
Qed.
End instances.

(** ** What is relayed *)
Section relaying.
Context (P : Params).
Context {TL : TrieLib} {BL : BoltLib} {HL : Sha256} {CC : CoreCodecs} {MC : MsgCodecs}.
Context {X : Type}.
Implicit Types (p : PbftConsensusNode X).

(** The shard a transaction's recipient lives in. *)
Definition dest (bc : BlockChain) (tx : Transaction) : Z :=
  match Get_PartitionMap P (tx_Recipient tx) bc with Ret r => r | _ => 0 end.

Definition mark (tx : Transaction) : Transaction := tx <| tx_Relayed := true |>.

(** The transactions of a body that go to the shard [sid]. *)
Definition crossing (bc : BlockChain) (shard sid : Z) (body : list Transaction) : list Transaction :=
  mark <$> filter (fun tx => dest bc tx <> shard /\ dest bc tx = sid) body.

Definition has_dest (bc : BlockChain) (tx : Transaction) : Prop :=
  is_Ret (Get_PartitionMap P (tx_Recipient tx) bc).

Lemma filter_one {A} (Q : A -> Prop) `{!forall x, Decision (Q x)} x :
  filter Q [x] = if decide (Q x) then [x] else [].
Proof. rewrite filter_cons, filter_nil. done. Qed.

Lemma relay_tx_spec bc shard s tx :
  has_dest bc tx -> is_Some (RelayPool (rl_pool s)) ->
  exists s', relay_tx P bc shard s tx = Ret s' /\ is_Some (RelayPool (rl_pool s')) /\
    TxQueue (rl_pool s') = TxQueue (rl_pool s) /\
    rl_excuted s' = rl_excuted s ++ filter (fun tx => dest bc tx = shard) [tx] /\
    rl_relay1 s' = rl_relay1 s ++ (mark <$> filter (fun tx => dest bc tx <> shard) [tx]) /\
    rl_body s' = rl_body s ++ ((fun tx => if decide (dest bc tx = shard) then tx else mark tx) <$> [tx]) /\
    forall sid, default [] (relay_lookup (rl_pool s') sid) =
      default [] (relay_lookup (rl_pool s) sid) ++ crossing bc shard sid [tx].
Proof.
  intros [r Hr] Hpool. unfold relay_tx, crossing. rewrite Hr. cbn [mbind res_bind].
  assert (Hd : dest bc tx = r) by (unfold dest; by rewrite Hr).
  rewrite !filter_one, Hd. cbn [fmap list_fmap].
  destruct (Z.eqb_spec r shard) as [->|Hne]; cbn [negb].
  - eexists. split; [done|]. cbn [rl_pool rl_excuted rl_relay1 rl_body].
    rewrite !decide_True, decide_False by tauto. rewrite Hd, decide_True by done.
    cbn [fmap list_fmap]. rewrite app_nil_r. repeat (split; [done|]). intros sid.
    rewrite filter_one, Hd, decide_False by tauto. by rewrite app_nil_r.
  - destruct (pool_AddRelayTx (tx <| tx_Relayed := true |>) r (rl_pool s)) as [pl| |] eqn:Ep;
      [|unfold pool_AddRelayTx in Ep; destruct Hpool as [m Hm]; by rewrite Hm in Ep..].
    unfold TxPool_AddRelayTx. rewrite Ep. cbn [mbind res_bind].
    eexists. split; [done|]. cbn [rl_pool rl_excuted rl_relay1 rl_body].
    split; [by eapply pool_AddRelayTx_open|]. split; [by eapply pool_AddRelayTx_TxQueue|].
    rewrite decide_False, decide_True by done. rewrite Hd, decide_False by done.
    cbn [fmap list_fmap]. rewrite app_nil_r. repeat (split; [done|]). intros sid.
    rewrite (pool_AddRelayTx_lookup _ _ _ _ _ Ep), filter_one, Hd. f_equal.
    destruct (decide (r = sid)); [by rewrite decide_True by tauto|by rewrite decide_False by tauto].
Qed.

Lemma relay_txs_loop bc shard body : forall s,
  Forall (has_dest bc) body -> is_Some (RelayPool (rl_pool s)) ->
  exists s', foldM (relay_tx P bc shard) s body = Ret s' /\ is_Some (RelayPool (rl_pool s')) /\
    TxQueue (rl_pool s') = TxQueue (rl_pool s) /\
    rl_excuted s' = rl_excuted s ++ filter (fun tx => dest bc tx = shard) body /\
    rl_relay1 s' = rl_relay1 s ++ (mark <$> filter (fun tx => dest bc tx <> shard) body) /\
    rl_body s' = rl_body s ++ ((fun tx => if decide (dest bc tx = shard) then tx else mark tx) <$> body) /\
    forall sid, default [] (relay_lookup (rl_pool s') sid) =
      default [] (relay_lookup (rl_pool s) sid) ++ crossing bc shard sid body.
Proof.
  induction body as [|tx body IH]; intros s Hall Hpool.
  - exists s. cbn. rewrite !app_nil_r. repeat (split; [done|]). intros sid. by rewrite app_nil_r.
  - apply list.Forall_cons in Hall as [Htx Hall]. cbn [foldM].
    destruct (relay_tx_spec bc shard s tx Htx Hpool) as (s1 & -> & P1 & Q1 & E1 & R1 & B1 & L1).
    cbn [mbind res_bind]. destruct (IH s1 Hall P1) as (s' & -> & P2 & Q2 & E2 & R2 & B2 & L2).
    exists s'. split; [done|]. split; [done|]. split; [congruence|].
    rewrite E2, E1, R2, R1, B2, B1, <- !app_assoc. unfold crossing in *.
    change (tx :: body) with ([tx] ++ body). rewrite !list.filter_app, !fmap_app.
    repeat (split; [done|]). intros sid. rewrite L2, L1, <- app_assoc.
    by rewrite list.filter_app, fmap_app.
Qed.

(** What the sending loop writes. *)
Definition relay_event (p : PbftConsensusNode X) (body : list Transaction) (sid : Z) : list Event :=
  if decide (sid = p_ShardID p \/ crossing (CurChain p) (p_ShardID p) sid body = []) then []
  else match MergeMessage CRelay (json_enc (Messages.mkRelay
               (crossing (CurChain p) (p_ShardID p) sid body) (p_ShardID p) (sequenceID p))) with
       | Ret m => [TcpDial m (node_ip p sid 0)]
       | _ => []
       end.

Lemma dial_returns t content addr p :
  t ∈ message_types -> exists m, MergeMessage t content = Ret m /\
    (dial t content addr : Pm X ()) p = Ret (tt, p, [TcpDial m addr]).
Proof.
  intros Ht. destruct (MergeMessage_ok t content (message_types_ok t Ht)) as [m Hm].
  exists m. split; [done|]. unfold dial. rewrite Hm.
  etransitivity; [apply (lift_bind (Ret m)); reflexivity|]. done.
Qed.

Lemma send_loop p pool body sids :
  (forall sid, default [] (relay_lookup pool sid) = crossing (CurChain p) (p_ShardID p) sid body) ->
  (forM sids (send_relay p pool) : Pm X ()) p = Ret (tt, p, sids ≫= relay_event p body).
Proof.
  intros Hl. induction sids as [|sid sids IH]; [done|]. cbn [forM].
  rewrite bind_cons. eapply bind_returns; [|exact IH]. unfold send_relay, relay_event. rewrite Hl.
  destruct (Z.eqb_spec sid (p_ShardID p)) as [->|Hne]; [by rewrite decide_True by (by left)|].
  cbn [orb]. destruct (crossing _ _ sid body) as [|tx txs] eqn:Ec; [by rewrite decide_True by (by right)|].
  rewrite decide_False by (intros [?|?]; done). cbn [length Nat.eqb].
  edestruct (dial_returns CRelay) as (m & Hm & Hd); [|rewrite Hm; exact Hd].
  apply (bool_decide_unpack _). reflexivity.
Qed.

(** The leader's report after a committed block. *)
Lemma relay_and_report_spec now block acc rt p :
  Forall (has_dest (CurChain p)) (b_Body block) ->
  exists pool body m,
    relay_and_report P now block acc rt p = Ret (tt,
      p <| CurChain ::= fun bc => bc <| bc_Txpool := pool |>
           <| bc_CurrentBlock ::= fun b => if acc then b <| b_Body := body |> else b |> |>,
      (seqZ 0 (ShardNums (pbftChainConfig p)) ≫= relay_event p (b_Body block)) ++
      [TcpDial m (node_ip p DeciderShard 0);
       CSVline [Z.of_nat (length (TxQueue (bc_Txpool (CurChain p))));
                Z.of_nat (length (filter (fun tx => dest (CurChain p) tx = p_ShardID p) (b_Body block)));
                Z.of_nat (length (filter (fun tx => dest (CurChain p) tx <> p_ShardID p) (b_Body block)))]]) /\
    (exists c, MergeMessage CBlockInfo c = Ret m) /\
    TxQueue pool = TxQueue (bc_Txpool (CurChain p)) /\
    body = (fun tx => if decide (dest (CurChain p) tx = p_ShardID p) then tx else mark tx) <$> b_Body block.
Proof.
  intros Hall. unfold relay_and_report. rewrite get_bind.
  destruct (relay_txs_loop (CurChain p) (p_ShardID p) (b_Body block)
    (mkRelayLoop [] [] [] (bc_Txpool (CurChain p) <| RelayPool := Some ∅ |>))) as
    (s & Hs & _ & Q & E & R & B & L); [done|by eexists|].
  cbn in Q, E, R, B. unfold relay_txs. rewrite Hs.
  assert (Hhead : forall (f : RelayLoop -> Pm X ()), (lift (Ret s) ≫= f) p = f s p)
    by (intros f; by apply (lift_bind (Ret s))).
  rewrite Hhead. clear Hhead.
  edestruct (dial_returns CBlockInfo) as (m & Hm & Hd); [apply (bool_decide_unpack _); reflexivity|].
  exists (TxPool_ClearRelayPool (rl_pool s)), (rl_body s), m. split; [|split; [by eexists|by cbn; rewrite Q]].
  eapply bind_returns; [apply (send_loop _ _ (b_Body block)); intros sid; by rewrite L|].
  cbn beta. rewrite modify_bind.
  change [TcpDial m (node_ip p DeciderShard 0); CSVline ?l] with
    ([TcpDial m (node_ip p DeciderShard 0)] ++ [CSVline l]).
  eapply bind_returns; [exact Hd|]. cbn. by rewrite Q, E, R, length_fmap.
Qed.

Lemma relay_event_spec p body sid :
  (sid <> p_ShardID p -> crossing (CurChain p) (p_ShardID p) sid body <> [] ->
   exists m, relay_event p body sid = [TcpDial m (node_ip p sid 0)] /\
     SplitMessage m = Ret (CRelay, json_enc (Messages.mkRelay
       (crossing (CurChain p) (p_ShardID p) sid body) (p_ShardID p) (sequenceID p)))) /\
  (sid = p_ShardID p \/ crossing (CurChain p) (p_ShardID p) sid body = [] -> relay_event p body sid = []).
Proof.
  unfold relay_event. split.
  - intros H1 H2. rewrite decide_False by tauto.
    assert (Ht : type_ok CRelay) by (apply message_types_ok, (bool_decide_unpack _); reflexivity).
    destruct (MergeMessage_ok CRelay (json_enc (Messages.mkRelay
      (crossing (CurChain p) (p_ShardID p) sid body) (p_ShardID p) (sequenceID p))) Ht) as [m Hm].
    rewrite Hm. exists m. split; [done|]. by eapply SplitMessage_MergeMessage.
  - intros H. by rewrite decide_True.
Qed.

(** The leader's commit: the block is added, then relayed and reported. *)
Lemma HandleinCommit_leader now cm p r block bc :
  p_NodeID p = view p -> requestPool p !! c_Digest cm = Some r ->
  dec (req_Msg r) = Some block -> AddBlock P block (CurChain p) = Ret bc ->
  Forall (has_dest bc) (b_Body block) ->
  exists p' rep, Relay_HandleinCommit P now cm p =
      Ret (true, p', (seqZ 0 (ShardNums (pbftChainConfig p)) ≫=
        relay_event (p <| CurChain := bc |>) (b_Body block)) ++ rep) /\
    (exists m c a l, rep = [TcpDial m a; CSVline l] /\ MergeMessage CBlockInfo c = Ret m) /\
    exists pool body, p' = p <| CurChain := (bc <| bc_Txpool := pool |>
      <| bc_CurrentBlock ::= fun b => if next_height block (CurChain p) then b <| b_Body := body |> else b |>) |> /\
      TxQueue pool = TxQueue (bc_Txpool bc).
Proof.
  intros Hv Hr Hb Ha Hall. unfold Relay_HandleinCommit. rewrite get_bind, Hr.
  destruct (relay_and_report_spec now block (next_height block (CurChain p)) (req_ReqTime r)
    (p <| CurChain := bc |>)) as (pool & body & m & Hrep & [c Hm] & Hq & _); [done|].
  eexists _, _. split; [|split; [|exists pool, body; split; [reflexivity|exact Hq]]].
  - etransitivity; [apply (lift_bind (Ret r)); reflexivity|]. cbn beta. rewrite Hb.
    etransitivity; [apply (lift_bind (Ret block)); reflexivity|]. cbn beta.
    rewrite Ha. etransitivity; [apply (lift_bind (Ret bc)); reflexivity|]. cbn beta.
    rewrite modify_bind. rewrite Hv, Z.eqb_refl.
    rewrite <- (app_nil_r (_ ++ _)). eapply bind_returns; [exact Hrep|]. reflexivity.
  - by eexists m, c, _, _.
Qed.

Lemma list_bind_concat {A B} (f : A -> list B) l : l ≫= f = concat (f <$> l).
Proof. induction l as [|x l IH]; [done|]. by rewrite bind_cons, IH. Qed.

(** C7: committing a block relays its cross-shard transactions, all of
    them and each once.  When the leader commits a block, every other shard in
    which some of the block's recipients live is sent one relay message, with
    exactly those transactions, in block order and marked as relayed; no
    shard is sent anything else, and the leader's own queue is unchanged. *)
Theorem HandleinCommit_relays now cm p r block bc :
  p_NodeID p = view p -> requestPool p !! c_Digest cm = Some r ->
  dec (req_Msg r) = Some block -> AddBlock P block (CurChain p) = Ret bc ->
  Forall (has_dest bc) (b_Body block) ->
  let sends sid := crossing bc (p_ShardID p) sid (b_Body block) in
  exists p' evs rep, Relay_HandleinCommit P now cm p = Ret (true, p', concat evs ++ rep) /\
    length rep = 2%nat /\ length evs = Z.to_nat (ShardNums (pbftChainConfig p)) /\
    (forall sid, 0 <= sid < ShardNums (pbftChainConfig p) ->
       (sid <> p_ShardID p /\ sends sid <> [] -> exists m,
          evs !! Z.to_nat sid = Some [TcpDial m (node_ip p sid 0)] /\
          SplitMessage m = Ret (CRelay, json_enc (Messages.mkRelay (sends sid) (p_ShardID p) (sequenceID p)))) /\
       (sid = p_ShardID p \/ sends sid = [] -> evs !! Z.to_nat sid = Some [])) /\
    TxQueue (bc_Txpool (CurChain p')) = TxQueue (bc_Txpool bc).
Proof.
  intros Hv Hr Hb Ha Hall sends.
  destruct (HandleinCommit_leader now cm p r block bc Hv Hr Hb Ha Hall)
    as (p' & rep & Hc & Hrep & pool & body & Hp' & Hq).
  exists p', (relay_event (p <| CurChain := bc |>) (b_Body block) <$> seqZ 0 (ShardNums (pbftChainConfig p))), rep.
  split; [by rewrite Hc, list_bind_concat|]. split; [by destruct Hrep as (? & ? & ? & ? & -> & _)|].
  split; [by rewrite length_fmap, length_seqZ|]. split; [|by rewrite Hp'].
  intros sid Hsid.
  assert (Hlk : (relay_event (p <| CurChain := bc |>) (b_Body block) <$> seqZ 0 (ShardNums (pbftChainConfig p)))
    !! Z.to_nat sid = Some (relay_event (p <| CurChain := bc |>) (b_Body block) sid)).
  { rewrite list_lookup_fmap, lookup_seqZ_lt by lia. by rewrite Z.add_0_l, Z2Nat.id by lia. }
  rewrite Hlk.
  destruct (relay_event_spec (p <| CurChain := bc |>) (b_Body block) sid) as [E1 E2]. split.
  - intros [H1 H2]. destruct (E1 H1 H2) as (m & Hm & Hs). exists m. by rewrite Hm.
  - intros H. by rewrite E2.
Qed.

(** ** Money across shards *)
Definition value_sum (txs : list Transaction) : Z := foldr (fun tx v => tx_Value tx + v) 0 txs.

(** The value of the cross-shard transactions of a block that were skipped
    because their sender could not pay. *)
Fixpoint unfunded (loc : string -> bool) (l : ledger) (txs : list Transaction) : Z :=
  match txs with
  | [] => 0
  | tx :: txs =>
      (if executes loc l tx || loc (tx_Recipient tx) then 0 else tx_Value tx)
      + unfunded loc (ledger_tx loc l tx) txs
  end.

(** An ordinary transaction of a local sender. *)
Definition ordinary (loc : string -> bool) (tx : Transaction) : Prop :=
  tx_Relayed tx = false /\ tx_HasBroker tx = false /\ loc (tx_Sender tx) = true.

Lemma net_relayed bc body : forall l,
  Forall (has_dest bc) body -> Forall (ordinary (local_in P bc)) body ->
  net_run (local_in P bc) l body
    + value_sum (mark <$> filter (fun tx => dest bc tx <> ShardID (bc_ChainConfig bc)) body)
  = unfunded (local_in P bc) l body.
Proof.
  induction body as [|tx body IH]; intros l Hd Ho; [done|].
  apply list.Forall_cons in Hd as [[r Hr] Hd]. apply list.Forall_cons in Ho as [(Hrel & Hbr & Hloc) Ho].
  specialize (IH (ledger_tx (local_in P bc) l tx) Hd Ho).
  cbn [net_run unfunded]. rewrite filter_cons.
  assert (Hnet : net_tx (local_in P bc) l tx = if executes (local_in P bc) l tx
    then (if local_in P bc (tx_Recipient tx) then tx_Value tx else 0) - tx_Value tx else 0).
  { unfold net_tx, credits, debits. by rewrite Hrel, Hbr, Hloc, !orb_false_r. }
  rewrite Hnet.
  assert (Hdest : local_in P bc (tx_Recipient tx) = bool_decide (dest bc tx = ShardID (bc_ChainConfig bc))).
  { unfold local_in, dest. rewrite Hr. case_bool_decide; [by apply Z.eqb_eq|by apply Z.eqb_neq]. }
  rewrite Hdest. case_bool_decide as E.
  - rewrite decide_False by tauto. rewrite orb_true_r. case_match; lia.
  - rewrite decide_True by tauto. rewrite orb_false_r. cbn [fmap list_fmap value_sum foldr mark].
    change (tx_Value (mark tx)) with (tx_Value tx). unfold value_sum in *. case_match; lia.
Qed.

(** What is relayed is what was paid, except for what was not
    paid.  For a block of ordinary transactions, the change of the shard's total
    plus the value of the transactions its leader relays is [unfunded]: money is
    conserved across shards exactly when no cross-shard transaction was skipped
    for lack of balance, because the leader relays those too. *)
Theorem relay_money bc l body :
  Forall (has_dest bc) body -> Forall (ordinary (local_in P bc)) body ->
  exists s, relay_txs P bc (ShardID (bc_ChainConfig bc)) body = Ret s /\
    net_run (local_in P bc) l body + value_sum (rl_relay1 s) = unfunded (local_in P bc) l body.
Proof.
  intros Hd Ho. unfold relay_txs.
  destruct (relay_txs_loop bc (ShardID (bc_ChainConfig bc)) body
    (mkRelayLoop [] [] [] (bc_Txpool bc <| RelayPool := Some ∅ |>))) as
    (s & Hs & _ & _ & _ & R & _); [done|by eexists|].
  exists s. split; [exact Hs|]. rewrite R. by apply net_relayed.
Qed.
End relaying.

(** ** A round of consensus between replicas *)
Section round.
Context (P : Params).
Context {TL : TrieLib} {BL : BoltLib} {HL : Sha256} {CC : CoreCodecs} {MC : MsgCodecs}.
Context {TW : TrieLaws TL} {CL : CoreCodecsLaws} {BW : BoltLaws BL} {ML : MsgCodecsLaws}.
Context {LV : TrieLive TL} {LB : BoltLive BL}.
Context {X : Type}.
Implicit Types (p : PbftConsensusNode X).

#[local] Instance inside : InsideMod X := RawRelayPbftExtraHandleMod P.
#[local] Instance inside_laws : InsideLaws inside := RawRelay_inside_laws P.

(** A leader and a follower of the same shard, between two rounds. *)
Record in_sync (L F : PbftConsensusNode X) : Prop := {
  sy_replica : replica (CurChain L) (CurChain F);
  sy_seq : sequenceID L = sequenceID F;
  sy_leader : p_NodeID L = view L /\ NodeID (bc_ChainConfig (CurChain L)) = 0;
  sy_follower : p_NodeID F <> view F /\ NodeID (bc_ChainConfig (CurChain F)) <> 0;
  sy_store : storage_ok (bc_Storage (CurChain L)) /\ storage_ok (bc_Storage (CurChain F)) }.

(** The state of a leader that has just proposed [r]. *)
Definition proposed (r : Request) (bc : BlockChain) p : PbftConsensusNode X :=
  p <| sequenceLock := true |> <| CurChain := bc |> <| requestPool ::= <[getDigest r := r]> |>
    <| height2Digest ::= <[sequenceID p := getDigest r]> |>.

Lemma propose_body_spec now p b bc :
  GenerateBlock P now (CurChain p) = Ret (b, bc) ->
  let r := mkRequest BlockRequest (enc b) now in
  exists m, propose_body now (p <| sequenceLock := true |>) =
      Ret (true, proposed r bc p, (fun a => TcpDial m a) <$> others p) /\
    MergeMessage CPrePrepare (json_enc (mkPrePrepare r (getDigest r) (sequenceID p))) = Ret m.
Proof.
  intros Hg r. unfold propose_body. cbn [HandleinPropose inside RawRelayPbftExtraHandleMod].
  unfold Relay_HandleinPropose. rewrite bind_bind, get_bind.
  change (CurChain (p <| sequenceLock := true |>)) with (CurChain p). rewrite Hg.
  rewrite bind_bind. erewrite (lift_bind (Ret (b, bc)) _ _ (b, bc)) by reflexivity. cbn beta iota.
  rewrite bind_bind, modify_bind, ret_bind. cbn beta iota zeta. fold r.
  unfold propose_request. rewrite bind_bind, modify_bind, bind_bind, get_bind. cbn beta zeta. rewrite bind_bind, modify_bind.
  destruct (MergeMessage_ok CPrePrepare (json_enc (mkPrePrepare r (getDigest r) (sequenceID p)))) as [m Hm];
    [apply message_types_ok, (bool_decide_unpack _); reflexivity|].
  exists m. split; [|done]. rewrite <- (app_nil_r (_ <$> others p)). eapply bind_returns; [|reflexivity].
  exact (broadcast_exact CPrePrepare _ m (proposed r bc p) Hm).
Qed.

(** The follower accepts the pre-prepare of a valid block. *)
Lemma follower_prepares p b r seq :
  req_Msg r = enc b -> IsValidBlock b (CurChain p) = None -> seq <= sequenceID p ->
  exists evs m, handlePrePrepare (json_enc (mkPrePrepare r (getDigest r) seq)) p =
      Ret (tt, stored seq r (p <| requestPool ::= <[getDigest r := r]> |>), evs) /\
    SplitMessage m = Ret (CPrepare, json_enc (mkPrepare (getDigest r) seq (RunningNode p))) /\
    forall e, e ∈ evs <-> exists ip, ip ∈ getNeighborNodes p /\ ip <> nd_IPaddr (RunningNode p) /\
      e = TcpDial m ip.
Proof.
  intros Hr Hv Hseq. set (pp := mkPrePrepare r (getDigest r) seq).
  assert (Hask : HandleinPrePrepare pp p = Ret (true, p <| requestPool ::= <[getDigest r := r]> |>, [])).
  { cbn [HandleinPrePrepare inside RawRelayPbftExtraHandleMod]. unfold Relay_HandleinPrePrepare.
    rewrite get_bind. cbn [pp_RequestMsg pp]. rewrite Hr, dec_enc.
    erewrite (lift_bind (Ret b) _ _ b) by reflexivity. rewrite Hv, modify_bind. reflexivity. }
  destruct (prePrepare_asks _ pp p true _ [] (json_dec_enc pp) eq_refl Hseq Hask) as (evs & He & _ & Hm).
  destruct (Hm eq_refl) as (m & Hs & Hev). by exists evs, m.
Qed.

Lemma AddBlock_kept b bc bc' :
  storage_ok (bc_Storage bc) -> AddBlock P b bc = Ret bc' ->
  storage_ok (bc_Storage bc') /\ bc_ChainConfig bc' = bc_ChainConfig bc /\
  bc_PartitionMap bc' = bc_PartitionMap bc.
Proof.
  intros Hs [[_ ->]|(_ & Ha & ->)]%AddBlock_cases; [done|].
  split; [|done]. by destruct (Storage_AddBlock_chain _ _ _ Hs Ha).
Qed.

Lemma execute_commit_returns now cm p p1 o :
  Relay_HandleinCommit P now cm p = Ret (true, p1, o) ->
  execute_commit now cm p = Ret (tt,
    p1 <| isReply ::= <[c_Digest cm := true]> |> <| sequenceID ::= fun s => u64 (s + 1) |>, o).
Proof.
  intros H. unfold execute_commit. rewrite <- (app_nil_r o). eapply bind_returns; [exact H|]. reflexivity.
Qed.

Lemma commit_follower now cm p r b bc :
  p_NodeID p <> view p -> requestPool p !! c_Digest cm = Some r -> req_Msg r = enc b ->
  AddBlock P b (CurChain p) = Ret bc ->
  Relay_HandleinCommit P now cm p = Ret (true, p <| CurChain := bc |>, []).
Proof.
  intros Hv Hr Hb Ha. unfold Relay_HandleinCommit. rewrite get_bind, Hr.
  etransitivity; [apply (lift_bind (Ret r)); reflexivity|]. cbn beta. rewrite Hb, dec_enc.
  etransitivity; [apply (lift_bind (Ret b)); reflexivity|]. cbn beta. rewrite Ha.
  etransitivity; [apply (lift_bind (Ret bc)); reflexivity|]. cbn beta.
  rewrite modify_bind. apply Z.eqb_neq in Hv. rewrite Hv. by rewrite ret_bind.
Qed.

(** What the leader's report leaves of its chain. *)
Lemma reported (q : bool) pool body bl bf :
  let c := bl <| bc_Txpool := pool |> <| bc_CurrentBlock ::= fun b0 => if q then b0 <| b_Body := body |> else b0 |> in
  state_root c = state_root bl /\ (replica bl bf -> replica c bf) /\
  forall l, state_is bl (state_root bl) l -> state_is c (state_root c) l.
Proof.
  intros c. assert (Hroot : state_root c = state_root bl) by (unfold c, state_root; cbn; by destruct q).
  assert (Htip : tip_of (bc_CurrentBlock c) = tip_of (bc_CurrentBlock bl)) by (unfold c; cbn; by destruct q).
  split; [done|]. split; [|intros l; by rewrite Hroot].
  intros [R1 R2 R3 R4]. split; [by rewrite Htip|done|done|]. by rewrite <- Hroot in R4.
Qed.

(** Both replicas commit the leader's block. *)
Lemma round_commit now1 now2 cm L F b r bl bf l :
  UTXO P = false -> p_NodeID L = view L -> p_NodeID F <> view F -> sequenceID L = sequenceID F ->
  requestPool L !! c_Digest cm = Some r -> requestPool F !! c_Digest cm = Some r -> req_Msg r = enc b ->
  AddBlock P b (CurChain L) = Ret bl -> AddBlock P b (CurChain F) = Ret bf ->
  Forall (addr_ok P (CurChain L)) (b_Body b) ->
  NodeID (bc_ChainConfig (CurChain L)) = 0 -> NodeID (bc_ChainConfig (CurChain F)) <> 0 ->
  storage_ok (bc_Storage (CurChain L)) -> storage_ok (bc_Storage (CurChain F)) ->
  replica bl bf -> bc_CurrentBlock bf = b -> state_is bl (state_root bl) l ->
  exists L2 F2 oL oF,
    execute_commit now1 cm L = Ret (tt, L2, oL) /\ execute_commit now2 cm F = Ret (tt, F2, oF) /\
    in_sync L2 F2 /\ sequenceID L2 = u64 (sequenceID L + 1) /\
    tip_of (bc_CurrentBlock (CurChain F2)) = tip_of b /\
    state_is (CurChain L2) (state_root (CurChain L2)) l.
Proof.
  intros HU HL0 HF0 Hseq HrL HrF Hb HaL HaF Hok HnL HnF HsL HsF Hrep Htip Hst.
  destruct (AddBlock_kept _ _ _ HsL HaL) as (KL & CL' & ML').
  destruct (AddBlock_kept _ _ _ HsF HaF) as (KF & CF & MF).
  destruct (HandleinCommit_leader P now1 cm L r b bl) as (L1 & rep & HcL & _ & pool & body & HL1 & _);
    [done|done|by rewrite Hb, dec_enc|done| |].
  { eapply list.Forall_impl; [exact Hok|]. intros tx [_ Hd]. unfold has_dest.
    by rewrite (Get_PartitionMap_ext P bl (CurChain L)). }
  pose proof (commit_follower now2 cm F r b bf HF0 HrF Hb HaF) as HcF.
  apply execute_commit_returns in HcL, HcF. eexists _, _, _, _. split; [exact HcL|]. split; [exact HcF|].
  rewrite HL1. set (q := next_height b (CurChain L)) in *.
  destruct (reported q pool body bl bf) as (_ & Hrep' & Hst').
  split; [split|split; [done|split; [cbn; by rewrite Htip|]]].
  - by apply Hrep'.
  - cbn. by rewrite Hseq.
  - cbn. by rewrite CL'.
  - cbn. by rewrite CF.
  - done.
  - by apply Hst'.
Qed.

(** C2: a round of consensus keeps replicas equal.  When a leader and a
    follower are in sync, the leader's proposal is a block of the packed
    transactions, sent to every other node; the follower accepts it and
    answers with a prepare for its digest; and when both execute a commit of
    that digest they are in sync again, one sequence number higher, at that
    block, with the balances of [ledger_run]. *)
Theorem round_agreement now L F l :
  UTXO P = false -> in_sync L F -> state_is (CurChain L) (state_root (CurChain L)) l ->
  propose_pc L = AtLock -> sequenceLock L = false ->
  let packed := (TxPool_PackTxs (BlockSize (bc_ChainConfig (CurChain L))) (bc_Txpool (CurChain L))).1 in
  Forall (addr_ok P (CurChain L)) packed ->
  exists b r m mF L1 evs F1 evsF,
    propose_step now L = Ret (tt, L1, evs) /\ b_Body b = packed /\ req_Msg r = enc b /\
    SplitMessage m = Ret (CPrePrepare, json_enc (mkPrePrepare r (getDigest r) (sequenceID L))) /\
    (forall ip, ip ∈ getNeighborNodes L -> ip <> nd_IPaddr (RunningNode L) -> TcpDial m ip ∈ evs) /\
    handlePrePrepare (json_enc (mkPrePrepare r (getDigest r) (sequenceID L))) F = Ret (tt, F1, evsF) /\
    SplitMessage mF = Ret (CPrepare, json_enc (mkPrepare (getDigest r) (sequenceID L) (RunningNode F))) /\
    (forall ip, ip ∈ getNeighborNodes F -> ip <> nd_IPaddr (RunningNode F) -> TcpDial mF ip ∈ evsF) /\
    (storable b -> forall now1 now2 cm, c_Digest cm = getDigest r ->
      exists L2 F2 oL oF,
        execute_commit now1 cm L1 = Ret (tt, L2, oL) /\ execute_commit now2 cm F1 = Ret (tt, F2, oF) /\
        in_sync L2 F2 /\ sequenceID L2 = u64 (sequenceID L + 1) /\
        tip_of (bc_CurrentBlock (CurChain F2)) = tip_of b /\
        state_is (CurChain L2) (state_root (CurChain L2)) (ledger_run (local_in P (CurChain L)) l packed)).
Proof.
  intros HU [Hrep Hseq [HvL HnL] [HvF HnF] [HsL HsF]] Hst Hpc Hlock packed Hok.
  destruct (GenerateBlock_replicated P now (CurChain L) (CurChain F) l HU HnL HnF Hrep Hst HsL HsF Hok)
    as (b & bc1 & Hgen & Hbody & Hvalid & Hnum & Hcommit).
  set (r := mkRequest BlockRequest (enc b) now).
  destruct (propose_body_spec now L b bc1 Hgen) as (m & Hprop & Hm). fold r in Hprop, Hm.
  set (evs := (fun a => TcpDial m a) <$> others L) in *.
  destruct (follower_prepares F b r (sequenceID L)) as (evsF & mF & HF & HmF & HevF); [done|done|lia|].
  exists b, r, m, mF, (proposed r bc1 L <| propose_pc := AtSelect |>), evs,
    (stored (sequenceID L) r (F <| requestPool ::= <[getDigest r := r]> |>)), evsF.
  split; [|split; [done|split; [done|split; [|split; [|split; [exact HF|split; [done|split]]]]]]].
  - unfold propose_step. rewrite get_bind, HvL, Z.eqb_refl, Hpc, Hlock. cbn [negb].
    rewrite modify_bind, <- (app_nil_r evs). eapply bind_returns; [exact Hprop|]. reflexivity.
  - eapply SplitMessage_MergeMessage; [|exact Hm]. apply message_types_ok, (bool_decide_unpack _). reflexivity.
  - intros ip H1 H2. apply list_elem_of_fmap. exists ip. split; [done|]. by apply list_elem_of_filter.
  - intros ip H1 H2. apply HevF. by exists ip.
  - intros Hstore now1 now2 cm Hcm.
    destruct (Hcommit Hstore) as (bl & bf & HaL & HaF & Htip & Hrep2 & Hst2).
    destruct (GenerateBlock_chain P now (CurChain L) b bc1 Hgen) as (Hs1 & Hc1 & Hm1).
    pose proof (round_commit now1 now2 cm (proposed r bc1 L <| propose_pc := AtSelect |>)
      (stored (sequenceID L) r (F <| requestPool ::= <[getDigest r := r]> |>)) b r bl bf
      (ledger_run (local_in P (CurChain L)) l packed)) as HR.
    change (sequenceID (proposed r bc1 L <| propose_pc := AtSelect |>)) with (sequenceID L) in HR.
    apply HR; try done.
    + cbn. by rewrite Hcm, lookup_insert_eq.
    + cbn. by rewrite Hcm, lookup_insert_eq.
    + cbn. rewrite Hbody. eapply list.Forall_impl; [exact Hok|]. intros tx. by apply addr_ok_ext.
    + cbn. by rewrite Hc1.
    + cbn. by rewrite Hs1.
Qed.
End round.

(** *** Concrete runs *)
Module RefRelay.
Export RefNode.
Definition block : Block := mkBlock (zero_BlockHeader <| bh_Number := 1 |>) [t1; t2] [] "hash1".
Definition block_req : Request := mkRequest BlockRequest (enc block) 1.
Definition leader : PbftConsensusNode () :=
  member 0 <| pbftChainConfig := RefChain.node 0 |> <| requestPool := {[ getDigest block_req := block_req ]} |>.
Definition block_commit : Commit := mkCommit (getDigest block_req) 1 (peer 1).

(** The two ends of a round. *)
Definition proposer : PbftConsensusNode () :=
  member 0 <| CurChain := with_txs 0 |> <| propose_pc := AtLock |>.
Definition follower : PbftConsensusNode () := member 1 <| CurChain := RefChain.chain 1 |>.
End RefRelay.
Import RefRelay.

Lemma HandleinCommit_relays_witness :
  exists p' evs rep m, Relay_HandleinCommit params 5 block_commit leader = Ret (true, p', concat evs ++ rep) /\
    evs !! 1%nat = Some [TcpDial m (node_ip leader 1 0)] /\
    SplitMessage m = Ret (CRelay, json_enc (Messages.mkRelay [mark t2] 0 1)).
Proof.
  destruct (AddBlock_own params block (CurChain leader)) as [s Hs].
  - apply (NewStorage_ok RefStorage.config ∅). reflexivity.
  - unfold storable, bolt_key_ok, bolt_val_ok. vm_compute. intuition congruence.
  - reflexivity.
  - reflexivity.
  - destruct (HandleinCommit_relays params 5 block_commit leader block_req block _ eq_refl
      (lookup_insert_eq _ _ _) (dec_enc block) Hs) as (p' & evs & rep & H1 & _ & _ & H2 & _).
    + repeat constructor; eexists; reflexivity.
    + destruct (proj1 (H2 1 ltac:(split; [discriminate|reflexivity]))) as (m & H3 & H4); [split; discriminate|].
      exists p', evs, rep, m. split; [exact H1|]. split; [exact H3|exact H4].
Defined.

(** A sender with less than the value: nothing is debited, the value is relayed. *)
Lemma relay_money_witness :
  let l : ledger := fun _ => 5 in
  exists s, relay_txs params (CurChain leader) 0 [t2] = Ret s /\
    ledger_run (local_in params (CurChain leader)) l [t2] "0000000a" = 5 /\
    net_run (local_in params (CurChain leader)) l [t2] + value_sum (rl_relay1 s) = 7.
Proof.
  intros l.
  destruct (relay_money params (CurChain leader) l [t2]) as (s & H1 & H2).
  - repeat constructor. eexists. reflexivity.
  - repeat constructor.
  - exists s. split; [exact H1|]. split; [reflexivity|]. rewrite H2. reflexivity.
Defined.

Lemma round_agreement_witness :
  exists b r L1 evs F1 evsF,
    propose_step (IM := RawRelayPbftExtraHandleMod params) 9 proposer = Ret (tt, L1, evs) /\
    length (b_Body b) = 2%nat /\ req_Msg r = enc b /\
    handlePrePrepare (IM := RawRelayPbftExtraHandleMod params)
      (json_enc (mkPrePrepare r (getDigest r) 1)) follower = Ret (tt, F1, evsF).
Proof.
  destruct (round_agreement params 9 proposer follower (fun _ => Init_Balance))
    as (b & r & m & mF & L1 & evs & F1 & evsF & H1 & H2 & H3 & _ & _ & H4 & _).
  - reflexivity.
  - split; [exact chain_replica|reflexivity| | |].
    + split; reflexivity.
    + split; [discriminate|]. change (CurChain follower) with (RefChain.chain 1). rewrite chain_node. discriminate.
    + split; [apply (co_storage _ (chain_tip 0))|apply (co_storage _ (chain_tip 1))].
  - exact (chain_state 0).
  - reflexivity.
  - reflexivity.
  - repeat constructor; eexists; reflexivity.
  - exists b, r, L1, evs, F1, evsF. split; [exact H1|]. split; [rewrite H2; reflexivity|].
    split; [exact H3|exact H4].
Defined.
