(* ===== verification/Quorum.v ===== *)
(** * Quorum: the counting in a round of PBFT

    A round abstracted to numbers: which packets are in flight, and per node
    whether it has accepted the proposal and how many prepares and commits it
    has heard.  [Shard] relates the nodes of a shard to it.  Whatever the order
    of the deliveries, a round of [N >= 3] nodes takes [2 * N * (N - 1)] of them,
    after which every node has heard both quorums. *)
From stdpp Require Import base gmap list functions.
From Stdlib Require Import ZArith Lia.
From S2P Require Import Prelude.
#[local] Open Scope nat_scope.

(** ** Counting *)

(** How many numbers below [n] satisfy [Q]. *)
Fixpoint num (Q : nat -> bool) (n : nat) : nat :=
  match n with O => 0 | S n => (if Q n then 1 else 0) + num Q n end.

Lemma num_ext Q Q' n : (forall j, j < n -> Q' j = Q j) -> num Q' n = num Q n.
Proof. induction n as [|n IH]; intros H; [done|]. cbn. rewrite H by lia. f_equal. apply IH. intros j Hj. apply H. lia. Qed.

Lemma num_flip Q Q' n i : i < n -> Q i = false -> Q' i = true -> (forall j, j < n -> j <> i -> Q' j = Q j) ->
  num Q' n = S (num Q n).
Proof.
  induction n as [|n IH]; intros Hi H0 H1 H; [lia|]. cbn. destruct (decide (i = n)) as [->|Hne].
  - rewrite H0, H1, (num_ext Q Q' n); [done|]. intros j Hj. apply H; lia.
  - rewrite (H n) by lia. rewrite IH; [lia|lia|done|done|]. intros j Hj. apply H. lia.
Qed.

Lemma num_all Q n : (forall j, j < n -> Q j = true) -> num Q n = n.
Proof. induction n as [|n IH]; intros H; [done|]. cbn. rewrite H, IH by auto. done. Qed.

Lemma num_none Q n : (forall j, j < n -> Q j = false) -> num Q n = 0.
Proof. induction n as [|n IH]; intros H; [done|]. cbn. rewrite H, IH by auto. done. Qed.

Lemma num_pos Q n i : i < n -> Q i = true -> 0 < num Q n.
Proof.
  induction n as [|n IH]; intros Hi H; [lia|]. cbn. destruct (decide (i = n)) as [->|]; [rewrite H; lia|].
  specialize (IH ltac:(lia) H). lia.
Qed.

(** ** The abstract round *)
Inductive Kind := PP | PR | CM.
#[export] Instance Kind_eq_dec : EqDecision Kind.
Proof. solve_decision. Defined.

Record Packet := mkPacket { pk_kind : Kind; pk_from : nat; pk_to : nat }.
Record Tally := mkTally { acc : bool; np : nat; nc : nat }.
Record Round := mkRound { tally : nat -> Tally; packets : list Packet }.

Section round.
Context (N f : nat).

(** The prepares a node waits for, the leader being node 0. *)
Definition quorum (i : nat) : nat := if decide (i = 0) then 2 * f else 2 * f - 1.
(** It has broadcast its commit; it has executed. *)
Definition sent (i : nat) (a : Tally) : bool := acc a && (1 <=? np a) && (quorum i <=? np a).
Definition executed (a : Tally) : bool := (1 <=? nc a) && (2 * f <=? nc a).

(** A packet to each node below [n] but [i]. *)
Fixpoint to_others (k : Kind) (i n : nat) : list Packet :=
  match n with O => [] | S n => (if decide (n = i) then [] else [mkPacket k i n]) ++ to_others k i n end.

(** What a node does with a packet. *)
Definition receive (i : nat) (k : Kind) (a : Tally) : Tally * list Packet :=
  match k with
  | PP => (mkTally true (np a) (nc a), to_others PR i N)
  | PR =>
      let a' := mkTally (acc a) (S (np a)) (nc a) in
      (a', if sent i a' && negb (sent i a) then to_others CM i N else [])
  | CM => (mkTally (acc a) (np a) (S (nc a)), [])
  end.

Definition proposal : Round :=
  mkRound (fun i => mkTally (bool_decide (i = 0)) 0 0) (to_others PP 0 N).

(** A packet is delivered; a proposal goes before the votes on it. *)
Inductive deliver : Round -> Packet -> Round -> Prop :=
  | delivered s pk l :
      packets s ≡ₚ pk :: l ->
      (pk_kind pk <> PP -> Forall (fun q => pk_kind q = PP -> pk_to q <> pk_to pk) l) ->
      deliver s pk (mkRound (<[pk_to pk := (receive (pk_to pk) (pk_kind pk) (tally s (pk_to pk))).1]> (tally s))
        (l ++ (receive (pk_to pk) (pk_kind pk) (tally s (pk_to pk))).2)).

(** The packets of kind [k] to node [i]. *)
Definition due (k : Kind) (i : nat) (l : list Packet) : nat :=
  length (filter (fun pk => pk_kind pk = k /\ pk_to pk = i) l).

Lemma due_perm k i l l' : l ≡ₚ l' -> due k i l = due k i l'.
Proof. intros H. apply Permutation_length. by rewrite H. Qed.
Lemma due_app k i l l' : due k i (l ++ l') = due k i l + due k i l'.
Proof. unfold due. by rewrite list.filter_app, length_app. Qed.
Lemma due_cons k i pk l : due k i (pk :: l) = (if decide (pk_kind pk = k /\ pk_to pk = i) then 1 else 0) + due k i l.
Proof. unfold due. rewrite filter_cons. by destruct (decide _). Qed.
Lemma due_none k i l : due k i l = 0 <-> Forall (fun pk => pk_kind pk = k -> pk_to pk <> i) l.
Proof.
  induction l as [|pk l IH]; [split; [constructor|done]|]. rewrite due_cons, list.Forall_cons, <- IH.
  destruct (decide _) as [H|H]; [split; [lia|]|split; [|lia]].
  - intros [H' _]. destruct H as [H1 H2]. by destruct (H' H1).
  - intros Hd. split; [|done]. intros H1 H2. by apply H.
Qed.

Lemma due_others k i k' i' n : due k' i' (to_others k i n) = if decide (k = k' /\ i <> i' /\ i' < n) then 1 else 0.
Proof.
  induction n as [|n IH]; [cbn; by rewrite decide_False by lia|]. cbn [to_others]. rewrite due_app, IH.
  destruct (decide (n = i)) as [->|Hn].
  - change (due k' i' []) with 0. do 2 destruct (decide _); intuition lia.
  - rewrite due_cons. change (due k' i' []) with 0. cbn [pk_kind pk_to]. do 3 destruct (decide _); intuition (subst; lia).
Qed.
(** ** The invariant: what is due to a node is what the others have sent and
    it has not heard *)
Definition preparer (k j : nat) (a : Tally) : bool := negb (j =? 0) && negb (j =? k) && acc a.
Definition committer (k j : nat) (a : Tally) : bool := negb (j =? k) && sent j a.
Definition preparers (s : Round) (k : nat) : nat := num (fun j => preparer k j (tally s j)) N.
Definition committers (s : Round) (k : nat) : nat := num (fun j => committer k j (tally s j)) N.

Record round_ok (s : Round) : Prop := {
  ro_leader : acc (tally s 0) = true;
  ro_fresh : forall i, acc (tally s i) = false -> np (tally s i) = 0 /\ nc (tally s i) = 0;
  ro_ends : Forall (fun pk => pk_to pk < N) (packets s);
  ro_proposals : forall i, i < N -> due PP i (packets s) = if acc (tally s i) then 0 else 1;
  ro_prepares : forall i, i < N -> due PR i (packets s) + np (tally s i) = preparers s i;
  ro_commits : forall i, i < N -> due CM i (packets s) + nc (tally s i) = committers s i }.

(** The deliveries that are left: the packets in flight, and those of the nodes
    that have still to accept or to commit. *)
Definition unaccepted (s : Round) : nat := num (fun i => negb (acc (tally s i))) N.
Definition unsent (s : Round) : nat := num (fun i => negb (sent i (tally s i))) N.
Definition remaining (s : Round) : nat :=
  length (packets s) + (N - 1) * unaccepted s + (N - 1) * unsent s.

Lemma to_others_ends k i n : n <= N -> Forall (fun pk => pk_to pk < N) (to_others k i n).
Proof.
  induction n as [|n IH]; intros Hn; [constructor|]. cbn [to_others]. apply list.Forall_app. split; [|apply IH; lia].
  destruct (decide _); repeat constructor. cbn. lia.
Qed.
Lemma to_others_from k i n pk : pk ∈ to_others k i n -> pk_kind pk = k /\ pk_from pk = i.
Proof.
  induction n as [|n IH]; cbn [to_others]; [by intros ?%not_elem_of_nil|]. rewrite elem_of_app. intros [H|H]; [|auto].
  destruct (decide (n = i)); [by apply not_elem_of_nil in H|]. by apply list_elem_of_singleton in H as ->.
Qed.
Lemma to_others_length k i n : length (to_others k i n) = num (fun j => negb (j =? i)) n.
Proof.
  induction n as [|n IH]; [done|]. cbn [to_others num]. rewrite length_app, IH.
  destruct (decide _) as [->|Hn]; [by rewrite Nat.eqb_refl|]. by rewrite (proj2 (Nat.eqb_neq _ _) Hn).
Qed.
Lemma num_others i n : i < n -> num (fun j => negb (j =? i)) n = n - 1.
Proof.
  intros Hi. assert (H : num (fun _ => true) n = S (num (fun j => negb (j =? i)) n)).
  { apply num_flip with i; [done|by rewrite Nat.eqb_refl|done|]. intros j _ Hj. by rewrite (proj2 (Nat.eqb_neq _ _) Hj). }
  rewrite num_all in H by done. lia.
Qed.

Lemma proposal_ok : 1 <= N -> round_ok proposal /\ remaining proposal = 2 * N * (N - 1).
Proof.
  intros HN. split; [split|].
  - done.
  - done.
  - by apply to_others_ends.
  - intros i Hi. cbn [packets tally proposal acc]. rewrite due_others.
    destruct (decide _) as [H|H]; case_bool_decide; intuition lia.
  - intros i Hi. cbn [packets tally proposal np]. rewrite due_others, decide_False by by intros [? _].
    symmetry. apply num_none. intros j _. unfold preparer. cbn. destruct (Nat.eqb_spec j 0) as [->|Hj]; [done|].
    rewrite bool_decide_eq_false_2 by done. by rewrite andb_false_r.
  - intros i Hi. cbn [packets tally proposal nc]. rewrite due_others, decide_False by by intros [? _].
    symmetry. apply num_none. intros j _. unfold committer, sent. cbn. by rewrite !andb_false_r.
  - unfold remaining, unaccepted, unsent. cbn [packets tally proposal]. rewrite to_others_length, num_others by lia.
    rewrite (num_ext (fun j => negb (j =? 0)) (fun i => negb (acc (mkTally (bool_decide (i = 0)) 0 0))) N).
    + rewrite num_others, num_all; [nia| |lia]. intros j _. unfold sent. cbn. by rewrite !andb_false_r.
    + intros j _. cbn. destruct (Nat.eqb_spec j 0); by case_bool_decide.
Qed.
(** *** A delivery *)
Section delivery.
Context (s : Round) (i : nat) (Hi : i < N).

Lemma num_same (g : nat -> Tally -> bool) a : g i a = g i (tally s i) ->
  num (fun j => g j (<[i := a]> (tally s) j)) N = num (fun j => g j (tally s j)) N.
Proof.
  intros H. apply num_ext. intros j _. destruct (decide (i = j)) as [<-|Hj]; [by rewrite fn_lookup_insert|].
  by rewrite fn_lookup_insert_ne.
Qed.

Lemma num_more (g : nat -> Tally -> bool) a : g i (tally s i) = false -> g i a = true ->
  num (fun j => g j (<[i := a]> (tally s) j)) N = S (num (fun j => g j (tally s j)) N).
Proof.
  intros H0 H1. apply num_flip with i; [done|done|by rewrite fn_lookup_insert|].
  intros j _ Hj. by rewrite fn_lookup_insert_ne.
Qed.

Lemma num_less (g : nat -> Tally -> bool) a : g i (tally s i) = false -> g i a = true ->
  num (fun j => negb (g j (tally s j))) N = S (num (fun j => negb (g j (<[i := a]> (tally s) j))) N).
Proof.
  intros H0 H1. apply num_flip with i; [done|by rewrite fn_lookup_insert, H1|by rewrite H0|].
  intros j _ Hj. by rewrite fn_lookup_insert_ne.
Qed.

Lemma unaccepted_same a l : acc a = acc (tally s i) -> unaccepted (mkRound (<[i := a]> (tally s)) l) = unaccepted s.
Proof. intros H. apply (num_same (fun _ b => negb (acc b))). by rewrite H. Qed.
Lemma unaccepted_less a l : acc (tally s i) = false -> acc a = true ->
  unaccepted s = S (unaccepted (mkRound (<[i := a]> (tally s)) l)).
Proof. apply (num_less (fun _ => acc)). Qed.
Lemma unsent_same a l : sent i a = sent i (tally s i) -> unsent (mkRound (<[i := a]> (tally s)) l) = unsent s.
Proof. intros H. apply (num_same (fun j b => negb (sent j b))). by rewrite H. Qed.
Lemma unsent_less a l : sent i (tally s i) = false -> sent i a = true ->
  unsent s = S (unsent (mkRound (<[i := a]> (tally s)) l)).
Proof. apply (num_less sent). Qed.
Lemma preparers_same a l k : preparer k i a = preparer k i (tally s i) ->
  preparers (mkRound (<[i := a]> (tally s)) l) k = preparers s k.
Proof. apply (num_same (preparer k)). Qed.
Lemma preparers_more a l k : preparer k i (tally s i) = false -> preparer k i a = true ->
  preparers (mkRound (<[i := a]> (tally s)) l) k = S (preparers s k).
Proof. apply (num_more (preparer k)). Qed.
Lemma committers_same a l k : committer k i a = committer k i (tally s i) ->
  committers (mkRound (<[i := a]> (tally s)) l) k = committers s k.
Proof. apply (num_same (committer k)). Qed.
Lemma committers_more a l k : committer k i (tally s i) = false -> committer k i a = true ->
  committers (mkRound (<[i := a]> (tally s)) l) k = S (committers s k).
Proof. apply (num_more (committer k)). Qed.
End delivery.

Lemma eqb_neq' i j : i <> j -> (i =? j) = false.
Proof. apply Nat.eqb_neq. Qed.

Lemma length_others k i : i < N -> length (to_others k i N) = N - 1.
Proof. intros Hi. by rewrite to_others_length, num_others. Qed.

(** A proposal arrives. *)
Lemma deliver_PP s j i l : 1 <= N -> round_ok s -> packets s ≡ₚ mkPacket PP j i :: l ->
  let s' := mkRound (<[i := mkTally true (np (tally s i)) (nc (tally s i))]> (tally s)) (l ++ to_others PR i N) in
  round_ok s' /\ remaining s = S (remaining s').
Proof.
  intros HN [R0 R1 R2 R3 R4 R5] Hl s'. set (a := mkTally true (np (tally s i)) (nc (tally s i))).
  rewrite Hl in R2. apply list.Forall_cons in R2 as [Hi R2]. cbn [pk_to] in Hi.
  assert (Hd : forall k i', due k i' (packets s) = (if decide (PP = k /\ i = i') then 1 else 0) + due k i' l)
    by (intros k i'; rewrite (due_perm k i' _ _ Hl); apply due_cons).
  assert (Ha : acc (tally s i) = false).
  { specialize (R3 i Hi). rewrite Hd, decide_True in R3 by done. by destruct (acc (tally s i)). }
  destruct (R1 i Ha) as [Hnp Hnc]. assert (Hi0 : i <> 0) by congruence.
  assert (Hs0 : sent i (tally s i) = false) by (unfold sent; by rewrite Ha).
  assert (Hs1 : sent i a = false) by (unfold sent, a; cbn; by rewrite Hnp).
  split; [split|].
  - cbn. rewrite fn_lookup_insert_ne by done. done.
  - intros k. cbn. destruct (decide (i = k)) as [<-|Hk]; [by rewrite fn_lookup_insert|rewrite fn_lookup_insert_ne by done; apply R1].
  - cbn. apply list.Forall_app. split; [done|by apply to_others_ends].
  - intros k Hk. cbn [packets tally s']. rewrite due_app, due_others, decide_False, Nat.add_0_r by by intros [? _].
    specialize (R3 k Hk). rewrite Hd in R3. destruct (decide (i = k)) as [<-|Hne].
    + rewrite fn_lookup_insert. cbn. rewrite decide_True, Ha in R3 by done. lia.
    + rewrite fn_lookup_insert_ne by done. rewrite decide_False in R3 by by intros [_ ?]. done.
  - intros k Hk. specialize (R4 k Hk). rewrite Hd, decide_False in R4 by by intros [? _].
    unfold s'. fold a. cbn [packets tally]. rewrite due_app, due_others. destruct (decide (i = k)) as [<-|Hne].
    + rewrite preparers_same by (unfold preparer; by rewrite Nat.eqb_refl, !andb_false_r).
      rewrite fn_lookup_insert, decide_False by tauto. cbn [np a]. lia.
    + rewrite preparers_more; [|done|unfold preparer; by rewrite Ha, andb_false_r|unfold preparer; by rewrite !eqb_neq'].
      rewrite fn_lookup_insert_ne, decide_True by done. lia.
  - intros k Hk. specialize (R5 k Hk). rewrite Hd, decide_False in R5 by by intros [? _].
    unfold s'. fold a. cbn [packets tally]. rewrite due_app, due_others, decide_False by by intros [? _].
    rewrite committers_same by (unfold committer; by rewrite Hs0, Hs1).
    destruct (decide (i = k)) as [<-|Hne]; [rewrite fn_lookup_insert; cbn [nc a]; lia|rewrite fn_lookup_insert_ne by done; lia].
  - unfold remaining. cbn [packets tally s']. rewrite (Permutation_length Hl), length_app, length_others by done. cbn [length].
    unfold s'. fold a. rewrite (unaccepted_less s i Hi a (l ++ to_others PR i N)) by done.
    rewrite unsent_same by by rewrite Hs0, Hs1. nia.
Qed.
(** A prepare or a commit arrives, at a node that has accepted. *)
Lemma deliver_PR s j i l : 1 <= N -> round_ok s -> packets s ≡ₚ mkPacket PR j i :: l -> acc (tally s i) = true ->
  let r := receive i PR (tally s i) in
  let s' := mkRound (<[i := r.1]> (tally s)) (l ++ r.2) in
  round_ok s' /\ remaining s = S (remaining s').
Proof.
  intros HN [R0 R1 R2 R3 R4 R5] Hl Ha r s'. set (a := mkTally (acc (tally s i)) (S (np (tally s i))) (nc (tally s i))).
  assert (Hr : r = (a, if sent i a && negb (sent i (tally s i)) then to_others CM i N else [])) by done.
  rewrite Hl in R2. apply list.Forall_cons in R2 as [Hi R2]. cbn [pk_to] in Hi.
  assert (Hd : forall k i', due k i' (packets s) = (if decide (PR = k /\ i = i') then 1 else 0) + due k i' l)
    by (intros k i'; rewrite (due_perm k i' _ _ Hl); apply due_cons).
  assert (Hmono : sent i (tally s i) = true -> sent i a = true).
  { unfold sent, a. cbn [acc np]. rewrite Ha, !andb_true_iff, !Nat.leb_le. intuition lia. }
  assert (Hout : forall k i', due k i' r.2 =
    if decide (CM = k /\ i <> i' /\ i' < N /\ sent i a = true /\ sent i (tally s i) = false) then 1 else 0).
  { intros k i'. rewrite Hr. cbn [snd]. destruct (sent i a), (sent i (tally s i)); cbn [andb negb];
      rewrite ?due_others; repeat destruct (decide _); intuition congruence. }
  unfold s'. clearbody r. subst r. cbn [fst snd] in *. split; [split|].
  - cbn. destruct (decide (i = 0)) as [->|Hi0]; [by rewrite fn_lookup_insert|by rewrite fn_lookup_insert_ne].
  - intros k. cbn. destruct (decide (i = k)) as [<-|Hk]; [rewrite fn_lookup_insert; cbn; congruence|rewrite fn_lookup_insert_ne by done; apply R1].
  - cbn. apply list.Forall_app. split; [done|]. destruct (_ && _); [by apply to_others_ends|constructor].
  - intros k Hk. cbn [packets tally]. rewrite due_app, Hout, decide_False, Nat.add_0_r by by intros [? _].
    specialize (R3 k Hk). rewrite Hd, decide_False in R3 by by intros [? _].
    destruct (decide (i = k)) as [<-|Hne]; [by rewrite fn_lookup_insert|by rewrite fn_lookup_insert_ne].
  - intros k Hk. cbn [packets tally]. rewrite due_app, Hout, decide_False, Nat.add_0_r by by intros [? _].
    specialize (R4 k Hk). rewrite Hd in R4. rewrite preparers_same by done.
    destruct (decide (i = k)) as [<-|Hne]; [rewrite fn_lookup_insert; rewrite decide_True in R4 by done; cbn [np a]; lia|].
    rewrite fn_lookup_insert_ne by done. rewrite decide_False in R4 by by intros [_ ?]. done.
  - intros k Hk. specialize (R5 k Hk). rewrite Hd, decide_False in R5 by by intros [? _].
    cbn [packets tally]. rewrite due_app, Hout.
    assert (Hnc : nc (<[i:=a]> (tally s) k) = nc (tally s k))
      by (destruct (decide (i = k)) as [<-|Hne]; [by rewrite fn_lookup_insert|by rewrite fn_lookup_insert_ne]).
    rewrite Hnc. destruct (decide _) as [(_ & Hne & _ & Hs1 & Hs0)|Hno].
    + rewrite committers_more; [lia|done|unfold committer; by rewrite Hs0, andb_false_r|unfold committer; by rewrite eqb_neq'].
    + rewrite committers_same; [lia|]. unfold committer. destruct (Nat.eqb_spec i k) as [|Hne]; [done|].
      destruct (sent i (tally s i)); [by rewrite Hmono|]. destruct (sent i a); [|done]. destruct Hno. done.
  - unfold remaining. cbn [packets]. rewrite (Permutation_length Hl), length_app, unaccepted_same by done. cbn [length].
    destruct (sent i a) eqn:Hs1, (sent i (tally s i)) eqn:Hs0; cbn [andb negb length].
    + rewrite unsent_same by congruence. lia.
    + rewrite (unsent_less s i Hi a (l ++ to_others CM i N)), length_others by done. nia.
    + exfalso. intuition congruence.
    + rewrite unsent_same by congruence. lia.
Qed.

Lemma deliver_CM s j i l : round_ok s -> packets s ≡ₚ mkPacket CM j i :: l -> acc (tally s i) = true ->
  let s' := mkRound (<[i := mkTally (acc (tally s i)) (np (tally s i)) (S (nc (tally s i)))]> (tally s)) l in
  round_ok s' /\ remaining s = S (remaining s').
Proof.
  intros [R0 R1 R2 R3 R4 R5] Hl Ha s'. set (a := mkTally (acc (tally s i)) (np (tally s i)) (S (nc (tally s i)))).
  rewrite Hl in R2. apply list.Forall_cons in R2 as [Hi R2]. cbn [pk_to] in Hi.
  assert (Hd : forall k i', due k i' (packets s) = (if decide (CM = k /\ i = i') then 1 else 0) + due k i' l)
    by (intros k i'; rewrite (due_perm k i' _ _ Hl); apply due_cons).
  unfold s'. fold a. split; [split|].
  - cbn. destruct (decide (i = 0)) as [->|Hi0]; [by rewrite fn_lookup_insert|by rewrite fn_lookup_insert_ne].
  - intros k. cbn. destruct (decide (i = k)) as [<-|Hk]; [rewrite fn_lookup_insert; cbn; congruence|rewrite fn_lookup_insert_ne by done; apply R1].
  - done.
  - intros k Hk. cbn [packets tally]. specialize (R3 k Hk). rewrite Hd, decide_False in R3 by by intros [? _].
    destruct (decide (i = k)) as [<-|Hne]; [by rewrite fn_lookup_insert|by rewrite fn_lookup_insert_ne].
  - intros k Hk. cbn [packets tally]. specialize (R4 k Hk). rewrite Hd, decide_False in R4 by by intros [? _].
    rewrite preparers_same by done.
    destruct (decide (i = k)) as [<-|Hne]; [by rewrite fn_lookup_insert|by rewrite fn_lookup_insert_ne].
  - intros k Hk. cbn [packets tally]. specialize (R5 k Hk). rewrite Hd in R5. rewrite committers_same by done.
    destruct (decide (i = k)) as [<-|Hne]; [rewrite fn_lookup_insert; rewrite decide_True in R5 by done; cbn [nc a]; lia|].
    rewrite fn_lookup_insert_ne by done. rewrite decide_False in R5 by by intros [_ ?]. done.
  - unfold remaining. cbn [packets]. rewrite (Permutation_length Hl), unaccepted_same, unsent_same by done. cbn [length]. lia.
Qed.

(** A node that no proposal is on the way to has accepted it. *)
Lemma accepted_before s pk l : round_ok s -> packets s ≡ₚ pk :: l -> pk_kind pk <> PP ->
  Forall (fun q => pk_kind q = PP -> pk_to q <> pk_to pk) l -> acc (tally s (pk_to pk)) = true.
Proof.
  intros Hok Hl Hk Hg. assert (Hi : pk_to pk < N).
  { pose proof (ro_ends s Hok) as H. rewrite Hl in H. by apply list.Forall_cons in H as [H _]. }
  pose proof (ro_proposals s Hok _ Hi) as H. rewrite (due_perm _ _ _ _ Hl), due_cons, decide_False in H by tauto.
  apply due_none in Hg. rewrite Hg in H. by destruct (acc _).
Qed.

Lemma deliver_ok s pk s' : 1 <= N -> round_ok s -> deliver s pk s' -> round_ok s' /\ remaining s = S (remaining s').
Proof.
  intros HN Hok Hdel. destruct Hdel as [s0 [k j i] l Hl Hg]. cbn [pk_kind pk_to] in *.
  destruct k; [by apply deliver_PP with j| |].
  - apply deliver_PR with j; try done. by apply (accepted_before s0 (mkPacket PR j i) l); [| |done|apply Hg].
  - cbn. rewrite app_nil_r. apply deliver_CM with j; try done.
    by apply (accepted_before s0 (mkPacket CM j i) l); [| |done|apply Hg].
Qed.

(** With nothing in flight everybody has heard the quorums. *)
Lemma nothing_left s : 3 <= N -> 3 * f <= N - 1 -> round_ok s -> packets s = [] ->
  forall i, i < N -> acc (tally s i) = true /\ sent i (tally s i) = true /\ executed (tally s i) = true.
Proof.
  intros HN Hf Hok Hp. assert (Hacc : forall i, i < N -> acc (tally s i) = true).
  { intros i Hi. pose proof (ro_proposals s Hok i Hi) as H. rewrite Hp in H. by destruct (acc _). }
  assert (Hprep : forall i, i < N -> np (tally s i) = if decide (i = 0) then N - 1 else N - 2).
  { intros i Hi. pose proof (ro_prepares s Hok i Hi) as H. rewrite Hp in H. cbn in H. rewrite H. unfold preparers.
    assert (H0 : num (fun j => negb (j =? 0)) N = N - 1) by (apply num_others; lia).
    destruct (decide (i = 0)) as [->|Hi0].
    - rewrite <- H0. apply num_ext. intros j Hj. unfold preparer. rewrite Hacc by done. by destruct (j =? 0).
    - enough (num (fun j => negb (j =? 0)) N = S (num (fun j => preparer i j (tally s j)) N)) by lia.
      apply num_flip with i; [done|unfold preparer; by rewrite Nat.eqb_refl, andb_false_r|by rewrite eqb_neq'|].
      intros j Hj Hne. unfold preparer. rewrite Hacc, (eqb_neq' j i) by done. by rewrite !andb_true_r. }
  assert (Hsent : forall i, i < N -> sent i (tally s i) = true).
  { intros i Hi. unfold sent, quorum. rewrite Hacc, Hprep by done.
    destruct (decide (i = 0)); cbn [andb]; apply andb_true_iff; rewrite !Nat.leb_le; lia. }
  intros i Hi. split; [by apply Hacc|]. split; [by apply Hsent|].
  pose proof (ro_commits s Hok i Hi) as H. rewrite Hp in H. cbn in H.
  assert (Hc : committers s i = N - 1).
  { unfold committers. rewrite <- (num_others i N Hi). apply num_ext. intros j Hj. unfold committer.
    rewrite Hsent by done. by rewrite andb_true_r. }
  unfold executed. apply andb_true_iff. rewrite !Nat.leb_le. lia.
Qed.

Lemma remaining_none s : 3 <= N -> 3 * f <= N - 1 -> round_ok s -> packets s = [] -> remaining s = 0.
Proof.
  intros HN Hf Hok Hp. unfold remaining, unaccepted, unsent. rewrite Hp.
  rewrite !num_none; [cbn; lia| |]; intros i Hi; destruct (nothing_left s HN Hf Hok Hp i Hi) as (Ha & Hs & _); cbn beta; by rewrite ?Ha, ?Hs.
Qed.

(** Two nodes: the follower hears no prepare but waits for one, so the leader
    hears no commit. *)
Lemma two_nodes s : N = 2 -> round_ok s -> executed (tally s 0) = false.
Proof.
  intros HN Hok. pose proof (ro_prepares s Hok 1 ltac:(lia)) as H1. pose proof (ro_commits s Hok 0 ltac:(lia)) as H0.
  unfold preparers, committers in *. rewrite HN in H1, H0. cbn [num preparer Nat.eqb negb andb] in H1, H0.
  assert (Hs : sent 1 (tally s 1) = false).
  { unfold sent. destruct (np (tally s 1)) as [|n]; [by rewrite andb_false_r|]. unfold preparer in H1. cbn in H1. lia. }
  unfold committer in H0. rewrite Hs in H0. cbn in H0. unfold executed. destruct (nc (tally s 0)); [done|lia].
Qed.

(** While a packet is in flight one can be delivered: a proposal, or any if
    none is in flight. *)
Lemma deliver_any s : packets s <> [] -> exists pk s', deliver s pk s'.
Proof.
  intros Hne. destruct (list_find (fun pk => pk_kind pk = PP) (packets s)) as [[k pk]|] eqn:E.
  - apply list_find_Some in E as (Hk & Hpp & _). apply list_elem_of_lookup_2, elem_of_Permutation in Hk as [l Hl].
    eexists pk, _. by apply (delivered s pk l).
  - apply list_find_None in E. destruct (packets s) as [|pk l] eqn:Ep; [done|].
    eexists pk, _. apply (delivered s pk l); [by rewrite Ep|]. intros _. apply list.Forall_cons in E as [_ E].
    eapply list.Forall_impl; [exact E|]. by intros q.
Qed.
End round.
