(* ===== verification/Shard.v ===== *)
(** * Shard: a round of PBFT among the nodes of a relay shard

    All nodes of one shard and the messages between them: from the proposal of
    the leader to the commit at every node.  A node's counts and flags for the
    proposal's digest are related to the numbers of [Quorum]. *)
From stdpp Require Import base gmap strings list countable functions.
From Stdlib Require Import ZArith Lia.
From S2P Require Import Prelude GoStd Libs Core Pools Messages StorageDB Chain Ledger Execution Pbft PbftProps RelayMod RelayProps Quorum.

(** ** The shard *)
Section shard.
Context {TL : TrieLib} {BL : BoltLib} {HL : Sha256} {CC : CoreCodecs} {MC : MsgCodecs}.
Context {X : Type} {IM : InsideMod X} {OM : OutsideMod X}.

Record Shard := mkShard { sh_nodes : list (PbftConsensusNode X); sh_flight : list Event }.

Definition consensus_types : list MessageType := [CPrePrepare; CPrepare; CCommit].

(** The type of a message that one node sends another. *)
Definition event_type (e : Event) : option MessageType :=
  match e with
  | TcpDial m _ => match SplitMessage m with Ret (t, _) => Some t | _ => None end
  | CSVline _ => None
  end.
Definition event_addr (e : Event) : string := match e with TcpDial _ a => a | CSVline _ => "" end.

Definition consensus (e : Event) : bool :=
  match event_type e with Some t => bool_decide (t ∈ consensus_types) | None => false end.
Definition proposal_to (a : string) (e : Event) : Prop := event_type e = Some CPrePrepare /\ event_addr e = a.

(** A node handles a consensus message that was sent to its address; votes do
    not overtake the proposal. *)
Inductive shard_step : Shard -> Shard -> Prop :=
  | shard_deliver i now m p p' o ns f1 f2 :
      let e := TcpDial m (nd_IPaddr (RunningNode p)) in
      ns !! i = Some p -> consensus e = true ->
      (event_type e <> Some CPrePrepare -> Forall (fun e' => ~ proposal_to (event_addr e) e') (f1 ++ f2)) ->
      step (Receive now (frame m)) p = Ret (tt, p', o) ->
      shard_step (mkShard ns (f1 ++ e :: f2)) (mkShard (<[i := p']> ns) (f1 ++ f2 ++ o)).

(** A run of [k] deliveries. *)
Inductive shard_run : Shard -> nat -> Shard -> Prop :=
  | shard_start s : shard_run s 0 s
  | shard_next s k s1 s2 : shard_run s k s1 -> shard_step s1 s2 -> shard_run s (S k) s2.

(** ** What the handlers write, exactly *)
Implicit Types (p : PbftConsensusNode X).

(** A prepare is counted. *)
Definition prepared (d : bytes) p : PbftConsensusNode X :=
  p <| next_ptr ::= Z.succ |>
    <| cntPrepareConfirm ::= fun m => <[d := {[next_ptr p]} ∪ default ∅ (m !! d)]> m |>.

Lemma handlePrepare_counts c pm p :
  json_dec c = Some pm -> is_Some (requestPool p !! p_Digest pm) -> p_SeqID pm <= sequenceID p ->
  (forall q, HandleinPrepare pm q = Ret (true, q, [])) ->
  handlePrepare c p = commit_if_prepared pm (prepared (p_Digest pm) p).
Proof.
  intros Hd [r Hr] Hs Hin. unfold handlePrepare. rewrite Hd.
  etransitivity; [apply (lift_bind (Ret pm)); reflexivity|]. cbn beta.
  unfold new_ptr. rewrite bind_bind, get_bind, bind_bind, modify_bind, ret_bind, get_bind.
  cbn [requestPool sequenceID set_field]. cbn. rewrite Hr. rewrite (proj2 (Z.ltb_ge _ _) Hs).
  rewrite (quiet_bind _ _ _ _ _ (Hin _)). unfold set2DMap. rewrite modify_bind. reflexivity.
Qed.

Lemma commit_if_prepared_exact pm p m :
  MergeMessage CCommit (json_enc (mkCommit (p_Digest pm) (p_SeqID pm) (RunningNode p))) = Ret m ->
  commit_if_prepared pm p =
    (if (specifiedcnt p <=? count (cntPrepareConfirm p) (p_Digest pm)) && negb (flag_of (isCommitBordcast p) (p_Digest pm))
     then Ret (tt, p <| isCommitBordcast ::= <[p_Digest pm := true]> |>, (fun a => TcpDial m a) <$> others p)
     else Ret (tt, p, [])).
Proof.
  intros Hm. unfold commit_if_prepared. rewrite get_bind. cbn zeta. destruct (_ && _); [|done].
  rewrite <- (app_nil_r (_ <$> others p)). eapply bind_returns; [by apply broadcast_exact|]. reflexivity.
Qed.

(** A pre-prepare for the present, which the module accepts. *)
Lemma handlePrePrepare_exact c pp p p1 m :
  json_dec c = Some pp -> getDigest (pp_RequestMsg pp) = pp_Digest pp -> pp_SeqID pp <= sequenceID p ->
  HandleinPrePrepare pp p = Ret (true, p1, []) ->
  MergeMessage CPrepare (json_enc (mkPrepare (pp_Digest pp) (pp_SeqID pp) (RunningNode p1))) = Ret m ->
  handlePrePrepare c p = Ret (tt, stored (pp_SeqID pp) (pp_RequestMsg pp) p1, (fun a => TcpDial m a) <$> others p1).
Proof.
  intros Hd Heq Hle Hin Hm. unfold handlePrePrepare. rewrite Hd.
  etransitivity; [apply (lift_bind (Ret pp)); reflexivity|]. cbn beta. rewrite get_bind.
  rewrite bool_decide_eq_true_2 by done. rewrite (proj2 (Z.ltb_ge _ _) Hle). cbn [negb].
  rewrite bind_bind, (quiet_bind _ _ _ _ _ Hin), bind_bind. unfold store_request. rewrite modify_bind, ret_bind.
  change (others p1) with (others (stored (pp_SeqID pp) (pp_RequestMsg pp) p1)).
  unfold broadcast_prepare. rewrite get_bind. by apply (broadcast_exact CPrepare).
Qed.
End shard.
Arguments Shard {TL BL} X.

(** ** A round of the relay modules *)
Section round.
Context (P : Params).
Context {TL : TrieLib} {BL : BoltLib} {HL : Sha256} {CC : CoreCodecs} {MC : MsgCodecs}.
Context {TW : TrieLaws TL} {CL : CoreCodecsLaws} {BW : BoltLaws BL} {ML : MsgCodecsLaws}.
Context {LV : TrieLive TL} {LB : BoltLive BL}.
Context {X : Type}.
Implicit Types (p q : PbftConsensusNode X).

#[local] Instance inside : InsideMod X := RawRelayPbftExtraHandleMod P.
#[local] Instance outside : OutsideMod X := RawRelayOutsideModule.
#[local] Instance inside_laws : InsideLaws inside := RawRelay_inside_laws P.

(** The nodes' addresses; the proposed block, its request and its number; the
    leader after its proposal and the followers before it. *)
Context (f : nat) (addrs : list string) (b : Block) (r : Request) (seq : Z) (starts : list (PbftConsensusNode X)).
#[local] Abbreviation N := (length addrs).
#[local] Abbreviation d := (getDigest r).

Definition ip (i : nat) : string := default EmptyString (addrs !! i).

(** What no handler of the round changes. *)
Definition fixed p :=
  (RunningNode p, p_ShardID p, p_NodeID p, pbftChainConfig p, ip_nodeTable p, malicious_nums p, view p, stop p, propose_pc p).

(** Node [i] in a state [p0] in which a round can start. *)
Record can_start (i : nat) p0 : Prop := {
  cs_id : p_NodeID p0 = Z.of_nat i /\ view p0 = 0 /\ stop p0 = false /\ malicious_nums p0 = Z.of_nat f;
  cs_net : nd_IPaddr (RunningNode p0) = ip i /\ getNeighborNodes p0 ≡ₚ addrs;
  cs_seq : sequenceID p0 = seq;
  cs_votes : cntPrepareConfirm p0 !! d = None /\ cntCommitConfirm p0 !! d = None /\
    flag_of (isCommitBordcast p0) d = false /\ flag_of (isReply p0) d = false }.

(** The chain of node [i], which had the chain [c0], once it has executed. *)
Definition committed (i : nat) (c0 c : BlockChain) : Prop :=
  exists c1, AddBlock P b c0 = Ret c1 /\
    if decide (i = O) then exists pool body, c = c1 <| bc_Txpool := pool |> <| bc_CurrentBlock ::=
         fun b0 => if next_height b c0 then b0 <| b_Body := body |> else b0 |>
    else c = c1.

(** Votes are counted by their pointers, all older than the next. *)
Definition counts (m : gmap bytes (gset Z)) p (n : nat) : Prop :=
  count m d = Z.of_nat n /\ forall x, x ∈ default ∅ (m !! d) -> x < next_ptr p.

(** Node [i], which started as [p0], and its numbers [a]. *)
Record node_rel (i : nat) p0 (a : Tally) p : Prop := {
  nr_fixed : fixed p = fixed p0;
  nr_prepares : counts (cntPrepareConfirm p) p (np a);
  nr_commits : counts (cntCommitConfirm p) p (nc a);
  nr_sent : flag_of (isCommitBordcast p) d = sent f i a;
  nr_executed : flag_of (isReply p) d = executed f a;
  nr_request : acc a = true -> requestPool p !! d = Some r;
  nr_seq : sequenceID p = if executed f a then u64 (seq + 1) else seq;
  nr_chain : if executed f a then committed i (CurChain p0) (CurChain p) else CurChain p = CurChain p0;
  nr_lock : i = O -> sequenceLock p = negb (executed f a) }.

(** The messages of the round. *)
Definition sender (j : nat) : Node := match starts !! j with Some p => RunningNode p | None => mkNode 0 0 "" end.
Definition pk_type (k : Kind) : MessageType := match k with PP => CPrePrepare | PR => CPrepare | CM => CCommit end.
Definition pk_content (k : Kind) (j : nat) : bytes :=
  match k with
  | PP => json_enc (mkPrePrepare r d seq)
  | PR => json_enc (mkPrepare d seq (sender j))
  | CM => json_enc (mkCommit d seq (sender j))
  end.
Definition pk_wire (k : Kind) (j : nat) : bytes :=
  match MergeMessage (pk_type k) (pk_content k j) with Ret m => m | _ => "" end.
Definition pk_event (pk : Packet) : Event := TcpDial (pk_wire (pk_kind pk) (pk_from pk)) (ip (pk_to pk)).

Lemma pk_type_known k : pk_type k ∈ message_types /\ pk_type k ∈ consensus_types.
Proof. destruct k; split; apply (bool_decide_unpack _); reflexivity. Qed.

Lemma pk_merge k j : MergeMessage (pk_type k) (pk_content k j) = Ret (pk_wire k j).
Proof.
  unfold pk_wire. destruct (MergeMessage_ok (pk_type k) (pk_content k j)) as [m Hm].
  - apply message_types_ok, pk_type_known.
  - by rewrite Hm.
Qed.
Lemma pk_split k j : SplitMessage (pk_wire k j) = Ret (pk_type k, pk_content k j) /\
  SplitMessage (frame (pk_wire k j)) = Ret (pk_type k, frame (pk_content k j)).
Proof.
  split; apply SplitMessage_MergeMessage; try apply message_types_ok, pk_type_known.
  - apply pk_merge.
  - apply MergeMessage_frame, pk_merge.
Qed.
Lemma pk_event_type pk : event_type (pk_event pk) = Some (pk_type (pk_kind pk)).
Proof. unfold event_type, pk_event. by rewrite (proj1 (pk_split _ _)). Qed.
Lemma pk_consensus pk : consensus (pk_event pk) = true.
Proof. unfold consensus. rewrite pk_event_type. apply bool_decide_eq_true_2, pk_type_known. Qed.

(** *** Hypotheses of the round *)
Context (Hdup : NoDup addrs) (Hf : Z.of_nat f < 2 ^ 62) (Hseq : 0 <= seq < 2 ^ 64 - 1) (Hreq : req_Msg r = enc b).
Context (Hstarts : length starts = N) (Hready : forall i p0, starts !! i = Some p0 -> can_start i p0).
Context (Hvalid : forall i p0, starts !! i = Some p0 -> i <> O -> IsValidBlock b (CurChain p0) = None).
Context (Hadd : forall i p0, starts !! i = Some p0 -> exists c1, AddBlock P b (CurChain p0) = Ret c1 /\
  Forall (has_dest P c1) (b_Body b)).

Lemma ip_lookup i : (i < N)%nat -> addrs !! i = Some (ip i).
Proof. intros Hi. unfold ip. by destruct (lookup_lt_is_Some_2 addrs i Hi) as [a ->]. Qed.
Lemma ip_inj i j : (i < N)%nat -> (j < N)%nat -> ip i = ip j -> i = j.
Proof. intros Hi Hj E. apply (NoDup_lookup addrs i j (ip i) Hdup); [by apply ip_lookup|rewrite E; by apply ip_lookup]. Qed.

Lemma take_others i k n : (i < N)%nat -> (n <= N)%nat ->
  filter (fun a => a <> ip i) (take n addrs) ≡ₚ ip ∘ pk_to <$> to_others k i n.
Proof.
  intros Hi. induction n as [|n IH]; intros Hn; [done|]. cbn [to_others].
  rewrite (take_S_r _ _ _ (ip_lookup n Hn)), list.filter_app, IH by lia. rewrite Permutation_app_comm, fmap_app.
  apply Permutation_app_tail. rewrite filter_cons, filter_nil. destruct (decide (n = i)) as [->|Hne].
  - by rewrite decide_False by tauto.
  - rewrite decide_True; [done|]. intros E. apply Hne, ip_inj; [lia|done|done].
Qed.

(** A broadcast is the packets to the others. *)
Lemma broadcast_packets k i p0 p : starts !! i = Some p0 -> fixed p = fixed p0 ->
  (fun a => TcpDial (pk_wire k i) a) <$> others p ≡ₚ pk_event <$> to_others k i N.
Proof.
  intros Hi Hfix. assert (Hlt : (i < N)%nat) by (rewrite <- Hstarts; by eapply lookup_lt_Some).
  destruct (Hready i p0 Hi) as [_ [H1 H2] _ _].
  assert (Ho : others p ≡ₚ ip ∘ pk_to <$> to_others k i N).
  { rewrite <- (take_others i k N Hlt) by lia. rewrite firstn_all. unfold others, getNeighborNodes.
    unfold fixed in Hfix. assert (E1 : RunningNode p = RunningNode p0) by congruence.
    assert (E2 : ip_nodeTable p = ip_nodeTable p0) by congruence. assert (E3 : p_ShardID p = p_ShardID p0) by congruence.
    rewrite E1, E2, E3, H1. by apply list.filter_Permutation. }
  rewrite Ho, <- list_fmap_compose. apply reflexive_eq, list_fmap_ext. intros n pk Hpk.
  apply list_elem_of_lookup_2, to_others_from in Hpk as [Hk Hj]. unfold pk_event. by rewrite Hk, Hj.
Qed.

(** *** One node *)
Lemma step_kind k j now p : stop p = false ->
  step (Receive now (frame (pk_wire k j))) p =
  match k with PP => handlePrePrepare | PR => handlePrepare | CM => handleCommit now end (frame (pk_content k j)) p.
Proof.
  intros Hs. cbn [step]. rewrite get_bind, Hs. unfold handleMessage. rewrite (proj2 (pk_split k j)).
  etransitivity; [apply (lift_bind (Ret (pk_type k, frame (pk_content k j)))); reflexivity|]. by destruct k.
Qed.

Lemma sender_of i p0 p : starts !! i = Some p0 -> fixed p = fixed p0 -> RunningNode p = sender i.
Proof. intros Hi Hfix. unfold sender. rewrite Hi. unfold fixed in Hfix. congruence. Qed.

Lemma counts_later m p q n : counts m p n -> next_ptr p <= next_ptr q -> counts m q n.
Proof. intros [H1 H2] Hle. split; [done|]. intros x Hx%H2. lia. Qed.
Lemma counts_vote m p q n : counts m p n -> next_ptr q = Z.succ (next_ptr p) ->
  counts (<[d := {[next_ptr p]} ∪ default ∅ (m !! d)]> m) q (S n).
Proof.
  intros [H1 H2] Hq. unfold counts, count in *. rewrite lookup_insert_eq. cbn. split.
  - rewrite size_union, size_singleton; [lia|].
    intros x ->%elem_of_singleton Hx%H2. lia.
  - intros x Hx. change (x ∈ {[next_ptr p]} ∪ default ∅ (m !! d)) in Hx.
    apply elem_of_union in Hx as [->%elem_of_singleton|Hx%H2]; lia.
Qed.

Lemma thresholds i p0 p : starts !! i = Some p0 -> fixed p = fixed p0 ->
  specifiedcnt p = 2 * Z.of_nat f - (if decide (i = O) then 0 else 1) /\ required_cnt p = 2 * Z.of_nat f /\
  (p_NodeID p =? view p) = bool_decide (i = O) /\ stop p = false.
Proof.
  intros Hi Hfix. destruct (Hready i p0 Hi) as [(H1 & H2 & H3 & H4) _ _ _]. unfold fixed in Hfix.
  assert (E1 : p_NodeID p = Z.of_nat i) by congruence. assert (E2 : view p = 0) by congruence.
  assert (E3 : malicious_nums p = Z.of_nat f) by congruence. assert (E4 : stop p = false) by congruence.
  unfold specifiedcnt, required_cnt. rewrite E1, E2, E3. rewrite u64_small, i64_small by lia.
  destruct (decide (i = O)) as [->|Hne]; [by rewrite Z.sub_0_r|]. rewrite (proj2 (Z.eqb_neq (Z.of_nat i) 0)) by lia.
  by rewrite bool_decide_eq_false_2.
Qed.

(** A node with a proposal it has not seen. *)
Lemma receive_PP i p0 a p j now : starts !! i = Some p0 -> i <> O -> node_rel i p0 a p ->
  np a = O -> nc a = O ->
  exists p' o, step (Receive now (frame (pk_wire PP j))) p = Ret (tt, p', o) /\
    node_rel i p0 (receive N f i PP a).1 p' /\ o ≡ₚ pk_event <$> (receive N f i PP a).2.
Proof.
  intros Hi Hi0 [H1 H2 H3 H4 H5 H6 H7 H8 H9] Hnp Hnc. destruct (thresholds i p0 p Hi H1) as (_ & _ & _ & Hst).
  assert (Hex : executed f a = false) by (unfold executed; by rewrite Hnc). rewrite Hex in H7, H8.
  set (pp := mkPrePrepare r d seq). set (p1 := p <| requestPool ::= <[d := r]> |>).
  assert (Hask : HandleinPrePrepare pp p = Ret (true, p1, [])).
  { cbn [HandleinPrePrepare inside RawRelayPbftExtraHandleMod]. unfold Relay_HandleinPrePrepare.
    rewrite get_bind. cbn [pp_RequestMsg pp]. rewrite Hreq, dec_enc.
    erewrite (lift_bind (Ret b)) by reflexivity. rewrite H8, (Hvalid i p0 Hi Hi0), modify_bind. reflexivity. }
  exists (stored seq r p1), ((fun a => TcpDial (pk_wire PR i) a) <$> others p1). split_and!.
  - rewrite step_kind by done. apply (handlePrePrepare_exact _ pp p p1).
    + apply json_dec_frame.
    + done.
    + cbn. lia.
    + done.
    + cbn [pp_Digest pp_SeqID pp]. change (RunningNode p1) with (RunningNode p). rewrite (sender_of i p0 p Hi H1). apply (pk_merge PR).
  - cbn [receive fst]. split; try done; cbn [np nc].
    + cbn. rewrite H4. unfold sent. cbn. by rewrite Hnp, !andb_false_r.
    + intros _. cbn. by rewrite lookup_insert_eq.
    + change (executed f (mkTally true (np a) (nc a))) with (executed f a). by rewrite Hex.
    + change (executed f (mkTally true (np a) (nc a))) with (executed f a). by rewrite Hex.
  - apply (broadcast_packets PR i p0); [done|]. exact H1.
Qed.

(** A prepare, at a node that has accepted. *)
Lemma receive_PR i p0 a p j now : starts !! i = Some p0 -> node_rel i p0 a p -> acc a = true ->
  exists p' o, step (Receive now (frame (pk_wire PR j))) p = Ret (tt, p', o) /\
    node_rel i p0 (receive N f i PR a).1 p' /\ o ≡ₚ pk_event <$> (receive N f i PR a).2.
Proof.
  intros Hi [H1 H2 H3 H4 H5 H6 H7 H8 H9] Ha. destruct (thresholds i p0 p Hi H1) as (Ht & _ & _ & Hst).
  rewrite step_kind by done. set (pm := mkPrepare d seq (sender j)). set (a' := mkTally (acc a) (S (np a)) (nc a)).
  rewrite (handlePrepare_counts _ pm); [|apply json_dec_frame|by exists r; apply H6| |done].
  2: { cbn. rewrite H7. destruct (executed f a); [rewrite u64_small|]; lia. }
  cbn [p_Digest pm]. rewrite (commit_if_prepared_exact pm _ (pk_wire CM i)).
  2: { cbn [p_Digest p_SeqID pm]. change (RunningNode (prepared d p)) with (RunningNode p).
       rewrite (sender_of i p0 p Hi H1). apply (pk_merge CM). }
  cbn [p_Digest pm]. change (specifiedcnt (prepared d p)) with (specifiedcnt p).
  change (isCommitBordcast (prepared d p)) with (isCommitBordcast p). rewrite H4, Ht.
  assert (Hcnt : counts (cntPrepareConfirm (prepared d p)) (prepared d p) (S (np a))) by by apply counts_vote.
  rewrite (proj1 Hcnt).
  assert (Hcond : (2 * Z.of_nat f - (if decide (i = O) then 0 else 1) <=? Z.of_nat (S (np a))) = sent f i a').
  { unfold sent, quorum, a'. cbn [acc np]. rewrite Ha. cbn [andb]. apply Bool.eq_iff_eq_true.
    rewrite andb_true_iff, !Nat.leb_le, Z.leb_le. destruct (decide (i = O)); lia. }
  rewrite Hcond. cbn [receive fst snd]. fold a'.
  destruct (sent f i a' && negb (sent f i a)) eqn:Es.
  - eexists _, _. split; [reflexivity|]. split; [|apply (broadcast_packets CM i p0); [done|exact H1]].
    apply andb_true_iff in Es as [Es _]. split; try done; try exact Hcnt; cbn [np nc a'].
    + eapply counts_later; [exact H3|]. cbn. lia.
    + cbn. rewrite flag_insert_eq. by rewrite Es.
  - exists (prepared d p), []. split; [done|]. split; [|done].
    split; try done; try exact Hcnt; cbn [np nc a'].
    + eapply counts_later; [exact H3|]. cbn. lia.
    + change (isCommitBordcast (prepared d p)) with (isCommitBordcast p). rewrite H4. fold a'.
      destruct (sent f i a) eqn:E0; [|by destruct (sent f i a')]. symmetry.
      revert E0. unfold sent, a'. cbn [acc np]. rewrite !andb_true_iff, !Nat.leb_le. intuition lia.
Qed.

(** What the leader sends after a commit is not for its shard's consensus. *)
Lemma not_consensus t c m a : t ∈ message_types -> t ∉ consensus_types -> MergeMessage t c = Ret m ->
  consensus (TcpDial m a) = false.
Proof.
  intros Ht Hn Hm. unfold consensus, event_type. rewrite (SplitMessage_MergeMessage t c m (message_types_ok t Ht) Hm).
  by apply bool_decide_eq_false_2.
Qed.

Lemma relay_events_other p body sids : Forall (fun e => consensus e = false) (sids ≫= relay_event P p body).
Proof.
  apply list.Forall_forall. intros e (sid & He & _)%list_elem_of_bind. unfold relay_event in He.
  destruct (decide _); [by apply not_elem_of_nil in He|].
  destruct (MergeMessage _ _) as [m| |] eqn:Hm; [|by apply not_elem_of_nil in He..].
  apply list_elem_of_singleton in He as ->.
  eapply (not_consensus CRelay); [apply (bool_decide_unpack _); reflexivity..|exact Hm].
Qed.

(** The module's part of executing a commit. *)
Lemma HandleinCommit_round now i p0 p cm : starts !! i = Some p0 -> fixed p = fixed p0 ->
  CurChain p = CurChain p0 -> requestPool p !! d = Some r -> c_Digest cm = d ->
  exists c o, Relay_HandleinCommit P now cm p = Ret (true, p <| CurChain := c |>, o) /\
    committed i (CurChain p0) c /\ Forall (fun e => consensus e = false) o.
Proof.
  intros Hi Hfix Hc Hr Hcm. destruct (thresholds i p0 p Hi Hfix) as (_ & _ & Hv & _).
  destruct (Hadd i p0 Hi) as (c1 & Ha & Hdest). unfold committed. rewrite <- Hc in *.
  destruct (decide (i = O)) as [->|Hi0].
  - rewrite bool_decide_eq_true_2 in Hv by done. apply Z.eqb_eq in Hv.
    destruct (HandleinCommit_leader P now cm p r b c1) as (p' & rep & E & (m & c & a & l & -> & Hm) & pool & body & -> & _);
      [done|by rewrite Hcm|by rewrite Hreq, dec_enc|done|done|].
    eexists _, _. split; [exact E|]. split; [exists c1; split; [done|by exists pool, body]|].
    apply list.Forall_app. split; [apply relay_events_other|]. repeat constructor.
    eapply (not_consensus CBlockInfo); [apply (bool_decide_unpack _); reflexivity..|exact Hm].
  - rewrite bool_decide_eq_false_2 in Hv by done. apply Z.eqb_neq in Hv.
    exists c1, []. split; [|split; [by exists c1|constructor]].
    apply (commit_follower P now cm p r b c1); [done|by rewrite Hcm|done|done].
Qed.

(** A commit, at a node that has accepted. *)
Lemma receive_CM i p0 a p j now : starts !! i = Some p0 -> node_rel i p0 a p -> acc a = true ->
  exists p' o, step (Receive now (frame (pk_wire CM j))) p = Ret (tt, p', o) /\
    node_rel i p0 (receive N f i CM a).1 p' /\ Forall (fun e => consensus e = false) o.
Proof.
  intros Hi [H1 H2 H3 H4 H5 H6 H7 H8 H9] Ha. destruct (thresholds i p0 p Hi H1) as (_ & Ht & Hv & Hst).
  rewrite step_kind by done. set (cm := mkCommit d seq (sender j)). set (a' := mkTally (acc a) (np a) (S (nc a))).
  rewrite (handleCommit_unfold now _ cm) by apply json_dec_frame. cbn zeta. cbn [c_Digest cm].
  set (q := voted d p). assert (Hcnt : counts (cntCommitConfirm q) q (S (nc a))) by by apply counts_vote.
  assert (Hprep : counts (cntPrepareConfirm q) q (np a)) by (eapply counts_later; [exact H2|]; cbn; lia).
  assert (Hq : fixed q = fixed p0) by exact H1.
  change (required_cnt q) with (required_cnt p). rewrite (proj1 Hcnt), Ht.
  change (isReply q) with (isReply p). rewrite H5. change (p_NodeID q =? view q) with (p_NodeID p =? view p). rewrite Hv.
  change (requestPool q) with (requestPool p). rewrite (H6 Ha).
  assert (Hcond : (2 * Z.of_nat f <=? Z.of_nat (S (nc a))) = executed f a').
  { unfold executed, a'. cbn [nc]. apply Bool.eq_iff_eq_true. rewrite andb_true_iff, !Nat.leb_le, Z.leb_le. lia. }
  rewrite Hcond. cbn [receive fst]. fold a'.
  assert (Hmono : executed f a = true -> executed f a' = true).
  { unfold executed, a'. cbn [nc]. rewrite !andb_true_iff, !Nat.leb_le. lia. }
  destruct (executed f a) eqn:Ex.
  - rewrite andb_false_r. exists q, []. split; [done|]. split; [|done]. rewrite Hmono in Hcond by done.
    split; try done; rewrite Hmono by done; done.
  - cbn [negb]. rewrite andb_true_r. destruct (executed f a') eqn:Ex'.
    2: { exists q, []. split; [done|]. split; [|done]. split; try done; by rewrite Ex'. }
    destruct (HandleinCommit_round now i p0 q cm Hi Hq H8 (H6 Ha) eq_refl) as (c & o & E & Hc & Ho).
    apply (execute_commit_returns P now cm q _ o) in E. cbn [c_Digest cm] in E.
    set (q1 := q <| CurChain := c |> <| isReply ::= <[d := true]> |> <| sequenceID ::= fun s => u64 (s + 1) |>) in E.
    set (q2 := if decide (i = O) then q1 <| sequenceLock := false |> else q1).
    exists q2, o. split; [|split; [|done]].
    + rewrite <- (app_nil_r o). eapply bind_returns; [exact E|]. unfold q2.
      destruct (decide (i = O)) as [Hi0|Hi0]; [rewrite bool_decide_eq_true_2 by done|by rewrite bool_decide_eq_false_2].
      unfold unlock_sequenceLock. rewrite get_bind. change (sequenceLock q1) with (sequenceLock p). by rewrite H9.
    + unfold q2. destruct (decide (i = O)); (split; rewrite ?Ex'; try done;
        [cbn; by rewrite flag_insert_eq|cbn; by rewrite H7]).
Qed.

(** *** The shard and its numbers *)
Definition in_round (fl : list Event) : list Event := filter (fun e => consensus e = true) fl.

Record shard_rel (s : Round) (sg : Shard X) : Prop := {
  sr_length : length (sh_nodes sg) = N;
  sr_nodes : forall i p0 p, starts !! i = Some p0 -> sh_nodes sg !! i = Some p -> node_rel i p0 (tally s i) p;
  sr_flight : in_round (sh_flight sg) ≡ₚ pk_event <$> packets s }.

Lemma in_round_packets l : in_round (pk_event <$> l) = pk_event <$> l.
Proof.
  induction l as [|pk l IH]; [done|]. rewrite fmap_cons. unfold in_round in *. rewrite filter_cons, decide_True by apply pk_consensus.
  by rewrite IH.
Qed.
Lemma in_round_perm o l : o ≡ₚ pk_event <$> l -> in_round o ≡ₚ pk_event <$> l.
Proof. intros H. rewrite <- (in_round_packets l). by apply list.filter_Permutation. Qed.
Lemma in_round_none o : Forall (fun e => consensus e = false) o -> in_round o = [].
Proof. induction 1 as [|e o He _ IH]; [done|]. unfold in_round in *. rewrite filter_cons, decide_False; [done|]. by rewrite He. Qed.

Lemma node_receives i p0 a p k j now : starts !! i = Some p0 -> node_rel i p0 a p ->
  (k = PP -> i <> O /\ np a = O /\ nc a = O) -> (k <> PP -> acc a = true) ->
  exists p' o, step (Receive now (frame (pk_wire k j))) p = Ret (tt, p', o) /\
    node_rel i p0 (receive N f i k a).1 p' /\ in_round o ≡ₚ pk_event <$> (receive N f i k a).2.
Proof.
  intros Hi Hn Hpp Hacc. destruct k.
  - destruct (Hpp eq_refl) as (Hi0 & Hnp & Hnc). destruct (receive_PP i p0 a p j now Hi Hi0 Hn Hnp Hnc) as (p' & o & E & Hn' & Ho).
    exists p', o. by apply in_round_perm in Ho.
  - destruct (receive_PR i p0 a p j now Hi Hn) as (p' & o & E & Hn' & Ho); [by apply Hacc|].
    exists p', o. by apply in_round_perm in Ho.
  - destruct (receive_CM i p0 a p j now Hi Hn) as (p' & o & E & Hn' & Ho); [by apply Hacc|].
    exists p', o. by rewrite (in_round_none o Ho).
Qed.

(** No proposal on the way to a node, in both readings. *)
Lemma no_proposal i fl l : (i < N)%nat -> Forall (fun pk => (pk_to pk < N)%nat) l -> in_round fl ≡ₚ pk_event <$> l ->
  Forall (fun e => ~ proposal_to (ip i) e) fl <-> Forall (fun pk => pk_kind pk = PP -> pk_to pk <> i) l.
Proof.
  intros Hi Hl Hp. rewrite !list.Forall_forall in *. split.
  - intros H pk Hpk Hk E. apply (H (pk_event pk)).
    + assert (Hin : pk_event pk ∈ in_round fl) by (rewrite Hp; by apply list_elem_of_fmap_2).
      by apply list_elem_of_filter in Hin as [_ Hin].
    + split; [by rewrite pk_event_type, Hk|]. cbn. by rewrite E.
  - intros H e He [Ht Ha]. assert (Hin : e ∈ in_round fl).
    { apply list_elem_of_filter. split; [|done]. unfold consensus. rewrite Ht. reflexivity. }
    rewrite Hp in Hin. apply list_elem_of_fmap in Hin as (pk & -> & Hpk). rewrite pk_event_type in Ht.
    apply (H pk Hpk); [by destruct (pk_kind pk)|]. apply ip_inj; [by apply Hl|done|exact Ha].
Qed.

(** What the counting says of the node a packet goes to. *)
Lemma packet_target s pk l : round_ok N f s -> packets s ≡ₚ pk :: l ->
  (pk_to pk < N)%nat /\ Forall (fun pk => (pk_to pk < N)%nat) l /\
  (pk_kind pk = PP -> pk_to pk <> O /\ np (tally s (pk_to pk)) = O /\ nc (tally s (pk_to pk)) = O).
Proof.
  intros Hok Hl. pose proof (ro_ends _ _ s Hok) as He. rewrite Hl in He. apply list.Forall_cons in He as [Hi He].
  split; [done|]. split; [done|]. intros Hk.
  pose proof (ro_proposals _ _ s Hok _ Hi) as H. rewrite (due_perm _ _ _ _ Hl), due_cons, decide_True in H by done.
  destruct (acc (tally s (pk_to pk))) eqn:Ea; [done|]. split; [|by apply (ro_fresh _ _ s Hok)].
  intros E. rewrite E, (ro_leader _ _ s Hok) in Ea. done.
Qed.

Lemma flight_split e f1 f2 s pk l : consensus e = true -> packets s ≡ₚ pk :: l -> e = pk_event pk ->
  in_round (f1 ++ e :: f2) ≡ₚ pk_event <$> packets s -> in_round (f1 ++ f2) ≡ₚ pk_event <$> l.
Proof.
  intros He Hl -> H. rewrite Hl, fmap_cons in H. unfold in_round in *.
  rewrite list.filter_app, filter_cons, decide_True in H by done. rewrite list.filter_app.
  apply (Permutation_cons_inv (a := pk_event pk)). by rewrite <- H, Permutation_middle.
Qed.

(** A delivery at the node the packet goes to. *)
Lemma deliver_at s sg pk l now e f1 f2 : round_ok N f s -> shard_rel s sg -> packets s ≡ₚ pk :: l ->
  (pk_kind pk <> PP -> Forall (fun pk' => pk_kind pk' = PP -> pk_to pk' <> pk_to pk) l) ->
  sh_flight sg = f1 ++ e :: f2 -> e = pk_event pk ->
  exists p p' o s', sh_nodes sg !! pk_to pk = Some p /\ nd_IPaddr (RunningNode p) = ip (pk_to pk) /\
    step (Receive now (frame (pk_wire (pk_kind pk) (pk_from pk)))) p = Ret (tt, p', o) /\
    deliver N f s pk s' /\ shard_rel s' (mkShard (<[pk_to pk := p']> (sh_nodes sg)) (f1 ++ f2 ++ o)).
Proof.
  intros Hok [S1 S2 S3] Hl Hg Hfl He. destruct (packet_target s pk l Hok Hl) as (Hi & Hends & Hpp).
  destruct (lookup_lt_is_Some_2 (sh_nodes sg) (pk_to pk)) as [p Hp]; [by rewrite S1|].
  destruct (lookup_lt_is_Some_2 starts (pk_to pk)) as [p0 Hp0]; [by rewrite Hstarts|].
  pose proof (S2 _ _ _ Hp0 Hp) as Hn.
  destruct (node_receives (pk_to pk) p0 _ p (pk_kind pk) (pk_from pk) now Hp0 Hn Hpp) as (p' & o & E & Hn' & Ho).
  { intros Hk. apply (accepted_before N f s pk l); [done|done|done|by apply Hg]. }
  eexists p, p', o, _. split; [done|]. split; [|split; [exact E|split; [by apply (delivered N f s pk l)|split]]].
  - pose proof (nr_fixed _ _ _ _ Hn) as Hfix. destruct (Hready _ _ Hp0) as [_ [<- _] _ _]. unfold fixed in Hfix. congruence.
  - cbn. by rewrite length_insert.
  - intros i q0 q Hq0 Hq. cbn [sh_nodes tally] in *. destruct (decide (pk_to pk = i)) as [<-|Hne].
    + rewrite list_lookup_insert_eq in Hq by (rewrite S1; done). injection Hq as <-. rewrite fn_lookup_insert.
      by assert (p0 = q0) as <- by congruence.
    + rewrite list_lookup_insert_ne in Hq by done. rewrite fn_lookup_insert_ne by done. by apply S2.
  - cbn [sh_flight packets]. rewrite app_assoc. unfold in_round. rewrite list.filter_app, fmap_app.
    apply Permutation_app; [|exact Ho]. apply (flight_split e f1 f2 s pk l); [by rewrite He; apply pk_consensus|done|done|].
    by rewrite <- Hfl.
Qed.

Lemma sim_step s sg sg' : (1 <= N)%nat -> round_ok N f s -> shard_rel s sg -> shard_step sg sg' ->
  exists s', round_ok N f s' /\ remaining N f s = S (remaining N f s') /\ shard_rel s' sg'.
Proof.
  intros HN Hok Hrel Hstep. destruct Hstep as [i now m p p' o ns f1 f2 e Hp Hc Hg E].
  pose proof Hrel as [S1 S2 S3]. cbn [sh_nodes sh_flight] in *.
  assert (Hi : (i < N)%nat) by (rewrite <- S1; by eapply lookup_lt_Some).
  destruct (lookup_lt_is_Some_2 starts i) as [p0 Hp0]; [by rewrite Hstarts|].
  assert (Hip : nd_IPaddr (RunningNode p) = ip i).
  { pose proof (nr_fixed _ _ _ _ (S2 _ _ _ Hp0 Hp)) as Hfix. destruct (Hready _ _ Hp0) as [_ [<- _] _ _]. unfold fixed in Hfix. congruence. }
  assert (Hin : e ∈ pk_event <$> packets s).
  { rewrite <- S3. apply list_elem_of_filter. split; [done|]. set_solver. }
  apply list_elem_of_fmap in Hin as (pk & He & Hpk). apply elem_of_Permutation in Hpk as [l Hl].
  destruct (packet_target s pk l Hok Hl) as (Hj & Hends & _).
  assert (Hij : pk_to pk = i). { apply ip_inj; [done|done|]. rewrite <- Hip. by injection He as _ ->. }
  assert (Hfl : in_round (f1 ++ f2) ≡ₚ pk_event <$> l) by by apply (flight_split e f1 f2 s pk l).
  assert (Hguard : pk_kind pk <> PP -> Forall (fun pk' => pk_kind pk' = PP -> pk_to pk' <> pk_to pk) l).
  { intros Hk. apply (no_proposal (pk_to pk) (f1 ++ f2)); [done|done|done|]. rewrite Hij, <- Hip. apply Hg.
    rewrite He, pk_event_type. by destruct (pk_kind pk). }
  destruct (deliver_at s (mkShard ns (f1 ++ e :: f2)) pk l now e f1 f2 Hok Hrel Hl Hguard eq_refl He)
    as (p2 & p2' & o2 & s' & Hp2 & _ & E2 & Hd & Hrel').
  cbn [sh_nodes] in *. rewrite Hij in *. assert (p2 = p) as -> by congruence.
  assert (Hm : m = pk_wire (pk_kind pk) (pk_from pk)) by by injection He.
  rewrite <- Hm in E2. rewrite E in E2. injection E2 as <- <-.
  destruct (deliver_ok N f s pk s' HN Hok Hd) as [Hok' Hrem]. by exists s'.
Qed.

Lemma sim_run s0 sg0 k sg : (1 <= N)%nat -> round_ok N f s0 -> shard_rel s0 sg0 -> shard_run sg0 k sg ->
  exists s, round_ok N f s /\ (remaining N f s + k)%nat = remaining N f s0 /\ shard_rel s sg.
Proof.
  intros HN Hok Hrel Hrun. induction Hrun as [sg|sg0 k sg1 sg2 _ IH Hstep]; [exists s0; split; [done|split; [lia|done]]|].
  destruct (IH Hrel) as (s1 & Hok1 & Hrem1 & Hrel1). destruct (sim_step s1 sg1 sg2 HN Hok1 Hrel1 Hstep) as (s2 & Hok2 & Hrem2 & Hrel2).
  exists s2. split; [done|]. split; [lia|done].
Qed.

Lemma sim_progress s sg : (3 <= N)%nat -> (3 * f <= N - 1)%nat -> round_ok N f s -> shard_rel s sg ->
  (0 < remaining N f s)%nat -> exists sg', shard_step sg sg'.
Proof.
  intros HN H3f Hok Hrel Hrem.
  destruct (deliver_any N f s) as (pk & s' & Hd).
  { intros Hp. rewrite (remaining_none N f s HN H3f Hok Hp) in Hrem. lia. }
  destruct Hd as [s pk l Hl Hg]. pose proof Hrel as [S1 S2 S3].
  assert (Hin : pk_event pk ∈ sh_flight sg).
  { assert (H : pk_event pk ∈ in_round (sh_flight sg)) by (rewrite S3; apply list_elem_of_fmap_2; rewrite Hl; set_solver).
    by apply list_elem_of_filter in H as [_ H]. }
  apply list_elem_of_split in Hin as (f1 & f2 & Hfl). destruct (packet_target s pk l Hok Hl) as (Hj & Hends & _).
  destruct (deliver_at s sg pk l 0 (pk_event pk) f1 f2 Hok Hrel Hl Hg Hfl eq_refl) as (p & p' & o & _ & Hp & Hip & E & _).
  exists (mkShard (<[pk_to pk := p']> (sh_nodes sg)) (f1 ++ f2 ++ o)). destruct sg as [ns fl]. cbn [sh_nodes sh_flight] in *. subst fl.
  pose proof (shard_deliver (pk_to pk) 0 (pk_wire (pk_kind pk) (pk_from pk)) p p' o ns f1 f2) as Hs.
  cbn zeta in Hs. rewrite Hip in Hs. apply Hs; [done|apply pk_consensus| |done].
  intros Ht. apply (no_proposal (pk_to pk) (f1 ++ f2) l); [done|done| |].
  - by apply (flight_split (pk_event pk) f1 f2 s pk l (pk_consensus pk) Hl eq_refl).
  - apply Hg. intros Hk. apply Ht. change (TcpDial _ (ip (pk_to pk))) with (pk_event pk). by rewrite pk_event_type, Hk.
Qed.

(** The start: the leader's proposals in flight, nothing counted. *)
Lemma counts_none (m : gmap bytes (gset Z)) p : m !! d = None -> counts m p O.
Proof. intros H. unfold counts, count. rewrite H. split; [done|]. cbn. set_solver. Qed.

Lemma start_rel L1 Fs : starts = L1 :: Fs -> requestPool L1 !! d = Some r -> sequenceLock L1 = true ->
  shard_rel (proposal N) (mkShard starts ((fun a => TcpDial (pk_wire PP 0) a) <$> others L1)).
Proof.
  intros Hst Hr Hlock. assert (H0 : starts !! 0%nat = Some L1) by by rewrite Hst. split.
  - done.
  - intros i p0 p Hp0 Hp. cbn [sh_nodes] in Hp. assert (p = p0) as -> by congruence.
    destruct (Hready i p0 Hp0) as [_ _ H1 (H2 & H3 & H4 & H5)]. cbn [proposal tally].
    split; try done; cbn [np nc acc].
    + by apply counts_none.
    + by apply counts_none.
    + rewrite H4. unfold sent. cbn. by rewrite andb_false_r.
    + intros Hacc. apply bool_decide_eq_true in Hacc as ->. by assert (p0 = L1) as -> by congruence.
    + intros ->. by assert (p0 = L1) as -> by congruence.
  - cbn [sh_flight proposal packets]. apply in_round_perm. by apply (broadcast_packets PP 0 L1).
Qed.

End round.

(** ** The theorem *)
Section liveness.
Context (P : Params).
Context {TL : TrieLib} {BL : BoltLib} {HL : Sha256} {CC : CoreCodecs} {MC : MsgCodecs}.
Context {TW : TrieLaws TL} {CL : CoreCodecsLaws} {BW : BoltLaws BL} {ML : MsgCodecsLaws}.
Context {LV : TrieLive TL} {LB : BoltLive BL}.
Context {X : Type}.
Implicit Types (L F : PbftConsensusNode X).

#[local] Instance inside_relay : InsideMod X := RawRelayPbftExtraHandleMod P.
#[local] Instance outside_relay : OutsideMod X := RawRelayOutsideModule.

Lemma propose_exact now L b bc (starts : list (PbftConsensusNode X)) : p_NodeID L = view L -> propose_pc L = AtLock -> sequenceLock L = false ->
  GenerateBlock P now (CurChain L) = Ret (b, bc) ->
  let r := mkRequest BlockRequest (enc b) now in
  propose_step now L = Ret (tt, proposed r bc L <| propose_pc := AtSelect |>,
    (fun a => TcpDial (pk_wire r (sequenceID L) starts PP 0) a) <$> others L).
Proof.
  intros Hv Hpc Hl Hg r. destruct (propose_body_spec P now L b bc Hg) as (m & Hb & Hm). fold r in Hb, Hm.
  assert (m = pk_wire r (sequenceID L) starts PP 0) as ->.
  { pose proof (pk_merge r (sequenceID L) starts PP 0) as Hm'. cbn [pk_type pk_content] in Hm'. rewrite Hm in Hm'. by injection Hm'. }
  unfold propose_step. rewrite get_bind, Hv, Z.eqb_refl, Hpc, Hl. cbn [negb].
  rewrite modify_bind, <- (app_nil_r (_ <$> others L)). eapply bind_returns; [exact Hb|]. reflexivity.
Qed.

(** What the leader's block does at every node. *)
Lemma block_everywhere now L Fs b bc1 l : UTXO P = false -> Fs <> [] -> Forall (in_sync L) Fs ->
  state_is (CurChain L) (state_root (CurChain L)) l ->
  let packed := (TxPool_PackTxs (BlockSize (bc_ChainConfig (CurChain L))) (bc_Txpool (CurChain L))).1 in
  Forall (addr_ok P (CurChain L)) packed -> GenerateBlock P now (CurChain L) = Ret (b, bc1) -> storable b ->
  (exists bl, AddBlock P b bc1 = Ret bl /\ Forall (has_dest P bl) (b_Body b)) /\
  Forall (fun F => IsValidBlock b (CurChain F) = None /\ exists bl bf,
    AddBlock P b bc1 = Ret bl /\ AddBlock P b (CurChain F) = Ret bf /\ Forall (has_dest P bf) (b_Body b) /\
    bc_CurrentBlock bf = b /\ replica bl bf /\
    state_is bl (state_root bl) (ledger_run (local_in P (CurChain L)) l packed)) Fs.
Proof.
  intros HU Hne HFs Hl packed Hok Hgen Hst. destruct (GenerateBlock_chain P now _ b bc1 Hgen) as (Hs1 & Hc1 & Hm1).
  assert (H : Forall (fun F => IsValidBlock b (CurChain F) = None /\ exists bl bf,
    AddBlock P b bc1 = Ret bl /\ AddBlock P b (CurChain F) = Ret bf /\
    (Forall (has_dest P bl) (b_Body b) /\ Forall (has_dest P bf) (b_Body b)) /\
    bc_CurrentBlock bf = b /\ replica bl bf /\
    state_is bl (state_root bl) (ledger_run (local_in P (CurChain L)) l packed)) Fs).
  { eapply list.Forall_impl; [exact HFs|]. intros F [Hrep _ [_ HnL] [_ HnF] [HsL HsF]].
    destruct (GenerateBlock_replicated P now (CurChain L) (CurChain F) l HU HnL HnF Hrep Hl HsL HsF Hok)
      as (b' & bc' & Hgen' & Hbody & Hvalid & _ & Hcommit).
    assert (b' = b /\ bc' = bc1) as [-> ->] by (rewrite Hgen in Hgen'; by injection Hgen').
    destruct (Hcommit Hst) as (bl & bf & Hal & Haf & Htip & Hrep2 & Hst2).
    split; [done|]. exists bl, bf. split; [done|]. split; [done|]. split; [|done].
    rewrite <- Hs1 in HsL. destruct (AddBlock_kept P _ _ _ HsL Hal) as (_ & _ & ML').
    destruct Hrep2 as [_ R2 _ _].
    rewrite Hbody. split; (eapply list.Forall_impl; [exact Hok|]; intros tx [_ Hd]; unfold has_dest);
      rewrite (Get_PartitionMap_ext P _ (CurChain L)); [done|congruence|done|congruence]. }
  split.
  - destruct Fs as [|F Fs]; [done|]. apply list.Forall_cons in H as [(_ & bl & bf & Ha & _ & [Hd _] & _) _]. by exists bl.
  - eapply list.Forall_impl; [exact H|]. intros F (Hv & bl & bf & H1 & H2 & [_ H3] & H4). split; [done|]. by exists bl, bf.
Qed.

(** A shard whose leader [L] is about to propose the block [b]: all nodes in
    sync and at their addresses, nothing counted for the block's digest yet. *)
Record round_start (now : Z) (L : PbftConsensusNode X) (Fs : list (PbftConsensusNode X)) (addrs : list string)
    (b : Block) (bc1 : BlockChain) (l : ledger) : Prop := {
  rs_mode : UTXO P = false;
  rs_block : GenerateBlock P now (CurChain L) = Ret (b, bc1) /\ storable b;
  rs_addrs : NoDup addrs /\ length (L :: Fs) = length addrs /\ Z.of_nat (length addrs) < 2 ^ 62;
  rs_seq : 0 <= sequenceID L < 2 ^ 64 - 1;
  rs_nodes : forall i p, (L :: Fs) !! i = Some p ->
    can_start ((length addrs - 1) / 3) addrs (mkRequest BlockRequest (enc b) now) (sequenceID L) i p;
  rs_sync : Forall (in_sync L) Fs;
  rs_state : state_is (CurChain L) (state_root (CurChain L)) l;
  rs_txs : Forall (addr_ok P (CurChain L)) (TxPool_PackTxs (BlockSize (bc_ChainConfig (CurChain L))) (bc_Txpool (CurChain L))).1;
  rs_leader : propose_pc L = AtLock /\ sequenceLock L = false }.

(** The balances after the block. *)
Definition next_ledger L (l : ledger) : ledger :=
  ledger_run (local_in P (CurChain L)) l (TxPool_PackTxs (BlockSize (bc_ChainConfig (CurChain L))) (bc_Txpool (CurChain L))).1.

(** The nodes at the start satisfy what [round] assumes. *)
Lemma started now L Fs addrs b bc1 l : round_start now L Fs addrs b bc1 l -> Fs <> [] ->
  let r := mkRequest BlockRequest (enc b) now in
  let L1 := proposed r bc1 L <| propose_pc := AtSelect |> in
  (forall i p0, (L1 :: Fs) !! i = Some p0 -> can_start ((length addrs - 1) / 3) addrs r (sequenceID L) i p0) /\
  (forall i p0, (L1 :: Fs) !! i = Some p0 -> i <> O -> IsValidBlock b (CurChain p0) = None) /\
  (forall i p0, (L1 :: Fs) !! i = Some p0 -> exists c1, AddBlock P b (CurChain p0) = Ret c1 /\ Forall (has_dest P c1) (b_Body b)) /\
  forall F, F ∈ Fs -> exists bl bf, AddBlock P b bc1 = Ret bl /\ AddBlock P b (CurChain F) = Ret bf /\
    bc_CurrentBlock bf = b /\ replica bl bf /\ state_is bl (state_root bl) (next_ledger L l).
Proof.
  intros [HU [Hgen Hst] _ _ Hready HFs Hl Hok _] Hne r L1.
  destruct (block_everywhere now L Fs b bc1 l HU Hne HFs Hl Hok Hgen Hst) as [(bl & Hal & Hdl) HF].
  rewrite list.Forall_forall in HF.
  split; [|split; [|split]].
  - intros [|i] p0 Hp0; [|by apply (Hready (S i))]. injection Hp0 as <-. by destruct (Hready O L eq_refl).
  - intros [|i] p0 Hp0 Hi; [done|]. by apply HF, (list_elem_of_lookup_2 _ i).
  - intros [|i] p0 Hp0; [injection Hp0 as <-; by exists bl|].
    destruct (HF p0) as (_ & _ & bf & _ & Haf & Hdf & _); [by apply (list_elem_of_lookup_2 _ i)|]. by exists bf.
  - intros F HinF. destruct (HF F HinF) as (_ & bl' & bf & H1 & H2 & _ & H3). by exists bl', bf.
Qed.

(** The proposal, and the numbers of every state the shard then reaches. *)
Lemma round_runs now L Fs addrs b bc1 l : round_start now L Fs addrs b bc1 l -> Fs <> [] ->
  let r := mkRequest BlockRequest (enc b) now in
  let L1 := proposed r bc1 L <| propose_pc := AtSelect |> in
  let N := length addrs in
  exists evs, propose_step now L = Ret (tt, L1, evs) /\
    forall k s, shard_run (mkShard (L1 :: Fs) evs) k s -> exists sn, round_ok N ((N - 1) / 3) sn /\
      (remaining N ((N - 1) / 3) sn + k)%nat = (2 * N * (N - 1))%nat /\
      shard_rel P ((N - 1) / 3) addrs b r (sequenceID L) (L1 :: Fs) sn s /\
      ((0 < remaining N ((N - 1) / 3) sn)%nat -> (3 <= N)%nat -> exists s', shard_step s s').
Proof.
  intros Hs Hne r L1 N. destruct (started now L Fs addrs b bc1 l Hs Hne) as (Hr & Hv & Ha & _).
  destruct Hs as [HU [Hgen Hst] (Hdup & Hlen & Hsmall) Hseq Hready HFs Hl Hok [Hpc Hlock]].
  fold N in Hlen, Hr, Hready. set (f := ((N - 1) / 3)%nat) in *. fold r L1 in Hr, Hv, Ha.
  assert (H3f : (3 * f <= N - 1)%nat) by (unfold f; apply Nat.Div0.mul_div_le).
  assert (Hfs : Z.of_nat f < 2 ^ 62) by lia. assert (HN : (1 <= N)%nat) by (rewrite <- Hlen; cbn; lia).
  destruct (proposal_ok N f HN) as [Hok0 Hrem0].
  assert (Hrel0 : shard_rel P f addrs b r (sequenceID L) (L1 :: Fs) (proposal N)
    (mkShard (L1 :: Fs) ((fun a => TcpDial (pk_wire r (sequenceID L) (L1 :: Fs) PP 0) a) <$> others L1))).
  { apply (start_rel P f addrs b r (sequenceID L) (L1 :: Fs) Hdup Hfs Hseq eq_refl Hlen Hr Hv Ha L1 Fs eq_refl);
      [|done]. apply lookup_insert_eq. }
  destruct (Hready O L eq_refl) as [(HidL & HvL & _) _ _ _].
  eexists. split; [apply (propose_exact now L b bc1 (L1 :: Fs)); [by rewrite HidL, HvL|done..]|].
  intros k s Hrun.
  destruct (sim_run P f addrs b r (sequenceID L) (L1 :: Fs) Hdup Hfs Hseq eq_refl Hlen Hr Hv Ha _ _ k s HN Hok0 Hrel0 Hrun)
    as (sn & Hokn & Hremn & Hreln).
  exists sn. split; [done|]. split; [etransitivity; [exact Hremn|exact Hrem0]|]. split; [done|]. intros Hpos H3.
  exact (sim_progress P f addrs b r (sequenceID L) (L1 :: Fs) Hdup Hfs Hseq eq_refl Hlen Hr Hv Ha sn s H3 H3f Hokn Hreln Hpos).
Qed.



(** In a shard of two nodes the leader never commits: [sequenceLock] stays
    locked after its first proposal, whatever is handled. *)
Lemma two_nodes_stuck now L F a0 a1 b bc1 l : round_start now L [F] [a0; a1] b bc1 l ->
  exists L1 evs, propose_step now L = Ret (tt, L1, evs) /\
    forall k s, shard_run (mkShard [L1; F] evs) k s ->
      exists L2 F2, sh_nodes s = [L2; F2] /\ sequenceLock L2 = true /\ sequenceID L2 = sequenceID L.
Proof.
  intros Hs. destruct (round_runs now L [F] [a0; a1] b bc1 l Hs ltac:(done)) as (evs & E & Hruns).
  eexists _, evs. split; [exact E|]. intros k s Hrun. destruct (Hruns k s Hrun) as (sn & Hok & _ & [S1 S2 _] & _).
  destruct (sh_nodes s) as [|L2 [|F2 [|]]]; try done. exists L2, F2. split; [done|].
  destruct (S2 O _ L2 eq_refl eq_refl) as [_ _ _ _ _ _ H7 _ H9].
  rewrite (two_nodes _ _ sn eq_refl Hok) in H7, H9. split; [by apply H9|done].
Qed.
End liveness.

(** *** A concrete shard of four nodes *)
Module RefShard.
Export RefRelay.
Definition addrs : list string := ["n0"; "n1"; "n2"; "n3"]%string.


End RefShard.
Import RefShard.

