(* ===== verification/System.v ===== *)
(** * System: the shards of the relay method together

    The leaders of all shards and the messages between them.  A leader
    proposes a block ([HandleinPropose]), commits it when its shard has agreed
    ([HandleinCommit]), takes relayed transactions of other leaders
    ([handleRelay]) and transactions injected by the supervisor
    ([handleInjectTx]); in between consensus does what leaves its chain alone.
    What a shard's other nodes have is the leader's state (RelayProps.v).  The
    steps of the leaders and the arrival of messages interleave in any way. *)
From stdpp Require Import base gmap strings list countable.
From Stdlib Require Import ZArith Lia.
From S2P Require Import Prelude GoStd Libs Core Pools Messages StorageDB Chain Ledger Execution Pbft PbftProps RelayMod RelayProps.

Section system.
Context (P : Params).
Context {TL : TrieLib} {BL : BoltLib} {HL : Sha256} {CC : CoreCodecs} {MC : MsgCodecs}.
Context {TW : TrieLaws TL} {CL : CoreCodecsLaws} {ML : MsgCodecsLaws}.
Context {LV : TrieLive TL} {BW : BoltLaws BL} {LB : BoltLive BL}.
Context {X : Type}.

(** The number of shards, the partition, where each leader listens, and the
    addresses in use. *)
Context (n : Z) (pm : gmap string Z) (ip : Z -> string) (addrs : list string).

(** A leader, with the block it has proposed and not committed yet. *)
Record Leader := mkLeader { ld_node : PbftConsensusNode X; ld_work : option Request }.
Record System := mkSystem { sys_leaders : list Leader; sys_flight : list Event }.

Definition shard_of (a : string) : res Z :=
  match pm !! a with None => s ← Addr2Shard P a; Ret (u64 s) | Some v => Ret v end.

(** What the supervisor injects into the shard [j]. *)
Definition injectable (j : Z) (tx : Transaction) : Prop :=
  tx_Relayed tx = false /\ tx_HasBroker tx = false /\ tx_Sender tx ∈ addrs /\ tx_Recipient tx ∈ addrs /\
  shard_of (tx_Sender tx) = Ret j.

(** ** Balances *)
Definition state_at (bc : BlockChain) (root : bytes) : ledger :=
  match bc_triedb bc ≫= trie_New root with Some t => balance t | None => fun _ => 0 end.
Definition balances (bc : BlockChain) : ledger := state_at bc (state_root bc).

(** ** The steps; the number is the money a step creates *)
Definition same_chain (L L' : PbftConsensusNode X) : Prop :=
  CurChain L' = CurChain L /\ p_ShardID L' = p_ShardID L /\ p_NodeID L' = p_NodeID L /\ view L' = view L /\
  pbftChainConfig L' = pbftChainConfig L /\ ip_nodeTable L' = ip_nodeTable L.

Inductive sys_step : System -> Z -> System -> Prop :=
  | sys_propose i now L r L' ls fl :
      ls !! i = Some (mkLeader L None) -> Relay_HandleinPropose P now L = Ret (Some (true, r), L', []) ->
      sys_step (mkSystem ls fl) 0 (mkSystem (<[i := mkLeader L' (Some r)]> ls) fl)
  | sys_commit i now cm L r b L' o ls fl :
      ls !! i = Some (mkLeader L (Some r)) -> requestPool L !! c_Digest cm = Some r -> dec (req_Msg r) = Some b ->
      Relay_HandleinCommit P now cm L = Ret (true, L', o) ->
      sys_step (mkSystem ls fl) (unfunded (local_in P (CurChain L)) (balances (CurChain L)) (b_Body b))
        (mkSystem (<[i := mkLeader L' None]> ls) (fl ++ o))
  | sys_deliver j now m c L L' w o ls f1 f2 :
      ls !! j = Some (mkLeader L w) -> SplitMessage (frame m) = Ret (CRelay, c) ->
      Relay_HandleMessageOutsidePBFT now CRelay c L = Ret (true, L', o) ->
      sys_step (mkSystem ls (f1 ++ TcpDial m (ip (Z.of_nat j)) :: f2)) 0
        (mkSystem (<[j := mkLeader L' w]> ls) (f1 ++ f2))
  | sys_inject j now it L L' w o ls fl :
      ls !! j = Some (mkLeader L w) -> Forall (injectable (Z.of_nat j)) (it_Txs it) ->
      Relay_HandleMessageOutsidePBFT now CInject (frame (json_enc it)) L = Ret (true, L', o) ->
      sys_step (mkSystem ls fl) 0 (mkSystem (<[j := mkLeader L' w]> ls) fl)
  | sys_consensus i L L' w ls fl :
      ls !! i = Some (mkLeader L w) -> same_chain L L' ->
      sys_step (mkSystem ls fl) 0 (mkSystem (<[i := mkLeader L' w]> ls) fl).

Inductive sys_run : System -> Z -> System -> Prop :=
  | sys_start s : sys_run s 0 s
  | sys_next s c s1 d s2 : sys_run s c s1 -> sys_step s1 d s2 -> sys_run s (c + d) s2.

(** ** The money in the system *)

(** Transactions that have left their sender's shard. *)
Definition relayed_value (txs : list Transaction) : Z := zsum (fun tx => if tx_Relayed tx then tx_Value tx else 0) txs.

Definition event_value (e : Event) : Z :=
  match e with
  | TcpDial m _ =>
      match SplitMessage m with
      | Ret (t, c) =>
          if bool_decide (t = CRelay) then
            match json_dec c : option Messages.Relay with Some rl => relayed_value (rl_Txs rl) | None => 0 end
          else 0
      | _ => 0
      end
  | CSVline _ => 0
  end.

Definition work_txs (w : option Request) : list Transaction :=
  match w with
  | Some r => match dec (req_Msg r) : option Block with Some b => b_Body b | None => [] end
  | None => []
  end.

Definition leader_wealth (ld : Leader) : Z :=
  total (balances (CurChain (ld_node ld))) addrs +
  relayed_value (TxQueue (bc_Txpool (CurChain (ld_node ld)))) + relayed_value (work_txs (ld_work ld)).

Definition wealth (s : System) : Z := zsum leader_wealth (sys_leaders s) + zsum event_value (sys_flight s).

(** ** The invariant *)

(** A transaction that belongs into the pool of the shard [j]. *)
Definition pooled (j : Z) (tx : Transaction) : Prop :=
  tx_HasBroker tx = false /\ tx_Recipient tx ∈ addrs /\
  ((tx_Relayed tx = false /\ tx_Sender tx ∈ addrs /\ shard_of (tx_Sender tx) = Ret j) \/
   (tx_Relayed tx = true /\ shard_of (tx_Recipient tx) = Ret j)).

Definition work_ok (j : Z) (bc : BlockChain) (w : option Request) : Prop :=
  match w with
  | None => True
  | Some r => exists b, dec (req_Msg r) = Some b /\
      bh_Number (b_Header b) = u64 (bh_Number (b_Header (bc_CurrentBlock bc)) + 1) /\
      bh_Miner (b_Header b) = 0 /\ Forall (pooled j) (b_Body b) /\
      state_is bc (BytesToHash (bh_StateRoot (b_Header b))) (ledger_run (local_in P bc) (balances bc) (b_Body b))
  end.

Record leader_ok (j : Z) (ld : Leader) : Prop := {
  lo_shard : p_ShardID (ld_node ld) = j /\ ShardID (bc_ChainConfig (CurChain (ld_node ld))) = j;
  lo_leader : p_NodeID (ld_node ld) = view (ld_node ld) /\ NodeID (bc_ChainConfig (CurChain (ld_node ld))) = 0;
  lo_map : bc_PartitionMap (CurChain (ld_node ld)) = pm;
  lo_net : ShardNums (pbftChainConfig (ld_node ld)) = n /\ forall s, 0 <= s < n -> node_ip (ld_node ld) s 0 = ip s;
  lo_state : state_is (CurChain (ld_node ld)) (state_root (CurChain (ld_node ld))) (balances (CurChain (ld_node ld)));
  lo_queue : Forall (pooled j) (TxQueue (bc_Txpool (CurChain (ld_node ld))));
  lo_work : work_ok j (CurChain (ld_node ld)) (ld_work ld) }.

(** A message under way: relayed transactions for the leader of their
    recipients' shard, or one that carries no money. *)
Definition flight_ok (e : Event) : Prop :=
  match e with
  | TcpDial m a =>
      (exists rl s, MergeMessage CRelay (json_enc (A := Messages.Relay) rl) = Ret m /\ 0 <= s < n /\ a = ip s /\
         Forall (fun tx => pooled s tx /\ tx_Relayed tx = true) (rl_Txs rl)) \/
      (exists t c, MergeMessage t c = Ret m /\ t ∈ message_types /\ t <> CRelay)
  | CSVline _ => True
  end.

Record sys_ok (s : System) : Prop := {
  so_leaders : forall i ld, sys_leaders s !! i = Some ld -> leader_ok (Z.of_nat i) ld;
  so_shards : Z.of_nat (length (sys_leaders s)) = n;
  so_flight : Forall flight_ok (sys_flight s) }.

(** The deployment: every address in use lies in one of the shards, and no two
    leaders listen at one address. *)
Context (Hnd : NoDup addrs).
Context (Hplaced : forall a, a ∈ addrs -> exists s, shard_of a = Ret s /\ 0 <= s < n).
Context (Hip : forall s t, 0 <= s < n -> 0 <= t < n -> ip s = ip t -> s = t).
Context (HU : UTXO P = false).

(** ** The ledgers of the shards *)
Lemma Get_PartitionMap_of bc a : bc_PartitionMap bc = pm -> Get_PartitionMap P a bc = shard_of a.
Proof. intros H. unfold Get_PartitionMap, shard_of. by rewrite H. Qed.

Lemma local_of bc j a s : bc_PartitionMap bc = pm -> ShardID (bc_ChainConfig bc) = j ->
  shard_of a = Ret s -> local_in P bc a = bool_decide (s = j).
Proof.
  intros Hm Hj Ha. unfold local_in. rewrite Get_PartitionMap_of, Ha, Hj by done.
  case_bool_decide; [by apply Z.eqb_eq|by apply Z.eqb_neq].
Qed.

Lemma state_at_eq bc root l : state_is bc root l -> ledger_eq (state_at bc root) l.
Proof. intros (td & t & Hd & Ht & _ & Hb). unfold state_at. rewrite Hd. cbn. by rewrite Ht. Qed.

Lemma state_at_is bc root l : state_is bc root l -> state_is bc root (state_at bc root).
Proof.
  intros H. pose proof (state_at_eq _ _ _ H) as He. destruct H as (td & t & Hd & Ht & Hw & Hb).
  exists td, t. split_and!; [done..|]. by rewrite He.
Qed.

Lemma pooled_addr j bc tx : bc_PartitionMap bc = pm -> pooled j tx -> addr_ok P bc tx.
Proof.
  intros Hm (_ & Hr & Ho). split.
  - intros Hrel. destruct Ho as [(_ & _ & Hs)|[Hrel' _]]; [|congruence]. exists j. by rewrite Get_PartitionMap_of.
  - destruct (Hplaced _ Hr) as (s & Hs & _). exists s. by rewrite Get_PartitionMap_of.
Qed.

(** What a transaction of the pool does to the shard. *)
Lemma pooled_net j bc tx : bc_PartitionMap bc = pm -> ShardID (bc_ChainConfig bc) = j -> pooled j tx ->
  exists s, 0 <= s < n /\ dest P bc tx = s /\ local_in P bc (tx_Recipient tx) = bool_decide (s = j) /\
    credits (local_in P bc) tx = bool_decide (s = j) /\
    debits (local_in P bc) tx = negb (tx_Relayed tx) /\
    (tx_Relayed tx = true -> s = j) /\ (debits (local_in P bc) tx = true -> tx_Sender tx ∈ addrs).
Proof.
  intros Hm Hj (Hb & Hr & Ho). destruct (Hplaced _ Hr) as (s & Hs & Hrange). exists s.
  pose proof (local_of bc j _ s Hm Hj Hs) as Hl.
  assert (Hd : debits (local_in P bc) tx = negb (tx_Relayed tx)).
  { unfold debits. rewrite Hb, orb_false_r. destruct Ho as [(-> & _ & Ha)|[-> _]]; [|done].
    rewrite (local_of bc j _ j) by done. by rewrite bool_decide_eq_true_2. }
  split_and!; [lia|lia| |done| |done| |].
  - unfold dest. by rewrite Get_PartitionMap_of, Hs.
  - unfold credits. by rewrite Hl, Hb, orb_false_r.
  - intros Hrel. destruct Ho as [(Hrel' & _)|[_ Ha]]; [congruence|]. rewrite Hs in Ha. by injection Ha.
  - rewrite Hd. intros Hrel. destruct Ho as [(_ & Ha & _)|[Hrel' _]]; [done|]. by rewrite Hrel' in Hrel.
Qed.

(** Executing a block and relaying what leaves conserves money, up to the
    transactions that were not paid and relayed all the same. *)
Lemma net_crossing j bc body : bc_PartitionMap bc = pm -> ShardID (bc_ChainConfig bc) = j ->
  Forall (pooled j) body -> forall l,
  net_run (local_in P bc) l body + zsum tx_Value (filter (fun tx => dest P bc tx <> j) body) =
  unfunded (local_in P bc) l body + relayed_value body.
Proof.
  intros Hm Hj. induction 1 as [|tx body Htx _ IH]; intros l; [done|]. cbn [net_run unfunded].
  unfold relayed_value in *. rewrite filter_cons, zsum_cons. specialize (IH (ledger_tx (local_in P bc) l tx)).
  destruct (pooled_net j bc tx Hm Hj Htx) as (s & _ & Hd & Hl & Hc & Hdb & Hrel & _).
  unfold net_tx. rewrite Hc, Hl, Hdb, Hd. unfold executes at 1 2. rewrite Hdb.
  destruct (tx_Relayed tx); cbn [negb andb].
  - specialize (Hrel eq_refl). subst s. rewrite bool_decide_eq_true_2, decide_False by (done || tauto).
    cbn [orb]. lia.
  - case_bool_decide as Hs; [rewrite decide_False by tauto|rewrite decide_True, zsum_cons by done].
    + rewrite orb_true_r. case_match; lia.
    + rewrite orb_false_r. case_match; lia.
Qed.

Lemma total_block j bc l body : bc_PartitionMap bc = pm -> ShardID (bc_ChainConfig bc) = j ->
  Forall (pooled j) body -> total (ledger_run (local_in P bc) l body) addrs = total l addrs + net_run (local_in P bc) l body.
Proof.
  intros Hm Hj Hp. apply total_ledger_run; [done|]. eapply list.Forall_impl; [exact Hp|]. intros tx Htx.
  destruct (pooled_net j bc tx Hm Hj Htx) as (_ & _ & _ & _ & _ & _ & _ & Hs). split; [exact Hs|]. intros _. apply Htx.
Qed.

(** ** A leader's steps *)
Lemma relayed_app l k : relayed_value (l ++ k) = relayed_value l + relayed_value k.
Proof. apply zsum_app. Qed.

Lemma pooled_stamp now j tx : pooled j tx -> pooled j (stamp now tx).
Proof. unfold stamp. by case_match. Qed.

Lemma stamp_relayed now txs : relayed_value (stamp now <$> txs) = relayed_value txs.
Proof. unfold relayed_value. rewrite zsum_fmap. apply zsum_ext. intros tx _. unfold stamp. by destruct (IsZero _). Qed.

(** A leader that is between two blocks can propose. *)
Lemma propose_ok j now L : leader_ok j (mkLeader L None) ->
  exists r L', Relay_HandleinPropose P now L = Ret (Some (true, r), L', []) /\ leader_ok j (mkLeader L' (Some r)) /\
    leader_wealth (mkLeader L' (Some r)) = leader_wealth (mkLeader L None).
Proof.
  intros [[Hp Hs] [Hv Hn] Hm Hnet Hst Hq _]. cbn [ld_node] in *. set (bc := CurChain L) in *.
  destruct (TxPool_PackTxs (BlockSize (bc_ChainConfig bc)) (bc_Txpool bc)) as [packed pool] eqn:EP.
  pose proof (pool_PackTxs_app _ _ _ _ EP) as Happ. rewrite <- Happ, Forall_app in Hq. destruct Hq as [Hq1 Hq2].
  set (bc0 := bc <| bc_Txpool := pool |>).
  destruct (GetUpdateStatusTrie_exec P packed bc0 (balances bc)) as (rt & bc1 & H1 & S1 & B1 & F1 & K1); [exact Hst| |].
  { eapply list.Forall_impl; [exact Hq1|]. intros tx. by apply pooled_addr. }
  destruct (GenerateBlock_spec P now bc packed pool rt bc1 HU EP H1) as (b & Hgen & Hbody & Hhdr).
  exists (mkRequest BlockRequest (enc b) now), (L <| CurChain := bc1 |>).
  assert (Hloc : forall a, local_in P bc1 a = local_in P bc a) by (intros; apply local_in_ext; by rewrite F1).
  assert (Hkeep : state_is bc1 (state_root bc1) (balances bc)).
  { destruct Hst as (td & t & Hd & Ht & Hw & Hb). destruct (K1 td _ t Hd Ht) as (td' & t' & Hd' & Ht' & Hsame).
    exists td', t'. split; [done|]. split; [by rewrite F1|]. split; [by eapply same_content_wf|].
    by rewrite (same_content_balance _ _ Hsame). }
  pose proof (state_at_eq _ _ _ Hkeep) as Hbal. fold (balances bc1) in Hbal.
  split; [|split].
  - unfold Relay_HandleinPropose. rewrite get_bind. fold bc. rewrite Hgen, (lift_bind _ _ _ (b, bc1) eq_refl).
    cbn beta iota. by rewrite modify_bind.
  - split; cbn [ld_node ld_work set_field PbftConsensusNode_eta CurChain p_ShardID p_NodeID view pbftChainConfig work_ok].
    + by rewrite F1.
    + by rewrite F1.
    + by rewrite F1.
    + exact Hnet.
    + by eapply state_at_is.
    + by rewrite F1.
    + exists b. split; [apply dec_enc|]. rewrite Hhdr, Hbody. cbn [bh_Number bh_Miner bh_StateRoot]. rewrite B1.
      split; [by rewrite F1|]. split; [done|]. split; [done|].
      destruct S1 as (td & t & Hd & Ht & Hw & Hb). exists td, t. split_and!; [done..|]. rewrite Hb.
      rewrite Hbal. by rewrite (ledger_run_ext _ _ _ Hloc).
  - unfold leader_wealth. cbn [ld_node ld_work work_txs req_Msg set_field PbftConsensusNode_eta CurChain].
    rewrite dec_enc, Hbody, Hbal. replace (bc_Txpool bc1) with pool by by rewrite F1.
    change (CurChain L) with bc. rewrite <- Happ, relayed_app. change (relayed_value []) with 0. lia.
Qed.

(** The miner's own block is adopted without executing it again. *)
Lemma AddBlock_mined b bc bc' :
  AddBlock P b bc = Ret bc' -> bh_Miner (b_Header b) = NodeID (bc_ChainConfig bc) ->
  bh_Number (b_Header b) = u64 (bh_Number (b_Header (bc_CurrentBlock bc)) + 1) ->
  bc' = bc <| bc_CurrentBlock := b |> <| bc_Storage := bc_Storage bc' |>.
Proof.
  unfold AddBlock. intros H Hm Hn. rewrite Hm, Hn, !Z.eqb_refl in H. cbn [negb andb mbind res_bind] in H. by inv_res.
Qed.

Lemma CRelay_type : type_ok CRelay.
Proof. apply message_types_ok, (bool_decide_unpack _). reflexivity. Qed.

Lemma relay_value_MergeMessage rl m : MergeMessage CRelay (json_enc (A := Messages.Relay) rl) = Ret m ->
  forall a, event_value (TcpDial m a) = relayed_value (rl_Txs rl).
Proof.
  intros Hm a. unfold event_value. rewrite (SplitMessage_MergeMessage _ _ _ CRelay_type Hm).
  rewrite bool_decide_eq_true_2 by done. by rewrite json_dec_enc.
Qed.

Lemma no_value t c m a : MergeMessage t c = Ret m -> t ∈ message_types -> t <> CRelay -> event_value (TcpDial m a) = 0.
Proof.
  intros Hm Ht Hne. unfold event_value. rewrite (SplitMessage_MergeMessage t c m) by (done || by apply message_types_ok).
  by rewrite bool_decide_eq_false_2.
Qed.

Lemma crossing_value bc j sid body :
  relayed_value (crossing P bc j sid body) = zsum tx_Value (filter (fun tx => dest P bc tx <> j /\ dest P bc tx = sid) body).
Proof. unfold crossing, relayed_value. by rewrite zsum_fmap. Qed.

(** The relay messages of a block carry what leaves the shard. *)
Lemma sent_value (L : PbftConsensusNode X) j body :
  p_ShardID L = j -> bc_PartitionMap (CurChain L) = pm -> ShardID (bc_ChainConfig (CurChain L)) = j ->
  Forall (pooled j) body ->
  zsum event_value (seqZ 0 n ≫= relay_event P L body) =
  zsum tx_Value (filter (fun tx => dest P (CurChain L) tx <> j) body).
Proof.
  intros Hp Hm Hs Hb. rewrite zsum_bind.
  rewrite (zsum_ext _ (fun sid => relayed_value (crossing P (CurChain L) j sid body))).
  - rewrite (zsum_ext _ (fun sid => zsum tx_Value (filter (fun tx => dest P (CurChain L) tx = sid)
      (filter (fun tx => dest P (CurChain L) tx <> j) body)))).
    + rewrite <- (zsum_bind tx_Value). symmetry.
      rewrite (zsum_perm _ _ _ (bucket_perm (dest P (CurChain L)) (seqZ 0 n) _ (NoDup_seqZ 0 n))).
      rewrite zsum_app, (filter_none (fun tx => dest P (CurChain L) tx ∉ _)); [cbn; lia|].
      intros tx Hin Hno. apply Hno. apply list_elem_of_filter in Hin as [_ Hin].
      destruct (pooled_net j (CurChain L) tx Hm Hs (proj1 (list.Forall_forall _ _) Hb tx Hin)) as (s & Hr & -> & _).
      by apply elem_of_seqZ.
    + intros sid _. rewrite crossing_value, list_filter_filter. f_equal. apply list_filter_iff. tauto.
  - intros sid _. unfold relay_event. rewrite Hp. case_decide as Hd.
    + change (zsum event_value []) with 0. destruct Hd as [->| ->]; [|done]. rewrite crossing_value, filter_none; [done|]. tauto.
    + destruct (MergeMessage_ok CRelay (json_enc (Messages.mkRelay (crossing P (CurChain L) j sid body) j (sequenceID L))) CRelay_type)
        as [m Hmm].
      rewrite Hmm, zsum_cons, (relay_value_MergeMessage _ _ Hmm). change (zsum event_value []) with 0. cbn [rl_Txs]. lia.
Qed.

Lemma sent_ok (L : PbftConsensusNode X) j body :
  p_ShardID L = j -> bc_PartitionMap (CurChain L) = pm -> ShardID (bc_ChainConfig (CurChain L)) = j ->
  (forall s, 0 <= s < n -> node_ip L s 0 = ip s) -> Forall (pooled j) body ->
  Forall flight_ok (seqZ 0 n ≫= relay_event P L body).
Proof.
  intros Hp Hm Hs Hnet Hb. apply list.Forall_forall. intros e (sid & He & Hsid)%list_elem_of_bind.
  apply elem_of_seqZ in Hsid. unfold relay_event in He. case_decide; [by apply elem_of_nil in He|].
  destruct (MergeMessage _ _) as [m| |] eqn:Hmm; [|by apply elem_of_nil in He..].
  apply list_elem_of_singleton in He as ->. left. eexists _, sid. split; [exact Hmm|]. split; [lia|].
  split; [apply Hnet; lia|]. cbn [rl_Txs]. unfold crossing. apply list.Forall_fmap, list.Forall_forall.
  intros tx [[Hne Hd] Hin]%list_elem_of_filter. pose proof (proj1 (list.Forall_forall _ _) Hb tx Hin) as Htx.
  split; [|done]. destruct Htx as (Hbr & Hr & _). split; [done|]. split; [done|]. right. split; [done|].
  change (tx_Recipient (mark tx)) with (tx_Recipient tx). destruct (Hplaced _ Hr) as (s & Hsh & _).
  unfold dest in Hd. rewrite Get_PartitionMap_of, Hsh in Hd by done. congruence.
Qed.

Lemma commit_adds now cm L r b L' o :
  requestPool L !! c_Digest cm = Some r -> dec (req_Msg r) = Some b ->
  Relay_HandleinCommit P now cm L = Ret (true, L', o) -> exists bc, AddBlock P b (CurChain (X := X) L) = Ret bc.
Proof.
  intros Hr Hb H. unfold Relay_HandleinCommit in H. rewrite get_bind, Hr in H.
  rewrite (lift_bind (must (Some r)) _ _ r eq_refl), Hb, (lift_bind (must (Some b)) _ _ b eq_refl) in H.
  destruct (AddBlock P b (CurChain L)) as [bc| |]; [by eexists|discriminate H..].
Qed.

(** The report of a block carries no money. *)
Lemma report_ok rep : (exists m c a l, rep = [TcpDial m a; CSVline l] /\ MergeMessage CBlockInfo c = Ret m) ->
  Forall flight_ok rep /\ zsum event_value rep = 0.
Proof.
  intros (m & c & a & l & -> & Hmm).
  assert (Ht : CBlockInfo ∈ message_types /\ CBlockInfo <> CRelay) by (split; apply (bool_decide_unpack _); reflexivity).
  destruct Ht as [Ht Hne]. split.
  - apply list.Forall_cons. split; [right; by exists CBlockInfo, c|]. by repeat constructor.
  - by rewrite !zsum_cons, (no_value _ _ _ _ Hmm Ht Hne).
Qed.

(** A commit turns the block's effect into state and messages. *)
Lemma commit_ok j now cm L r b L' o :
  leader_ok j (mkLeader L (Some r)) -> requestPool L !! c_Digest cm = Some r -> dec (req_Msg r) = Some b ->
  Relay_HandleinCommit P now cm L = Ret (true, L', o) ->
  leader_ok j (mkLeader L' None) /\ Forall flight_ok o /\
  leader_wealth (mkLeader L' None) + zsum event_value o =
  leader_wealth (mkLeader L (Some r)) + unfunded (local_in P (CurChain L)) (balances (CurChain L)) (b_Body b).
Proof.
  intros [[Hp Hs] [Hv Hn] Hm [Hnum Hnet] Hst Hq Hw] Hr Hb H. cbn [ld_node ld_work work_ok] in *.
  destruct Hw as (b' & Hb' & Hno & Hmi & Hpool & Hnew). rewrite Hb in Hb'. injection Hb' as <-.
  destruct (commit_adds _ _ _ _ _ _ _ Hr Hb H) as [bc2 Ha].
  pose proof (AddBlock_mined _ _ _ Ha ltac:(congruence) Hno) as F2.
  assert (Hm2 : bc_PartitionMap bc2 = pm) by by rewrite F2.
  assert (Hs2 : ShardID (bc_ChainConfig bc2) = j) by by rewrite F2.
  destruct (HandleinCommit_leader P now cm L r b bc2 Hv Hr Hb Ha) as (p' & rep & Hc & Hrep & pool & body & Hp' & Hpq).
  { eapply list.Forall_impl; [exact Hpool|]. intros tx Htx. by apply (pooled_addr j bc2 tx Hm2 Htx). }
  rewrite Hnum in Hc. set (L2 := L <| CurChain := bc2 |>) in Hc.
  assert (L' = p' /\ o = (seqZ 0 n ≫= relay_event P L2 (b_Body b)) ++ rep) as [-> ->] by (split; congruence).
  assert (Hsent : zsum event_value (seqZ 0 n ≫= relay_event P L2 (b_Body b)) =
    zsum tx_Value (filter (fun tx => dest P bc2 tx <> j) (b_Body b))) by by apply (sent_value L2 j).
  assert (Hfl : Forall flight_ok (seqZ 0 n ≫= relay_event P L2 (b_Body b))) by by apply (sent_ok L2 j).
  destruct (report_ok rep Hrep) as [Hrok Hrval].
  set (bc' := bc2 <| bc_Txpool := pool |> <| bc_CurrentBlock ::= _ |>) in Hp'.
  assert (Hdb : bc_triedb bc' = bc_triedb (CurChain L)) by by (unfold bc'; rewrite F2).
  assert (Hroot : state_root bc' = BytesToHash (bh_StateRoot (b_Header b))).
  { unfold bc', state_root. rewrite F2. cbn. by destruct (next_height b (CurChain L)). }
  assert (Hst' : state_is bc' (state_root bc') (ledger_run (local_in P (CurChain L)) (balances (CurChain L)) (b_Body b))).
  { rewrite Hroot. destruct Hnew as (td & t & Hd & Ht). exists td, t. by rewrite Hdb. }
  pose proof (state_at_eq _ _ _ Hst') as Hbal. fold (balances bc') in Hbal.
  assert (Hqueue : TxQueue (bc_Txpool bc') = TxQueue (bc_Txpool (CurChain L))).
  { unfold bc'. cbn [bc_Txpool set_field BlockChain_eta]. rewrite Hpq, F2. done. }
  assert (HbcL : CurChain p' = bc') by by rewrite Hp'.
  split; [|split; [by apply Forall_app|]].
  - split; cbn [ld_node ld_work work_ok]; rewrite ?HbcL; rewrite ?Hp'; try done.
    + split; [done|]. unfold bc'. by rewrite F2.
    + exact (state_at_is _ _ _ Hst').
    + by rewrite Hqueue.
  - rewrite zsum_app, Hrval, Hsent. unfold leader_wealth. cbn [ld_node ld_work work_txs]. rewrite HbcL, Hqueue, Hb, Hbal.
    rewrite (total_block j) by done. change (relayed_value []) with 0.
    pose proof (net_crossing j (CurChain L) (b_Body b) Hm Hs Hpool (balances (CurChain L))) as Hnc.
    replace (filter (fun tx => dest P bc2 tx <> j) (b_Body b)) with
      (filter (fun tx => dest P (CurChain L) tx <> j) (b_Body b)); [lia|].
    apply list_filter_iff. intros tx. unfold dest. by rewrite !Get_PartitionMap_of.
Qed.

Lemma commit_returns j now cm L r b :
  leader_ok j (mkLeader L (Some r)) -> dec (req_Msg r) = Some b -> requestPool L !! c_Digest cm = Some r ->
  storage_ok (bc_Storage (CurChain L)) -> storable b ->
  exists L' o, Relay_HandleinCommit P now cm L = Ret (true, L', o).
Proof.
  intros [[Hp Hs] [Hv Hn] Hm _ _ _ Hw] Hb Hr Hst Hfit. cbn [ld_node ld_work work_ok] in *.
  destruct Hw as (b' & Hb' & Hno & Hmi & Hpool & _). rewrite Hb in Hb'. injection Hb' as <-.
  destruct (AddBlock_own P b (CurChain L) Hst Hfit Hno) as [st Ha]; [congruence|].
  destruct (HandleinCommit_leader P now cm L r b _ Hv Hr Hb Ha) as (p' & rep & Hc & _).
  - eapply list.Forall_impl; [exact Hpool|]. intros tx Htx. by apply (pooled_addr j (CurChain L) tx Hm Htx).
  - by eexists _, _.
Qed.

(** Transactions enter the pool. *)
Lemma receive_ok j now txs L w (f : PbftConsensusNode X -> PbftConsensusNode X) :
  leader_ok j (mkLeader L w) -> Forall (pooled j) txs ->
  let L' := f (L <| CurChain ::= fun bc => bc <| bc_Txpool ::= TxPool_AddTxs2Pool now txs |> |>) in
  (forall q, same_chain q (f q)) ->
  leader_ok j (mkLeader L' w) /\ leader_wealth (mkLeader L' w) = leader_wealth (mkLeader L w) + relayed_value txs.
Proof.
  intros [[Hp Hs] [Hv Hn] Hm [Hnum Hnet] Hst Hq Hw] Htx L' Hf.
  destruct (Hf (L <| CurChain ::= fun bc => bc <| bc_Txpool ::= TxPool_AddTxs2Pool now txs |> |>)) as (C1 & C2 & C3 & C4 & C5 & C6).
  fold L' in C1, C2, C3, C4, C5, C6. cbn [ld_node ld_work] in *. split.
  - split; cbn [ld_node ld_work]; unfold node_ip in *; rewrite ?C1, ?C2, ?C3, ?C4, ?C5, ?C6; cbn; try done.
    unfold TxPool_AddTxs2Pool. rewrite pool_AddTxs2Pool_TxQueue. apply Forall_app. split; [done|].
    apply list.Forall_fmap. eapply list.Forall_impl; [exact Htx|]. intros tx. apply pooled_stamp.
  - unfold leader_wealth. cbn [ld_node ld_work]. rewrite C1.
    cbn [CurChain set_field PbftConsensusNode_eta BlockChain_eta bc_Txpool].
    unfold TxPool_AddTxs2Pool. rewrite pool_AddTxs2Pool_TxQueue, relayed_app.
    rewrite stamp_relayed. match goal with |- total (balances ?b) _ + _ + _ = _ =>
      change (balances b) with (balances (CurChain L)) end. lia.
Qed.

Lemma handle_relay now (rl : Messages.Relay) (L : PbftConsensusNode X) :
  Relay_HandleMessageOutsidePBFT now CRelay (frame (json_enc rl)) L = Ret (true,
    L <| CurChain ::= fun bc => bc <| bc_Txpool ::= TxPool_AddTxs2Pool now (rl_Txs rl) |> |>
      <| seqIDMap ::= <[rl_SenderShardID rl := rl_SenderSeq rl]> |>, []).
Proof.
  unfold Relay_HandleMessageOutsidePBFT. rewrite bool_decide_eq_true_2 by done. unfold handleRelay.
  rewrite json_dec_frame, bind_bind, (lift_bind _ _ _ rl eq_refl), modify_bind. reflexivity.
Qed.

Lemma handle_inject now (it : InjectTxs) (L : PbftConsensusNode X) :
  Relay_HandleMessageOutsidePBFT now CInject (frame (json_enc it)) L = Ret (true,
    L <| CurChain ::= fun bc => bc <| bc_Txpool ::= TxPool_AddTxs2Pool now (it_Txs it) |> |>, []).
Proof.
  unfold Relay_HandleMessageOutsidePBFT. rewrite bool_decide_eq_false_2, bool_decide_eq_true_2 by done.
  unfold handleInjectTx. rewrite json_dec_frame, bind_bind, (lift_bind _ _ _ it eq_refl), modify_bind. reflexivity.
Qed.

(** ** The system's steps *)
Lemma replace_leader ls fl fl' i ld ld' :
  sys_ok (mkSystem ls fl) -> ls !! i = Some ld -> leader_ok (Z.of_nat i) ld' -> Forall flight_ok fl' ->
  sys_ok (mkSystem (<[i := ld']> ls) fl') /\
  wealth (mkSystem (<[i := ld']> ls) fl') =
    wealth (mkSystem ls fl) - leader_wealth ld + leader_wealth ld' - zsum event_value fl + zsum event_value fl'.
Proof.
  intros [Hl Hn Hf] Hi Hld Hf'. split.
  - split; cbn [sys_leaders sys_flight]; [|by rewrite length_insert|done].
    intros k x Hk. apply list_lookup_insert_Some in Hk as [(<- & <- & _)|[_ Hk]]; [done|by apply Hl].
  - unfold wealth. cbn [sys_leaders sys_flight]. rewrite (zsum_insert _ _ _ _ _ Hi). lia.
Qed.

Lemma step_ok s c s' : sys_ok s -> sys_step s c s' -> sys_ok s' /\ wealth s' = wealth s + c.
Proof.
  intros Hok Hst. destruct Hst as [i now L r L' ls fl Hi H|i now cm L r b L' o ls fl Hi Hr Hb H
    |j now m c L L' w o ls f1 f2 Hi Hm H|j now it L L' w o ls fl Hi Hit H|i L L' w ls fl Hi H];
    pose proof (so_leaders _ Hok _ _ Hi) as Hld; pose proof (so_flight _ Hok) as Hfl; cbn [sys_leaders sys_flight] in Hfl.
  - destruct (propose_ok _ now L Hld) as (r' & L1 & H1 & Hld' & Hw). rewrite H1 in H.
    assert (r' = r /\ L1 = L') as [-> ->] by (split; congruence).
    destruct (replace_leader ls fl fl i _ _ Hok Hi Hld' Hfl) as [Hok' Hw']. split; [done|]. lia.
  - destruct (commit_ok _ now cm L r b L' o Hld Hr Hb H) as (Hld' & Ho & Hw).
    destruct (replace_leader ls fl (fl ++ o) i _ _ Hok Hi Hld') as [Hok' Hw']; [by apply Forall_app|].
    split; [done|]. rewrite zsum_app in Hw'. lia.
  - apply Forall_app in Hfl as [Hf1 [Hf Hf2]%list.Forall_cons].
    destruct Hf as [(rl & s & Hmm & Hs & Heq & Htxs)|(t & c' & Hmm & Ht & Hne)].
    2: { rewrite (SplitMessage_MergeMessage _ _ _ (message_types_ok t Ht) (MergeMessage_frame _ _ _ Hmm)) in Hm. congruence. }
    rewrite (SplitMessage_MergeMessage _ _ _ CRelay_type (MergeMessage_frame _ _ _ Hmm)) in Hm.
    assert (c = frame (json_enc rl)) as -> by congruence.
    pose proof (so_shards _ Hok) as Hn. cbn [sys_leaders] in Hn. apply lookup_lt_Some in Hi as Hlt.
    assert (Z.of_nat j = s) as <- by (apply Hip; [lia|done|done]).
    rewrite handle_relay in H. assert (Hp : Forall (pooled (Z.of_nat j)) (rl_Txs rl))
      by (eapply list.Forall_impl; [exact Htxs|]; by intros ? []).
    destruct (receive_ok _ now (rl_Txs rl) L w (fun p => p <| seqIDMap ::= <[rl_SenderShardID rl := rl_SenderSeq rl]> |>) Hld Hp)
      as [Hld' Hw]; [done|].
    match type of H with Ret (true, ?p, _) = _ => assert (L' = p) as -> by congruence end.
    destruct (replace_leader ls _ (f1 ++ f2) j _ _ Hok Hi Hld') as [Hok' Hw']; [by apply Forall_app|].
    split; [done|]. rewrite !zsum_app, zsum_cons, (relay_value_MergeMessage _ _ Hmm) in Hw'. lia.
  - rewrite handle_inject in H. assert (Hp : Forall (pooled (Z.of_nat j)) (it_Txs it)).
    { eapply list.Forall_impl; [exact Hit|]. intros tx (? & ? & ? & ? & ?). split; [done|]. split; [done|]. by left. }
    destruct (receive_ok _ now (it_Txs it) L w (fun p => p) Hld Hp) as [Hld' Hw]; [done|].
    match type of H with Ret (true, ?p, _) = _ => assert (L' = p) as -> by congruence end.
    destruct (replace_leader ls fl fl j _ _ Hok Hi Hld' Hfl) as [Hok' Hw']. split; [done|].
    assert (relayed_value (it_Txs it) = 0); [|lia]. apply zsum_zero. intros tx Hin.
    by destruct (proj1 (list.Forall_forall _ _) Hit tx Hin) as (-> & _).
  - destruct H as (C1 & C2 & C3 & C4 & C5 & C6).
    assert (Hld' : leader_ok (Z.of_nat i) (mkLeader L' w)).
    { destruct Hld. split; cbn [ld_node ld_work] in *; unfold node_ip in *; by rewrite ?C1, ?C2, ?C3, ?C4, ?C5, ?C6. }
    destruct (replace_leader ls fl fl i _ _ Hok Hi Hld' Hfl) as [Hok' Hw']. split; [done|].
    assert (leader_wealth (mkLeader L' w) = leader_wealth (mkLeader L w)); [|lia].
    unfold leader_wealth. cbn [ld_node ld_work]. by rewrite C1.
Qed.

(** C8: money in the whole system.  Count the balances of
    every shard, the transactions that have left their sender's shard and wait
    in a pool or in a block that is not committed yet, and those in messages
    under way.  However the shards' proposals, commits, deliveries and
    injections interleave, this sum changes only by the value of cross-shard
    transactions whose sender could not pay, which are relayed all the same;
    in particular it is constant when there are none.  From every state that is
    reached, a leader that is between two blocks can propose, one that has proposed
    a block that fits the store can commit it, and the leader of
    the shard to which a relay message is under way takes it. *)
Theorem system_conserves s c s' :
  sys_ok s -> sys_run s c s' ->
  wealth s' = wealth s + c /\ sys_ok s' /\
  (forall i L now, sys_leaders s' !! i = Some (mkLeader L None) ->
     exists r L', Relay_HandleinPropose P now L = Ret (Some (true, r), L', [])) /\
  (forall i L r b cm now, sys_leaders s' !! i = Some (mkLeader L (Some r)) -> dec (req_Msg r) = Some b ->
     requestPool L !! c_Digest cm = Some r -> storage_ok (bc_Storage (CurChain L)) -> storable b ->
     exists L' o, Relay_HandleinCommit P now cm L = Ret (true, L', o)) /\
  (forall f1 m a f2 now, sys_flight s' = f1 ++ TcpDial m a :: f2 -> event_value (TcpDial m a) <> 0 ->
     exists j L w L' cont, sys_leaders s' !! j = Some (mkLeader L w) /\ a = ip (Z.of_nat j) /\
       SplitMessage (frame m) = Ret (CRelay, cont) /\
       Relay_HandleMessageOutsidePBFT now CRelay cont L = Ret (true, L', [])).
Proof.
  intros Hok Hrun.
  assert (H : wealth s' = wealth s + c /\ sys_ok s').
  { induction Hrun as [s|s c s1 d s2 _ IH Hstep]; [split; [lia|done]|]. destruct (IH Hok) as [Hw Hok1].
    destruct (step_ok _ _ _ Hok1 Hstep) as [Hok2 Hw2]. split; [lia|done]. }
  destruct H as [Hw Hok']. split_and!; [done|done| | |].
  - intros i L now Hi. destruct (propose_ok _ now L (so_leaders _ Hok' _ _ Hi)) as (r & L' & H & _). by exists r, L'.
  - intros i L r b cm now Hi. apply (commit_returns (Z.of_nat i)). by apply (so_leaders _ Hok').
  - intros f1 m a f2 now Hfl Hv. pose proof (so_flight _ Hok') as Hf. rewrite Hfl in Hf.
    apply Forall_app in Hf as [_ [Hf _]%list.Forall_cons].
    destruct Hf as [(rl & s0 & Hmm & Hs & -> & _)|(t & c' & Hmm & Ht & Hne)]; [|by rewrite (no_value _ _ _ _ Hmm Ht Hne) in Hv].
    pose proof (so_shards _ Hok') as Hn.
    destruct (lookup_lt_is_Some_2 (sys_leaders s') (Z.to_nat s0)) as [[L w] Hj]; [lia|].
    eexists (Z.to_nat s0), L, w, _, _. split; [done|]. split; [by rewrite Z2Nat.id by lia|].
    split; [exact (SplitMessage_MergeMessage _ _ _ CRelay_type (MergeMessage_frame _ _ _ Hmm))|]. apply handle_relay.
Qed.
End system.

(** *** Two shards, a transaction from the first to the second *)
Module RefSystem.
Export RefRelay.

Definition ips : gmap Z (gmap Z string) := {[ 0 := {[ 0 := "n0" ]}; 1 := {[ 0 := "n1" ]} ]}.
Definition at_ (s : Z) : string := default "" (ips !! s ≫= (.!! 0)).
Definition used : list string := ["0000000a"; "0000000b"; "0000000c"].
Definition shard_config (s : Z) : ChainConfig :=
  {| ChainID := s; NodeID := 0; ShardID := s; Nodes_perShard := 4; ShardNums := 2;
     BlockSize := 2; BlockInterval := 1; cc_InjectSpeed := 1; MaxRelayBlockSize := 0 |}.
Definition shard_leader (s : Z) : PbftConsensusNode () :=
  member 0 <| p_ShardID := s |> <| ip_nodeTable := ips |>
    <| pbftChainConfig := shard_config s |> <| CurChain := RefChain.chain 0 <| bc_ChainConfig := shard_config s |> |>.
Definition two_shards : System (X := ()) := mkSystem [mkLeader (shard_leader 0) None; mkLeader (shard_leader 1) None] [].

Lemma used_placed a : a ∈ used -> exists s, shard_of params ∅ a = Ret s /\ 0 <= s < 2.
Proof.
  unfold used. intros Ha. repeat (apply elem_of_cons in Ha as [->|Ha]; [eexists; split; [vm_compute; reflexivity|lia]|]).
  by apply elem_of_nil in Ha.
Qed.

Lemma at_inj s t : 0 <= s < 2 -> 0 <= t < 2 -> at_ s = at_ t -> s = t.
Proof. intros Hs Ht. assert (s = 0 \/ s = 1) as [-> | ->] by lia; assert (t = 0 \/ t = 1) as [-> | ->] by lia; done. Qed.

Lemma state_of_config bc c l : state_is bc (state_root bc) l ->
  state_is (bc <| bc_ChainConfig := c |>) (state_root (bc <| bc_ChainConfig := c |>)) l.
Proof. done. Qed.

Lemma shard_leader_ok s : 0 <= s < 2 -> leader_ok params 2 ∅ at_ used s (mkLeader (shard_leader s) None).
Proof.
  intros Hs. split; cbn [ld_node ld_work work_ok]; [done|done|done|by split| |by constructor|done].
  apply (state_at_is _ _ (fun _ => Init_Balance)).
  change (CurChain (shard_leader s)) with (RefChain.chain 0 <| bc_ChainConfig := shard_config s |>).
  exact (state_of_config _ _ _ (chain_state 0)).
Qed.

Lemma two_shards_ok : sys_ok params 2 ∅ at_ used two_shards.
Proof.
  split; [|done|constructor]. intros i ld Hi. destruct i as [|[|i]]; [| |done]; injection Hi as <-; by apply shard_leader_ok.
Qed.
End RefSystem.
Import RefSystem.

Lemma system_conserves_witness :
  exists s', sys_run params ∅ at_ used two_shards (0 + 0) s' /\
    wealth used s' = wealth used two_shards /\
    exists L r L', sys_leaders s' !! 0%nat = Some (mkLeader L None) /\
      Relay_HandleinPropose params 9 L = Ret (Some (true, r), L', []).
Proof.
  set (it := mkInjectTxs [t2] 0).
  pose proof (handle_inject 5 it (shard_leader 0)) as Hinj.
  match type of Hinj with _ = Ret (true, ?L1, _) => set (L := L1) in Hinj end.
  set (s' := mkSystem [mkLeader L None; mkLeader (shard_leader 1) None] []).
  assert (Hrun : sys_run params ∅ at_ used two_shards (0 + 0) s').
  { eapply sys_next; [apply sys_start|].
    refine (sys_inject params ∅ at_ used 0 5 it (shard_leader 0) L None [] (sys_leaders two_shards) [] eq_refl _ Hinj).
    apply list.Forall_singleton. split_and!; [done|done| | |done]; apply (bool_decide_unpack _); vm_compute; exact I. }
  destruct (system_conserves params (X := ()) 2 ∅ at_ used) with (s := two_shards) (c := 0 + 0) (s' := s')
    as (Hw & _ & Hp & _).
  - apply (bool_decide_unpack _). vm_compute. exact I.
  - exact used_placed.
  - exact at_inj.
  - reflexivity.
  - exact two_shards_ok.
  - exact Hrun.
  - exists s'. split; [exact Hrun|]. split; [rewrite Hw; lia|].
    destruct (Hp 0%nat L 9 eq_refl) as (r & L' & H). exists L, r, L'. split; [reflexivity|exact H].
Defined.
