(* ===== verification/Partition.v ===== *)
(** * Partition: src/partition/{graph,partition_CLPA}.go

    The graph of account interactions and the CLPA label propagation that
    splits it over the shards.  A [Vertex] is its address; a map's nil value is
    its empty value, except for [EdgeSet], whose nilness [CopyGraph] reads;
    an index out of a slice's range panics.  Go's [range] over a map visits it
    in any order: the functions whose result may depend on the order take it as an
    argument.  [float64] is the specification of IEEE binary64. *)
From stdpp Require Import base gmap strings list countable.
From Stdlib Require Import ZArith Lia SpecFloat.
From S2P Require Import Prelude GoStd.

Abbreviation Vertex := string (only parsing).

(** ** graph.go *)
Record Graph := mkGraph {
  VertexSet : gset string;
  EdgeSet : option (gmap string (list string)) }.
#[export] Instance Graph_eta : Eta Graph := fun r => mkGraph (VertexSet r) (EdgeSet r).

Definition Graph_AddVertex (v : Vertex) (g : Graph) : Graph := g <| VertexSet ::= fun s => {[v]} ∪ s |>.

(** [g.EdgeSet[v]]; reading a nil map or a missing key gives nil *)
Definition edges (g : Graph) (v : Vertex) : list string := default [] (EdgeSet g ≫= (.!! v)).

Definition append_edge (u v : Vertex) (m : gmap string (list string)) : gmap string (list string) :=
  <[u := default [] (m !! u) ++ [v]]> m.

Definition Graph_AddEdge (u v : Vertex) (g : Graph) : Graph :=
  let g := if decide (u ∈ VertexSet g) then g else Graph_AddVertex u g in
  let g := if decide (v ∈ VertexSet g) then g else Graph_AddVertex v g in
  let m := default ∅ (EdgeSet g) in
  g <| EdgeSet := Some (append_edge v u (append_edge u v m)) |>.

Definition CopyGraph (dst src : Graph) : Graph :=
  mkGraph (VertexSet src)
    (match EdgeSet src with
     | None => EdgeSet dst
     | Some m => Some (set_fold (fun v acc => <[v := default [] (m !! v)]> acc) ∅ (VertexSet src))
     end).

(** ** binary64 *)
Definition prec : Z := 53.
Definition emax : Z := 1024.
(** [float64(n)] *)
Definition of_int (n : Z) : spec_float := binary_normalize prec emax n 0 false.
Definition fdiv (x y : spec_float) : spec_float := SFdiv prec emax x y.
Definition fmul (x y : spec_float) : spec_float := SFmul prec emax x y.
Definition fsub (x y : spec_float) : spec_float := SFsub prec emax x y.
Definition flt (x y : spec_float) : bool := SFltb x y.

(** ** CLPAState *)
Record CLPAState := mkCLPAState {
  NetGraph : Graph;
  PartitionMap : gmap string Z;
  Edges2Shard : list Z;
  VertexsNumInShard : list Z;
  WeightPenalty : spec_float;
  MinEdges2Shard : Z;
  MaxIterations : Z;
  CrossShardEdgeNum : Z;
  cs_ShardNum : Z;
  GraphHash : bytes }.
#[export] Instance CLPAState_eta : Eta CLPAState := fun r =>
  mkCLPAState (NetGraph r) (PartitionMap r) (Edges2Shard r) (VertexsNumInShard r) (WeightPenalty r)
    (MinEdges2Shard r) (MaxIterations r) (CrossShardEdgeNum r) (cs_ShardNum r) (GraphHash r).

(** [new(CLPAState)] *)
Definition zero_CLPAState : CLPAState :=
  mkCLPAState (mkGraph ∅ None) ∅ [] [] (S754_zero false) 0 0 0 0 "".

(** A read of [map[Vertex]int] *)
Definition shard_of (m : gmap string Z) (v : Vertex) : Z := default 0 (m !! v).

(** [l[i]] and [l[i] += d] *)
Definition at_index (l : list Z) (i : Z) : res Z := if i <? 0 then Panic else must (l !! Z.to_nat i).
Definition add_index (i d : Z) (l : list Z) : res (list Z) :=
  x ← at_index l i; Ret (<[Z.to_nat i := x + d]> l).

(** [make([]int, n)] *)
Definition zeros (n : Z) : list Z := replicate (Z.to_nat n) 0.

Definition Init_CLPAState (wp : spec_float) (mIter sn : Z) (cs : CLPAState) : CLPAState :=
  cs <| WeightPenalty := wp |> <| MaxIterations := mIter |> <| cs_ShardNum := sn |>
     <| VertexsNumInShard := zeros sn |> <| PartitionMap := ∅ |>.

Definition CLPA_AddVertex (P : Params) (v : Vertex) (cs : CLPAState) : res CLPAState :=
  let cs := cs <| NetGraph ::= Graph_AddVertex v |> in
  m ← (match PartitionMap cs !! v with
       | None => s ← Addr2Shard P v; Ret (<[v := s]> (PartitionMap cs))
       | Some val => Ret (<[v := val]> (PartitionMap cs))
       end);
  n ← add_index (shard_of m v) 1 (VertexsNumInShard cs);
  Ret (cs <| PartitionMap := m |> <| VertexsNumInShard := n |>).

Definition CLPA_AddEdge (P : Params) (u v : Vertex) (cs : CLPAState) : res CLPAState :=
  cs ← (if decide (u ∈ VertexSet (NetGraph cs)) then Ret cs else CLPA_AddVertex P u cs);
  cs ← (if decide (v ∈ VertexSet (NetGraph cs)) then Ret cs else CLPA_AddVertex P v cs);
  Ret (cs <| NetGraph ::= Graph_AddEdge u v |>).

(** [copy(make([]int, n), src)] *)
Definition copy_slice (n : Z) (src : list Z) : list Z :=
  take (Z.to_nat n) src ++ replicate (Z.to_nat n - length src) 0.

(** [VertexsNumInShard] is the source's slice itself. *)
Definition CopyCLPA (dst src : CLPAState) : CLPAState :=
  dst <| NetGraph ::= fun g => CopyGraph g (NetGraph src) |>
      <| PartitionMap := PartitionMap src |>
      <| Edges2Shard := copy_slice (cs_ShardNum src) (Edges2Shard src) |>
      <| VertexsNumInShard := VertexsNumInShard src |>
      <| WeightPenalty := WeightPenalty src |> <| MinEdges2Shard := MinEdges2Shard src |>
      <| MaxIterations := MaxIterations src |> <| cs_ShardNum := cs_ShardNum src |>.

(** ** ComputeEdges2Shard *)

(** One neighbour of a vertex of [vShard]; the pair is [(Edges2Shard, interEdge)]. *)
Definition count_edge (pm : gmap string Z) (vShard : Z) (ei : list Z * list Z) (u : Vertex) :
    res (list Z * list Z) :=
  let uShard := shard_of pm u in
  if negb (vShard =? uShard) then e ← add_index uShard 1 ei.1; Ret (e, ei.2)
  else i ← add_index uShard 1 ei.2; Ret (ei.1, i).

Definition count_edges (pm : gmap string Z) (ei : list Z * list Z) (vl : string * list string) :
    res (list Z * list Z) :=
  foldM (count_edge pm (shard_of pm vl.1)) ei vl.2.

(** [for _, val := range l { if min > val { min = val } }] *)
Definition min_of (init : Z) (l : list Z) : Z := foldl (fun m v => if v <? m then v else m) init l.

Definition ComputeEdges2Shard (cs : CLPAState) : res CLPAState :=
  let n := cs_ShardNum cs in
  if n <? 0 then Panic
  else
    '(e, inter) ← foldM (count_edges (PartitionMap cs)) (zeros n, zeros n)
                    (map_to_list (default ∅ (EdgeSet (NetGraph cs))));
    let cross := Z.quot (foldl Z.add 0 e) 2 in
    let e := zip_with (fun x y => x + Z.quot y 2) e inter in
    Ret (cs <| Edges2Shard := e |> <| CrossShardEdgeNum := cross |>
            <| MinEdges2Shard := min_of 0x7fffffff e |>).

(** ** changeShardRecompute *)
Definition move_edge (pm : gmap string Z) (new old : Z) (ec : list Z * Z) (u : Vertex) : res (list Z * Z) :=
  let '(e, cross) := ec in
  let neighborShard := shard_of pm u in
  if negb (neighborShard =? new) && negb (neighborShard =? old) then
    e ← add_index new 1 e;
    e ← add_index old (-1) e;
    Ret (e, cross)
  else if neighborShard =? new then
    e ← add_index old (-1) e;
    Ret (e, cross - 1)
  else
    e ← add_index new 1 e;
    Ret (e, cross + 1).

Definition changeShardRecompute (v : Vertex) (old : Z) (cs : CLPAState) : res CLPAState :=
  let new := shard_of (PartitionMap cs) v in
  '(e, cross) ← foldM (move_edge (PartitionMap cs) new old) (Edges2Shard cs, CrossShardEdgeNum cs)
                  (edges (NetGraph cs) v);
  Ret (cs <| Edges2Shard := e |> <| CrossShardEdgeNum := cross |>
          <| MinEdges2Shard := min_of 0x7ffffffff e |>).

(** ** Initial partitions; [order] is the order of the vertices *)
Definition place (v : Vertex) (s : Z) (cs : CLPAState) : res CLPAState :=
  n ← add_index s 1 (VertexsNumInShard cs);
  Ret (cs <| PartitionMap ::= <[v := s]> |> <| VertexsNumInShard := n |>).

Definition Init_Partition (order : list string) (cs : CLPAState) : res CLPAState :=
  let cs := cs <| VertexsNumInShard := zeros (cs_ShardNum cs) |> <| PartitionMap := ∅ |> in
  cs ← foldM (fun cs v =>
          va ← last8 v;
          num ← must (ParseInt16 va);
          if cs_ShardNum cs =? 0 then Panic else place v (Z.rem num (cs_ShardNum cs)) cs) cs order;
  ComputeEdges2Shard cs.

Definition Stable_Init_Partition (order : list string) (cs : CLPAState) : res (option string * CLPAState) :=
  if Z.of_nat (size (VertexSet (NetGraph cs))) <? cs_ShardNum cs then
    Ret (Some "too many shards, number of shards should be less than nodes. "%string, cs)
  else
    let cs := cs <| VertexsNumInShard := zeros (cs_ShardNum cs) |> <| PartitionMap := ∅ |> in
    cs ← foldM (fun cs cv =>
            if cs_ShardNum cs =? 0 then Panic
            else place cv.2 (Z.rem cv.1 (cs_ShardNum cs)) cs) cs (imap (fun i v => (Z.of_nat i, v)) order);
    cs ← ComputeEdges2Shard cs;
    Ret (None, cs).

(** ** CLPA_Partition *)
Definition getShard_score (v : Vertex) (uShard : Z) (cs : CLPAState) : res spec_float :=
  let v_outdegree := Z.of_nat (length (edges (NetGraph cs) v)) in
  let Edgesto_uShard :=
    foldl (fun n item => if shard_of (PartitionMap cs) item =? uShard then n + 1 else n) 0
      (edges (NetGraph cs) v) in
  e ← at_index (Edges2Shard cs) uShard;
  Ret (fmul (fdiv (of_int Edgesto_uShard) (of_int v_outdegree))
         (fsub (of_int 1) (fdiv (fmul (WeightPenalty cs) (of_int e)) (of_int (MinEdges2Shard cs))))).

(** The best neighbouring shard: [(neighborShardScore, max_score, max_scoreShard)]. *)
Definition score_step (v : Vertex) (cs : CLPAState) (b : gset Z * spec_float * Z) (u : Vertex) :
    res (gset Z * spec_float * Z) :=
  let '(computed, max_score, max_scoreShard) := b in
  let uShard := shard_of (PartitionMap cs) u in
  if decide (uShard ∈ computed) then Ret b
  else
    score ← getShard_score v uShard cs;
    if flt max_score score then Ret ({[uShard]} ∪ computed, score, uShard)
    else Ret ({[uShard]} ∪ computed, max_score, max_scoreShard).

Definition best_shard (v : Vertex) (cs : CLPAState) : res Z :=
  '(_, _, s) ← foldM (score_step v cs) (∅, of_int (-9999), shard_of (PartitionMap cs) v)
                 (edges (NetGraph cs) v);
  Ret s.

(** The loop's state: the partition, [res] and [updateTreshold]. *)
Record Loop := mkLoop {
  lp_cs : CLPAState;
  lp_res : gmap string Z;
  lp_moves : gmap string Z }.

Definition moves_of (m : gmap string Z) (v : Vertex) : Z := default 0 (m !! v).

Definition visit (s : Loop) (v : Vertex) : res Loop :=
  if 50 <=? moves_of (lp_moves s) v then Ret s
  else
    let cs := lp_cs s in
    let vNowShard := shard_of (PartitionMap cs) v in
    max_scoreShard ← best_shard v cs;
    if vNowShard =? max_scoreShard then Ret s
    else
      n ← at_index (VertexsNumInShard cs) vNowShard;
      if n <=? 1 then Ret s
      else
        let cs := cs <| PartitionMap ::= <[v := max_scoreShard]> |> in
        let res := <[v := u64 max_scoreShard]> (lp_res s) in
        let moves := <[v := moves_of (lp_moves s) v + 1]> (lp_moves s) in
        ns ← add_index vNowShard (-1) (VertexsNumInShard cs);
        ns ← add_index max_scoreShard 1 ns;
        let cs := cs <| VertexsNumInShard := ns |> in
        cs ← changeShardRecompute v vNowShard cs;
        Ret (mkLoop cs res moves).

(** [orders i] is the order of the vertices in the i-th iteration. *)
Definition CLPA_Partition (orders : nat -> list string) (cs : CLPAState) :
    res (gmap string Z * Z * CLPAState) :=
  cs ← ComputeEdges2Shard cs;
  s ← foldM (fun s i => foldM visit s (orders i)) (mkLoop cs ∅ ∅) (seq 0 (Z.to_nat (MaxIterations cs)));
  cs ← ComputeEdges2Shard (lp_cs s);
  Ret (lp_res s, CrossShardEdgeNum cs, cs).

Definition EraseEdges (cs : CLPAState) : CLPAState :=
  cs <| NetGraph ::= fun g => g <| EdgeSet := Some ∅ |> |>.
