(* ===== verification/PartitionProps.v ===== *)
(** * PartitionProps: the CLPA partition

    The incremental update of the edge counts agrees with recomputing them,
    the graph's invariant survives every operation, and [CLPA_Partition]
    returns a partition that keeps it, for every order of visiting. *)
From stdpp Require Import base gmap strings list countable.
From Stdlib Require Import ZArith Lia SpecFloat.
From S2P Require Import Prelude GoStd Partition.

(** ** A symmetric change at one vertex *)

(** The sum of [g] over the directed edges. *)
Definition edge_sum (adj : string -> list string) (keys : list string) (g : string -> string -> Z) : Z :=
  zsum (fun x => zsum (g x) (adj x)) keys.

Lemma edge_sum_change adj keys v (d : string -> string -> Z) :
  NoDup keys -> v ∈ keys ->
  (forall x u, x ∈ keys -> u ∈ adj x -> u ∈ keys) ->
  (forall x y, x ∈ keys -> y ∈ keys -> occ y (adj x) = occ x (adj y)) ->
  occ v (adj v) = 0 ->
  (forall x y, x <> v -> y <> v -> d x y = 0) ->
  edge_sum adj keys d = zsum (fun u => d v u + d u v) (adj v).
Proof.
  intros Hnd Hv Hin Hsym Hself Hd. unfold edge_sum.
  assert (Hrow : forall x, x ∈ keys -> zsum (d x) (adj x) =
    (if decide (x = v) then zsum (d v) (adj v) else 0) + occ v (adj x) * d x v).
  { intros x Hx. case_decide as E; [subst x; lia|].
    rewrite (zsum_occ (d x) (adj x) keys) by eauto.
    rewrite (zsum_single _ v); [lia|done|done|]. intros y _ Hy. rewrite Hd by done. lia. }
  rewrite (zsum_ext _ _ _ Hrow), zsum_add.
  rewrite (zsum_single (fun x => if decide (x = v) then _ else 0) v);
    [|done|done|intros x _ Hx; by rewrite decide_False].
  rewrite decide_True by done. rewrite zsum_add. f_equal.
  rewrite (zsum_occ (fun u => d u v) (adj v) keys) by eauto.
  apply zsum_ext. intros x Hx. by rewrite Hsym.
Qed.

(** ** Slices as tables *)
Definition tab (n : Z) (f : Z -> Z) : list Z := f <$> seqZ 0 n.

Lemma tab_ext n f g : (forall k, 0 <= k < n -> f k = g k) -> tab n f = tab n g.
Proof. intros H. apply list_fmap_ext. intros i k Hk%lookup_seqZ. apply H. lia. Qed.

Lemma tab_lookup n f i : 0 <= i < n -> tab n f !! Z.to_nat i = Some (f i).
Proof.
  intros H. unfold tab. rewrite list_lookup_fmap, lookup_seqZ_lt by lia.
  cbn. do 2 f_equal. lia.
Qed.

Lemma length_tab n f : length (tab n f) = Z.to_nat n.
Proof. unfold tab. by rewrite length_fmap, length_seqZ. Qed.

Lemma zeros_tab n : zeros n = tab n (fun _ => 0).
Proof.
  apply list_eq. intros i. unfold zeros, tab. rewrite list_lookup_fmap.
  destruct (decide (i < Z.to_nat n)%nat).
  - rewrite lookup_replicate_2 by done. by rewrite lookup_seqZ_lt by lia.
  - rewrite lookup_ge_None_2 by (rewrite length_replicate; lia). by rewrite lookup_seqZ_ge by lia.
Qed.

Lemma at_index_tab n f i : 0 <= i < n -> at_index (tab n f) i = Ret (f i).
Proof.
  intros H. unfold at_index. rewrite (proj2 (Z.ltb_ge _ _)) by lia. by rewrite tab_lookup.
Qed.

Lemma add_index_tab n f i d :
  0 <= i < n ->
  add_index i d (tab n f) = Ret (tab n (fun k => f k + if decide (k = i) then d else 0)).
Proof.
  intros H. unfold add_index. rewrite at_index_tab by done. cbn. f_equal.
  apply list_eq. intros j. destruct (decide (Z.to_nat i = j)) as [<-|Hne].
  - rewrite list_lookup_insert_eq by (rewrite length_tab; lia). rewrite tab_lookup by done.
    by rewrite decide_True.
  - rewrite list_lookup_insert_ne by done. destruct (decide (j < Z.to_nat n)%nat).
    + replace j with (Z.to_nat (Z.of_nat j)) by lia. rewrite !tab_lookup by lia.
      rewrite decide_False by lia. f_equal. lia.
    + rewrite !lookup_ge_None_2; [done|rewrite length_tab; lia|rewrite length_tab; lia].
Qed.

Lemma list_tab l n : length l = Z.to_nat n -> l = tab n (fun k => default 0 (l !! Z.to_nat k)).
Proof.
  intros H. apply list_eq. intros i. destruct (decide (i < Z.to_nat n)%nat).
  - replace i with (Z.to_nat (Z.of_nat i)) by lia. rewrite tab_lookup by lia.
    destruct (l !! _) eqn:E; [done|]. apply lookup_ge_None in E. lia.
  - rewrite !lookup_ge_None_2; [done|rewrite length_tab; lia|lia].
Qed.

Lemma sum_tab n f : foldl Z.add 0 (tab n f) = zsum f (seqZ 0 n).
Proof.
  unfold tab. enough (H : forall l a, foldl Z.add a (f <$> l) = a + zsum f l) by apply H.
  induction l as [|x l IH]; intros a; cbn; [lia|]. rewrite IH. unfold zsum. lia.
Qed.

(** ** The counts, by their definition *)

(** The contribution of a directed edge between shards [a] and [b] to the
    incoming cross-shard edges, and to the internal edges, of shard [k]. *)
Definition cr (a b k : Z) : Z := if decide (a <> b /\ b = k) then 1 else 0.
Definition it (a b k : Z) : Z := if decide (a = b /\ b = k) then 1 else 0.

Definition pairs (cs : CLPAState) : list (string * list string) :=
  map_to_list (default ∅ (EdgeSet (NetGraph cs))).
Definition keys (cs : CLPAState) : list string := (pairs cs).*1.

(** Incoming cross-shard edges and internal edge ends of a shard. *)
Definition cross_in (cs : CLPAState) (k : Z) : Z :=
  edge_sum (edges (NetGraph cs)) (keys cs)
    (fun x u => cr (shard_of (PartitionMap cs) x) (shard_of (PartitionMap cs) u) k).
Definition inner (cs : CLPAState) (k : Z) : Z :=
  edge_sum (edges (NetGraph cs)) (keys cs)
    (fun x u => it (shard_of (PartitionMap cs) x) (shard_of (PartitionMap cs) u) k).

(** The total weight of the edges of a shard, and the cross-shard edges. *)
Definition weight (cs : CLPAState) (k : Z) : Z := cross_in cs k + inner cs k / 2.
Definition cross_edges (cs : CLPAState) : Z := zsum (cross_in cs) (seqZ 0 (cs_ShardNum cs)) / 2.

(** Every vertex is in a shard that exists. *)
Definition in_range (cs : CLPAState) : Prop :=
  0 < cs_ShardNum cs /\ forall v, 0 <= shard_of (PartitionMap cs) v < cs_ShardNum cs.

Lemma pairs_edges cs x l : (x, l) ∈ pairs cs -> edges (NetGraph cs) x = l.
Proof.
  unfold pairs, edges. rewrite elem_of_map_to_list. destruct (EdgeSet (NetGraph cs)); cbn.
  - by intros ->.
  - by rewrite lookup_empty.
Qed.

Lemma pairs_sum cs (g : string -> string -> Z) :
  zsum (fun xl => zsum (g xl.1) xl.2) (pairs cs) = edge_sum (edges (NetGraph cs)) (keys cs) g.
Proof.
  unfold edge_sum, keys.
  assert (H : forall xl, xl ∈ pairs cs -> edges (NetGraph cs) xl.1 = xl.2)
    by (intros [x l] Hx; by eapply pairs_edges).
  induction (pairs cs) as [|[x l] ps IH]; [done|]. cbn [fmap list_fmap]. rewrite !zsum_cons.
  rewrite IH by (intros; apply H; by right). cbn [fst snd].
  f_equal. pose proof (H (x, l) ltac:(left)) as Hx. cbn in Hx. by rewrite Hx.
Qed.

Lemma count_edge_tab n pm s u f g :
  0 <= shard_of pm u < n ->
  count_edge pm s (tab n f, tab n g) u =
    Ret (tab n (fun k => f k + cr s (shard_of pm u) k), tab n (fun k => g k + it s (shard_of pm u) k)).
Proof.
  intros H. unfold count_edge, cr, it. cbn [fst snd]. destruct (Z.eqb_spec s (shard_of pm u)) as [E|E]; cbn [negb].
  - rewrite add_index_tab by done. cbn. do 2 f_equal; apply tab_ext; intros k _; repeat case_decide; lia.
  - rewrite add_index_tab by done. cbn. do 2 f_equal; apply tab_ext; intros k _; repeat case_decide; lia.
Qed.

Lemma count_row_tab n pm s l : forall f g,
  (forall u, 0 <= shard_of pm u < n) ->
  foldM (count_edge pm s) (tab n f, tab n g) l =
    Ret (tab n (fun k => f k + zsum (fun u => cr s (shard_of pm u) k) l),
         tab n (fun k => g k + zsum (fun u => it s (shard_of pm u) k) l)).
Proof.
  induction l as [|u l IH]; intros f g H.
  - cbn. do 2 f_equal; apply tab_ext; intros; lia.
  - cbn [foldM]. rewrite count_edge_tab by done. cbn [mbind res_bind]. rewrite IH by done.
    do 2 f_equal; apply tab_ext; intros; rewrite zsum_cons; lia.
Qed.

Lemma count_edges_tab n pm x l f g :
  (forall u, 0 <= shard_of pm u < n) ->
  count_edges pm (tab n f, tab n g) (x, l) =
    Ret (tab n (fun k => f k + zsum (fun u => cr (shard_of pm x) (shard_of pm u) k) l),
         tab n (fun k => g k + zsum (fun u => it (shard_of pm x) (shard_of pm u) k) l)).
Proof. apply count_row_tab. Qed.

Lemma count_all_tab n pm ps : forall f g,
  (forall u, 0 <= shard_of pm u < n) ->
  foldM (count_edges pm) (tab n f, tab n g) ps =
    Ret (tab n (fun k => f k + zsum (fun xl => zsum (fun u => cr (shard_of pm xl.1) (shard_of pm u) k) xl.2) ps),
         tab n (fun k => g k + zsum (fun xl => zsum (fun u => it (shard_of pm xl.1) (shard_of pm u) k) xl.2) ps)).
Proof.
  induction ps as [|[x l] ps IH]; intros f g H.
  - cbn. do 2 f_equal; apply tab_ext; intros; lia.
  - cbn [foldM]. rewrite count_edges_tab by done. cbn [mbind res_bind].
    rewrite IH by done. do 2 f_equal; apply tab_ext; intros; rewrite zsum_cons; cbn [fst snd]; lia.
Qed.

Lemma edge_sum_nonneg adj ks g : (forall x u, 0 <= g x u) -> 0 <= edge_sum adj ks g.
Proof. intros H. apply zsum_nonneg. intros x. apply zsum_nonneg. intros u. apply H. Qed.

Lemma cross_in_nonneg cs k : 0 <= cross_in cs k.
Proof. apply edge_sum_nonneg. intros x u. unfold cr. case_decide; lia. Qed.
Lemma inner_nonneg cs k : 0 <= inner cs k.
Proof. apply edge_sum_nonneg. intros x u. unfold it. case_decide; lia. Qed.

Lemma zip_tab n f g h : zip_with h (tab n f) (tab n g) = tab n (fun k => h (f k) (g k)).
Proof. unfold tab. rewrite zip_with_fmap_l, zip_with_fmap_r. induction (seqZ 0 n); cbn; congruence. Qed.

(** The recomputation gives the weights and the number of cross-shard edges. *)
Lemma ComputeEdges2Shard_spec cs :
  in_range cs ->
  let e := tab (cs_ShardNum cs) (weight cs) in
  ComputeEdges2Shard cs = Ret (cs <| Edges2Shard := e |> <| CrossShardEdgeNum := cross_edges cs |>
                                  <| MinEdges2Shard := min_of 0x7fffffff e |>).
Proof.
  intros [Hn Hr] e. unfold ComputeEdges2Shard. rewrite (proj2 (Z.ltb_ge _ _)) by lia.
  rewrite zeros_tab, count_all_tab by done. cbn [mbind res_bind]. rewrite sum_tab, zip_tab.
  assert (Hc : forall k, 0 + zsum (fun xl => zsum (fun u => cr (shard_of (PartitionMap cs) xl.1)
    (shard_of (PartitionMap cs) u) k) xl.2) (pairs cs) = cross_in cs k).
  { intros k. unfold cross_in. by rewrite <- pairs_sum. }
  assert (Hi : forall k, 0 + zsum (fun xl => zsum (fun u => it (shard_of (PartitionMap cs) xl.1)
    (shard_of (PartitionMap cs) u) k) xl.2) (pairs cs) = inner cs k).
  { intros k. unfold inner. by rewrite <- pairs_sum. }
  fold (pairs cs).
  assert (He : tab (cs_ShardNum cs) (fun k => 0 + zsum (fun xl => zsum (fun u => cr (shard_of (PartitionMap cs) xl.1)
      (shard_of (PartitionMap cs) u) k) xl.2) (pairs cs) + Z.quot (0 + zsum (fun xl => zsum (fun u =>
      it (shard_of (PartitionMap cs) xl.1) (shard_of (PartitionMap cs) u) k) xl.2) (pairs cs)) 2) = e).
  { apply tab_ext. intros k _. rewrite Hc, Hi. unfold weight. f_equal.
    apply Z.quot_div_nonneg; [apply inner_nonneg|lia]. }
  rewrite He, (zsum_ext _ _ _ (fun k _ => Hc k)).
  rewrite Z.quot_div_nonneg; [done| |lia]. apply zsum_nonneg, cross_in_nonneg.
Qed.

(** ** The incremental update *)

(** An undirected graph: each edge is in both adjacency lists. *)
Definition symmetric (g : Graph) : Prop := forall x y, occ y (edges g x) = occ x (edges g y).

Definition moved (v : Vertex) (s : Z) (cs : CLPAState) : CLPAState := cs <| PartitionMap ::= <[v := s]> |>.

(** What [changeShardRecompute] adds for a neighbour of shard [s]. *)
Definition delta (new old s k : Z) : Z :=
  (if decide (s <> new /\ k = new) then 1 else 0) - (if decide (s <> old /\ k = old) then 1 else 0).
Definition delta_cross (new old s : Z) : Z := if decide (s = new) then -1 else if decide (s = old) then 1 else 0.

Lemma move_edge_tab n pm new old f c u :
  0 <= new < n -> 0 <= old < n -> new <> old ->
  move_edge pm new old (tab n f, c) u =
    Ret (tab n (fun k => f k + delta new old (shard_of pm u) k), c + delta_cross new old (shard_of pm u)).
Proof.
  intros Hn Ho Hne. unfold move_edge, delta, delta_cross. set (s := shard_of pm u).
  destruct (Z.eqb_spec s new) as [E1|E1], (Z.eqb_spec s old) as [E2|E2]; try lia; cbn [negb andb].
  - rewrite add_index_tab by done. cbn [mbind res_bind].
    rewrite (decide_True (P := s = new)) by done. do 2 f_equal.
    apply tab_ext. intros k _. repeat case_decide; lia.
  - rewrite add_index_tab by done. cbn [mbind res_bind].
    rewrite (decide_False (P := s = new)), (decide_True (P := s = old)) by done. do 2 f_equal.
    apply tab_ext. intros k _. repeat case_decide; lia.
  - rewrite !add_index_tab by done. cbn [mbind res_bind]. rewrite add_index_tab by done. cbn [mbind res_bind].
    rewrite (decide_False (P := s = new)), (decide_False (P := s = old)) by done. rewrite Z.add_0_r. do 2 f_equal.
    apply tab_ext. intros k _. repeat case_decide; lia.
Qed.

Lemma move_row_tab n pm new old l : forall f c,
  0 <= new < n -> 0 <= old < n -> new <> old ->
  foldM (move_edge pm new old) (tab n f, c) l =
    Ret (tab n (fun k => f k + zsum (fun u => delta new old (shard_of pm u) k) l),
         c + zsum (fun u => delta_cross new old (shard_of pm u)) l).
Proof.
  induction l as [|u l IH]; intros f c Hn Ho Hne.
  - cbn. rewrite Z.add_0_r. do 2 f_equal. apply tab_ext; intros; lia.
  - cbn [foldM]. rewrite move_edge_tab by done. cbn [mbind res_bind]. rewrite IH by done.
    rewrite zsum_cons, Z.add_assoc. do 2 f_equal. apply tab_ext; intros; rewrite zsum_cons; lia.
Qed.

Lemma keys_NoDup cs : NoDup (keys cs).
Proof. apply NoDup_fst_map_to_list. Qed.

Lemma edges_keys cs x u : u ∈ edges (NetGraph cs) x -> x ∈ keys cs.
Proof.
  intros Hu. unfold keys, pairs. apply list_elem_of_fmap. unfold edges in Hu.
  destruct (EdgeSet (NetGraph cs)) as [m|]; cbn in *; [|by apply not_elem_of_nil in Hu].
  destruct (m !! x) as [l|] eqn:E; [|by apply not_elem_of_nil in Hu].
  exists (x, l). split; [done|]. by apply elem_of_map_to_list.
Qed.

Lemma occ_pos `{EqDecision A} (x : A) l : x ∈ l -> 0 < occ x l.
Proof.
  induction l as [|y l IH]; intros H; [by apply not_elem_of_nil in H|].
  unfold occ. rewrite zsum_cons. pose proof (zsum_nonneg (fun y => if decide (y = x) then 1 else 0) l) as Hp.
  apply elem_of_cons in H as [->|H].
  - rewrite decide_True by done. enough (0 <= occ y l) by (unfold occ in *; lia).
    apply zsum_nonneg. intros z. case_decide; lia.
  - specialize (IH H). unfold occ in IH. case_decide; lia.
Qed.

Lemma occ_elem `{EqDecision A} (x : A) l : 0 < occ x l -> x ∈ l.
Proof.
  intros H. destruct (decide (x ∈ l)) as [|Hn]; [done|]. unfold occ in H.
  rewrite zsum_zero in H; [lia|]. intros y Hy. rewrite decide_False; [done|]. congruence.
Qed.

Lemma symmetric_elem g x y : symmetric g -> y ∈ edges g x -> x ∈ edges g y.
Proof. intros Hs H. apply occ_elem. rewrite <- Hs. by apply occ_pos. Qed.

Section moved.
Context (cs : CLPAState) (v : Vertex) (new : Z).
Context (Hr : in_range cs) (Hnew : 0 <= new < cs_ShardNum cs) (Hsym : symmetric (NetGraph cs)).
Context (Hloop : occ v (edges (NetGraph cs) v) = 0).
Abbreviation pm := (PartitionMap cs).
Abbreviation pm' := (<[v := new]> (PartitionMap cs)).
Abbreviation adj := (edges (NetGraph cs)).
Abbreviation old := (shard_of (PartitionMap cs) v).

Lemma shard_moved u : shard_of pm' u = if decide (u = v) then new else shard_of pm u.
Proof.
  unfold shard_of. case_decide as E; [subst; by rewrite lookup_insert_eq|by rewrite lookup_insert_ne].
Qed.

Lemma neighbour_ne u : u ∈ adj v -> u <> v.
Proof. intros Hu ->. apply occ_pos in Hu. lia. Qed.

(** The effect on a sum over the edges. *)
Lemma edge_sum_moved (g : Z -> Z -> Z) (d : Z -> Z) :
  (forall s, g new s + g s new - (g old s + g s old) = d s) ->
  edge_sum adj (keys cs) (fun x u => g (shard_of pm' x) (shard_of pm' u)) =
  edge_sum adj (keys cs) (fun x u => g (shard_of pm x) (shard_of pm u)) + zsum (fun u => d (shard_of pm u)) (adj v).
Proof.
  intros Hd.
  assert (Hsum : edge_sum adj (keys cs) (fun x u => g (shard_of pm' x) (shard_of pm' u)) =
    edge_sum adj (keys cs) (fun x u => g (shard_of pm x) (shard_of pm u)) +
    edge_sum adj (keys cs) (fun x u => g (shard_of pm' x) (shard_of pm' u) - g (shard_of pm x) (shard_of pm u))).
  { unfold edge_sum. rewrite <- zsum_add. apply zsum_ext. intros x _. rewrite <- zsum_add.
    apply zsum_ext. intros u _. lia. }
  rewrite Hsum. f_equal. destruct (decide (v ∈ keys cs)) as [Hv|Hv].
  - rewrite (edge_sum_change _ _ v); [|apply keys_NoDup|done| |auto|done|].
    + apply zsum_ext. intros u Hu%neighbour_ne. rewrite !shard_moved, (decide_True (P := v = v)) by done.
      rewrite !decide_False by done. rewrite <- Hd. lia.
    + intros x u _ Hu. by eapply edges_keys, symmetric_elem.
    + intros x y Hx Hy. rewrite !shard_moved, !decide_False by done. lia.
  - assert (Hnil : adj v = []).
    { destruct (adj v) as [|u l] eqn:E; [done|]. exfalso. apply Hv. eapply edges_keys. rewrite E. by left. }
    rewrite Hnil. apply zsum_zero. intros x Hx. apply zsum_zero. intros u Hu.
    rewrite !shard_moved, !decide_False; [lia| |congruence].
    intros ->. apply symmetric_elem in Hu; [|done]. rewrite Hnil in Hu. by apply not_elem_of_nil in Hu.
Qed.

Lemma cross_moved k :
  cross_in (moved v new cs) k = cross_in cs k +
    zsum (fun u => cr new (shard_of pm u) k + cr (shard_of pm u) new k -
                   (cr old (shard_of pm u) k + cr (shard_of pm u) old k)) (adj v).
Proof. exact (edge_sum_moved (fun a b => cr a b k) _ (fun s => eq_refl)). Qed.

Lemma inner_moved k :
  inner (moved v new cs) k = inner cs k +
    2 * zsum (fun u => it new (shard_of pm u) k - it old (shard_of pm u) k) (adj v).
Proof.
  rewrite <- zsum_scale. apply (edge_sum_moved (fun a b => it a b k) (fun s => 2 * (it new s k - it old s k))).
  intros s. unfold it. repeat case_decide; lia.
Qed.

Lemma weight_moved k :
  weight (moved v new cs) k = weight cs k + zsum (fun u => delta new old (shard_of pm u) k) (adj v).
Proof.
  unfold weight. rewrite cross_moved, inner_moved.
  rewrite (Z.mul_comm 2), Z.div_add by lia.
  enough (H : zsum (fun u => delta new old (shard_of pm u) k) (adj v) =
    zsum (fun u => cr new (shard_of pm u) k + cr (shard_of pm u) new k -
                   (cr old (shard_of pm u) k + cr (shard_of pm u) old k)) (adj v) +
    zsum (fun u => it new (shard_of pm u) k - it old (shard_of pm u) k) (adj v)) by lia.
  rewrite <- zsum_add. apply zsum_ext. intros u _. unfold delta, cr, it. repeat case_decide; lia.
Qed.

Lemma seqZ_NoDup n : NoDup (seqZ 0 n).
Proof. apply NoDup_seqZ. Qed.

Lemma cr_sum a b n : 0 <= b < n -> zsum (cr a b) (seqZ 0 n) = if decide (a = b) then 0 else 1.
Proof.
  intros Hb. rewrite (zsum_single (cr a b) b).
  - unfold cr. repeat case_decide; naive_solver.
  - apply seqZ_NoDup.
  - apply elem_of_seqZ. lia.
  - intros x _ Hx. unfold cr. rewrite decide_False; naive_solver.
Qed.

Lemma cross_edges_moved : new <> old ->
  cross_edges (moved v new cs) = cross_edges cs + zsum (fun u => delta_cross new old (shard_of pm u)) (adj v).
Proof.
  intros Hne. unfold cross_edges. cbn [cs_ShardNum moved].
  rewrite (zsum_ext _ _ _ (fun k _ => cross_moved k)), zsum_add, zsum_swap.
  rewrite <- Z.div_add by lia. f_equal. f_equal. rewrite Z.mul_comm, <- zsum_scale. apply zsum_ext. intros u _.
  destruct Hr as [_ Hpm]. pose proof (Hpm u). pose proof (Hpm v).
  set (s := shard_of pm u) in *.
  transitivity (zsum (cr new s) (seqZ 0 (cs_ShardNum cs)) + zsum (cr s new) (seqZ 0 (cs_ShardNum cs))
    + -1 * (zsum (cr old s) (seqZ 0 (cs_ShardNum cs)) + zsum (cr s old) (seqZ 0 (cs_ShardNum cs)))).
  - rewrite <- !zsum_add, <- zsum_scale, <- zsum_add. apply zsum_ext. intros k _. lia.
  - rewrite !cr_sum by done. unfold delta_cross. repeat case_decide; lia.
Qed.
End moved.

(** The counts a state stores are those of its partition. *)
Definition counted (cs : CLPAState) : Prop :=
  Edges2Shard cs = tab (cs_ShardNum cs) (weight cs) /\ CrossShardEdgeNum cs = cross_edges cs.

Lemma ComputeEdges2Shard_counted cs c :
  in_range cs -> ComputeEdges2Shard cs = Ret c ->
  counted c /\ c = cs <| Edges2Shard := Edges2Shard c |> <| CrossShardEdgeNum := CrossShardEdgeNum c |>
                      <| MinEdges2Shard := MinEdges2Shard c |>.
Proof. intros Hr. rewrite ComputeEdges2Shard_spec by done. intros [= <-]. done. Qed.

Lemma in_range_moved cs v s : in_range cs -> 0 <= s < cs_ShardNum cs -> in_range (moved v s cs).
Proof.
  intros [Hn Hr] Hs. split; [done|]. intros u. cbn [PartitionMap moved set_field].
  rewrite shard_moved. case_decide; [done|apply Hr].
Qed.

Lemma changeShardRecompute_spec cs v new :
  in_range cs -> 0 <= new < cs_ShardNum cs -> symmetric (NetGraph cs) -> occ v (edges (NetGraph cs) v) = 0 ->
  counted cs -> new <> shard_of (PartitionMap cs) v ->
  let e := tab (cs_ShardNum cs) (weight (moved v new cs)) in
  changeShardRecompute v (shard_of (PartitionMap cs) v) (moved v new cs) =
    Ret (moved v new cs <| Edges2Shard := e |> <| CrossShardEdgeNum := cross_edges (moved v new cs) |>
                        <| MinEdges2Shard := min_of 0x7ffffffff e |>).
Proof.
  intros Hr Hn Hs Hl [He Hc] Hne e. unfold changeShardRecompute.
  cbn [PartitionMap moved set_field NetGraph Edges2Shard CrossShardEdgeNum].
  rewrite He, Hc. rewrite (shard_moved cs v new v), decide_True by done.
  rewrite move_row_tab by (done || apply Hr). cbn [mbind res_bind].
  assert (Hpm : forall u, u ∈ edges (NetGraph cs) v ->
    shard_of (<[v := new]> (PartitionMap cs)) u = shard_of (PartitionMap cs) u).
  { intros u Hu. rewrite shard_moved, decide_False; [done|]. by eapply neighbour_ne. }
  rewrite (zsum_ext _ (fun u => delta_cross new (shard_of (PartitionMap cs) v) (shard_of (PartitionMap cs) u)))
    by (intros u Hu; by rewrite Hpm).
  rewrite <- cross_edges_moved by done.
  replace (tab _ (fun k => weight cs k + _)) with e; [done|].
  apply tab_ext. intros k _. rewrite weight_moved by done. f_equal. apply zsum_ext. intros u Hu. by rewrite Hpm.
Qed.

(** The sentinel does not matter once a shard has few enough edges. *)
Lemma min_of_min l : forall a b, min_of (Z.min a b) l = Z.min a (min_of b l).
Proof.
  unfold min_of. induction l as [|x l IH]; intros a b; [done|]. cbn [foldl].
  destruct (Z.ltb_spec x (Z.min a b)), (Z.ltb_spec x b); try lia; rewrite <- ?IH; f_equal; lia.
Qed.

Lemma min_of_sentinel l a b x : a <= b -> x ∈ l -> x <= a -> min_of b l = min_of a l.
Proof.
  intros Hab Hx Hxa. enough (Hm : min_of b l <= a).
  { replace a with (Z.min a b) at 1 by lia. rewrite min_of_min. lia. }
  clear Hab. unfold min_of. revert b. induction l as [|y l IH]; intros b; [by apply not_elem_of_nil in Hx|].
  apply elem_of_cons in Hx as [->|Hx]; [|by apply IH]. cbn [foldl].
  enough (H : forall l m, foldl (fun m v => if v <? m then v else m) m l <= m).
  { etransitivity; [apply H|]. destruct (Z.ltb_spec y b); lia. }
  clear. intros l. induction l as [|x l IH]; intros m; cbn; [lia|].
  etransitivity; [apply IH|]. destruct (Z.ltb_spec x m); lia.
Qed.

(** C14: for an undirected graph, after a vertex without a
    self-loop moves to another shard the incremental update
    [changeShardRecompute] stores exactly the edge counts and the number of
    cross-shard edges that counting all edges again would, and the same
    minimum whenever some shard has at most 0x7fffffff edges. *)
Theorem changeShardRecompute_recompute cs c v new :
  in_range cs -> ComputeEdges2Shard cs = Ret c ->
  symmetric (NetGraph cs) -> occ v (edges (NetGraph cs) v) = 0 ->
  0 <= new < cs_ShardNum cs -> new <> shard_of (PartitionMap cs) v ->
  exists c1 c2, changeShardRecompute v (shard_of (PartitionMap cs) v) (moved v new c) = Ret c1 /\
    ComputeEdges2Shard (moved v new cs) = Ret c2 /\
    Edges2Shard c1 = Edges2Shard c2 /\ CrossShardEdgeNum c1 = CrossShardEdgeNum c2 /\
    (Exists (fun x => x <= 0x7fffffff) (Edges2Shard c2) -> c1 = c2).
Proof.
  intros Hr Hc Hs Hl Hn Hne. apply ComputeEdges2Shard_counted in Hc as [Hc E]; [|done].
  assert (Hf : in_range c /\ symmetric (NetGraph c) /\ occ v (edges (NetGraph c) v) = 0 /\
    shard_of (PartitionMap c) v = shard_of (PartitionMap cs) v /\ cs_ShardNum c = cs_ShardNum cs /\
    weight (moved v new c) = weight (moved v new cs) /\
    cross_edges (moved v new c) = cross_edges (moved v new cs)) by (by rewrite E).
  destruct Hf as (Hrc & Hsc & Hlc & Hpc & Hnc & Hw & Hx).
  exists (moved v new c <| Edges2Shard := tab (cs_ShardNum cs) (weight (moved v new cs)) |>
    <| CrossShardEdgeNum := cross_edges (moved v new cs) |>
    <| MinEdges2Shard := min_of 0x7ffffffff (tab (cs_ShardNum cs) (weight (moved v new cs))) |>).
  eexists. split; [|split; [apply ComputeEdges2Shard_spec; by apply in_range_moved|]].
  { rewrite <- Hpc, changeShardRecompute_spec by congruence. by rewrite Hnc, Hw, Hx. }
  split; [done|]. split; [done|]. intros (x & Hx' & Hle)%list.Exists_exists.
  rewrite (min_of_sentinel _ 0x7fffffff 0x7ffffffff x); [|done..]. by rewrite E.
Qed.

(** ** The graph's invariant *)

(** The number of vertices of a shard. *)
Definition count (cs : CLPAState) (k : Z) : Z :=
  zsum (fun v => if decide (shard_of (PartitionMap cs) v = k) then 1 else 0) (elements (VertexSet (NetGraph cs))).

Record wf (cs : CLPAState) : Prop := {
  wf_range : in_range cs;
  wf_symmetric : symmetric (NetGraph cs);
  wf_count : VertexsNumInShard cs = tab (cs_ShardNum cs) (count cs) }.

Lemma Init_CLPAState_wf wp mIter sn : 0 < sn -> wf (Init_CLPAState wp mIter sn zero_CLPAState).
Proof. intros H. split; [split; [done|]|done|apply zeros_tab]. intros v. cbn. unfold shard_of. rewrite lookup_empty. cbn. lia. Qed.

Lemma CLPA_AddVertex_wf P v cs c :
  ShardNum P = cs_ShardNum cs -> v ∉ VertexSet (NetGraph cs) -> wf cs -> CLPA_AddVertex P v cs = Ret c ->
  wf c /\ NetGraph c = Graph_AddVertex v (NetGraph cs) /\ cs_ShardNum c = cs_ShardNum cs.
Proof.
  intros HP Hv [Hr Hs Hc]. unfold CLPA_AddVertex. cbn [PartitionMap set_field].
  assert (Hm : forall m, match PartitionMap cs !! v with
      | Some val => Ret (<[v:=val]> (PartitionMap cs))
      | None => s ← Addr2Shard P v; Ret (<[v:=s]> (PartitionMap cs)) end = Ret m ->
    exists s, 0 <= s < cs_ShardNum cs /\ m = <[v := s]> (PartitionMap cs)).
  { intros m. destruct (PartitionMap cs !! v) as [val|] eqn:E.
    - intros [= <-]. exists val. split; [|done]. destruct Hr as [_ Hr].
      specialize (Hr v). unfold shard_of in Hr. by rewrite E in Hr.
    - intros H. inv_res. match goal with H : Addr2Shard _ _ = _ |- _ => apply Addr2Shard_range in H end;
        [|rewrite HP; apply Hr]. rewrite <- HP. eauto. }
  intros (m & Hm1 & (ns & Hns & [= <-])%bind_Ret)%bind_Ret.
  apply Hm in Hm1 as (s & Hsr & ->). clear Hm. unfold shard_of in Hns. rewrite lookup_insert_eq in Hns. cbn in Hns.
  rewrite Hc, add_index_tab in Hns by done. injection Hns as <-.
  split; [|done]. split.
  - by apply in_range_moved.
  - exact Hs.
  - apply tab_ext. intros k _. unfold count. cbn [NetGraph PartitionMap VertexSet set_field Graph_AddVertex].
    rewrite (zsum_perm _ _ _ (elements_union_singleton _ _ Hv)), zsum_cons.
    rewrite shard_moved, (decide_True (P := v = v)) by done.
    rewrite (zsum_ext (fun u => if decide (shard_of (<[v := s]> (PartitionMap cs)) u = k) then 1 else 0)
      (fun u => if decide (shard_of (PartitionMap cs) u = k) then 1 else 0)).
    + repeat case_decide; lia.
    + intros u Hu%elem_of_elements. rewrite shard_moved, (decide_False (P := u = v)) by congruence. done.
Qed.

Lemma occ_app `{EqDecision A} (x : A) l1 l2 : occ x (l1 ++ l2) = occ x l1 + occ x l2.
Proof. apply zsum_app. Qed.

Lemma occ_single `{EqDecision A} (x y : A) : occ x [y] = if decide (y = x) then 1 else 0.
Proof. unfold occ. cbn. case_decide; lia. Qed.

Lemma edges_append u v m x :
  default [] (append_edge u v m !! x) = default [] (m !! x) ++ if decide (u = x) then [v] else [].
Proof.
  unfold append_edge. destruct (decide (u = x)) as [->|].
  - by rewrite lookup_insert_eq.
  - by rewrite lookup_insert_ne, app_nil_r.
Qed.

Lemma EdgeSet_AddEdge u v g :
  EdgeSet (Graph_AddEdge u v g) = Some (append_edge v u (append_edge u v (default ∅ (EdgeSet g)))).
Proof. unfold Graph_AddEdge. by repeat case_decide. Qed.

(** An edge goes into both adjacency lists. *)
Lemma edges_AddEdge u v g x :
  edges (Graph_AddEdge u v g) x =
  edges g x ++ (if decide (u = x) then [v] else []) ++ (if decide (v = x) then [u] else []).
Proof.
  unfold edges at 1. rewrite EdgeSet_AddEdge. cbn [mbind option_bind].
  rewrite !edges_append, <- app_assoc. f_equal. unfold edges.
  destruct (EdgeSet g); cbn; by rewrite ?lookup_empty.
Qed.

Lemma VertexSet_AddEdge u v g : VertexSet (Graph_AddEdge u v g) = {[u; v]} ∪ VertexSet g.
Proof.
  unfold Graph_AddEdge. repeat case_decide; cbn [VertexSet EdgeSet set_field Graph_AddVertex] in *; set_solver.
Qed.

Lemma symmetric_AddEdge u v g : symmetric g -> symmetric (Graph_AddEdge u v g).
Proof.
  intros H x y. rewrite !edges_AddEdge, !occ_app, (H x y).
  repeat case_decide; rewrite ?occ_single; cbn [occ zsum foldr]; repeat case_decide; try congruence; try lia.
Qed.

Lemma wf_with_graph cs g :
  VertexSet g = VertexSet (NetGraph cs) -> symmetric g -> wf cs -> wf (cs <| NetGraph := g |>).
Proof.
  intros Hv Hg [Hr _ Hc]. split; [done|done|]. cbn [VertexsNumInShard cs_ShardNum set_field]. rewrite Hc.
  apply tab_ext. intros k _. unfold count. cbn [NetGraph PartitionMap set_field]. by rewrite Hv.
Qed.

(** An end of the edge that is new joins the graph first. *)
Lemma add_missing P u cs c :
  ShardNum P = cs_ShardNum cs -> wf cs ->
  (if decide (u ∈ VertexSet (NetGraph cs)) then Ret cs else CLPA_AddVertex P u cs) = Ret c ->
  wf c /\ VertexSet (NetGraph c) = {[u]} ∪ VertexSet (NetGraph cs) /\
  EdgeSet (NetGraph c) = EdgeSet (NetGraph cs) /\ cs_ShardNum c = cs_ShardNum cs.
Proof.
  intros HP Hwf. case_decide as Hu.
  - intros [= <-]. split_and!; [done| |done|done]. set_solver.
  - intros H. apply CLPA_AddVertex_wf in H as (Hc & Hg & Hn); [|done..]. by rewrite Hg.
Qed.

Lemma CLPA_AddEdge_wf P u v cs c :
  ShardNum P = cs_ShardNum cs -> wf cs -> CLPA_AddEdge P u v cs = Ret c ->
  wf c /\ VertexSet (NetGraph c) = {[u; v]} ∪ VertexSet (NetGraph cs) /\
  (forall x, edges (NetGraph c) x =
     edges (NetGraph cs) x ++ (if decide (u = x) then [v] else []) ++ (if decide (v = x) then [u] else [])) /\
  cs_ShardNum c = cs_ShardNum cs.
Proof.
  intros HP Hwf (c1 & H1 & (c2 & H2 & [= <-])%bind_Ret)%bind_Ret.
  apply add_missing in H1 as (Hw1 & Hv1 & He1 & Hn1); [|done..].
  apply add_missing in H2 as (Hw2 & Hv2 & He2 & Hn2); [|congruence|done].
  assert (Hg : VertexSet (Graph_AddEdge u v (NetGraph c2)) = VertexSet (NetGraph c2)).
  { rewrite VertexSet_AddEdge, Hv2, Hv1. set_solver. }
  split_and!.
  - apply (wf_with_graph c2); [exact Hg|apply symmetric_AddEdge, Hw2|done].
  - cbn [NetGraph set_field]. rewrite Hg, Hv2, Hv1. set_solver.
  - intros x. cbn [NetGraph set_field]. rewrite edges_AddEdge. unfold edges. by rewrite He2, He1.
  - cbn. congruence.
Qed.

(** The graph as the committee builds it: an edge for each transaction. *)
Definition add_edges (P : Params) (cs : CLPAState) (es : list (string * string)) : res CLPAState :=
  foldM (fun cs e => CLPA_AddEdge P e.1 e.2 cs) cs es.

(** The neighbours of a vertex in a list of edges. *)
Definition neighbours (es : list (string * string)) (x : string) : list string :=
  es ≫= fun e => (if decide (e.1 = x) then [e.2] else []) ++ (if decide (e.2 = x) then [e.1] else []).

Lemma add_edges_spec P es : forall cs c,
  ShardNum P = cs_ShardNum cs -> wf cs -> add_edges P cs es = Ret c ->
  wf c /\ VertexSet (NetGraph c) = list_to_set (es.*1 ++ es.*2) ∪ VertexSet (NetGraph cs) /\
  (forall x, edges (NetGraph c) x = edges (NetGraph cs) x ++ neighbours es x) /\ cs_ShardNum c = cs_ShardNum cs.
Proof.
  induction es as [|[u v] es IH]; intros cs c HP Hwf H.
  - injection H as <-. split_and!; [done|set_solver| |done]. intros x. by rewrite app_nil_r.
  - apply bind_Ret in H as (c1 & H1 & H2). apply CLPA_AddEdge_wf in H1 as (Hw1 & Hv1 & He1 & Hn1); [|done..].
    apply IH in H2 as (Hw & Hv & He & Hn); [|congruence|done]. split_and!; [done| | |congruence].
    + rewrite Hv, Hv1. cbn [fmap list_fmap fst snd]. set_solver.
    + intros x. rewrite He, He1. unfold neighbours. cbn [mbind list_bind fst snd]. by rewrite <- !app_assoc.
Qed.

(** C26: a CLPA graph built from [Init_CLPAState] by any sequence of
    [AddEdge]s holds exactly the ends of the edges, lists at each vertex its
    neighbours with their multiplicity in the order of the edges, is
    undirected, puts every vertex into an existing shard and counts the
    vertices of every shard exactly. *)
Theorem add_edges_invariant P wp mIter es c :
  0 < ShardNum P -> add_edges P (Init_CLPAState wp mIter (ShardNum P) zero_CLPAState) es = Ret c ->
  wf c /\ VertexSet (NetGraph c) = list_to_set (es.*1 ++ es.*2) /\
  forall x, edges (NetGraph c) x = neighbours es x.
Proof.
  intros Hn H. apply add_edges_spec in H as (Hw & Hv & He & _); [|done|by apply Init_CLPAState_wf].
  split; [done|]. split; [rewrite Hv; set_solver|]. intros x. by rewrite He.
Qed.

(** ** The partition *)

(** [c] is [cs] but for the partition and what is counted. *)
Definition same_graph (cs c : CLPAState) : Prop :=
  NetGraph c = NetGraph cs /\ cs_ShardNum c = cs_ShardNum cs.

Lemma best_shard_range v cs :
  in_range cs -> length (Edges2Shard cs) = Z.to_nat (cs_ShardNum cs) ->
  exists s, best_shard v cs = Ret s /\ 0 <= s < cs_ShardNum cs.
Proof.
  intros Hr Hl. unfold best_shard.
  destruct (foldM_total (fun b => 0 <= b.2 < cs_ShardNum cs) (score_step v cs) (edges (NetGraph cs) v)
    (∅, of_int (-9999), shard_of (PartitionMap cs) v)) as ([[x y] s] & -> & H).
  - apply Hr.
  - intros [[computed m] s] u _ Hs. unfold score_step. case_decide; [eauto|].
    unfold getShard_score. rewrite (list_tab _ _ Hl), at_index_tab by apply Hr. cbn [mbind res_bind].
    case_match; eexists; (split; [done|]); cbn; [apply Hr|done].
  - by exists s.
Qed.

Lemma move_edges_total n pm new old l : forall e c,
  0 <= new < n -> 0 <= old < n -> length e = Z.to_nat n ->
  exists e' c', foldM (move_edge pm new old) (e, c) l = Ret (e', c') /\ length e' = Z.to_nat n.
Proof.
  intros e c Hn Ho Hl.
  destruct (foldM_total (fun ec : list Z * Z => length ec.1 = Z.to_nat n) (move_edge pm new old) l (e, c))
    as ([e' c'] & -> & H); [done| |by exists e', c'].
  intros [e1 c1] u _ H1. cbn in H1. unfold move_edge. rewrite (list_tab _ _ H1).
  repeat case_match; rewrite !add_index_tab by done; cbn [mbind res_bind]; rewrite ?add_index_tab by done;
    cbn [mbind res_bind]; eexists; (split; [done|]); apply length_tab.
Qed.

(** The recomputation never fails, with or without self-loops. *)
Lemma changeShardRecompute_total v old cs :
  in_range cs -> 0 <= old < cs_ShardNum cs -> length (Edges2Shard cs) = Z.to_nat (cs_ShardNum cs) ->
  exists e x m, changeShardRecompute v old cs =
    Ret (cs <| Edges2Shard := e |> <| CrossShardEdgeNum := x |> <| MinEdges2Shard := m |>) /\
    length e = Z.to_nat (cs_ShardNum cs).
Proof.
  intros [_ Hr] Ho Hl. unfold changeShardRecompute.
  destruct (move_edges_total (cs_ShardNum cs) (PartitionMap cs) (shard_of (PartitionMap cs) v) old
    (edges (NetGraph cs) v) (Edges2Shard cs) (CrossShardEdgeNum cs)) as (e & x & -> & He); [done..|].
  by eexists _, _, _.
Qed.

Lemma count_moved cs v s k :
  v ∈ VertexSet (NetGraph cs) ->
  count (moved v s cs) k = count cs k + (if decide (k = s) then 1 else 0) -
    (if decide (k = shard_of (PartitionMap cs) v) then 1 else 0).
Proof.
  intros Hv. unfold count. cbn [NetGraph PartitionMap moved set_field].
  set (f := fun u => if decide (shard_of (PartitionMap cs) u = k) then 1 else 0).
  set (g := fun u => if decide (shard_of (<[v := s]> (PartitionMap cs)) u = k) then 1 else 0).
  enough (H : zsum (fun u => g u + -1 * f u) (elements (VertexSet (NetGraph cs))) = g v + -1 * f v).
  { rewrite zsum_add, zsum_scale in H. unfold g, f in *. rewrite shard_moved, (decide_True (P := v = v)) in H by done.
    revert H. repeat case_decide; lia. }
  apply (zsum_single (fun u => g u + -1 * f u) v); [apply NoDup_elements|by apply elem_of_elements|].
  intros x _ Hx. unfold f, g. rewrite shard_moved, (decide_False (P := x = v)) by done. lia.
Qed.

(** What the loop keeps. *)
Record loop_ok (cs : CLPAState) (s : Loop) : Prop := {
  lo_wf : wf (lp_cs s);
  lo_same : same_graph cs (lp_cs s);
  lo_len : length (Edges2Shard (lp_cs s)) = Z.to_nat (cs_ShardNum (lp_cs s));
  lo_res : forall v, match lp_res s !! v with
    | Some n => v ∈ VertexSet (NetGraph cs) /\ n = u64 (shard_of (PartitionMap (lp_cs s)) v)
    | None => PartitionMap (lp_cs s) !! v = PartitionMap cs !! v end;
  lo_count : forall k, 0 < count cs k -> 0 < count (lp_cs s) k }.

Lemma wf_moved cs v s :
  wf cs -> v ∈ VertexSet (NetGraph cs) -> 0 <= s < cs_ShardNum cs ->
  wf (moved v s cs <| VertexsNumInShard := tab (cs_ShardNum cs) (count (moved v s cs)) |>).
Proof. intros [Hr Hs _] Hv Hn. split; [by apply in_range_moved|done|done]. Qed.

(** The counters of the shards, moved along with a vertex. *)
Lemma count_update cs v s :
  wf cs -> v ∈ VertexSet (NetGraph cs) -> 0 <= s < cs_ShardNum cs ->
  (ns ← add_index (shard_of (PartitionMap cs) v) (-1) (VertexsNumInShard cs); add_index s 1 ns) =
  Ret (tab (cs_ShardNum cs) (count (moved v s cs))).
Proof.
  intros [Hr Hs Hc] Hv Hn. rewrite Hc, add_index_tab by apply Hr. cbn [mbind res_bind].
  rewrite add_index_tab by done. f_equal. apply tab_ext. intros k _. rewrite count_moved by done.
  repeat case_decide; lia.
Qed.

Lemma visit_ok cs s v :
  loop_ok cs s -> v ∈ VertexSet (NetGraph cs) -> exists s', visit s v = Ret s' /\ loop_ok cs s'.
Proof.
  intros Hok Hv. pose proof Hok as [Hw [Hg Hn] Hl Hres Hcnt]. set (c := lp_cs s) in *.
  unfold visit. fold c. case_match; [by exists s|].
  destruct (best_shard_range v c) as (t & -> & Ht); [apply Hw|done|]. cbn [mbind res_bind].
  destruct (Z.eqb_spec (shard_of (PartitionMap c) v) t) as [|Hne]; [by exists s|].
  assert (Hvc : v ∈ VertexSet (NetGraph c)) by (by rewrite Hg).
  pose proof (wf_range _ Hw) as [Hpos Hr].
  replace (at_index (VertexsNumInShard c) (shard_of (PartitionMap c) v))
    with (Ret (count c (shard_of (PartitionMap c) v))) by (by rewrite (wf_count _ Hw), at_index_tab).
  cbn [mbind res_bind]. destruct (Z.leb_spec (count c (shard_of (PartitionMap c) v)) 1) as [|Hmany]; [by exists s|].
  pose proof (count_update c v t Hw Hvc Ht) as Hup.
  cbn [VertexsNumInShard set_field]. apply bind_Ret in Hup as (n1 & Hn1 & Hn2).
  rewrite Hn1. cbn [mbind res_bind]. rewrite Hn2. cbn [mbind res_bind].
  set (c2 := moved v t c <| VertexsNumInShard := tab (cs_ShardNum c) (count (moved v t c)) |>).
  pose proof (wf_moved c v t Hw Hvc Ht) as Hw2.
  destruct (changeShardRecompute_total v (shard_of (PartitionMap c) v) c2) as (e & x & m & He & Hle);
    [apply Hw2|apply Hr|done|].
  match goal with |- context [changeShardRecompute _ _ ?d] => change d with c2 end. rewrite He. cbn [mbind res_bind]. eexists. split; [done|]. split; cbn [lp_cs lp_res lp_moves].
  - destruct Hw2 as [? ? Hc2]. by split.
  - done.
  - done.
  - intros u. change (match <[v := u64 t]> (lp_res s) !! u with
      | Some n => u ∈ VertexSet (NetGraph cs) /\ n = u64 (shard_of (<[v := t]> (PartitionMap c)) u)
      | None => <[v := t]> (PartitionMap c) !! u = PartitionMap cs !! u end).
    rewrite shard_moved. destruct (decide (u = v)) as [->|Hu].
    + by rewrite lookup_insert_eq.
    + rewrite !lookup_insert_ne by done. apply Hres.
  - intros k Hk. specialize (Hcnt k Hk). change (0 < count (moved v t c) k). rewrite count_moved by done.
    repeat case_decide; subst; lia.
Qed.

Lemma iterations_ok cs orders n : forall s i,
  (forall i, orders i ≡ₚ elements (VertexSet (NetGraph cs))) -> loop_ok cs s ->
  exists s', foldM (fun s i => foldM visit s (orders i)) s (seq i n) = Ret s' /\ loop_ok cs s'.
Proof.
  intros s i Ho Hs. apply (foldM_total (loop_ok cs)); [done|]. intros s1 j _ H1.
  apply (foldM_total (loop_ok cs)); [done|]. intros s2 v Hv H2. apply visit_ok; [done|].
  apply elem_of_elements. by rewrite <- (Ho j).
Qed.

(** [CLPA_Partition] in terms of its loop's last state. *)
Lemma CLPA_Partition_loop cs orders :
  wf cs -> (forall i, orders i ≡ₚ elements (VertexSet (NetGraph cs))) ->
  exists s c, CLPA_Partition orders cs = Ret (lp_res s, cross_edges c, c) /\ loop_ok cs s /\
    wf c /\ counted c /\ same_graph (lp_cs s) c /\ PartitionMap c = PartitionMap (lp_cs s) /\
    count c = count (lp_cs s).
Proof.
  intros Hw Ho. unfold CLPA_Partition. rewrite ComputeEdges2Shard_spec by apply Hw. cbn [mbind res_bind].
  match goal with |- context [mkLoop ?c _ _] => set (c0 := c) end.
  destruct (iterations_ok cs orders (Z.to_nat (MaxIterations c0)) (mkLoop c0 ∅ ∅) 0) as (s & Hs & Hok);
    [done| |].
  { split; [by destruct Hw|done|apply length_tab|done|done]. }
  rewrite Hs. cbn [mbind res_bind]. rewrite ComputeEdges2Shard_spec by apply Hok. cbn [mbind res_bind].
  match goal with |- context [Ret (_, _, ?c)] => exists s, c end.
  split; [reflexivity|]. split_and!; [done| |done..]. by destruct (lo_wf _ _ Hok).
Qed.

(** C13: on a graph that keeps the invariant, whatever the orders in which
    the iterations visit the vertices, [CLPA_Partition] returns: the graph and
    the invariant are kept (every vertex in an existing shard, the shards'
    counters exact), no shard that had a vertex is left without one, the
    returned map holds exactly the final shard of vertices of the graph and
    every other vertex is where it was, and the returned number is the number
    of cross-shard edges of the new partition. *)
Theorem CLPA_Partition_correct cs orders :
  wf cs -> (forall i, orders i ≡ₚ elements (VertexSet (NetGraph cs))) ->
  exists moves cross c, CLPA_Partition orders cs = Ret (moves, cross, c) /\
    wf c /\ same_graph cs c /\ counted c /\ cross = cross_edges c /\
    (forall k, 0 < count cs k -> 0 < count c k) /\
    forall v, match moves !! v with
      | Some n => v ∈ VertexSet (NetGraph cs) /\ n = u64 (shard_of (PartitionMap c) v)
      | None => PartitionMap c !! v = PartitionMap cs !! v end.
Proof.
  intros Hw Ho. destruct (CLPA_Partition_loop cs orders Hw Ho) as (s & c & E & [_ [Hg Hn] _ Hres Hcnt] & Hc & Hcc & [Hg' Hn'] & Hpm & Hct).
  eexists _, _, c. split; [exact E|]. rewrite Hpm, Hct. split_and!; [done|split; congruence|done..].
Qed.

(** ** A concrete graph *)
Module RefGraph.
Definition P : Params :=
  {| MaxLatency := 0; UTXO := false; UseSyncHotstuff := false; TxInputCount := 20000;
     Block_Interval := 1000; MaxBlockSize_global := 500; InjectSpeed := 100; TotalDataSize := 100000;
     BatchSize := 4000; BrokerNum := 10; NodesInShard := 4; ShardNum := 2;
     SupervisorAddr := "127.0.0.1:18800" |}.
Definition penalty : spec_float := fdiv (of_int 1) (of_int 2).
Definition es : list (string * string) :=
  [("00000000", "00000001"); ("00000001", "00000002"); ("00000002", "00000003"); ("00000000", "00000002")]%string.
Definition start : CLPAState := Init_CLPAState penalty 100 2 zero_CLPAState.
Definition built (es : list (string * string)) : CLPAState :=
  match add_edges P start es with Ret c => c | _ => start end.
Definition g : CLPAState := built es.
(** With a transaction from an account to itself. *)
Definition looped : CLPAState := built (("00000000", "00000000")%string :: es).
Definition counts (r : res CLPAState) : res (list Z * Z) :=
  c ← r; Ret (Edges2Shard c, CrossShardEdgeNum c).

Lemma g_built : add_edges P start es = Ret g.
Proof. unfold g, built. by vm_compute. Qed.
Lemma g_wf : wf g.
Proof.
  eapply add_edges_spec; [|apply Init_CLPAState_wf|exact g_built]; done.
Qed.
Definition order (i : nat) : list string := elements (VertexSet (NetGraph g)).
Definition v : string := "00000001".
Lemma g_shards : cs_ShardNum g = 2.
Proof. vm_compute. reflexivity. Qed.
Lemma v_shard : shard_of (PartitionMap g) v = 1.
Proof. vm_compute. reflexivity. Qed.
Lemma v_no_loop : occ v (edges (NetGraph g) v) = 0.
Proof. vm_compute. reflexivity. Qed.
Lemma moved_count : counts (ComputeEdges2Shard (moved v 0 g)) = Ret ([4; 1], 1).
Proof. vm_compute. reflexivity. Qed.
End RefGraph.

Lemma changeShardRecompute_recompute_witness :
  exists c c1, ComputeEdges2Shard RefGraph.g = Ret c /\
    changeShardRecompute RefGraph.v 1 (moved RefGraph.v 0 c) = Ret c1 /\
    Edges2Shard c1 = [4; 1] /\ CrossShardEdgeNum c1 = 1.
Proof.
  pose proof (ComputeEdges2Shard_spec _ (wf_range _ RefGraph.g_wf)) as E.
  eexists. destruct (changeShardRecompute_recompute RefGraph.g _ RefGraph.v 0 (wf_range _ RefGraph.g_wf) E)
    as (c1 & c2 & H1 & H2 & H3 & H4 & _).
  - exact (wf_symmetric _ RefGraph.g_wf).
  - exact RefGraph.v_no_loop.
  - rewrite RefGraph.g_shards. clear. lia.
  - rewrite RefGraph.v_shard. clear. lia.
  - exists c1. split; [exact E|]. rewrite RefGraph.v_shard in H1. split; [exact H1|].
    rewrite H3, H4. pose proof RefGraph.moved_count as Hc. rewrite H2 in Hc. unfold RefGraph.counts in Hc. cbn [mbind res_bind] in Hc.
    injection Hc as <- <-. split; reflexivity.
Defined.

Lemma add_edges_invariant_witness :
  wf RefGraph.g /\ edges (NetGraph RefGraph.g) "00000002" = ["00000001"; "00000003"; "00000000"]%string.
Proof.
  destruct (add_edges_invariant RefGraph.P RefGraph.penalty 100 RefGraph.es RefGraph.g) as (Hw & _ & He).
  - done.
  - exact RefGraph.g_built.
  - split; [exact Hw|]. rewrite He. by vm_compute.
Defined.

Lemma CLPA_Partition_correct_witness :
  exists moves c, CLPA_Partition RefGraph.order RefGraph.g = Ret (moves, 2, c) /\ wf c.
Proof.
  destruct (CLPA_Partition_correct RefGraph.g RefGraph.order) as (moves & cross & c & E & Hw & _).
  - apply RefGraph.g_wf.
  - done.
  - exists moves, c. split; [|exact Hw]. rewrite E. do 3 f_equal.
    assert (H : (r ← CLPA_Partition RefGraph.order RefGraph.g; Ret r.1.2) = Ret 2) by (vm_compute; reflexivity).
    rewrite E in H. by injection H.
Defined.

(** A transaction from an account to itself is an edge that is listed twice
    at its vertex; the incremental update then disagrees with the recount. *)
Example self_loop_miscounts :
  RefGraph.counts (c ← ComputeEdges2Shard RefGraph.looped;
    changeShardRecompute "00000000" 0 (moved "00000000" 1 c)) = Ret ([2; 4], 1) /\
  RefGraph.counts (ComputeEdges2Shard (moved "00000000" 1 RefGraph.looped)) = Ret ([3; 5], 3).
Proof. by vm_compute. Qed.
