(* ===== verification/ClpaMod.v ===== *)
(** * ClpaMod: the modules of the CLPA re-partitioning of a relay shard

    src/consensus_shard/pbft_all/{pbftInside_moduleCLPA, accountTransfer_module,
    pbftOutside_moduleCLPA}.go and dataSupport/clpaData_Extra.go.  Besides
    blocks the leader proposes a partition: it announces that it is
    ready, waits until every shard is, sends the accounts and pooled
    transactions that leave to the other leaders, waits until theirs have
    arrived, and proposes what came in; every node of the shard that commits the
    proposal updates its partition map and adds the accounts.  The two waits are
    loops around [time.Sleep] inside [HandleinPropose]; where the
    goroutine is in it is [clpa_stage].  A map is visited in the order of
    [map_to_list]; Go leaves the order open. *)
From stdpp Require Import base gmap strings list countable.
From Stdlib Require Import ZArith Lia.
From S2P Require Import Prelude GoStd Libs Core Pools Messages StorageDB Chain Pbft RelayMod.

(** ** dataSupport/clpaData_Extra.go; the mutexes guard single accesses *)
Record Data_supportCLPA := mkData_supportCLPA {
  ModifiedMap : list (gmap string Z);
  AccountTransferRound : Z;
  ReceivedNewAccountState : gmap string AccountState;
  ReceivedNewTx : list Transaction;
  AccountStateTx : gmap Z AccountStateAndTx;
  PartitionOn : bool;
  cd_PartitionReady : gmap Z bool;
  ReadySeq : gmap Z Z;
  CollectOver : bool }.
#[export] Instance Data_supportCLPA_eta : Eta Data_supportCLPA := fun r =>
  mkData_supportCLPA (ModifiedMap r) (AccountTransferRound r) (ReceivedNewAccountState r)
    (ReceivedNewTx r) (AccountStateTx r) (PartitionOn r) (cd_PartitionReady r) (ReadySeq r)
    (CollectOver r).

Definition NewCLPADataSupport : Data_supportCLPA :=
  mkData_supportCLPA [] 0 ∅ [] ∅ false ∅ ∅ false.

(** Where [HandleinPropose] is: at its start or in one of its two waits. *)
Inductive Stage := AtStart | WaitReady | WaitCollect.
Record CLPAData := mkCLPAData { cdm : Data_supportCLPA; clpa_stage : Stage }.
#[export] Instance CLPAData_eta : Eta CLPAData := fun r => mkCLPAData (cdm r) (clpa_stage r).

Section clpa.
Context (P : Params).
Context {TL : TrieLib} {BL : BoltLib} {HL : Sha256} {CC : CoreCodecs} {MC : MsgCodecs}.
Abbreviation Node := (PbftConsensusNode CLPAData).
Abbreviation PM := (Pm CLPAData).
Implicit Types (p : Node).

Definition cdm_of p : Data_supportCLPA := cdm (modData p).
Definition modify_cdm (f : Data_supportCLPA -> Data_supportCLPA) : PM () :=
  modify (fun p => p <| modData ::= fun d => d <| cdm ::= f |> |>).
Definition goto (s : Stage) : PM () :=
  modify (fun p => p <| modData ::= fun d => d <| clpa_stage := s |> |>).

(** [l[i]] for an index that may be out of range *)
Definition nth_map (l : list (gmap string Z)) (i : Z) : res (gmap string Z) :=
  if i <? 0 then Panic else must (l !! Z.to_nat i).

(** ** accountTransfer_module.go *)
Definition sendPartitionReady : PM () :=
  p ← get;
  _ ← modify_cdm (fun c => c <| cd_PartitionReady ::= <[p_ShardID p := true]> |>);
  let pr := mkPartitionReady (p_ShardID p) (sequenceID p) in
  forM (shard_ids (ShardNums (pbftChainConfig p))) (fun sid =>
    if sid =? prd_FromShard pr then mret tt
    else dial CPartitionReady (json_enc pr) (node_ip p sid 0)).

(** A shard that sent relay transactions or a sequence number is ready when
    the number it was ready at follows the last one it sent. *)
Definition shard_ready (c : Data_supportCLPA) (sv : Z * Z) : bool :=
  match ReadySeq c !! sv.1 with
  | None => false
  | Some rval => u64 (rval - 1) =? sv.2
  end.

Definition getPartitionReady p : bool :=
  let c := cdm_of p in
  let flag := forallb (shard_ready c) (map_to_list (seqIDMap p)) in
  (Z.of_nat (size (cd_PartitionReady c)) =? i64 (ShardNums (pbftChainConfig p))) && flag.

(** The accounts that leave this shard under the map [m]. *)
Definition leaves (bc : BlockChain) (shard : Z) (kv : string * Z) : res bool :=
  if kv.2 =? shard then Ret false
  else s ← Get_PartitionMap P kv.1 bc; Ret (s =? shard).

Definition accounts_to_fetch (bc : BlockChain) (shard : Z) (m : gmap string Z) : res (list string) :=
  foldM (fun acc kv => b ← leaves bc shard kv; Ret (if (b : bool) then acc ++ [kv.1] else acc)) []
    (map_to_list m).

(** What goes to shard [i]: addresses and their accounts. *)
Definition to_shard (m : gmap string Z) (i : Z) (fetched : list (string * AccountState)) :
    list (string * AccountState) :=
  filter (fun aa => default 0 (m !! aa.1) = i) fetched.

(** Whether a pooled transaction follows the accounts [addrs]. *)
Definition follows (addrs : list string) (ptx : Transaction) : bool :=
  (bool_decide (tx_Sender ptx ∈ addrs) && negb (tx_Relayed ptx))
  || (bool_decide (tx_Recipient ptx ∈ addrs) && tx_Relayed ptx).

(** One destination of [sendAccounts_and_Txs]. *)
Definition send_to (m : gmap string Z) (fetched : list (string * AccountState)) (i : Z) : PM () :=
  p ← get;
  if i =? p_ShardID p then mret tt
  else
    let sent := to_shard m i fetched in
    let q := TxQueue (bc_Txpool (CurChain p)) in
    let txSend := filter (fun tx => follows sent.*1 tx = true) q in
    let rest := filter (fun tx => follows sent.*1 tx = false) q in
    _ ← modify (fun p => p <| CurChain ::= fun bc => bc <| bc_Txpool ::= fun pl => pl <| TxQueue := rest |> |> |>);
    let ast := mkAccountStateAndTx sent.*1 sent.*2 txSend (p_ShardID p) in
    dial AccountState_and_TX (json_enc ast) (node_ip p i 0).

Definition sendAccounts_and_Txs : PM () :=
  p ← get;
  m ← lift (nth_map (ModifiedMap (cdm_of p)) (Z.of_nat (length (ModifiedMap (cdm_of p))) - 1));
  accountToFetch ← lift (accounts_to_fetch (CurChain p) (p_ShardID p) m);
  asFetched ← lift (FetchAccounts accountToFetch (CurChain p));
  forM (shard_ids (ShardNums (pbftChainConfig p))) (send_to m (zip accountToFetch asFetched)).

Definition getCollectOver p : bool := CollectOver (cdm_of p).

(** What arrived from one shard joins the received accounts and transactions. *)
Definition receive_from (c : Data_supportCLPA) (at_ : AccountStateAndTx) : res Data_supportCLPA :=
  accs ← foldM (fun accs (ia : Z * string) =>
            s ← must (ast_AccountState at_ !! Z.to_nat ia.1); Ret (<[ia.2 := s]> accs))
          (ReceivedNewAccountState c) (indexed (ast_Addrs at_));
  Ret (c <| ReceivedNewAccountState := accs |> <| ReceivedNewTx ::= fun l => l ++ ast_Txs at_ |>).

(** The check of the received transactions; a missing address reads as 0. *)
Definition check_tx (m : gmap string Z) (shard : Z) (tx : Transaction) : bool :=
  if tx_Relayed tx then default 0 (m !! tx_Recipient tx) =? shard
  else default 0 (m !! tx_Sender tx) =? shard.

Definition proposePartition (now : Z) : PM (bool * Request) :=
  p ← get;
  c ← lift (foldM receive_from (cdm_of p) (map_to_list (AccountStateTx (cdm_of p))).*2);
  _ ← modify_cdm (fun _ => c);
  _ ← lift (foldM (fun _ tx =>
        m ← nth_map (ModifiedMap c) (AccountTransferRound c);
        if check_tx m (p_ShardID p) tx then Ret tt else Panic) tt (ReceivedNewTx c));
  _ ← modify (fun p => p <| CurChain ::= fun bc =>
        bc <| bc_Txpool ::= TxPool_AddTxs2Pool now (ReceivedNewTx c) |> |>);
  m ← lift (nth_map (ModifiedMap c) (AccountTransferRound c));
  let received := map_to_list (ReceivedNewAccountState c) in
  let atm := mkAccountTransferMsg m received.*1 received.*2 (Z.of_nat (length (ModifiedMap c))) in
  mret (true, mkRequest PartitionReq (enc atm) now).

Definition update_map (m : gmap string Z) (bc : BlockChain) : BlockChain :=
  foldl (fun bc kv => Update_PartitionMap kv.1 kv.2 bc) bc (map_to_list m).

(** What [accountTransfer_do] leaves in the data support. *)
Definition after_transfer (atm : AccountTransferMsg) (c : Data_supportCLPA) : Data_supportCLPA :=
  c <| ModifiedMap ::= fun l =>
         if Z.of_nat (length l) =? atm_ATid atm then l else l ++ [atm_ModifiedMap atm] |>
    <| AccountTransferRound := atm_ATid atm |>
    <| AccountStateTx := ∅ |> <| ReceivedNewAccountState := ∅ |> <| ReceivedNewTx := [] |>
    <| PartitionOn := false |> <| CollectOver := false |> <| cd_PartitionReady := ∅ |>.

Definition accountTransfer_do (atm : AccountTransferMsg) : PM () :=
  p ← get;
  bc ← lift (AddAccounts P (atm_Addrs atm) (atm_AccountState atm) (update_map (atm_ModifiedMap atm) (CurChain p)));
  _ ← modify (fun p => p <| CurChain := bc |>);
  modify_cdm (after_transfer atm).

(** ** pbftInside_moduleCLPA.go *)
Definition wait_collect (now : Z) : PM (option (bool * Request)) :=
  p ← get;
  if getCollectOver p then
    r ← proposePartition now;
    _ ← goto AtStart;
    mret (Some r)
  else _ ← goto WaitCollect; mret None.

Definition wait_ready (now : Z) : PM (option (bool * Request)) :=
  p ← get;
  if getPartitionReady p then _ ← sendAccounts_and_Txs; wait_collect now
  else _ ← goto WaitReady; mret None.

Definition propose_block (now : Z) : PM (bool * Request) :=
  p ← get;
  '(block, bc) ← lift (GenerateBlock P now (CurChain p));
  _ ← modify (fun p => p <| CurChain := bc |>);
  mret (true, mkRequest BlockRequest (enc block) now).

Definition CLPA_HandleinPropose (now : Z) : PM (option (bool * Request)) :=
  p ← get;
  match clpa_stage (modData p) with
  | AtStart =>
      if PartitionOn (cdm_of p) then _ ← sendPartitionReady; wait_ready now
      else r ← propose_block now; mret (Some r)
  | WaitReady => wait_ready now
  | WaitCollect => wait_collect now
  end.

Definition CLPA_HandleinPrePrepare (ppmsg : PrePrepare) : PM bool :=
  p ← get;
  valid ← (if bool_decide (req_RequestType (pp_RequestMsg ppmsg) = PartitionReq) then mret true
           else
             b ← lift (must (dec (req_Msg (pp_RequestMsg ppmsg))));
             mret (match IsValidBlock b (CurChain p) with Some _ => false | None => true end));
  if (valid : bool) then
    _ ← modify (fun p => p <| requestPool ::= <[pp_Digest ppmsg := pp_RequestMsg ppmsg]> |>);
    mret true
  else mret false.

Definition CLPA_HandleinPrepare (pmsg : Prepare) : PM bool := mret true.

(** The loop over the block's body; the state is that of [relay_tx]. *)
Definition clpa_relay_tx (bc : BlockChain) (shard : Z) (s : RelayLoop) (tx : Transaction) : res RelayLoop :=
  ssid ← Get_PartitionMap P (tx_Sender tx) bc;
  rsid ← Get_PartitionMap P (tx_Recipient tx) bc;
  if negb (tx_Relayed tx) && negb (ssid =? shard) then Panic
  else if tx_Relayed tx && negb (rsid =? shard) then Panic
  else if negb (tx_Relayed tx) && negb (rsid =? shard) then
    let ntx := tx <| tx_Relayed := true |> in
    pool ← TxPool_AddRelayTx ntx rsid (rl_pool s);
    Ret (mkRelayLoop (rl_excuted s) (rl_relay1 s ++ [ntx]) (rl_body s ++ [ntx]) pool)
  else Ret (mkRelayLoop (rl_excuted s ++ [tx]) (rl_relay1 s) (rl_body s ++ [tx]) (rl_pool s)).

Definition clpa_relay_txs (bc : BlockChain) (shard : Z) (body : list Transaction) : res RelayLoop :=
  foldM (clpa_relay_tx bc shard) (mkRelayLoop [] [] [] (bc_Txpool bc <| RelayPool := Some ∅ |>)) body.

(** Every other shard is sent a message, even an empty one. *)
Definition clpa_send_relay (p : Node) (pool : Pool Transaction) (sid : Z) : PM () :=
  if sid =? p_ShardID p then mret tt
  else dial CRelay (json_enc (Messages.mkRelay (default [] (relay_lookup pool sid)) (p_ShardID p) (sequenceID p)))
         (node_ip p sid 0).

Definition clpa_relay_and_report (now : Z) (block : Block) (accepted : bool) (ReqTime : Z) : PM () :=
  p ← get;
  s ← lift (clpa_relay_txs (CurChain p) (p_ShardID p) (b_Body block));
  _ ← forM (shard_ids (ShardNums (pbftChainConfig p))) (clpa_send_relay p (rl_pool s));
  _ ← modify (fun p => p <| CurChain ::= fun bc =>
         bc <| bc_Txpool := TxPool_ClearRelayPool (rl_pool s) |>
            <| bc_CurrentBlock ::= fun b => if accepted then b <| b_Body := rl_body s |> else b |> |>);
  let bim := mkBlockInfoMsg (Z.of_nat (length (b_Body block))) (rl_excuted s)
               (i64 (AccountTransferRound (cdm_of p))) ReqTime now
               (p_ShardID p) (Z.of_nat (length (rl_relay1 s))) (rl_relay1 s) 0 [] 0 [] in
  _ ← dial CBlockInfo (json_enc bim) (node_ip p DeciderShard 0);
  emit (CSVline [Z.of_nat (length (TxQueue (rl_pool s))); Z.of_nat (length (rl_excuted s));
                 Z.of_nat (length (rl_relay1 s))]).

Definition CLPA_HandleinCommit (now : Z) (cmsg : Commit) : PM bool :=
  p ← get;
  r ← lift (must (requestPool p !! c_Digest cmsg));
  if bool_decide (req_RequestType r = PartitionReq) then
    atm ← lift (must (dec (req_Msg r)));
    _ ← accountTransfer_do atm;
    mret true
  else
    block ← lift (must (dec (req_Msg r)));
    bc ← lift (AddBlock P block (CurChain p));
    _ ← modify (fun p => p <| CurChain := bc |>);
    _ ← (if p_NodeID p =? view p then
           clpa_relay_and_report now block (next_height block (CurChain p)) (req_ReqTime r)
         else mret tt);
    mret true.

Definition CLPA_HandleReqestforOldSeq (rom : RequestOldMessage) : PM bool := mret true.

(** One request of the answer: a block, or a partition. *)
Definition adopt_old (r : Request) : PM () :=
  if bool_decide (req_RequestType r = BlockRequest) then
    b ← lift (must (dec (req_Msg r)));
    p ← get;
    bc ← lift (AddBlock P b (CurChain p));
    modify (fun p => p <| CurChain := bc |>)
  else
    atm ← lift (must (dec (req_Msg r)));
    accountTransfer_do atm.

(** The loop over the heights; the index panics out of range, so it ends
    after at most [len(OldRequest)] rounds. *)
Fixpoint adopt_olds (fuel : nat) (rs : list Request) (start last height : Z) : PM () :=
  match fuel with
  | O => mret tt
  | S fuel =>
      if last <? height then mret tt
      else
        r ← lift (must (rs !! Z.to_nat (u64 (height - start))));
        _ ← adopt_old r;
        adopt_olds fuel rs start last (u64 (height + 1))
  end.

Definition CLPA_HandleforSequentialRequest (som : SendOldMessage) : PM bool :=
  let n := i64 (u64 (so_SeqEndHeight som - so_SeqStartHeight som + 1)) in
  if negb (n =? Z.of_nat (length (so_OldRequest som))) then mret true
  else
    _ ← adopt_olds (S (length (so_OldRequest som))) (so_OldRequest som)
          (so_SeqStartHeight som) (so_SeqEndHeight som) (so_SeqStartHeight som);
    _ ← modify (fun p => p <| sequenceID := u64 (so_SeqEndHeight som + 1) |>);
    mret true.

#[global] Instance CLPAPbftInsideExtraHandleMod : InsideMod CLPAData := {|
  HandleinPropose := CLPA_HandleinPropose;
  HandleinPrePrepare := CLPA_HandleinPrePrepare;
  HandleinPrepare := CLPA_HandleinPrepare;
  HandleinCommit := CLPA_HandleinCommit;
  HandleReqestforOldSeq := CLPA_HandleReqestforOldSeq;
  HandleforSequentialRequest := CLPA_HandleforSequentialRequest |}.

(** ** pbftOutside_moduleCLPA.go *)
Definition CLPA_handleRelay (now : Z) (content : bytes) : PM () :=
  relay ← lift (must (json_dec content : option Messages.Relay));
  modify (fun p => p
    <| CurChain ::= fun bc => bc <| bc_Txpool ::= TxPool_AddTxs2Pool now (rl_Txs relay) |> |>
    <| seqIDMap ::= <[rl_SenderShardID relay := rl_SenderSeq relay]> |>).

Definition CLPA_handleInjectTx (now : Z) (content : bytes) : PM () :=
  it ← lift (must (json_dec content));
  modify (fun p => p
    <| CurChain ::= fun bc => bc <| bc_Txpool ::= TxPool_AddTxs2Pool now (it_Txs it) |> |>).

Definition handlePartitionMsg (content : bytes) : PM () :=
  pm ← lift (must (json_dec content));
  modify_cdm (fun c => c <| ModifiedMap ::= fun l => l ++ [pm_PartitionModified pm] |>
                         <| PartitionOn := true |>).

Definition handlePartitionReady (content : bytes) : PM () :=
  pr ← lift (must (json_dec content));
  modify_cdm (fun c => c <| cd_PartitionReady ::= <[prd_FromShard pr := true]> |>
                         <| ReadySeq ::= <[prd_FromShard pr := prd_NowSeqID pr]> |>).

Definition handleAccountStateAndTxMsg (content : bytes) : PM () :=
  at_ ← lift (must (json_dec content));
  _ ← modify_cdm (fun c => c <| AccountStateTx ::= <[ast_FromShard at_ := at_]> |>);
  p ← get;
  if Z.of_nat (size (AccountStateTx (cdm_of p))) =? i64 (ShardNums (pbftChainConfig p)) - 1 then
    modify_cdm (fun c => c <| CollectOver := true |>)
  else mret tt.

Definition CLPA_HandleMessageOutsidePBFT (now : Z) (msgType : MessageType) (content : bytes) : PM bool :=
  _ ← (if bool_decide (msgType = CRelay) then CLPA_handleRelay now content
       else if bool_decide (msgType = CInject) then CLPA_handleInjectTx now content
       else if bool_decide (msgType = CPartitionMsg) then handlePartitionMsg content
       else if bool_decide (msgType = AccountState_and_TX) then handleAccountStateAndTxMsg content
       else if bool_decide (msgType = CPartitionReady) then handlePartitionReady content
       else mret tt);
  mret true.

#[global] Instance CLPARelayOutsideModule : OutsideMod CLPAData := {|
  HandleMessageOutsidePBFT := CLPA_HandleMessageOutsidePBFT |}.
End clpa.
