(* ===== verification/MigrationProps.v ===== *)
(** * MigrationProps: the re-partitioning of accounts

    The CLPA modules keep to the interface, so the guarantees of PbftProps
    hold of a re-partitioning shard; the accounts and transactions a leader
    sends away are exactly those the new partition moves; and the accounts
    arrive unchanged at every node of the shard that receives them. *)
From stdpp Require Import base gmap strings list countable.
From Stdlib Require Import ZArith Lia.
From S2P Require Import Prelude GoStd Libs Core Pools Messages StorageDB Chain Ledger Execution Pbft PbftProps RelayMod RelayProps ClpaMod.

Section instances.
Context (P : Params).
Context {TL : TrieLib} {BL : BoltLib} {HL : Sha256} {CC : CoreCodecs} {MC : MsgCodecs}.

Ltac clpa_ok :=
  unfold sendPartitionReady, sendAccounts_and_Txs, send_to, proposePartition, propose_block,
    accountTransfer_do, clpa_relay_and_report, clpa_send_relay, modify_cdm, goto; mod_ok.

Lemma adopt_olds_mod fuel : forall rs s l h, obeys mod_rel (adopt_olds P fuel rs s l h : Pm CLPAData ()).
Proof.
  induction fuel as [|fuel IH]; intros rs s l h; cbn [adopt_olds]; [mod_ok|]. unfold adopt_old.
  clpa_ok; apply IH.
Qed.

#[global] Instance CLPA_inside_laws : InsideLaws (CLPAPbftInsideExtraHandleMod P).
Proof.
  split; cbn; intros; [split..|].
  all: unfold CLPA_HandleinPropose, CLPA_HandleinPrePrepare, CLPA_HandleinPrepare, CLPA_HandleinCommit,
    CLPA_HandleReqestforOldSeq, CLPA_HandleforSequentialRequest, wait_ready, wait_collect; clpa_ok.
  apply adopt_olds_mod.
Qed.

#[global] Instance CLPA_outside_laws : OutsideLaws CLPARelayOutsideModule.
Proof.
  split; cbn; intros. split; unfold CLPA_HandleMessageOutsidePBFT, CLPA_handleRelay, CLPA_handleInjectTx,
    handlePartitionMsg, handlePartitionReady, handleAccountStateAndTxMsg, modify_cdm; mod_ok.
Qed.
End instances.

(** ** What leaves a shard *)
Section leaving.
Context (P : Params).
Context {TL : TrieLib} {BL : BoltLib} {HL : Sha256} {CC : CoreCodecs} {MC : MsgCodecs}.
Context {TW : TrieLaws TL} {CL : CoreCodecsLaws}.
Implicit Types (p : PbftConsensusNode CLPAData).

Definition keys_of (m : gmap string Z) : list string := (map_to_list m).*1.

(** The accounts of this shard that [m] gives to another one. *)
Definition leaving (bc : BlockChain) (shard : Z) (m : gmap string Z) : list string :=
  filter (fun a => m !! a <> Some shard /\ Get_PartitionMap P a bc = Ret shard) (keys_of m).

Lemma accounts_to_fetch_spec bc shard m :
  (forall a, a ∈ keys_of m -> is_Ret (Get_PartitionMap P a bc)) ->
  accounts_to_fetch P bc shard m = Ret (leaving bc shard m).
Proof.
  unfold accounts_to_fetch, leaving, keys_of.
  assert (Hm : forall a i, (a, i) ∈ map_to_list m -> m !! a = Some i) by (intros; by apply elem_of_map_to_list).
  revert Hm. generalize (map_to_list m) as l. intros l Hm Hk.
  enough (H : forall acc, foldM (fun acc kv => b ← leaves P bc shard kv; Ret (if (b : bool) then acc ++ [kv.1] else acc))
    acc l = Ret (acc ++ filter (fun a => m !! a <> Some shard /\ Get_PartitionMap P a bc = Ret shard) l.*1))
    by apply (H []).
  induction l as [|[a i] l IH]; intros acc; cbn [foldM fmap list_fmap]; [by rewrite app_nil_r|].
  destruct (Hk a) as [s Hs]; [cbn; by left|].
  assert (Hi : m !! a = Some i) by (apply Hm; by left).
  assert (Hb : leaves P bc shard (a, i) = Ret (bool_decide (m !! a <> Some shard /\ Get_PartitionMap P a bc = Ret shard))).
  { unfold leaves. cbn [fst snd]. destruct (Z.eqb_spec i shard) as [->|Hne].
    - rewrite bool_decide_eq_false_2; [done|]. intros [? _]. done.
    - rewrite Hs. cbn [mbind res_bind]. f_equal. destruct (Z.eqb_spec s shard) as [->|Hs'].
      + rewrite bool_decide_eq_true_2; [done|]. rewrite Hi. split; [congruence|done].
      + rewrite bool_decide_eq_false_2; [done|]. intros [_ [=]]. done. }
  rewrite Hb. cbn [mbind res_bind fst]. rewrite IH; [|intros; apply Hm; by right|intros; apply Hk; cbn; by right].
  f_equal. rewrite filter_cons. cbn [fst]. case_bool_decide as Hd.
  - rewrite decide_True by done. by rewrite <- app_assoc.
  - by rewrite decide_False by done.
Qed.

(** The account a state trie has for an address. *)
Definition account_in (t : Trie) (a : string) : AccountState :=
  match load_account t a 0 with Ret s => s | _ => mkAccountState "" 0 0 "" "" end.

Lemma account_in_load t a : wf_trie t -> load_account t a 0 = Ret (account_in t a).
Proof.
  intros Hwf. destruct (load_account_spec t a 0 Hwf) as (s & Hs & _). unfold account_in. by rewrite Hs.
Qed.

Lemma FetchAccounts_spec bc td t addrs :
  bc_triedb bc = Some td -> trie_New (state_root bc) td = Some t -> wf_trie t ->
  FetchAccounts addrs bc = Ret (account_in t <$> addrs).
Proof.
  intros Htd Ht Hwf. unfold FetchAccounts. rewrite Htd. cbn [must mbind res_bind]. rewrite Ht.
  cbn [must mbind res_bind]. apply (fetch_loop t addrs []). apply Forall2_fmap_r.
  apply Forall_Forall2_diag, list.Forall_forall. intros a _. by apply account_in_load.
Qed.

(** The address whose shard executes a pooled transaction next. *)
Definition owner (tx : Transaction) : string := if tx_Relayed tx then tx_Recipient tx else tx_Sender tx.

Lemma follows_owner addrs tx : follows addrs tx = bool_decide (owner tx ∈ addrs).
Proof.
  unfold follows, owner. destruct (tx_Relayed tx); cbn [negb].
  - by rewrite andb_false_r, andb_true_r.
  - by rewrite andb_true_r, andb_false_r, orb_false_r.
Qed.

(** The shard a pooled transaction is sent to, if it leaves. *)
Definition tx_dest (m : gmap string Z) (l : list string) (tx : Transaction) : option Z :=
  if decide (owner tx ∈ l) then Some (default 0 (m !! owner tx)) else None.

Definition with_queue (q : list Transaction) p : PbftConsensusNode CLPAData :=
  p <| CurChain ::= fun bc => bc <| bc_Txpool ::= fun pl => pl <| TxQueue := q |> |> |>.

(** The message to the leader of shard [i]. *)
Definition sent_accounts (m : gmap string Z) (l : list string) (t : Trie) (q : list Transaction) (from i : Z) :
    AccountStateAndTx :=
  let addrs := filter (fun a => default 0 (m !! a) = i) l in
  mkAccountStateAndTx addrs (account_in t <$> addrs) (filter (fun tx => tx_dest m l tx = Some i) q) from.

Lemma to_shard_spec m i t l :
  to_shard m i (zip l (account_in t <$> l)) =
  (fun a => (a, account_in t a)) <$> filter (fun a => default 0 (m !! a) = i) l.
Proof.
  unfold to_shard. induction l as [|a l IH]; [done|]. cbn [fmap list_fmap zip_with].
  rewrite !filter_cons. cbn [fst]. case_decide; cbn [fmap list_fmap]; by rewrite IH.
Qed.

Lemma follows_dest m l i tx :
  follows (filter (fun a => default 0 (m !! a) = i) l) tx = bool_decide (tx_dest m l tx = Some i).
Proof.
  rewrite follows_owner. apply bool_decide_ext. unfold tx_dest. rewrite list_elem_of_filter.
  case_decide; naive_solver.
Qed.

Lemma send_to_returns m l t i p :
  i <> p_ShardID p ->
  let q := TxQueue (bc_Txpool (CurChain p)) in
  exists msg, MergeMessage AccountState_and_TX (json_enc (sent_accounts m l t q (p_ShardID p) i)) = Ret msg /\
    send_to m (zip l (account_in t <$> l)) i p =
      Ret (tt, with_queue (filter (fun tx => tx_dest m l tx <> Some i) q) p, [TcpDial msg (node_ip p i 0)]).
Proof.
  intros Hi q. unfold send_to. rewrite get_bind. rewrite (proj2 (Z.eqb_neq _ _) Hi). cbn zeta.
  rewrite to_shard_spec. rewrite <- !list_fmap_compose.
  change (fst ∘ (fun a => (a, account_in t a))) with (fun a : string => a).
  change (snd ∘ (fun a => (a, account_in t a))) with (account_in t). rewrite list_fmap_id.
  set (addrs := filter (fun a => default 0 (m !! a) = i) l). fold q.
  assert (H1 : filter (fun tx => follows addrs tx = true) q = filter (fun tx => tx_dest m l tx = Some i) q).
  { apply list_filter_iff. intros tx. unfold addrs. rewrite follows_dest. apply bool_decide_eq_true. }
  assert (H2 : filter (fun tx => follows addrs tx = false) q = filter (fun tx => tx_dest m l tx <> Some i) q).
  { apply list_filter_iff. intros tx. unfold addrs. rewrite follows_dest. apply bool_decide_eq_false. }
  rewrite H1, H2, modify_bind.
  edestruct (dial_returns (X := CLPAData) AccountState_and_TX) as (msg & Hm & Hd);
    [|exists msg; split; [exact Hm|]; exact Hd].
  apply (bool_decide_unpack _). reflexivity.
Qed.

(** The write to the leader of shard [i]. *)
Definition sends (m : gmap string Z) (l : list string) (t : Trie) (q : list Transaction) p (i : Z) (e : Event) : Prop :=
  exists msg, SplitMessage msg =
      Ret (AccountState_and_TX, json_enc (sent_accounts m l t q (p_ShardID p) i)) /\
    e = TcpDial msg (node_ip p i 0).

Lemma with_queue_id p : with_queue (TxQueue (bc_Txpool (CurChain p))) p = p.
Proof. destruct p as [? ? ? bc]. destruct bc as [? ? ? ? ? pl]. by destruct pl. Qed.

Lemma send_loop_returns m l t sids : forall p,
  NoDup sids ->
  let q := TxQueue (bc_Txpool (CurChain p)) in
  let others := filter (fun i => i <> p_ShardID p) sids in
  exists evs, forM sids (send_to m (zip l (account_in t <$> l))) p =
      Ret (tt, with_queue (filter (fun tx => tx_dest m l tx ∉ Some <$> others) q) p, evs) /\
    Forall2 (sends m l t q p) others evs.
Proof.
  induction sids as [|i sids IH]; intros p Hnd q others.
  - exists []. split; [|constructor]. cbn [forM].
    rewrite filter_true by (intros tx _ H; by apply not_elem_of_nil in H). unfold q. by rewrite with_queue_id.
  - apply list.NoDup_cons in Hnd as [Hi Hnd]. cbn [forM].
    destruct (decide (i = p_ShardID p)) as [->|Hne].
    + destruct (IH p Hnd) as (evs & He & Hall). exists evs.
      subst others. rewrite filter_cons, decide_False by tauto. split; [|exact Hall].
      assert (Hskip : send_to m (zip l (account_in t <$> l)) (p_ShardID p) p = Ret (tt, p, [])).
      { unfold send_to. rewrite get_bind, Z.eqb_refl. done. }
      change evs with ([] ++ evs). eapply bind_returns; [exact Hskip|exact He].
    + destruct (send_to_returns m l t i p Hne) as (msg & Hm & Hs). fold q in Hm, Hs.
      set (p1 := with_queue (filter (fun tx => tx_dest m l tx <> Some i) q) p) in *.
      destruct (IH p1 Hnd) as (evs & He & Hall).
      exists (TcpDial msg (node_ip p i 0) :: evs). subst others.
      rewrite filter_cons, decide_True by done. split.
      * change (TcpDial msg (node_ip p i 0) :: evs) with ([TcpDial msg (node_ip p i 0)] ++ evs).
        eapply bind_returns; [exact Hs|]. cbn beta. rewrite He. f_equal. f_equal. f_equal.
        change (with_queue ?a p1) with (with_queue a p). f_equal.
        change (TxQueue (bc_Txpool (CurChain p1))) with (filter (fun tx => tx_dest m l tx <> Some i) q).
        rewrite list_filter_filter. apply list_filter_iff. intros tx. cbn [fmap list_fmap].
        rewrite not_elem_of_cons. change (p_ShardID p1) with (p_ShardID p). tauto.
      * constructor.
        -- exists msg. split; [|done]. eapply SplitMessage_MergeMessage; [|exact Hm].
           apply message_types_ok, (bool_decide_unpack _). reflexivity.
        -- eapply Forall2_in; [exact Hall|]. intros j e Hj (msg' & Hs' & ->). exists msg'. split; [|done].
           rewrite Hs'. do 3 f_equal. unfold sent_accounts. f_equal.
           change (TxQueue (bc_Txpool (CurChain p1))) with (filter (fun tx => tx_dest m l tx <> Some i) q).
           rewrite list_filter_filter. apply list_filter_iff. intros tx. split; [tauto|]. intros H.
           split; [done|]. rewrite H. intros [= ->]. apply Hi. by apply list_elem_of_filter in Hj as [_ Hj].
Qed.

(** C10: what a leader sends away is what moves.  Under the newest partition
    [m], [sendAccounts_and_Txs] writes one message to the leader of every other
    shard, with exactly the accounts of this shard that [m] gives to it, in
    their current state, and exactly the pooled transactions those accounts own,
    in queue order; no account and no transaction is sent twice, every
    other transaction stays in the pool in its order, and nothing else of
    the node changes. *)
Theorem sendAccounts_and_Txs_partition p ms m td t :
  ModifiedMap (cdm_of p) = ms ++ [m] ->
  (forall a i, m !! a = Some i -> is_Ret (Get_PartitionMap P a (CurChain p)) /\ 0 <= i < ShardNums (pbftChainConfig p)) ->
  bc_triedb (CurChain p) = Some td -> trie_New (state_root (CurChain p)) td = Some t -> wf_trie t ->
  let q := TxQueue (bc_Txpool (CurChain p)) in
  let l := leaving (CurChain p) (p_ShardID p) m in
  let others := filter (fun i => i <> p_ShardID p) (seqZ 0 (ShardNums (pbftChainConfig p))) in
  let message := sent_accounts m l t q (p_ShardID p) in
  let rest := filter (fun tx => owner tx ∉ l) q in
  exists evs, sendAccounts_and_Txs P p = Ret (tt, with_queue rest p, evs) /\
    Forall2 (fun i e => exists msg, SplitMessage msg = Ret (AccountState_and_TX, json_enc (message i)) /\
      e = TcpDial msg (node_ip p i 0)) others evs /\
    l ≡ₚ (others ≫= fun i => ast_Addrs (message i)) /\
    q ≡ₚ (others ≫= fun i => ast_Txs (message i)) ++ rest.
Proof.
  intros Hlast Hm Htd Ht Hwf q l others message rest.
  assert (Hl : forall a, a ∈ l -> exists i, m !! a = Some i /\ i ∈ others).
  { intros a [[Hne _] Ha]%list_elem_of_filter. apply list_elem_of_fmap in Ha as ([a' i] & -> & Hi).
    apply elem_of_map_to_list in Hi. exists i. split; [done|]. apply list_elem_of_filter.
    split; [cbn in Hne; congruence|]. apply elem_of_seqZ. destruct (Hm a' i Hi) as [_ ?]. lia. }
  assert (Hnd : NoDup (seqZ 0 (ShardNums (pbftChainConfig p)))) by apply NoDup_seqZ.
  destruct (send_loop_returns m l t _ p Hnd) as (evs & He & Hall). fold q others in He, Hall.
  assert (Hrest : filter (fun tx => tx_dest m l tx ∉ Some <$> others) q = rest).
  { apply list_filter_iff. intros tx. unfold tx_dest. case_decide as Ho; [|set_solver].
    split; [|done]. intros Hn. destruct (Hl _ Ho) as (i & Hi & Hio). destruct Hn. apply list_elem_of_fmap.
    exists i. by rewrite Hi. }
  rewrite Hrest in He. exists evs. split; [|split; [exact Hall|split]].
  - unfold sendAccounts_and_Txs. rewrite get_bind.
    assert (Hnth : nth_map (ModifiedMap (cdm_of p)) (Z.of_nat (length (ModifiedMap (cdm_of p))) - 1) = Ret m).
    { rewrite Hlast, List.length_app. unfold nth_map. cbn [length]. rewrite (proj2 (Z.ltb_ge _ _)) by lia.
      replace (Z.to_nat _) with (length ms) by lia. by rewrite list_lookup_middle. }
    rewrite (lift_bind _ _ _ _ Hnth). rewrite (lift_bind _ _ _ l).
    2: { apply accounts_to_fetch_spec. intros a Ha. apply list_elem_of_fmap in Ha as ([a' i] & -> & Hi).
         apply elem_of_map_to_list in Hi. by apply (Hm a' i). }
    rewrite (lift_bind _ _ _ (account_in t <$> l)) by (by eapply FetchAccounts_spec). exact He.
  - rewrite (bucket_perm (fun a => default 0 (m !! a)) others l) at 1 by (by apply list.NoDup_filter).
    rewrite (filter_none (fun a => default 0 (m !! a) ∉ others)), app_nil_r; [done|].
    intros a Ha. destruct (Hl a Ha) as (i & -> & Hi). by intros [].
  - rewrite (bucket_perm (tx_dest m l) (Some <$> others) q) at 1.
    2: { apply NoDup_fmap_2; [apply _|by apply list.NoDup_filter]. }
    rewrite Hrest. f_equiv. by rewrite list_fmap_bind.
Qed.
End leaving.

(** ** What arrives in a shard *)

(** Inserting a list of pairs. *)
Definition insert_all {V} (m : gmap string V) (ps : list (string * V)) : gmap string V :=
  foldl (fun m kv => <[kv.1 := kv.2]> m) m ps.

Lemma insert_all_app {V} (m : gmap string V) ps1 ps2 :
  insert_all m (ps1 ++ ps2) = insert_all (insert_all m ps1) ps2.
Proof. apply foldl_app. Qed.

Lemma insert_all_out {V} (ps : list (string * V)) : forall m a,
  a ∉ ps.*1 -> insert_all m ps !! a = m !! a.
Proof.
  induction ps as [|[k v] ps IH]; intros m a Ha; [done|]. cbn in Ha.
  change (insert_all (<[k := v]> m) ps !! a = m !! a).
  apply not_elem_of_cons in Ha as [Hk Ha]. rewrite IH by done. by rewrite lookup_insert_ne.
Qed.

Lemma insert_all_in {V} (ps : list (string * V)) : forall m a v,
  NoDup ps.*1 -> (a, v) ∈ ps -> insert_all m ps !! a = Some v.
Proof.
  induction ps as [|[k w] ps IH]; intros m a v Hnd Ha; [by apply not_elem_of_nil in Ha|].
  cbn in Hnd. change (insert_all (<[k := w]> m) ps !! a = Some v). apply list.NoDup_cons in Hnd as [Hk Hnd].
  apply elem_of_cons in Ha as [[= -> ->]|Ha]; [|by apply IH].
  rewrite insert_all_out by done. apply lookup_insert_eq.
Qed.

Lemma insert_all_perm {V} (ps : list (string * V)) :
  NoDup ps.*1 -> map_to_list (insert_all ∅ ps) ≡ₚ ps.
Proof.
  intros Hnd. apply NoDup_Permutation; [apply NoDup_map_to_list|by eapply NoDup_fmap_1|].
  intros [a v]. rewrite elem_of_map_to_list. split; [|by apply insert_all_in].
  intros H. destruct (decide (a ∈ ps.*1)) as [Ha|Ha].
  - apply list_elem_of_fmap in Ha as ([a' w] & -> & Hw). cbn in *.
    pose proof (insert_all_in ps ∅ a' w Hnd Hw). congruence.
  - by rewrite insert_all_out, lookup_empty in H.
Qed.

Section arriving.
Context (P : Params).
Context {TL : TrieLib} {BL : BoltLib} {HL : Sha256} {CC : CoreCodecs} {MC : MsgCodecs}.
Context {TW : TrieLaws TL} {CL : CoreCodecsLaws} {LV : TrieLive TL}.
Implicit Types (p : PbftConsensusNode CLPAData).

Definition pairs_of (a : AccountStateAndTx) : list (string * AccountState) :=
  zip (ast_Addrs a) (ast_AccountState a).

Definition paired (a : AccountStateAndTx) : Prop := length (ast_AccountState a) = length (ast_Addrs a).

Lemma receive_loop addrs : forall accs accounts k (m : gmap string AccountState),
  length accounts = (k + length addrs)%nat -> accs = drop k accounts ->
  foldM (fun m (ia : Z * string) => s ← must (accounts !! Z.to_nat ia.1); Ret (<[ia.2 := s]> m)) m
    (imap (fun i x => (Z.of_nat (k + i), x)) addrs) = Ret (insert_all m (zip addrs accs)).
Proof.
  induction addrs as [|x addrs IH]; intros accs accounts k m Hlen ->; [done|]. cbn [length] in Hlen.
  destruct (lookup_lt_is_Some_2 accounts k) as [a Ha]; [lia|].
  rewrite (drop_S _ a k Ha). cbn [imap foldM zip_with]. rewrite Nat.add_0_r. cbn [fst snd].
  rewrite Nat2Z.id, Ha. cbn [must mbind res_bind]. cbn [insert_all foldl fst snd].
  etransitivity; [|apply (IH (drop (S k) accounts) accounts (S k)); [lia|done]].
  f_equal. apply imap_ext. intros i y _. cbn. f_equal. lia.
Qed.

Lemma receive_from_spec c a :
  paired a -> receive_from c a = Ret (c <| ReceivedNewAccountState ::= fun m => insert_all m (pairs_of a) |>
                                        <| ReceivedNewTx ::= fun l => l ++ ast_Txs a |>).
Proof.
  intros Hp. unfold receive_from, indexed.
  rewrite (receive_loop (ast_Addrs a) (ast_AccountState a) (ast_AccountState a) 0 _ Hp) by done. done.
Qed.

Lemma receive_all ats : forall c,
  Forall paired ats ->
  foldM receive_from c ats = Ret (c <| ReceivedNewAccountState ::= fun m => insert_all m (ats ≫= pairs_of) |>
                                   <| ReceivedNewTx ::= fun l => l ++ (ats ≫= ast_Txs) |>).
Proof.
  induction ats as [|a ats IH]; intros c Hall.
  - cbn. rewrite app_nil_r. by destruct c.
  - apply list.Forall_cons in Hall as [Ha Hall]. cbn [foldM]. rewrite receive_from_spec by done.
    cbn [mbind res_bind]. rewrite IH by done. rewrite !bind_cons.
    destruct c. cbn -[insert_all mbind]. by rewrite insert_all_app, app_assoc.
Qed.

Lemma check_loop (r : res (gmap string Z)) m shard txs :
  r = Ret m -> Forall (fun tx => check_tx m shard tx = true) txs ->
  foldM (fun (_ : ()) tx => m ← r; if check_tx m shard tx then Ret tt else Panic) tt txs = Ret tt.
Proof.
  intros -> Hall. induction Hall as [|tx txs Htx _ IH]; [done|]. cbn [foldM mbind res_bind]. by rewrite Htx.
Qed.

Lemma pairs_fst ats : Forall paired ats -> (ats ≫= pairs_of).*1 = ats ≫= ast_Addrs.
Proof.
  induction 1 as [|a l Ha _ IH]; [done|]. rewrite !bind_cons, fmap_app, IH. f_equal.
  apply fst_zip. by rewrite Ha.
Qed.


(** The proposal: the accounts and transactions of all the messages. *)
Lemma proposePartition_spec now p m :
  let ats := (map_to_list (AccountStateTx (cdm_of p))).*2 in
  Forall paired ats -> NoDup (ats ≫= ast_Addrs) ->
  ReceivedNewAccountState (cdm_of p) = ∅ -> ReceivedNewTx (cdm_of p) = [] ->
  nth_map (ModifiedMap (cdm_of p)) (AccountTransferRound (cdm_of p)) = Ret m ->
  Forall (fun tx => check_tx m (p_ShardID p) tx = true) (ats ≫= ast_Txs) ->
  exists atm p', proposePartition now p = Ret (true, mkRequest PartitionReq (enc atm) now, p', []) /\
    atm_ModifiedMap atm = m /\ atm_ATid atm = Z.of_nat (length (ModifiedMap (cdm_of p))) /\
    length (atm_AccountState atm) = length (atm_Addrs atm) /\
    zip (atm_Addrs atm) (atm_AccountState atm) ≡ₚ ats ≫= pairs_of /\
    bc_Txpool (CurChain p') = TxPool_AddTxs2Pool now (ats ≫= ast_Txs) (bc_Txpool (CurChain p)) /\
    CurChain p' = CurChain p <| bc_Txpool := bc_Txpool (CurChain p') |>.
Proof.
  intros ats Hpair Hnd Hacc Htx Hm Hck.
  set (c := cdm_of p <| ReceivedNewAccountState ::= fun m => insert_all m (ats ≫= pairs_of) |>
                     <| ReceivedNewTx ::= fun l => l ++ (ats ≫= ast_Txs) |>).
  set (received := map_to_list (ReceivedNewAccountState c)).
  assert (Hperm : received ≡ₚ ats ≫= pairs_of).
  { unfold received, c. cbn [ReceivedNewAccountState set_field]. rewrite Hacc. apply insert_all_perm.
    by rewrite pairs_fst. }
  exists (mkAccountTransferMsg m received.*1 received.*2 (Z.of_nat (length (ModifiedMap c)))).
  eexists. split; [|split; [done|split; [done|split; [by cbn; rewrite !length_fmap|split]]]].
  - unfold proposePartition. rewrite get_bind. fold ats.
    rewrite (lift_bind _ _ _ c) by (by apply receive_all). unfold modify_cdm. rewrite modify_bind.
    assert (Hchk : foldM (fun (_ : ()) tx => m ← nth_map (ModifiedMap c) (AccountTransferRound c);
        if check_tx m (p_ShardID p) tx then Ret tt else Panic) tt (ReceivedNewTx c) = Ret tt).
    { apply (check_loop _ m); [exact Hm|]. unfold c. cbn [ReceivedNewTx set_field]. by rewrite Htx. }
    rewrite (lift_bind _ _ _ tt Hchk), modify_bind, (lift_bind _ _ _ m Hm). reflexivity.
  - cbn [atm_Addrs atm_AccountState]. rewrite <- Hperm.
    assert (Hz : forall l : list (string * AccountState), zip l.*1 l.*2 = l)
      by (intros l; induction l as [|[x y] l IH]; [done|]; cbn; by rewrite IH).
    by rewrite Hz.
  - cbn [CurChain set_field bc_Txpool]. unfold c. cbn [ReceivedNewTx set_field]. rewrite Htx. cbn [app].
    split; [done|]. done.
Qed.

Lemma update_map_spec m bc : update_map m bc = bc <| bc_PartitionMap := m ∪ bc_PartitionMap bc |>.
Proof.
  assert (H : forall l (bc : BlockChain), foldl (fun bc kv => Update_PartitionMap kv.1 kv.2 bc) bc l =
    bc <| bc_PartitionMap := insert_all (bc_PartitionMap bc) l |>).
  { induction l as [|[k v] l IH]; intros bc0; [by destruct bc0|]. cbn [foldl]. rewrite IH. done. }
  assert (Hu : insert_all (bc_PartitionMap bc) (map_to_list m) = m ∪ bc_PartitionMap bc).
  { apply map_eq. intros a. rewrite lookup_union. destruct (m !! a) as [i|] eqn:E.
    - rewrite (insert_all_in _ _ a i); [by destruct (bc_PartitionMap bc !! a)|apply NoDup_fst_map_to_list|].
      by apply elem_of_map_to_list.
    - rewrite insert_all_out; [by destruct (bc_PartitionMap bc !! a)|].
      intros ([a' i] & -> & Hi)%list_elem_of_fmap. apply elem_of_map_to_list in Hi. cbn in E. congruence. }
  unfold update_map. by rewrite H, Hu.
Qed.

Lemma Get_PartitionMap_union m bc a i :
  m !! a = Some i -> Get_PartitionMap P a (bc <| bc_PartitionMap := m ∪ bc_PartitionMap bc |>) = Ret i.
Proof.
  intros Hi. unfold Get_PartitionMap. cbn [bc_PartitionMap set_field].
  by rewrite (lookup_union_Some_l _ _ _ _ Hi).
Qed.

(** A node's chain, ready for a migration. *)
Record ready_chain (bc : BlockChain) (t : Trie) : Prop := {
  rc_state : exists td, bc_triedb bc = Some td /\ trie_New (state_root bc) td = Some t;
  rc_store : forall b, b_Body b = [] -> b_UTXO b = [] -> is_Ret (Storage_AddBlock b (bc_Storage bc)) }.

(** Committing a partition request. *)
Lemma accountTransfer_do_spec atm p t :
  ready_chain (CurChain p) t -> NoDup (atm_Addrs atm) -> length (atm_AccountState atm) = length (atm_Addrs atm) ->
  Forall (fun a => atm_ModifiedMap atm !! a = Some (ShardID (bc_ChainConfig (CurChain p)))) (atm_Addrs atm) ->
  exists bc td' t',
    accountTransfer_do P atm p = Ret (tt, p <| CurChain := bc |> <| modData ::= fun d => d <| cdm ::= after_transfer atm |> |>, []) /\
    bc_PartitionMap bc = atm_ModifiedMap atm ∪ bc_PartitionMap (CurChain p) /\
    bh_Number (b_Header (bc_CurrentBlock bc)) = u64 (bh_Number (b_Header (bc_CurrentBlock (CurChain p))) + 1) /\
    bc_triedb bc = Some td' /\ trie_New (state_root bc) td' = Some t' /\
    (forall a s, (a, s) ∈ zip (atm_Addrs atm) (atm_AccountState atm) -> load_account t' a 0 = Ret (migrated s)) /\
    (forall a, a ∉ atm_Addrs atm -> trie_Get t' a = trie_Get t a).
Proof.
  intros [(td & Htd & Ht) Hst] Hnd Hlen Hin.
  set (bc0 := CurChain p <| bc_PartitionMap := atm_ModifiedMap atm ∪ bc_PartitionMap (CurChain p) |>).
  destruct (AddAccounts_state P (atm_Addrs atm) (atm_AccountState atm) bc0 td t)
    as (bc & td' & t' & Ha & Htd' & Ht' & Hn & H1 & H2); [done|done|done| |done|done|].
  { eapply list.Forall_impl; [exact Hin|]. intros a. unfold in_shard, bc0. apply Get_PartitionMap_union. }
  exists bc, td', t'. split; [|split; [|split; [exact Hn|split; [done|split; [done|split; [|exact H2]]]]]].
  - unfold accountTransfer_do. rewrite get_bind, update_map_spec. fold bc0.
    rewrite (lift_bind _ _ _ bc Ha), modify_bind. reflexivity.
  - apply AddAccounts_frame in Ha. by rewrite Ha.
  - intros a s (i & Hi)%list_elem_of_lookup. apply lookup_zip_with_Some in Hi as (a' & s' & [= -> ->] & Hi1 & Hi2).
    unfold load_account. rewrite (H1 i a' s' Hi1 Hi2). by rewrite dec_enc.
Qed.






(** C11: a committed partition keeps the nodes of a shard alike.  If the
    leader, who received the new partition, and a follower, who did not, are
    replicas and both commit the leader's request, they are replicas again,
    follow the new partition, and hold the same list of partitions, round and
    empty tables for the next round. *)
Theorem partition_agreement atm L F L' F' ms oL oF :
  replica (CurChain L) (CurChain F) ->
  ModifiedMap (cdm_of L) = ms ++ [atm_ModifiedMap atm] -> ModifiedMap (cdm_of F) = ms ->
  atm_ATid atm = Z.of_nat (S (length ms)) ->
  accountTransfer_do P atm L = Ret (tt, L', oL) -> accountTransfer_do P atm F = Ret (tt, F', oF) ->
  replica (CurChain L') (CurChain F') /\
  bc_PartitionMap (CurChain F') = atm_ModifiedMap atm ∪ bc_PartitionMap (CurChain F) /\
  ModifiedMap (cdm_of L') = ModifiedMap (cdm_of F') /\
  AccountTransferRound (cdm_of L') = Z.of_nat (length (ModifiedMap (cdm_of L'))) /\
  AccountTransferRound (cdm_of F') = AccountTransferRound (cdm_of L') /\
  forall c, c = cdm_of L' \/ c = cdm_of F' ->
    AccountStateTx c = ∅ /\ ReceivedNewAccountState c = ∅ /\ ReceivedNewTx c = [] /\
    PartitionOn c = false /\ CollectOver c = false /\ cd_PartitionReady c = ∅.
Proof.
  intros Hrep HmL HmF Hid HdL HdF.
  assert (Hdo : forall p p' o, accountTransfer_do P atm p = Ret (tt, p', o) ->
    exists bc, AddAccounts P (atm_Addrs atm) (atm_AccountState atm)
        (CurChain p <| bc_PartitionMap := atm_ModifiedMap atm ∪ bc_PartitionMap (CurChain p) |>) = Ret bc /\
      p' = p <| CurChain := bc |> <| modData ::= fun d => d <| cdm ::= after_transfer atm |> |>).
  { intros p p' o H. unfold accountTransfer_do in H. rewrite get_bind, update_map_spec in H.
    apply M_bind_Ret in H as (bc & p1 & o1 & o2 & H1 & H2 & ->). unfold lift in H1.
    destruct (AddAccounts _ _ _ _) as [bc'| |] eqn:E; [|done..]. injection H1 as -> <- <-.
    exists bc. split; [done|]. rewrite modify_bind in H2. by injection H2 as <- <-. }
  destruct (Hdo _ _ _ HdL) as (bL & AL & ->). destruct (Hdo _ _ _ HdF) as (bF & AF & ->).
  split; [|split].
  - refine (AddAccounts_replica P _ _ _ _ _ _ _ AL AF). destruct Hrep as [R1 R2 R3 R4].
    split; [done|cbn; by rewrite R2|done|done].
  - cbn. apply AddAccounts_frame in AF. by rewrite AF.
  - assert (Hc : forall p, cdm_of (p <| modData ::= fun d => d <| cdm ::= after_transfer atm |> |>) =
      after_transfer atm (cdm_of p)) by done.
    rewrite !Hc.
    assert (Hat : forall c, AccountTransferRound (after_transfer atm c) = atm_ATid atm) by done.
    assert (HL' : ModifiedMap (after_transfer atm (cdm_of L)) = ms ++ [atm_ModifiedMap atm]).
    { unfold after_transfer. cbn [ModifiedMap set_field]. rewrite HmL, Hid, List.length_app, Nat.add_1_r.
      by rewrite Z.eqb_refl. }
    assert (HF' : ModifiedMap (after_transfer atm (cdm_of F)) = ms ++ [atm_ModifiedMap atm]).
    { unfold after_transfer. cbn [ModifiedMap set_field]. rewrite HmF, Hid.
      destruct (Z.eqb_spec (Z.of_nat (length ms)) (Z.of_nat (S (length ms)))); [lia|done]. }
    split; [exact (eq_trans HL' (eq_sym HF'))|]. split; [|split; [exact (eq_trans (Hat _) (eq_sym (Hat _)))|]].
    + rewrite Hat. change (ModifiedMap (after_transfer atm (cdm_of (L <| CurChain := bL |>))))
        with (ModifiedMap (after_transfer atm (cdm_of L))). rewrite HL', List.length_app, Nat.add_1_r. exact Hid.
    + clear. intros c [-> | ->]; repeat split.
Qed.

(** ** The waits of a re-partitioning leader *)

(** The account messages of the other leaders, handled one after another. *)
Definition collect (ats : list AccountStateAndTx) : Pm CLPAData () :=
  forM ats (fun a => handleAccountStateAndTxMsg (json_enc a)).

Definition with_cdm (c : Data_supportCLPA) p : PbftConsensusNode CLPAData :=
  p <| modData ::= fun d => d <| cdm := c |> |>.

Context {ML : MsgCodecsLaws}.

Definition by_shard (m : gmap Z AccountStateAndTx) (ats : list AccountStateAndTx) : gmap Z AccountStateAndTx :=
  foldl (fun m a => <[ast_FromShard a := a]> m) m ats.

Lemma collect_one a p :
  let c := cdm_of p <| AccountStateTx ::= <[ast_FromShard a := a]> |> in
  handleAccountStateAndTxMsg (json_enc a) p =
    Ret (tt, with_cdm (if Z.of_nat (size (AccountStateTx c)) =? i64 (ShardNums (pbftChainConfig p)) - 1
                       then c <| CollectOver := true |> else c) p, []).
Proof.
  intros c. unfold handleAccountStateAndTxMsg. rewrite json_dec_enc.
  rewrite (lift_bind _ _ _ a) by reflexivity. cbn beta. unfold modify_cdm. rewrite modify_bind, get_bind.
  change (pbftChainConfig (p <| modData ::= _ |>)) with (pbftChainConfig p).
  change (cdm_of (p <| modData ::= _ |>)) with c. case_match; reflexivity.
Qed.

Lemma by_shard_size ats : forall m,
  NoDup (ast_FromShard <$> ats) -> (forall a, a ∈ ats -> m !! ast_FromShard a = None) ->
  size (by_shard m ats) = (size m + length ats)%nat.
Proof.
  induction ats as [|a ats IH]; intros m Hnd Hm; [cbn; lia|]. cbn in Hnd.
  apply list.NoDup_cons in Hnd as [Ha Hnd]. change (by_shard m (a :: ats)) with (by_shard (<[ast_FromShard a := a]> m) ats).
  rewrite IH; [|done|].
  - rewrite map_size_insert_None by (apply Hm; by left). cbn. lia.
  - intros a' Ha'. rewrite lookup_insert_ne; [apply Hm; by right|]. intros Heq. apply Ha.
    rewrite Heq. by apply list_elem_of_fmap_2.
Qed.

Lemma by_shard_perm ats : NoDup (ast_FromShard <$> ats) -> (map_to_list (by_shard ∅ ats)).*2 ≡ₚ ats.
Proof.
  enough (H : forall m, NoDup (ast_FromShard <$> ats) -> (forall a, a ∈ ats -> m !! ast_FromShard a = None) ->
    (map_to_list (by_shard m ats)).*2 ≡ₚ ats ++ (map_to_list m).*2).
  { intros Hnd. rewrite H by done. by rewrite map_to_list_empty, app_nil_r. }
  induction ats as [|a ats IH]; intros m Hnd Hm; [done|]. cbn in Hnd.
  apply list.NoDup_cons in Hnd as [Ha Hnd]. change (by_shard m (a :: ats)) with (by_shard (<[ast_FromShard a := a]> m) ats).
  rewrite IH; [|done|].
  - rewrite map_to_list_insert by (apply Hm; by left). cbn. by rewrite Permutation_middle.
  - intros a' Ha'. rewrite lookup_insert_ne; [apply Hm; by right|]. intros Heq. apply Ha.
    rewrite Heq. by apply list_elem_of_fmap_2.
Qed.

(** However many messages have come, short of all, the wait goes on. *)
Lemma collect_spec ats : forall p,
  NoDup (ast_FromShard <$> ats) -> (forall a, a ∈ ats -> AccountStateTx (cdm_of p) !! ast_FromShard a = None) ->
  CollectOver (cdm_of p) = false ->
  Z.of_nat (size (AccountStateTx (cdm_of p)) + length ats) <= i64 (ShardNums (pbftChainConfig p)) - 1 -> ats <> [] ->
  collect ats p = Ret (tt, with_cdm (cdm_of p <| AccountStateTx ::= fun m => by_shard m ats |>
    <| CollectOver := Z.of_nat (size (AccountStateTx (cdm_of p)) + length ats) =? i64 (ShardNums (pbftChainConfig p)) - 1 |>) p, []).
Proof.
  induction ats as [|a ats IH]; intros p Hnd Hm Ho Hle Hne; [done|]. cbn in Hnd, Hle.
  apply list.NoDup_cons in Hnd as [Ha Hnd]. unfold collect. cbn [forM].
  set (c := cdm_of p <| AccountStateTx ::= <[ast_FromShard a := a]> |>).
  assert (Hsz : size (AccountStateTx c) = S (size (AccountStateTx (cdm_of p)))).
  { unfold c. cbn [AccountStateTx set_field]. by rewrite map_size_insert_None by (apply Hm; by left). }
  assert (Hone := collect_one a p). cbn zeta in Hone. fold c in Hone. rewrite Hsz in Hone.
  destruct ats as [|a' ats].
  - cbn [forM]. change (@nil Event) with (@nil Event ++ []). eapply bind_returns; [exact Hone|].
    unfold mret, M_ret. do 3 f_equal. rewrite Nat.add_1_r. cbn [by_shard foldl length].
    case_match; [done|]. f_equal. unfold c. destruct (cdm_of p). cbn in Ho |- *. by subst.
  - rewrite (proj2 (Z.eqb_neq _ _)) in Hone by (cbn in Hle; lia).
    change (@nil Event) with (@nil Event ++ []). eapply bind_returns; [exact Hone|].
    change (forM (a' :: ats) _) with (collect (a' :: ats)).
    assert (Hc : cdm_of (with_cdm c p) = c) by done.
    rewrite IH; [|done| |rewrite Hc; exact Ho| |done].
    + rewrite Hc. do 3 f_equal. unfold with_cdm. cbn [modData set_field]. rewrite Hsz.
      change (pbftChainConfig (p <| modData ::= _ |>)) with (pbftChainConfig p).
      replace (S (size (AccountStateTx (cdm_of p))) + length (a' :: ats))%nat with
        (size (AccountStateTx (cdm_of p)) + length (a :: a' :: ats))%nat by (cbn; lia). reflexivity.
    + intros a'' Hin. rewrite Hc. unfold c. cbn [AccountStateTx set_field]. rewrite lookup_insert_ne.
      * apply Hm. by right.
      * intros Heq. apply Ha. rewrite Heq. by apply (list_elem_of_fmap_2 ast_FromShard).
    + rewrite Hc, Hsz. change (pbftChainConfig (with_cdm c p)) with (pbftChainConfig p). cbn in Hle |- *. lia.
Qed.

Lemma wait_collect_sleeps now p :
  clpa_stage (modData p) = WaitCollect -> CollectOver (cdm_of p) = false ->
  CLPA_HandleinPropose P now p = Ret (None, p, []).
Proof.
  intros Hs Ho. unfold CLPA_HandleinPropose. rewrite get_bind, Hs. unfold wait_collect.
  rewrite get_bind. unfold getCollectOver. rewrite Ho. unfold goto. rewrite modify_bind.
  unfold mret, M_ret. do 3 f_equal. destruct p as [? ? ? ? ? ? ? ? ? ? ? ? ? ? ? ? ? ? ? ? ? ? d].
  destruct d. cbn in *. by subst.
Qed.

(** C12: the wait for the other leaders ends, and not too early.  A leader
    that waits for the accounts goes on waiting after any number of account
    messages short of all the other shards'; once the last has come, in
    whatever order they came, the next time it looks it proposes the
    partition, with all of their accounts and transactions. *)
Theorem partition_round_ends now p m ats :
  clpa_stage (modData p) = WaitCollect -> CollectOver (cdm_of p) = false -> AccountStateTx (cdm_of p) = ∅ ->
  ReceivedNewAccountState (cdm_of p) = ∅ -> ReceivedNewTx (cdm_of p) = [] ->
  nth_map (ModifiedMap (cdm_of p)) (AccountTransferRound (cdm_of p)) = Ret m ->
  NoDup (ast_FromShard <$> ats) -> ats <> [] ->
  Z.of_nat (length ats) = i64 (ShardNums (pbftChainConfig p)) - 1 ->
  Forall paired ats -> NoDup (ats ≫= ast_Addrs) ->
  Forall (fun tx => check_tx m (p_ShardID p) tx = true) (ats ≫= ast_Txs) ->
  (forall k, (k < length ats)%nat -> exists pk, collect (take k ats) p = Ret (tt, pk, []) /\
     CLPA_HandleinPropose P now pk = Ret (None, pk, [])) /\
  exists pn atm p' txs, collect ats p = Ret (tt, pn, []) /\
    CLPA_HandleinPropose P now pn = Ret (Some (true, mkRequest PartitionReq (enc atm) now), p', []) /\
    clpa_stage (modData p') = AtStart /\ atm_ModifiedMap atm = m /\
    zip (atm_Addrs atm) (atm_AccountState atm) ≡ₚ ats ≫= pairs_of /\
    txs ≡ₚ ats ≫= ast_Txs /\
    TxQueue (bc_Txpool (CurChain p')) = TxQueue (bc_Txpool (CurChain p)) ++ (stamp now <$> txs).
Proof.
  intros Hs Ho He Ha Ht Hm Hnd Hne Hlen Hp Hna Hck.
  assert (Hpre : forall k, (k <= length ats)%nat -> take k ats <> [] ->
    collect (take k ats) p = Ret (tt, with_cdm (cdm_of p <| AccountStateTx ::= fun m => by_shard m (take k ats) |>
      <| CollectOver := Z.of_nat k =? i64 (ShardNums (pbftChainConfig p)) - 1 |>) p, [])).
  { intros k Hk Hk'. assert (Hl : length (take k ats) = k) by (rewrite length_take; lia).
    rewrite collect_spec; [by rewrite He, map_size_empty, Nat.add_0_l, Hl| | |done| |done].
    - rewrite <- (take_drop k ats), fmap_app in Hnd. by apply list.NoDup_app in Hnd as [Hnd _].
    - intros a _. by rewrite He.
    - rewrite He, map_size_empty, Nat.add_0_l, Hl. lia. }
  split.
  - intros k Hk. destruct (take k ats) as [|a l] eqn:E.
    + exists p. split; [done|]. by apply wait_collect_sleeps.
    + eexists. split; [rewrite <- E; apply Hpre; [lia|by rewrite E]|].
      apply wait_collect_sleeps; [done|]. cbn. apply Z.eqb_neq. lia.
  - pose proof (Hpre (length ats) ltac:(lia)) as Hall. rewrite take_ge in Hall by lia. specialize (Hall Hne).
    rewrite Hlen, Z.eqb_refl in Hall.
    set (pn := with_cdm _ p) in Hall.
    assert (Hcn : AccountStateTx (cdm_of pn) = by_shard ∅ ats) by (cbn; by rewrite He).
    pose proof (by_shard_perm ats Hnd) as Hperm. rewrite <- Hcn in Hperm.
    destruct (proposePartition_spec now pn m) as (atm & p' & Hprop & Hmap & _ & _ & Hz & Hpool & _);
      [by rewrite Hperm|by rewrite Hperm|done|done|done|by rewrite Hperm|].
    exists pn, atm, (p' <| modData ::= fun d => d <| clpa_stage := AtStart |> |>),
      ((map_to_list (AccountStateTx (cdm_of pn))).*2 ≫= ast_Txs).
    split; [exact Hall|]. split.
    + unfold CLPA_HandleinPropose. rewrite get_bind. change (clpa_stage (modData pn)) with (clpa_stage (modData p)).
      rewrite Hs. unfold wait_collect. rewrite get_bind. change (getCollectOver pn) with true. cbn iota.
      change (@nil Event) with (@nil Event ++ []). eapply bind_returns; [exact Hprop|]. reflexivity.
    + split; [done|]. split; [done|]. split; [by rewrite Hz, Hperm|]. split; [by rewrite Hperm|].
      cbn [CurChain set_field]. rewrite Hpool. unfold TxPool_AddTxs2Pool. by rewrite pool_AddTxs2Pool_TxQueue.
Qed.
End arriving.

(** *** Two shards; account "0000000b" moves from shard 1 to shard 0 *)
Module RefMigration.
Export RefRelay.
Definition moves : gmap string Z := {[ "0000000b"%string := 0 ]}.
(** The other way: account "0000000a" moves from shard 0 to shard 1. *)
Definition moves_out : gmap string Z := {[ "0000000a"%string := 1 ]}.

Definition clpa_node (bc : BlockChain) (n : Z) (d : CLPAData) : PbftConsensusNode CLPAData :=
  mkPbft (peer n) 0 n bc (RefChain.node n) ips 4 1 0 1 false ∅ ∅ ∅ ∅ ∅ ∅ false false ∅ AtSelect 0 d.
Definition waiting (m : gmap string Z) (msgs : gmap Z AccountStateAndTx) (st : Stage) : CLPAData :=
  mkCLPAData (NewCLPADataSupport <| ModifiedMap := [m] |> <| AccountStateTx := msgs |> <| PartitionOn := true |>) st.

Definition tx_b : Transaction := sample_tx "0000000b" "0000000c" 5 "h3".
(** What shard 1 sends. *)
Definition from_1 : AccountStateAndTx :=
  sent_accounts moves (leaving params (RefChain.chain 0) 1 moves) (∅ : Trie) [tx_b] 1 0.
Definition sender : PbftConsensusNode CLPAData :=
  clpa_node (with_txs 0) 0 (waiting moves_out ∅ WaitReady).
Definition collector : PbftConsensusNode CLPAData :=
  clpa_node (RefChain.chain 0) 0 (waiting moves ∅ WaitCollect).

Lemma chain_ready n : ready_chain (RefChain.chain n) (∅ : Trie).
Proof.
  split; [exists ∅; split; reflexivity|]. intros b _ _. eexists. reflexivity.
Qed.
Lemma with_txs_ready n : ready_chain (with_txs n) (∅ : Trie).
Proof. destruct (chain_ready n) as [Hs Hst]. split; [exact Hs|exact Hst]. Qed.
Lemma empty_wf : wf_trie (∅ : Trie).
Proof. intros a e H. discriminate H. Qed.
End RefMigration.
Import RefMigration.

Lemma sendAccounts_and_Txs_partition_witness :
  exists evs p', sendAccounts_and_Txs params sender = Ret (tt, p', evs) /\ length evs = 1%nat /\
    TxQueue (bc_Txpool (CurChain p')) = [].
Proof.
  destruct (sendAccounts_and_Txs_partition params sender [] moves_out ∅ ∅) as (evs & H1 & H2 & _).
  - reflexivity.
  - intros a i Hi. unfold moves_out in Hi. apply lookup_singleton_Some in Hi as [<- <-]. split; [eexists; reflexivity|].
    split; vm_compute; congruence.
  - reflexivity.
  - reflexivity.
  - exact empty_wf.
  - eexists evs, _. split; [exact H1|]. split; [|vm_compute; reflexivity].
    apply Forall2_length in H2. rewrite <- H2. vm_compute. reflexivity.
Defined.


Lemma partition_agreement_witness :
  let atm := mkAccountTransferMsg moves [] [] 1 in
  let L := clpa_node (with_txs 0) 0 (waiting moves ∅ AtStart) in
  let F := clpa_node (RefChain.chain 1) 1 (mkCLPAData NewCLPADataSupport AtStart) in
  exists L' F', accountTransfer_do params atm L = Ret (tt, L', []) /\
    accountTransfer_do params atm F = Ret (tt, F', []) /\ replica (CurChain L') (CurChain F').
Proof.
  intros atm L F.
  destruct (accountTransfer_do_spec params atm L ∅) as (bL & ? & ? & HL & _);
    [exact (with_txs_ready 0)|constructor|reflexivity|constructor|].
  destruct (accountTransfer_do_spec params atm F ∅) as (bF & ? & ? & HF & _);
    [exact (chain_ready 1)|constructor|reflexivity|constructor|].
  eexists _, _. split; [exact HL|]. split; [exact HF|].
  refine (proj1 (partition_agreement params atm L F _ _ [] [] [] _ _ _ _ HL HF)).
  - exact chain_replica.
  - reflexivity.
  - reflexivity.
  - reflexivity.
Defined.

Lemma partition_round_ends_witness :
  exists pn atm p', collect [from_1] collector = Ret (tt, pn, []) /\
    CLPA_HandleinPropose params 9 pn = Ret (Some (true, mkRequest PartitionReq (enc atm) 9), p', []).
Proof.
  destruct (partition_round_ends params 9 collector moves [from_1]) as (_ & pn & atm & p' & txs & H1 & H2 & _).
  - reflexivity.
  - reflexivity.
  - reflexivity.
  - reflexivity.
  - reflexivity.
  - reflexivity.
  - apply (bool_decide_unpack _). vm_compute. reflexivity.
  - discriminate.
  - reflexivity.
  - repeat constructor.
  - apply (bool_decide_unpack _). vm_compute. reflexivity.
  - apply (bool_decide_unpack _). vm_compute. exact I.
  - exists pn, atm, p'. split; [exact H1|exact H2].
Defined.
