(* ===== verification/BrokerMod.v ===== *)
(** * BrokerMod: the modules of the broker mechanism

    src/consensus_shard/pbft_all/{pbftInside_moduleBroker, pbftOutside_moduleBroker,
    pbftInside_modCLPABroker, accountTransfermod_Broker,
    pbftOutside_modCLPABroker}.go: a cross-shard transaction is split by the
    supervisor into two halves through a broker, so a shard relays nothing; it
    reports which halves a block holds and tells the other shards its sequence
    number.  Under CLPA a pooled transaction whose account moves is sent on, or
    goes back to the supervisor when it has become a cross-shard one. *)
From stdpp Require Import base gmap strings list countable.
From Stdlib Require Import ZArith Lia.
From S2P Require Import Prelude GoStd Libs Core Pools Messages StorageDB Chain Pbft RelayMod ClpaMod.

(** [tx.RawTxHash == nil]; a decoded hash that is empty is nil. *)
Definition isInner (tx : Transaction) : bool := bool_decide (tx_RawTxHash tx = ""%string).

(** The block's transactions by kind. *)
Record BrokerTxs := mkBrokerTxs {
  bk_excuted : list Transaction;
  bk_broker1 : list Transaction;
  bk_broker2 : list Transaction }.

(** The halves of a split transaction: the first goes from the original
    sender to the broker, the second from the broker to the final recipient. *)
Definition classify (isBroker1Tx isBroker2Tx : bool) (s : BrokerTxs) (tx : Transaction) : BrokerTxs :=
  if isBroker2Tx then mkBrokerTxs (bk_excuted s) (bk_broker1 s) (bk_broker2 s ++ [tx])
  else if isBroker1Tx then mkBrokerTxs (bk_excuted s) (bk_broker1 s ++ [tx]) (bk_broker2 s)
  else mkBrokerTxs (bk_excuted s ++ [tx]) (bk_broker1 s) (bk_broker2 s).

Section broker.
Context (P : Params).
Context {TL : TrieLib} {BL : BoltLib} {HL : Sha256} {CC : CoreCodecs} {MC : MsgCodecs}.

Section report.
Context {X : Type}.
Implicit Types (p : PbftConsensusNode X).

Definition send_seqID p (sid : Z) : Pm X () :=
  if sid =? p_ShardID p then mret tt
  else dial CSeqIDinfo (json_enc (mkSeqIDinfo (p_ShardID p) (sequenceID p))) (node_ip p sid 0).

(** The leader's report on a committed block of [body]. *)
Definition broker_report (now epoch : Z) (body : list Transaction) (s : BrokerTxs) (ReqTime : Z) : Pm X () :=
  p ← get;
  _ ← forM (shard_ids (ShardNums (pbftChainConfig p))) (send_seqID p);
  let bim := mkBlockInfoMsg (Z.of_nat (length body)) (bk_excuted s) epoch ReqTime now (p_ShardID p)
               0 [] (Z.of_nat (length (bk_broker1 s))) (bk_broker1 s)
               (Z.of_nat (length (bk_broker2 s))) (bk_broker2 s) in
  _ ← dial CBlockInfo (json_enc bim) (node_ip p DeciderShard 0);
  emit (CSVline [Z.of_nat (length (TxQueue (bc_Txpool (CurChain p)))); Z.of_nat (length (bk_excuted s)); 0]).
End report.

(** ** RawBrokerPbftExtraHandleMod *)
Section raw.
Context {X : Type}.
Implicit Types (p : PbftConsensusNode X).

Definition Broker_HandleinPropose (now : Z) : Pm X (option (bool * Request)) :=
  p ← get;
  '(block, bc) ← lift (GenerateBlock P now (CurChain p));
  _ ← modify (fun p => p <| CurChain := bc |>);
  mret (Some (true, mkRequest BlockRequest (enc block) now)).

Definition Broker_HandleinPrePrepare (ppmsg : PrePrepare) : Pm X bool :=
  p ← get;
  b ← lift (must (dec (req_Msg (pp_RequestMsg ppmsg))));
  match IsValidBlock b (CurChain p) with
  | Some _ => mret false
  | None =>
      _ ← modify (fun p => p <| requestPool ::= <[pp_Digest ppmsg := pp_RequestMsg ppmsg]> |>);
      mret true
  end.

Definition Broker_HandleinPrepare (pmsg : Prepare) : Pm X bool := mret true.

Definition broker_tx (s : BrokerTxs) (tx : Transaction) : BrokerTxs :=
  classify (negb (isInner tx) && bool_decide (tx_Sender tx = tx_OriginalSender tx))
           (negb (isInner tx) && bool_decide (tx_Recipient tx = tx_FinalRecipient tx)) s tx.

Definition broker_txs (body : list Transaction) : BrokerTxs := foldl broker_tx (mkBrokerTxs [] [] []) body.

Definition Broker_HandleinCommit (now : Z) (cmsg : Commit) : Pm X bool :=
  p ← get;
  r ← lift (must (requestPool p !! c_Digest cmsg));
  block ← lift (must (dec (req_Msg r)));
  bc ← lift (AddBlock P block (CurChain p));
  _ ← modify (fun p => p <| CurChain := bc |>);
  _ ← (if p_NodeID p =? view p then
         broker_report now 0 (b_Body block) (broker_txs (b_Body block)) (req_ReqTime r)
       else mret tt);
  mret true.

Definition Broker_HandleReqestforOldSeq (rom : RequestOldMessage) : Pm X bool := mret true.

(** The length is compared with [SeqStartHeight - SeqEndHeight], as in the source. *)
Definition Broker_HandleforSequentialRequest (som : SendOldMessage) : Pm X bool :=
  let n := i64 (u64 (so_SeqStartHeight som - so_SeqEndHeight som)) in
  if negb (n =? Z.of_nat (length (so_OldRequest som))) then mret true
  else
    p ← get;
    bc ← lift (add_old_blocks P (S (length (so_OldRequest som))) (so_OldRequest som)
           (so_SeqStartHeight som) (so_SeqEndHeight som) (so_SeqStartHeight som) (CurChain p));
    _ ← modify (fun p => p <| CurChain := bc |>
                            <| sequenceID := u64 (so_SeqEndHeight som + 1) |>);
    mret true.

#[global] Instance RawBrokerPbftExtraHandleMod : InsideMod X := {|
  HandleinPropose := Broker_HandleinPropose;
  HandleinPrePrepare := Broker_HandleinPrePrepare;
  HandleinPrepare := Broker_HandleinPrepare;
  HandleinCommit := Broker_HandleinCommit;
  HandleReqestforOldSeq := Broker_HandleReqestforOldSeq;
  HandleforSequentialRequest := Broker_HandleforSequentialRequest |}.

(** ** RawBrokerOutsideModule *)
Definition handleSeqIDinfos (content : bytes) : Pm X () :=
  sii ← lift (must (json_dec content : option SeqIDinfo));
  modify (fun p => p <| seqIDMap ::= <[si_SenderShardID sii := si_SenderSeq sii]> |>).

Definition Broker_handleInjectTx (now : Z) (content : bytes) : Pm X () :=
  it ← lift (must (json_dec content));
  modify (fun p => p
    <| CurChain ::= fun bc => bc <| bc_Txpool ::= TxPool_AddTxs2Pool now (it_Txs it) |> |>).

Definition Broker_HandleMessageOutsidePBFT (now : Z) (msgType : MessageType) (content : bytes) : Pm X bool :=
  _ ← (if bool_decide (msgType = CSeqIDinfo) then handleSeqIDinfos content
       else if bool_decide (msgType = CInject) then Broker_handleInjectTx now content
       else mret tt);
  mret true.

#[global] Instance RawBrokerOutsideModule : OutsideMod X := {|
  HandleMessageOutsidePBFT := Broker_HandleMessageOutsidePBFT |}.
End raw.

(** ** CLPAPbftInsideExtraHandleMod_forBroker *)
Abbreviation PM := (Pm CLPAData).
Implicit Types (p : PbftConsensusNode CLPAData).

(** *** accountTransfermod_Broker.go; four of its functions are those of
    accountTransfer_module.go, word for word *)
Definition Broker_sendPartitionReady : PM () := sendPartitionReady.
Definition Broker_getPartitionReady p : bool := getPartitionReady p.
Definition Broker_getCollectOver p : bool := getCollectOver p.
Definition Broker_accountTransfer_do (atm : AccountTransferMsg) : PM () := accountTransfer_do P atm.

(** Whether a pooled transaction leaves with the accounts [addrs]. *)
Inductive Fate := Stays | Sent | BecomesCross.

Definition fate (addrs : list string) (ptx : Transaction) : Fate :=
  let ok1 := bool_decide (tx_Sender ptx ∈ addrs) in
  let ok2 := bool_decide (tx_Recipient ptx ∈ addrs) in
  let send (b : bool) := if b then Sent else Stays in
  if isInner ptx then
    if tx_HasBroker ptx then (if tx_SenderIsBroker ptx then send ok2 else send ok1)
    else if ok1 || ok2 then BecomesCross else Stays
  else if bool_decide (tx_FinalRecipient ptx = tx_Recipient ptx) then send ok2
  else if bool_decide (tx_OriginalSender ptx = tx_Sender ptx) then send ok1
  else Stays.

#[global] Instance Fate_eq_dec : EqDecision Fate.
Proof. solve_decision. Defined.

(** One destination; the result is what has become cross-shard. *)
Definition Broker_send_to (m : gmap string Z) (fetched : list (string * AccountState)) (i : Z) : PM (list Transaction) :=
  p ← get;
  if i =? p_ShardID p then mret []
  else
    let sent := to_shard m i fetched in
    let q := TxQueue (bc_Txpool (CurChain p)) in
    let txSend := filter (fun tx => fate sent.*1 tx = Sent) q in
    let cross := filter (fun tx => fate sent.*1 tx = BecomesCross) q in
    let rest := filter (fun tx => fate sent.*1 tx = Stays) q in
    _ ← modify (fun p => p <| CurChain ::= fun bc => bc <| bc_Txpool ::= fun pl => pl <| TxQueue := rest |> |> |>);
    let ast := mkAccountStateAndTx sent.*1 sent.*2 txSend (p_ShardID p) in
    _ ← dial CAccountTransferMsg_broker (json_enc ast) (node_ip p i 0);
    mret cross.

Fixpoint Broker_send_all (m : gmap string Z) (fetched : list (string * AccountState)) (sids : list Z) : PM (list Transaction) :=
  match sids with
  | [] => mret []
  | i :: sids =>
      cross ← Broker_send_to m fetched i;
      crosses ← Broker_send_all m fetched sids;
      mret (cross ++ crosses)
  end.

Definition Broker_sendAccounts_and_Txs : PM () :=
  p ← get;
  m ← lift (nth_map (ModifiedMap (cdm_of p)) (Z.of_nat (length (ModifiedMap (cdm_of p))) - 1));
  accountToFetch ← lift (accounts_to_fetch P (CurChain p) (p_ShardID p) m);
  asFetched ← lift (FetchAccounts accountToFetch (CurChain p));
  txsBeCross ← Broker_send_all m (zip accountToFetch asFetched) (shard_ids (ShardNums (pbftChainConfig p)));
  dial CInner2CrossTx (json_enc (mkInnerTx2CrossTx txsBeCross)) (node_ip p DeciderShard 0).

(** Unlike the relay version it does not check the received transactions. *)
Definition Broker_proposePartition (now : Z) : PM (bool * Request) :=
  p ← get;
  c ← lift (foldM receive_from (cdm_of p) (map_to_list (AccountStateTx (cdm_of p))).*2);
  _ ← modify_cdm (fun _ => c);
  _ ← modify (fun p => p <| CurChain ::= fun bc =>
        bc <| bc_Txpool ::= TxPool_AddTxs2Pool now (ReceivedNewTx c) |> |>);
  m ← lift (nth_map (ModifiedMap c) (AccountTransferRound c));
  let received := map_to_list (ReceivedNewAccountState c) in
  let atm := mkAccountTransferMsg m received.*1 received.*2 (Z.of_nat (length (ModifiedMap c))) in
  mret (true, mkRequest PartitionReq (enc atm) now).

(** *** pbftInside_modCLPABroker.go *)
Definition Broker_wait_collect (now : Z) : PM (option (bool * Request)) :=
  p ← get;
  if Broker_getCollectOver p then
    r ← Broker_proposePartition now;
    _ ← goto AtStart;
    mret (Some r)
  else _ ← goto WaitCollect; mret None.

Definition Broker_wait_ready (now : Z) : PM (option (bool * Request)) :=
  p ← get;
  if Broker_getPartitionReady p then _ ← Broker_sendAccounts_and_Txs; Broker_wait_collect now
  else _ ← goto WaitReady; mret None.

Definition CLPABroker_HandleinPropose (now : Z) : PM (option (bool * Request)) :=
  p ← get;
  match clpa_stage (modData p) with
  | AtStart =>
      if PartitionOn (cdm_of p) then _ ← Broker_sendPartitionReady; Broker_wait_ready now
      else r ← propose_block P now; mret (Some r)
  | WaitReady => Broker_wait_ready now
  | WaitCollect => Broker_wait_collect now
  end.

Definition CLPABroker_HandleinPrePrepare (ppmsg : PrePrepare) : PM bool :=
  p ← get;
  valid ← (if bool_decide (req_RequestType (pp_RequestMsg ppmsg) = PartitionReq) then mret true
           else
             b ← lift (must (dec (req_Msg (pp_RequestMsg ppmsg))));
             mret (match IsValidBlock b (CurChain p) with Some _ => false | None => true end));
  if (valid : bool) then
    _ ← modify (fun p => p <| requestPool ::= <[pp_Digest ppmsg := pp_RequestMsg ppmsg]> |>);
    mret true
  else mret false.

(** The checks of a committed transaction; each failure is a panic.  Here a
    half is one by its addresses alone. *)
Definition clpa_broker_tx (bc : BlockChain) (shard : Z) (s : BrokerTxs) (tx : Transaction) : res BrokerTxs :=
  let isBroker1Tx := bool_decide (tx_Sender tx = tx_OriginalSender tx) in
  let isBroker2Tx := bool_decide (tx_Recipient tx = tx_FinalRecipient tx) in
  ssid ← Get_PartitionMap P (tx_Sender tx) bc;
  rsid ← Get_PartitionMap P (tx_Recipient tx) bc;
  let senderIsInshard := ssid =? shard in
  let recipientIsInshard := rsid =? shard in
  if isBroker1Tx && negb senderIsInshard then Panic
  else if isBroker2Tx && negb recipientIsInshard then Panic
  else if isInner tx &&
          (if tx_HasBroker tx then
             (tx_SenderIsBroker tx && negb recipientIsInshard) || (negb (tx_SenderIsBroker tx) && negb senderIsInshard)
           else negb senderIsInshard || negb recipientIsInshard) then Panic
  else Ret (classify isBroker1Tx isBroker2Tx s tx).

Definition clpa_broker_txs (bc : BlockChain) (shard : Z) (body : list Transaction) : res BrokerTxs :=
  foldM (clpa_broker_tx bc shard) (mkBrokerTxs [] [] []) body.

Definition CLPABroker_HandleinCommit (now : Z) (cmsg : Commit) : PM bool :=
  p ← get;
  r ← lift (must (requestPool p !! c_Digest cmsg));
  if bool_decide (req_RequestType r = PartitionReq) then
    atm ← lift (must (dec (req_Msg r)));
    _ ← Broker_accountTransfer_do atm;
    mret true
  else
    block ← lift (must (dec (req_Msg r)));
    bc ← lift (AddBlock P block (CurChain p));
    _ ← modify (fun p => p <| CurChain := bc |>);
    _ ← (if p_NodeID p =? view p then
           p ← get;
           s ← lift (clpa_broker_txs (CurChain p) (p_ShardID p) (b_Body block));
           broker_report now (i64 (AccountTransferRound (cdm_of p))) (b_Body block) s (req_ReqTime r)
         else mret tt);
    mret true.

Definition CLPABroker_HandleinPrepare (pmsg : Prepare) : PM bool := mret true.
Definition CLPABroker_HandleReqestforOldSeq (rom : RequestOldMessage) : PM bool := mret true.
Definition CLPABroker_HandleforSequentialRequest (som : SendOldMessage) : PM bool :=
  CLPA_HandleforSequentialRequest P som.

#[global] Instance CLPAPbftInsideExtraHandleMod_forBroker : InsideMod CLPAData := {|
  HandleinPropose := CLPABroker_HandleinPropose;
  HandleinPrePrepare := CLPABroker_HandleinPrePrepare;
  HandleinPrepare := CLPABroker_HandleinPrepare;
  HandleinCommit := CLPABroker_HandleinCommit;
  HandleReqestforOldSeq := CLPABroker_HandleReqestforOldSeq;
  HandleforSequentialRequest := CLPABroker_HandleforSequentialRequest |}.

(** *** pbftOutside_modCLPABroker.go; its handlers are those of
    pbftOutside_moduleBroker.go and pbftOutside_moduleCLPA.go *)
Definition CLPABroker_handleSeqIDinfos (content : bytes) : PM () := handleSeqIDinfos content.
Definition CLPABroker_handleInjectTx (now : Z) (content : bytes) : PM () := Broker_handleInjectTx now content.
Definition CLPABroker_handlePartitionMsg (content : bytes) : PM () := handlePartitionMsg content.
Definition CLPABroker_handlePartitionReady (content : bytes) : PM () := handlePartitionReady content.
Definition CLPABroker_handleAccountStateAndTxMsg (content : bytes) : PM () := handleAccountStateAndTxMsg content.

Definition CLPABroker_HandleMessageOutsidePBFT (now : Z) (msgType : MessageType) (content : bytes) : PM bool :=
  _ ← (if bool_decide (msgType = CSeqIDinfo) then CLPABroker_handleSeqIDinfos content
       else if bool_decide (msgType = CInject) then CLPABroker_handleInjectTx now content
       else if bool_decide (msgType = CPartitionMsg) then CLPABroker_handlePartitionMsg content
       else if bool_decide (msgType = CAccountTransferMsg_broker) then CLPABroker_handleAccountStateAndTxMsg content
       else if bool_decide (msgType = CPartitionReady) then CLPABroker_handlePartitionReady content
       else mret tt);
  mret true.

#[global] Instance CLPABrokerOutsideModule : OutsideMod CLPAData := {|
  HandleMessageOutsidePBFT := CLPABroker_HandleMessageOutsidePBFT |}.
End broker.
