(* ===== verification/BrokerProps.v ===== *)
(** * BrokerProps: what the broker modules guarantee *)
From stdpp Require Import base gmap strings list countable.
From Stdlib Require Import ZArith Lia.
From S2P Require Import Prelude GoStd Libs Core Pools Messages StorageDB Chain Ledger Execution Pbft PbftProps RelayMod RelayProps ClpaMod MigrationProps BrokerMod.

Section instances.
Context (P : Params).
Context {TL : TrieLib} {BL : BoltLib} {HL : Sha256} {CC : CoreCodecs} {MC : MsgCodecs}.

Lemma broker_send_all_mod m fetched sids :
  obeys mod_rel (Broker_send_all m fetched sids : Pm CLPAData (list Transaction)) /\
  obeys seq_rel (Broker_send_all m fetched sids : Pm CLPAData (list Transaction)).
Proof.
  induction sids as [|i sids [IH1 IH2]]; cbn [Broker_send_all]; split; mod_ok; unfold Broker_send_to; mod_ok; done.
Qed.

Ltac broker_ok :=
  unfold broker_report, send_seqID, Broker_sendPartitionReady, sendPartitionReady, propose_block,
    Broker_sendAccounts_and_Txs, Broker_proposePartition, Broker_accountTransfer_do, accountTransfer_do, modify_cdm, goto;
  mod_ok; try apply broker_send_all_mod.

#[global] Instance RawBroker_inside_laws {X} : InsideLaws (RawBrokerPbftExtraHandleMod P (X := X)).
Proof.
  split; cbn; intros; [split..|];
    unfold Broker_HandleinPropose, Broker_HandleinPrePrepare, Broker_HandleinPrepare, Broker_HandleinCommit,
      Broker_HandleReqestforOldSeq, Broker_HandleforSequentialRequest; broker_ok.
Qed.

#[global] Instance RawBroker_outside_laws {X} : OutsideLaws (RawBrokerOutsideModule (X := X)).
Proof.
  split; cbn; intros. split; unfold Broker_HandleMessageOutsidePBFT, handleSeqIDinfos, Broker_handleInjectTx; mod_ok.
Qed.

#[global] Instance CLPABroker_inside_laws : InsideLaws (CLPAPbftInsideExtraHandleMod_forBroker P).
Proof.
  split; cbn; intros; [split..|].
  all: unfold CLPABroker_HandleinPropose, CLPABroker_HandleinPrePrepare, CLPABroker_HandleinPrepare,
    CLPABroker_HandleinCommit, CLPABroker_HandleReqestforOldSeq, Broker_wait_ready, Broker_wait_collect; broker_ok.
  apply (il_Sequential (IM := CLPAPbftInsideExtraHandleMod P)).
Qed.

#[global] Instance CLPABroker_outside_laws : OutsideLaws CLPABrokerOutsideModule.
Proof.
  split; cbn; intros. split; unfold CLPABroker_HandleMessageOutsidePBFT, CLPABroker_handleSeqIDinfos, handleSeqIDinfos,
    CLPABroker_handleInjectTx, Broker_handleInjectTx, CLPABroker_handlePartitionMsg, handlePartitionMsg,
    CLPABroker_handlePartitionReady, handlePartitionReady, CLPABroker_handleAccountStateAndTxMsg,
    handleAccountStateAndTxMsg, modify_cdm; mod_ok.
Qed.
End instances.

Section props.
Context (P : Params).
Context {TL : TrieLib} {BL : BoltLib} {HL : Sha256} {CC : CoreCodecs} {MC : MsgCodecs}.

(** A broker node never catches up.  For every answer to a request for old
    messages whose heights are in order, [HandleforSequentialRequest] of
    the broker module either leaves the node exactly as it is, without adding
    the blocks it was sent, or panics on an index out of range: the length
    is compared with [SeqStartHeight - SeqEndHeight]. *)
Theorem broker_catch_up_never {X} som (p : PbftConsensusNode X) :
  0 <= so_SeqStartHeight som <= so_SeqEndHeight som -> so_SeqEndHeight som < 2 ^ 63 ->
  Broker_HandleforSequentialRequest P som p =
    if bool_decide (so_SeqStartHeight som = so_SeqEndHeight som /\ so_OldRequest som = []) then Panic
    else Ret (true, p, []).
Proof.
  intros Hle Hlt. unfold Broker_HandleforSequentialRequest.
  assert (Hn : i64 (u64 (so_SeqStartHeight som - so_SeqEndHeight som)) = so_SeqStartHeight som - so_SeqEndHeight som).
  { destruct (decide (so_SeqStartHeight som = so_SeqEndHeight som)) as [->|Hne].
    - rewrite Z.sub_diag. done.
    - assert (Hu : u64 (so_SeqStartHeight som - so_SeqEndHeight som) = so_SeqStartHeight som - so_SeqEndHeight som + 2 ^ 64).
      { unfold u64. symmetry. apply (Z.mod_unique_pos _ _ (-1)); lia. }
      rewrite Hu. unfold i64. replace (_ + 2 ^ 64 + 2 ^ 63) with
        (so_SeqStartHeight som - so_SeqEndHeight som + 2 ^ 63 + 1 * 2 ^ 64) by lia.
      rewrite Z.mod_add by lia. rewrite Z.mod_small by lia. lia. }
  rewrite Hn. destruct (Z.eqb_spec (so_SeqStartHeight som - so_SeqEndHeight som) (Z.of_nat (length (so_OldRequest som)))) as [E|E];
    cbn [negb].
  - assert (Hnil : so_OldRequest som = []) by (apply nil_length_inv; lia).
    assert (Heq : so_SeqStartHeight som = so_SeqEndHeight som) by (rewrite Hnil in E; cbn in E; lia).
    rewrite bool_decide_eq_true_2 by done. rewrite get_bind, Hnil. cbn [length add_old_blocks].
    by rewrite Heq, Z.ltb_irrefl.
  - rewrite bool_decide_eq_false_2; [done|]. intros [H1 H2]. apply E. rewrite H1, H2. cbn. lia.
Qed.




End props.

Import RefMigration.

Lemma broker_catch_up_never_witness :
  let som := mkSendOldMessage 1 2 [block_req; block_req] (peer 0) in
  Broker_HandleforSequentialRequest params som (member 1) = Ret (true, member 1, []).
Proof.
  intros som. rewrite (broker_catch_up_never params som (member 1)).
  - reflexivity.
  - cbn. lia.
  - cbn. lia.
Defined.

