(* ===== verification/UtxoSet.v ===== *)
(** * UtxoSet: src/chain/utxo_set.go, and the making of UTXO transactions

    The unspent outputs are kept twice: in the store's UTXO bucket (the
    functions on [bolt]) and, the copy the nodes use, in the status trie, where
    an account lists its own outputs.  [NewUTXOTransaction] (chain/blockchain.go)
    spends from the status trie and [TxTransform] (messageHandle.go of both
    consensus packages) turns injected transactions into UTXO transactions.

    What the run-time chooses, the order in which [range] visits a map and the
    random numbers, is a [Choices]; a nil map of outputs is the empty one. *)
From stdpp Require Import base gmap strings list countable.
From Stdlib Require Import ZArith Lia.
From S2P Require Import Prelude GoStd Libs Core Pools StorageDB Chain.

Record Choices := mkChoices {
  range_utxos : gmap string (gmap Z Z) -> list (string * gmap Z Z);
  range_outs : gmap Z Z -> list (Z * Z);
  range_spent : gmap string (list Z) -> list (string * list Z);
  rand_sender : Z;
  rand_coinbase : Z;
  rand_receiver : Z -> Z }.

Section utxo.
Context {TL : TrieLib} {BL : BoltLib} {HL : Sha256} {CC : CoreCodecs}.

(** ** The block iterator *)
Record BlockchainIterator := mkBlockchainIterator {
  currentHash : bytes;
  it_db : BoltDB }.

(** Decoding the nil slice of a missing key panics. *)
Definition decode_value {A} {C : Codec A} (v : option bytes) : res A :=
  e ← must v; must (dec e).

Definition Next (i : BlockchainIterator) : res (Block * BlockchainIterator) :=
  encodedBlock ← must (bolt_Get (it_db i) "block" (currentHash i));
  block ← decode_value encodedBlock;
  Ret (block, mkBlockchainIterator (bh_ParentBlockHash (b_Header block)) (it_db i)).

(** ** [FindUTXO]: the chain is read backwards *)
Record Scan := mkScan {
  sc_UTXO : gmap string (list TxOut);
  sc_spentTXOs : gmap string (list Z) }.

(** One output; [continue Outputs] when it has been spent. *)
Definition scan_out (txID : string) (s : Scan) (iout : Z * TxOut) : Scan :=
  let '(outIdx, out) := iout in
  if bool_decide (outIdx ∈ default [] (sc_spentTXOs s !! txID)) then s
  else mkScan (<[txID := default [] (sc_UTXO s !! txID) ++ [out]]> (sc_UTXO s)) (sc_spentTXOs s).

Definition scan_in (s : Scan) (vin : TxIn) : Scan :=
  let PrevTxId := EncodeToString (in_PrevTxId vin) in
  mkScan (sc_UTXO s)
    (<[PrevTxId := default [] (sc_spentTXOs s !! PrevTxId) ++ [in_Index vin]]> (sc_spentTXOs s)).

Definition scan_tx (s : Scan) (tx : UTXOTransaction) : Scan :=
  let s := foldl (scan_out (EncodeToString (utx_TxId tx))) s (indexed (utx_Vout tx)) in
  if negb (IsCoinbase tx) then foldl scan_in s (utx_Vin tx) else s.

(** The loop over the blocks: [Blocked] when [fuel] blocks are not enough. *)
Fixpoint scan_chain (fuel : nat) (s : Scan) (bci : BlockchainIterator) : res Scan :=
  match fuel with
  | O => Blocked
  | S fuel =>
      '(block, bci) ← Next bci;
      let s := foldl scan_tx s (b_UTXO block) in
      if (String.length (bh_ParentBlockHash (b_Header block)) =? 0)%nat then Ret s
      else scan_chain fuel s bci
  end.

Definition FindUTXO (fuel : nat) (bc : BlockChain) : res (gmap string (list TxOut)) :=
  s ← scan_chain fuel (mkScan ∅ ∅)
        (mkBlockchainIterator (b_Hash (bc_CurrentBlock bc)) (DataBase (bc_Storage bc)));
  Ret (sc_UTXO s).

(** ** The UTXO bucket *)
Definition spendable_out (pubkeyHash : bytes) (amount : Z) (txID : string)
    (s : Z * gmap string (list Z)) (iout : Z * TxOut) : Z * gmap string (list Z) :=
  let '(accumulated, unspentOutputs) := s in
  let '(outIdx, out) := iout in
  if bool_decide (pubkeyHash = out_PubKeyHash out) && (accumulated <? amount) then
    (accumulated + out_Value out,
     <[txID := default [] (unspentOutputs !! txID) ++ [outIdx]]> unspentOutputs)
  else s.

Definition FindSpendableOutputs (pubkeyHash : bytes) (amount : Z) (bc : BlockChain) :
    res (Z * gmap string (list Z)) :=
  items ← must (bolt_Items (DataBase (bc_Storage bc)) (UTXOBucket (bc_Storage bc)));
  foldM (fun s '(key, val) =>
           outs ← must (dec (A := list TxOut) val);
           Ret (foldl (spendable_out pubkeyHash amount (EncodeToString key)) s (indexed outs)))
    (0, ∅) items.

Definition set_database (db : BoltDB) (bc : BlockChain) : BlockChain :=
  bc <| bc_Storage ::= fun s => s <| DataBase := db |> |>.

(** [order] is the order in which the map of outputs is visited. *)
Definition Reindex (fuel : nat) (order : gmap string (list TxOut) -> list (string * list TxOut))
    (bc : BlockChain) : res BlockChain :=
  let bucket := UTXOBucket (bc_Storage bc) in
  db ← must (bolt_DeleteBucket (DataBase (bc_Storage bc)) bucket);
  db ← must (bolt_CreateBucket db bucket);
  let bc := set_database db bc in
  UTXO ← FindUTXO fuel bc;
  db ← foldM (fun db '(txID, outs) =>
                key ← must (DecodeString txID);
                must (bolt_Put db bucket key (enc (A := list TxOut) outs)))
         (DataBase (bc_Storage bc)) (order UTXO);
  Ret (set_database db bc).

(** The output an input cites leaves its transaction's list. *)
Definition remove_output (outs : list TxOut) (i : Z) : list TxOut :=
  (filter (fun io : Z * TxOut => io.1 <> i) (indexed outs)).*2.

Definition spend_input (bucket : bytes) (db : BoltDB) (vin : TxIn) : res BoltDB :=
  outsBytes ← must (bolt_Get db bucket (in_PrevTxId vin));
  outs ← decode_value outsBytes;
  let updatedOuts := remove_output outs (in_Index vin) in
  if (length updatedOuts =? 0)%nat then must (bolt_Delete db bucket (in_PrevTxId vin))
  else must (bolt_Put db bucket (in_PrevTxId vin) (enc updatedOuts)).

Definition update_tx (bucket : bytes) (db : BoltDB) (tx : UTXOTransaction) : res BoltDB :=
  if negb (IsCoinbase tx) then
    db ← foldM (spend_input bucket) db (utx_Vin tx);
    must (bolt_Put db bucket (utx_TxId tx) (enc (utx_Vout tx)))
  else Ret db.

Definition UpdateUTXOSet (block : Block) (bc : BlockChain) : res BlockChain :=
  db ← foldM (update_tx (UTXOBucket (bc_Storage bc))) (DataBase (bc_Storage bc)) (b_UTXO block);
  Ret (set_database db bc).

Definition AddTx2UTXOSet (utxotx : option UTXOTransaction) (bc : BlockChain) : res BlockChain :=
  match utxotx with
  | None => Ret bc
  | Some tx =>
      let bucket := UTXOBucket (bc_Storage bc) in
      db ← (if negb (IsCoinbase tx)
            then foldM (spend_input bucket) (DataBase (bc_Storage bc)) (utx_Vin tx)
            else Ret (DataBase (bc_Storage bc)));
      db ← must (bolt_Put db bucket (utx_TxId tx) (enc (utx_Vout tx)));
      Ret (set_database db bc)
  end.

(** ** The status trie *)
Definition zero_account (pk : bytes) (rnd : Z) : UTXOAccountState := mkUTXOAccountState pk rnd 0 ∅.

(** What the loops over an account's outputs change. *)
Record Spending := mkSpending {
  sp_accumulated : Z;
  sp_state : UTXOAccountState;
  sp_outputs : gmap string (list Z) }.

Definition take_output (txid : string) (s : Spending) (out : Z * Z) : Spending :=
  let '(outId, value) := out in
  mkSpending (sp_accumulated s + value)
    (sp_state s <| uas_Balance ::= fun b => b - value |>
                <| uas_UTXOs ::= alter (delete outId) txid |>)
    (<[txid := default [] (sp_outputs s !! txid) ++ [outId]]> (sp_outputs s)).

(** The inner loop; [break] once more than [amount] has been collected. *)
Fixpoint take_outputs (amount : Z) (txid : string) (outs : list (Z * Z)) (s : Spending) : Spending :=
  match outs with
  | [] => s
  | out :: outs =>
      let s := take_output txid s out in
      if amount <? sp_accumulated s then s else take_outputs amount txid outs s
  end.

(** [if len(txOut) == 0 { delete(s_state.UTXOs, txid) }] *)
Definition drop_empty (txid : string) (s : Spending) : Spending :=
  if (size (default ∅ (uas_UTXOs (sp_state s) !! txid)) =? 0)%nat
  then mkSpending (sp_accumulated s) (sp_state s <| uas_UTXOs ::= delete txid |>) (sp_outputs s)
  else s.

(** The outer loop. *)
Fixpoint take_txs (ch : Choices) (amount : Z) (order : list (string * gmap Z Z)) (s : Spending) : Spending :=
  match order with
  | [] => s
  | (txid, txOut) :: order =>
      let s := drop_empty txid (take_outputs amount txid (range_outs ch txOut) s) in
      if amount <? sp_accumulated s then s else take_txs ch amount order s
  end.

(** [st.Commit], [triedb.Update], [triedb.Commit] and the new root *)
Definition commit_utxo (st : Trie) (bc : BlockChain) : res BlockChain :=
  let '(rt, ns) := trie_Commit st in
  td ← must (bc_triedb bc);
  td ← must (triedb_Update td ns);
  td ← must (triedb_Commit td rt);
  Ret (bc <| bc_triedb := Some td |> <| bc_UTXOStateRoot := rt |>).

Definition open_utxo (bc : BlockChain) : res Trie :=
  td ← must (bc_triedb bc);
  must (trie_New (BytesToHash (bc_UTXOStateRoot bc)) td).

Definition FindSpendableOutputsFromStatusTrie (ch : Choices) (pubkeyHash : bytes) (amount : Z)
    (bc : BlockChain) : res (Z * gmap string (list Z) * BlockChain) :=
  st ← open_utxo bc;
  match trie_Get st pubkeyHash with
  | None =>
      bc ← commit_utxo (trie_Update st pubkeyHash (enc (zero_account pubkeyHash (rand_sender ch)))) bc;
      Ret (-1, ∅, bc)
  | Some s_state_enc =>
      s_state ← must (dec (A := UTXOAccountState) s_state_enc);
      if uas_Balance s_state <? amount then Ret (0, ∅, bc)
      else
        let s := take_txs ch amount (range_utxos ch (uas_UTXOs s_state)) (mkSpending 0 s_state ∅) in
        bc ← commit_utxo (trie_Update st pubkeyHash (enc (sp_state s))) bc;
        Ret (sp_accumulated s, sp_outputs s, bc)
  end.

(** An account that is not in the trie is added. *)
Definition load_utxo_account (st : Trie) (pk : bytes) (rnd : Z) : res UTXOAccountState :=
  match trie_Get st pk with
  | None => Ret (zero_account pk rnd)
  | Some e => must (dec e)
  end.

Definition add_output (ch : Choices) (TxId : bytes) (st : Trie) (iout : Z * TxOut) : res Trie :=
  let '(index, Vout) := iout in
  s_state ← load_utxo_account st (out_PubKeyHash Vout) (rand_receiver ch index);
  let txid := EncodeToString TxId in
  let UTXO := <[index := out_Value Vout]> (default ∅ (uas_UTXOs s_state !! txid)) in
  let s_state := s_state <| uas_UTXOs ::= <[txid := UTXO]> |>
                         <| uas_Balance ::= fun b => b + out_Value Vout |> in
  Ret (trie_Update st (out_PubKeyHash Vout) (enc s_state)).

Definition AddUTXO2StatusTrie (ch : Choices) (tx : option UTXOTransaction) (bc : BlockChain) :
    res BlockChain :=
  match tx with
  | None => Ret bc
  | Some tx =>
      st ← open_utxo bc;
      st ← foldM (add_output ch (utx_TxId tx)) st (indexed (utx_Vout tx));
      commit_utxo st bc
  end.

(** ** [NewUTXOTransaction] *)

(** The inputs that cite the outputs of one transaction. *)
Definition inputs_of (Pubkey : bytes) (spent : string * list Z) : res (list TxIn) :=
  txID ← must (DecodeString spent.1);
  Ret ((fun outindex => mkTxIn txID outindex "" Pubkey) <$> spent.2).

Definition NewUTXOTransaction (ch : Choices) (from to : string) (amount : Z) (bc : BlockChain) :
    res (option UTXOTransaction * option UTXOTransaction * BlockChain) :=
  let Pubkey := from in
  let SenderPubkeyHash := sha256 Pubkey in
  '(acc, validOutputs, bc) ← FindSpendableOutputsFromStatusTrie ch SenderPubkeyHash amount bc;
  let '(coinbase, acc, validOutputs) :=
    if (acc =? -1) || (acc =? 0) then
      let coinbase := NewCoinbaseTX SenderPubkeyHash amount None (rand_coinbase ch) in
      (Some coinbase, amount, {[ EncodeToString (utx_TxId coinbase) := [0] ]})
    else (None, acc, validOutputs) in
  inputs ← foldM (fun inputs spent => l ← inputs_of Pubkey spent; Ret (inputs ++ l))
             [] (range_spent ch validOutputs);
  let output := mkTxOut amount (sha256 to) in
  let outputs := if amount <? acc then [output; mkTxOut (acc - amount) SenderPubkeyHash] else [output] in
  let tx := mkUTXOTransaction "" inputs outputs 0 0 "" false to in
  let tx := tx <| utx_TxId := UTXO_Hash tx |> in
  let tx := tx <| utx_TxHash := UTXO_Hash tx |> in
  Ret (Some tx, coinbase, bc).

(** ** [TxTransform]: one round of its loop *)
Definition transform_tx (chs : Z -> Choices) (s : BlockChain * list UTXOTransaction)
    (itx : Z * Transaction) : res (BlockChain * list UTXOTransaction) :=
  let '(bc, txs) := s in
  let '(i, InjectTx) := itx in
  '(tx, coinbase, bc) ← NewUTXOTransaction (chs i) (tx_Sender InjectTx) (tx_Recipient InjectTx)
                          (tx_Value InjectTx) bc;
  match coinbase, tx with
  | Some coinbase, Some tx' =>
      bc ← AddUTXO2StatusTrie (chs i) tx bc; Ret (bc, txs ++ [coinbase; tx'])
  | None, Some tx' => bc ← AddUTXO2StatusTrie (chs i) tx bc; Ret (bc, txs ++ [tx'])
  | _, None => Ret (bc, txs)
  end.

Definition TxTransform (chs : Z -> Choices) (now : Z) (bc : BlockChain) : res BlockChain :=
  let '(injectedTxs, pool) := TxPool_PackTxs 200 (bc_Txpool bc) in
  '(bc, txs) ← foldM (transform_tx chs) (bc <| bc_Txpool := pool |>, []) (indexed injectedTxs);
  Ret (bc <| bc_UTXOTxpool ::= UTXOTxPool_AddTxs2Pool now txs |>).
End utxo.
