(* ===== verification/UtxoProps.v ===== *)
(** * UtxoProps: what the UTXO functions do to an account and to the supply *)
From stdpp Require Import base gmap strings list countable.
From Stdlib Require Import ZArith Lia.
From S2P Require Import Prelude GoStd Libs Core Pools StorageDB Chain Ledger Execution UtxoSet.

(** ** The value of a set of outputs *)
Definition lsum (l : list Z) : Z := zsum id l.

Lemma lsum_app l k : lsum (l ++ k) = lsum l + lsum k.
Proof. apply zsum_app. Qed.

Lemma lsum_cons x l : lsum (x :: l) = x + lsum l.
Proof. done. Qed.

Definition outs_value (m : gmap Z Z) : Z := map_fold (fun _ v a => v + a) 0 m.
Definition utxos_value (u : gmap string (gmap Z Z)) : Z := map_fold (fun _ m a => outs_value m + a) 0 u.

(** The value of the output [i] of the transaction [t]. *)
Definition utxo (u : gmap string (gmap Z Z)) (t : string) (i : Z) : option Z := u !! t ≫= (.!! i).

Lemma outs_value_delete m i v : m !! i = Some v -> outs_value m = v + outs_value (delete i m).
Proof.
  intros H. unfold outs_value. rewrite (map_fold_delete_L _ _ i v m); [done| |done].
  intros; lia.
Qed.

Lemma utxos_value_delete u t m : u !! t = Some m -> utxos_value u = outs_value m + utxos_value (delete t u).
Proof.
  intros H. unfold utxos_value. rewrite (map_fold_delete_L _ _ t m u); [done| |done].
  intros; lia.
Qed.

Lemma utxos_value_insert u t m :
  utxos_value (<[t := m]> u) = outs_value m + utxos_value (delete t u).
Proof.
  rewrite (utxos_value_delete _ t m) by apply lookup_insert_eq. by rewrite delete_insert_eq.
Qed.

(** Taking one output out, and putting a new one in. *)
Lemma utxos_value_take u t i v :
  utxo u t i = Some v -> utxos_value u = v + utxos_value (alter (delete i) t u).
Proof.
  intros (m & Hm & Hi)%bind_Some.
  rewrite (utxos_value_delete u t m Hm), (utxos_value_delete (alter _ _ _) t (delete i m)).
  - rewrite (outs_value_delete m i v Hi), delete_alter_eq. lia.
  - by rewrite lookup_alter_eq, Hm.
Qed.

Lemma utxos_value_add u t i v :
  utxo u t i = None -> utxos_value (<[t := <[i := v]> (default ∅ (u !! t))]> u) = utxos_value u + v.
Proof.
  intros H. rewrite utxos_value_insert, (outs_value_delete _ i v) by apply lookup_insert_eq.
  rewrite delete_insert_eq. unfold utxo in H. destruct (u !! t) as [m|] eqn:Hm; cbn in *.
  - rewrite (utxos_value_delete u t m Hm), (delete_id m) by done. lia.
  - rewrite (delete_id u) by done. rewrite delete_id by apply lookup_empty.
    change (outs_value ∅) with 0. lia.
Qed.

Lemma utxos_value_none u : (forall t i, utxo u t i = None) -> utxos_value u = 0.
Proof.
  induction u as [|t m u Ht IH] using map_ind; intros H; [done|].
  rewrite utxos_value_insert, delete_id by done. rewrite IH.
  - assert (Hm : m = ∅); [|by rewrite Hm].
    apply map_empty. intros i. specialize (H t i). unfold utxo in H. by rewrite lookup_insert_eq in H.
  - intros t' i. destruct (decide (t = t')) as [<-|Hne]; [unfold utxo; by rewrite Ht|].
    specialize (H t' i). unfold utxo in *. by rewrite lookup_insert_ne in H.
Qed.

Lemma utxo_alter u t i t' i' :
  utxo (alter (delete i) t u) t' i' = if decide (t = t' /\ i = i') then None else utxo u t' i'.
Proof.
  unfold utxo. destruct (decide (t = t')) as [<-|Ht].
  - rewrite lookup_alter_eq. destruct (u !! t) as [m|]; cbn; [|by case_decide].
    destruct (decide (i = i')) as [<-|].
    + rewrite lookup_delete_eq. by rewrite decide_True.
    + rewrite lookup_delete_ne by done. by rewrite decide_False by tauto.
  - rewrite lookup_alter_ne by done. by rewrite decide_False by tauto.
Qed.

Lemma utxo_insert u t i v t' i' :
  utxo (<[t := <[i := v]> (default ∅ (u !! t))]> u) t' i' =
  if decide (t = t' /\ i = i') then Some v else utxo u t' i'.
Proof.
  unfold utxo. destruct (decide (t = t')) as [<-|Ht].
  - rewrite lookup_insert_eq. cbn. destruct (decide (i = i')) as [<-|].
    + rewrite lookup_insert_eq. by rewrite decide_True.
    + rewrite lookup_insert_ne by done. rewrite decide_False by tauto. by destruct (u !! t).
  - rewrite lookup_insert_ne by done. by rewrite decide_False by tauto.
Qed.

(** ** What [take_output] and the loops around it do

    [spends s s' tk]: the outputs [tk], each with its value, have left the
    account, been accumulated and been listed. *)
Definition Outpoint : Type := (string * Z) * Z.

Record spends (s s' : Spending) (tk : list Outpoint) : Prop := mkSpends {
  ss_acc : sp_accumulated s' = sp_accumulated s + lsum tk.*2;
  ss_bal : uas_Balance (sp_state s') = uas_Balance (sp_state s) - lsum tk.*2;
  ss_value : utxos_value (uas_UTXOs (sp_state s)) = lsum tk.*2 + utxos_value (uas_UTXOs (sp_state s'));
  ss_look : forall t i, utxo (uas_UTXOs (sp_state s')) t i =
    if decide ((t, i) ∈ tk.*1) then None else utxo (uas_UTXOs (sp_state s)) t i;
  ss_keys : forall t, is_Some (uas_UTXOs (sp_state s') !! t) -> is_Some (uas_UTXOs (sp_state s) !! t);
  ss_outs : forall t, default [] (sp_outputs s' !! t) =
    default [] (sp_outputs s !! t) ++ (filter (fun ti : string * Z => ti.1 = t) tk.*1).*2;
  ss_new : forall t, is_Some (sp_outputs s' !! t) -> is_Some (sp_outputs s !! t) \/ t ∈ tk.*1.*1;
  ss_nodup : NoDup tk.*1;
  ss_old : forall t i v, (t, i, v) ∈ tk -> utxo (uas_UTXOs (sp_state s)) t i = Some v }.

Lemma spends_refl s : spends s s [].
Proof. split; cbn; intros; rewrite ?app_nil_r; auto; try lia; [constructor|set_solver]. Qed.

Lemma spends_trans s1 s2 s3 k1 k2 : spends s1 s2 k1 -> spends s2 s3 k2 -> spends s1 s3 (k1 ++ k2).
Proof.
  intros [A1 B1 V1 L1 K1 O1 N1 D1 U1] [A2 B2 V2 L2 K2 O2 N2 D2 U2].
  assert (Hold : forall t i v, ((t, i, v) ∈ k2) -> ((t, i) ∉ k1.*1) /\ utxo (uas_UTXOs (sp_state s1)) t i = Some v).
  { intros t i v H. apply U2 in H. rewrite L1 in H. by case_decide. }
  split.
  - rewrite A2, A1, fmap_app, lsum_app. lia.
  - rewrite B2, B1, fmap_app, lsum_app. lia.
  - rewrite V1, V2, fmap_app, lsum_app. lia.
  - intros t i. rewrite L2, L1, fmap_app. repeat case_decide; set_solver.
  - auto.
  - intros t. rewrite O2, O1, fmap_app, list.filter_app, fmap_app. by rewrite app_assoc.
  - intros t [H|H]%N2; [apply N1 in H as [?|?]|]; rewrite ?fmap_app; set_solver.
  - rewrite fmap_app. apply list.NoDup_app. split_and!; [done| |done].
    intros [t i] H1 ([[t' i'] v] & E & H2)%list_elem_of_fmap. cbn in E. injection E as <- <-.
    destruct (Hold _ _ _ H2) as [Hn _]. by apply Hn.
  - intros t i v [H|H]%elem_of_app; [auto|by destruct (Hold _ _ _ H)].
Qed.

Lemma spends_one txid i v s :
  utxo (uas_UTXOs (sp_state s)) txid i = Some v -> spends s (take_output txid s (i, v)) [(txid, i, v)].
Proof.
  intros H. split; cbn -[filter].
  - lia.
  - lia.
  - rewrite (utxos_value_take _ _ _ _ H). lia.
  - intros t j. rewrite utxo_alter. repeat case_decide; set_solver.
  - intros t. destruct (decide (txid = t)) as [<-|].
    + rewrite lookup_alter_eq. by rewrite fmap_is_Some.
    + by rewrite lookup_alter_ne.
  - intros t. cbn. destruct (decide (txid = t)) as [<-|].
    + by rewrite lookup_insert_eq.
    + rewrite lookup_insert_ne by done. cbn. by rewrite app_nil_r.
  - intros t. destruct (decide (txid = t)) as [<-|]; [set_solver|]. rewrite lookup_insert_ne; auto.
  - apply NoDup_singleton.
  - intros t j w E%list_elem_of_singleton. injection E as -> -> ->. done.
Qed.

Lemma spends_drop txid s : spends s (drop_empty txid s) [].
Proof.
  unfold drop_empty. destruct (size _ =? 0)%nat eqn:E; [|apply spends_refl].
  apply Nat.eqb_eq, map_size_empty_inv in E. split; cbn; intros; rewrite ?app_nil_r; auto; try lia.
  - destruct (uas_UTXOs (sp_state s) !! txid) as [m|] eqn:Em; cbn in E.
    + subst m. rewrite (utxos_value_delete _ _ _ Em). change (outs_value ∅) with 0. cbn. lia.
    + by rewrite delete_id.
  - unfold utxo. destruct (decide (txid = t)) as [<-|].
    + rewrite lookup_delete_eq. destruct (uas_UTXOs (sp_state s) !! txid); cbn in E; [|done].
      subst. cbn. by rewrite lookup_empty.
    + by rewrite lookup_delete_ne.
  - destruct (decide (txid = t)) as [<-|]; [by rewrite lookup_delete_eq in H; destruct H|].
    by rewrite lookup_delete_ne in H.
  - constructor.
  - set_solver.
Qed.

Lemma take_outputs_spec amount txid outs : forall s,
  NoDup outs.*1 -> (forall i v, (i, v) ∈ outs -> utxo (uas_UTXOs (sp_state s)) txid i = Some v) ->
  exists tk, spends s (take_outputs amount txid outs s) tk /\
    (forall ti, ti ∈ tk.*1 -> ti.1 = txid) /\
    (amount < sp_accumulated (take_outputs amount txid outs s) \/ forall i, i ∈ outs.*1 -> (txid, i) ∈ tk.*1).
Proof.
  induction outs as [|[i v] outs IH]; intros s Hnd Hin; cbn [take_outputs].
  - exists []. split; [apply spends_refl|]. split; [set_solver|]. right. set_solver.
  - apply list.NoDup_cons in Hnd as [Hni Hnd].
    assert (H1 := spends_one txid i v s (Hin i v ltac:(left))).
    destruct (Z.ltb_spec amount (sp_accumulated (take_output txid s (i, v)))) as [Hlt|_].
    + exists [(txid, i, v)]. split; [done|]. split; [|by left]. set_solver.
    + destruct (IH (take_output txid s (i, v)) Hnd) as (tk & H2 & H3 & H4).
      { intros j w Hj. rewrite (ss_look _ _ _ H1), decide_False; [apply Hin; by right|].
        cbn. intros [= ->]%list_elem_of_singleton. apply Hni, list_elem_of_fmap. by exists (i, w). }
      exists ([(txid, i, v)] ++ tk). split; [by eapply spends_trans|]. split; [set_solver|].
      destruct H4 as [?|H4]; [by left|]. right. intros j [->|Hj]%elem_of_cons; [left|]. right. by apply H4.
Qed.

(** The iteration orders are permutations of the maps. *)
Record choices_ok (ch : Choices) : Prop := mkChoicesOk {
  co_utxos : forall m, range_utxos ch m ≡ₚ map_to_list m;
  co_outs : forall m, range_outs ch m ≡ₚ map_to_list m;
  co_spent : forall m, range_spent ch m ≡ₚ map_to_list m }.

Lemma take_txs_spec ch amount order : choices_ok ch -> forall s,
  NoDup order.*1 ->
  (forall t m i v, (t, m) ∈ order -> m !! i = Some v -> utxo (uas_UTXOs (sp_state s)) t i = Some v) ->
  exists tk, spends s (take_txs ch amount order s) tk /\
    (amount < sp_accumulated (take_txs ch amount order s) \/
     forall t m i, (t, m) ∈ order -> is_Some (m !! i) -> (t, i) ∈ tk.*1).
Proof.
  intros Hch. induction order as [|[t m] order IH]; intros s Hnd Hin; cbn [take_txs].
  - exists []. split; [apply spends_refl|]. right. set_solver.
  - apply list.NoDup_cons in Hnd as [Hni Hnd].
    assert (Hm : forall i v, (i, v) ∈ range_outs ch m <-> m !! i = Some v).
    { intros i v. by rewrite (co_outs ch Hch m), elem_of_map_to_list. }
    destruct (take_outputs_spec amount t (range_outs ch m) s) as (k1 & H1 & H2 & H3).
    { rewrite (co_outs ch Hch m). apply NoDup_fst_map_to_list. }
    { intros i v Hi%Hm. eapply Hin; [left|done]. }
    pose proof (spends_trans _ _ _ _ _ H1 (spends_drop t _)) as H4. rewrite app_nil_r in H4.
    set (s1 := drop_empty t _) in *.
    assert (Hacc : sp_accumulated s1 = sp_accumulated (take_outputs amount t (range_outs ch m) s)).
    { unfold s1, drop_empty. by case_match. }
    destruct (Z.ltb_spec amount (sp_accumulated s1)) as [Hlt|Hge].
    + exists k1. split; [done|]. by left.
    + destruct (IH s1 Hnd) as (k2 & H5 & H6).
      { intros t' m' i v Hin' Hi. rewrite (ss_look _ _ _ H4), decide_False; [eapply Hin; [by right|done]|].
        intros Ht. apply H2 in Ht. cbn in Ht. subst t'. apply Hni, list_elem_of_fmap. by exists (t, m'). }
      exists (k1 ++ k2). split; [by eapply spends_trans|]. destruct H6 as [?|H6]; [by left|]. right.
      rewrite fmap_app. intros t' m' i [[= -> ->]|Hin']%elem_of_cons [v Hi].
      * destruct H3 as [H3|H3]; [lia|]. apply elem_of_app. left. apply H3, list_elem_of_fmap.
        exists (i, v). split; [done|]. by apply Hm.
      * apply elem_of_app. right. by eapply H6.
Qed.

(** ** Accounts in the status trie *)
Section trie.
Context {TL : TrieLib} {BL : BoltLib} {HL : Sha256} {CC : CoreCodecs}.
Context {TW : TrieLaws TL} {CL : CoreCodecsLaws}.
Implicit Types (bc : BlockChain) (st : Trie) (s : UTXOAccountState).

(** The balance of an account is the sum of its outputs, which are listed
    under the hexadecimal names of their transactions and their positions. *)
Definition wf_account s : Prop :=
  uas_Balance s = utxos_value (uas_UTXOs s) /\
  (forall t, is_Some (uas_UTXOs s !! t) -> exists id, t = EncodeToString id) /\
  (forall t i, is_Some (utxo (uas_UTXOs s) t i) -> 0 <= i).

Definition wf_utrie st : Prop :=
  forall k e, trie_Get st k = Some e -> exists s, dec e = Some s /\ wf_account s.

(** The account of a public key hash; a missing one is empty. *)
Definition account st (k : bytes) : UTXOAccountState :=
  match trie_Get st k with
  | None => zero_account k 0
  | Some e => default (zero_account k 0) (dec e)
  end.

Definition ubal st : ledger := fun k => uas_Balance (account st k).

Lemma account_update_eq st k s : account (trie_Update st k (enc s)) k = s.
Proof. unfold account. by rewrite get_update_eq, dec_enc by apply enc_nonempty. Qed.
Lemma account_update_ne st k k' s : k <> k' -> account (trie_Update st k (enc s)) k' = account st k'.
Proof. intros H. unfold account. by rewrite get_update_ne. Qed.

Lemma account_same st st' k : same_content st st' -> account st k = account st' k.
Proof. intros H. unfold account. by rewrite H. Qed.

Lemma wf_utrie_same st st' : same_content st st' -> wf_utrie st -> wf_utrie st'.
Proof. intros H Hwf k e. rewrite <- H. apply Hwf. Qed.

Lemma wf_zero k r : wf_account (zero_account k r).
Proof.
  split; [done|]. split; [intros t [x H]|intros t i [x H]]; cbn in H; unfold utxo in H;
    by rewrite lookup_empty in H.
Qed.

Lemma wf_utrie_account st k : wf_utrie st -> wf_account (account st k).
Proof.
  intros Hwf. unfold account. destruct (trie_Get st k) as [e|] eqn:E; [|apply wf_zero].
  destruct (Hwf k e E) as (s & Hs & Hw). by rewrite Hs.
Qed.

Lemma wf_utrie_update st k s : wf_utrie st -> wf_account s -> wf_utrie (trie_Update st k (enc s)).
Proof.
  intros Hwf Hs k' e. destruct (decide (k = k')) as [<-|Hne].
  - rewrite get_update_eq by apply enc_nonempty. intros [= <-]. exists s. by rewrite dec_enc.
  - rewrite get_update_ne by done. apply Hwf.
Qed.

Lemma ubal_update st k s : ledger_eq (ubal (trie_Update st k (enc s))) (upd (ubal st) k (uas_Balance s)).
Proof.
  intros k'. unfold ubal, upd. case_decide as E; subst.
  - by rewrite account_update_eq.
  - by rewrite account_update_ne by done.
Qed.

Lemma ubal_same st st' : same_content st st' -> ledger_eq (ubal st) (ubal st').
Proof. intros H k. unfold ubal. by rewrite (account_same st st'). Qed.

Lemma load_utxo_account_ok st k r :
  wf_utrie st -> exists s, load_utxo_account st k r = Ret s /\
    uas_Balance s = ubal st k /\ uas_UTXOs s = uas_UTXOs (account st k).
Proof.
  intros Hwf. unfold load_utxo_account, ubal, account. destruct (trie_Get st k) as [e|] eqn:E.
  - destruct (Hwf k e E) as (s & Hs & _). rewrite Hs. by exists s.
  - by eexists.
Qed.

(** Opening and committing. *)
Lemma open_utxo_opened bc st : open_utxo bc = Ret st -> exists td, bc_triedb bc = Some td /\ opened st td.
Proof.
  unfold open_utxo. intros H. inv_res. eexists. split; [done|]. by eapply opened_New.
Qed.

Lemma commit_utxo_ok {LV : TrieLive TL} bc st td :
  bc_triedb bc = Some td -> opened st td ->
  exists bc' st', commit_utxo st bc = Ret bc' /\ open_utxo bc' = Ret st' /\ same_content st st' /\
    bc' = bc <| bc_triedb := bc_triedb bc' |> <| bc_UTXOStateRoot := bc_UTXOStateRoot bc' |>.
Proof.
  intros Htd Ho. unfold commit_utxo. pose proof (commit_hash st) as Hh.
  destruct (trie_update_ok st td Ho) as [d1 H1]. destruct (trie_Commit st) as [rt ns] eqn:Ec.
  cbn in Hh, H1. subst rt. destruct (trie_commit_ok d1 (trie_Hash st)) as [d2 H2].
  rewrite Htd. cbn [must mbind res_bind]. rewrite H1. cbn [must mbind res_bind]. rewrite H2.
  cbn [must mbind res_bind].
  destruct (commit_all st td d1 (trie_Hash st) d2) as (t' & Ht' & Hs'); [done|by rewrite Ec|done|].
  eexists _, t'. split; [done|]. split; [|split; [by symmetry|done]].
  unfold open_utxo. cbn. by rewrite root_hash, Ht'.
Qed.

(** ** Spending from the status trie *)
Lemma spend_account ch amount s :
  choices_ok ch -> wf_account s -> amount <= uas_Balance s ->
  exists tk, let s' := take_txs ch amount (range_utxos ch (uas_UTXOs s)) (mkSpending 0 s ∅) in
    spends (mkSpending 0 s ∅) s' tk /\ wf_account (sp_state s') /\ amount <= sp_accumulated s'.
Proof.
  intros Hch (Hbal & Hkeys & Hidx) Ham.
  destruct (take_txs_spec ch amount (range_utxos ch (uas_UTXOs s)) Hch (mkSpending 0 s ∅)) as (tk & H1 & H2).
  { rewrite (co_utxos ch Hch). apply NoDup_fst_map_to_list. }
  { intros t m i v Hin Hi. rewrite (co_utxos ch Hch), elem_of_map_to_list in Hin.
    unfold utxo. cbn. by rewrite Hin. }
  exists tk. cbv zeta. split; [done|].
  destruct H1 as [A B V L K O N D U]. cbn in A, B, V, K, L. split; [split; [|split]|].
  - lia.
  - intros t Ht. by apply Hkeys, K.
  - intros t i. rewrite L. case_decide; [by intros [? ?]|apply Hidx].
  - destruct H2 as [H2|H2]; [lia|].
    rewrite (utxos_value_none (uas_UTXOs (sp_state (take_txs _ _ _ _)))) in V; [lia|].
    intros t i. rewrite L. case_decide as Hd; [done|].
    unfold utxo. destruct (uas_UTXOs s !! t) as [m|] eqn:Em; [|done]. cbn.
    destruct (m !! i) as [v|] eqn:Ei; [|done]. destruct Hd. apply (H2 t m i); [|by eexists].
    by rewrite (co_utxos ch Hch), elem_of_map_to_list.
Qed.

(** A commit changes nothing else of the chain. *)
Definition same_but_utxo bc bc' : Prop :=
  bc' = bc <| bc_triedb := bc_triedb bc' |> <| bc_UTXOStateRoot := bc_UTXOStateRoot bc' |>.

Context {LV : TrieLive TL}.

Lemma store_account bc st k s :
  open_utxo bc = Ret st -> wf_utrie st -> wf_account s ->
  exists bc' st', commit_utxo (trie_Update st k (enc s)) bc = Ret bc' /\ open_utxo bc' = Ret st' /\
    wf_utrie st' /\ same_but_utxo bc bc' /\
    account st' k = s /\ (forall k', k <> k' -> account st' k' = account st k').
Proof.
  intros Ho Hwf Hs. destruct (open_utxo_opened _ _ Ho) as (td & Htd & Hop).
  destruct (commit_utxo_ok bc (trie_Update st k (enc s)) td Htd) as (bc' & st' & H1 & H2 & H3 & H4);
    [by apply opened_Update|].
  exists bc', st'. split; [done|]. split; [done|].
  split; [eapply wf_utrie_same; [exact H3|]; by apply wf_utrie_update|]. split; [done|]. split.
  - by rewrite <- (account_same _ _ k H3), account_update_eq.
  - intros k' Hk. by rewrite <- (account_same _ _ k' H3), account_update_ne.
Qed.

Lemma find_funded ch k amount bc st :
  choices_ok ch -> open_utxo bc = Ret st -> wf_utrie st -> 0 < amount <= ubal st k ->
  exists sp tk bc' st',
    FindSpendableOutputsFromStatusTrie ch k amount bc = Ret (sp_accumulated sp, sp_outputs sp, bc') /\
    spends (mkSpending 0 (account st k) ∅) sp tk /\ amount <= sp_accumulated sp /\
    open_utxo bc' = Ret st' /\ wf_utrie st' /\ same_but_utxo bc bc' /\
    account st' k = sp_state sp /\ (forall k', k <> k' -> account st' k' = account st k').
Proof.
  intros Hch Ho Hwf [Ha1 Ha2]. unfold FindSpendableOutputsFromStatusTrie. rewrite Ho. cbn [mbind res_bind].
  pose proof (wf_utrie_account st k Hwf) as Hw.
  destruct (spend_account ch amount (account st k) Hch Hw Ha2) as (tk & H1 & H2 & H3).
  destruct (trie_Get st k) as [e|] eqn:E.
  - destruct (Hwf k e E) as (s & Hs & _). rewrite Hs. cbn [must mbind res_bind].
    assert (Hacc : account st k = s) by (unfold account; by rewrite E, Hs). rewrite Hacc in *.
    unfold ubal in Ha2. rewrite Hacc in Ha2. destruct (Z.ltb_spec (uas_Balance s) amount) as [?|_]; [lia|].
    destruct (store_account bc st k (sp_state (take_txs ch amount (range_utxos ch (uas_UTXOs s))
      (mkSpending 0 s ∅)))) as (bc' & st' & G1 & G2 & G3 & G4 & G5 & G6); [done..|].
    rewrite G1. cbn [mbind res_bind]. by exists (take_txs ch amount (range_utxos ch (uas_UTXOs s)) (mkSpending 0 s ∅)), tk, bc', st'.
  - unfold ubal, account in Ha2. rewrite E in Ha2. cbn in Ha2. lia.
Qed.

Lemma find_unfunded ch k amount bc st :
  open_utxo bc = Ret st -> wf_utrie st -> ubal st k < amount ->
  exists acc bc' st',
    FindSpendableOutputsFromStatusTrie ch k amount bc = Ret (acc, ∅, bc') /\ (acc =? -1) || (acc =? 0) = true /\
    open_utxo bc' = Ret st' /\ wf_utrie st' /\ same_but_utxo bc bc' /\
    (forall k', uas_UTXOs (account st' k') = uas_UTXOs (account st k')) /\ ledger_eq (ubal st') (ubal st).
Proof.
  intros Ho Hwf Ha. unfold FindSpendableOutputsFromStatusTrie. rewrite Ho. cbn [mbind res_bind].
  destruct (trie_Get st k) as [e|] eqn:E.
  - destruct (Hwf k e E) as (s & Hs & _). rewrite Hs. cbn [must mbind res_bind].
    unfold ubal, account in Ha. rewrite E, Hs in Ha. cbn in Ha.
    destruct (Z.ltb_spec (uas_Balance s) amount) as [_|?]; [|lia].
    exists 0, bc, st. split_and!; try done. by destruct bc.
  - destruct (store_account bc st k (zero_account k (rand_sender ch)))
      as (bc' & st' & G1 & G2 & G3 & G4 & G5 & G6); [done..|apply wf_zero|].
    rewrite G1. cbn [mbind res_bind]. exists (-1), bc', st'.
    assert (Hk : forall k', uas_UTXOs (account st' k') = uas_UTXOs (account st k') /\ ubal st' k' = ubal st k').
    { intros k'. unfold ubal. destruct (decide (k = k')) as [<-|Hne]; [|by rewrite (G6 k' Hne)].
      rewrite G5. unfold account. by rewrite E. }
    split_and!; try done; intros k'; apply Hk.
Qed.

(** ** The inputs *)
Definition outpoint (vin : TxIn) : string * Z := (EncodeToString (in_PrevTxId vin), in_Index vin).

Lemma inputs_loop Pubkey (order : list (string * list Z)) : forall l,
  (forall t, t ∈ order.*1 -> exists id, t = EncodeToString id) ->
  exists inputs,
    foldM (fun inputs spent => l ← inputs_of Pubkey spent; Ret (inputs ++ l)) l order = Ret (l ++ inputs) /\
    outpoint <$> inputs = order ≫= (fun spent => pair spent.1 <$> spent.2) /\
    Forall (fun vin => in_PubKey vin = Pubkey) inputs.
Proof.
  induction order as [|[t ids] order IH]; intros l Ht.
  - exists []. cbn. by rewrite app_nil_r.
  - destruct (Ht t) as [id ->]; [left|]. cbn [foldM].
    assert (Hin : inputs_of Pubkey (EncodeToString id, ids)
      = Ret ((fun outindex => mkTxIn id outindex "" Pubkey) <$> ids)).
    { unfold inputs_of. cbn [fst snd]. by rewrite DecodeString_EncodeToString. }
    rewrite Hin. cbn [mbind res_bind].
    destruct (IH (l ++ ((fun outindex => mkTxIn id outindex "" Pubkey) <$> ids))) as (inputs & -> & H1 & H2).
    { intros t' Ht'. apply Ht. by right. }
    eexists. rewrite <- app_assoc. split; [done|]. rewrite fmap_app, H1, bind_cons. cbn [fst snd].
    split.
    + f_equal. rewrite <- list_fmap_compose. done.
    + apply Forall_app. split; [|done]. apply list.Forall_fmap, list.Forall_forall. done.
Qed.

Lemma inputs_spec ch Pubkey (outs : gmap string (list Z)) (tk : list (string * Z)) :
  choices_ok ch -> (forall t, default [] (outs !! t) = (filter (fun ti : string * Z => ti.1 = t) tk).*2) ->
  (forall t, is_Some (outs !! t) -> exists id, t = EncodeToString id) ->
  exists inputs,
    foldM (fun inputs spent => l ← inputs_of Pubkey spent; Ret (inputs ++ l)) [] (range_spent ch outs) = Ret inputs /\
    outpoint <$> inputs ≡ₚ tk /\ Forall (fun vin => in_PubKey vin = Pubkey) inputs.
Proof.
  intros Hch Htk Hkeys.
  assert (Hin : forall t ids, (t, ids) ∈ range_spent ch outs <-> outs !! t = Some ids).
  { intros t ids. by rewrite (co_spent ch Hch), elem_of_map_to_list. }
  destruct (inputs_loop Pubkey (range_spent ch outs) []) as (inputs & H1 & H2 & H3).
  { intros t ([t' ids] & -> & H)%list_elem_of_fmap. apply Hkeys. apply Hin in H. by eexists. }
  exists inputs. split; [done|]. split; [|done]. rewrite H2.
  assert (Hb : range_spent ch outs ≫= (fun spent => pair spent.1 <$> spent.2)
    = (range_spent ch outs).*1 ≫= fun k => filter (fun x : string * Z => x.1 = k) tk).
  { rewrite list_fmap_bind. apply list_bind_ext_in. intros [t ids] Hti.
    apply Hin in Hti. specialize (Htk t). rewrite Hti in Htk. cbn [default from_option id] in Htk.
    cbn [fst snd compose]. rewrite Htk, <- list_fmap_compose.
    rewrite <- (list_fmap_id (filter _ tk)) at 2.
    apply list_fmap_ext. intros i [t' j] Hl. apply list_elem_of_lookup_2, list_elem_of_filter in Hl as [Hl _].
    cbn in *. by subst. }
  rewrite Hb. symmetry. etransitivity; [apply (bucket_perm fst (range_spent ch outs).*1 tk)|].
  - rewrite (co_spent ch Hch). apply NoDup_fst_map_to_list.
  - rewrite (filter_none (fun x : string * Z => x.1 ∉ (range_spent ch outs).*1) tk), app_nil_r; [done|].
    intros [t i] Hti Hn. apply Hn. cbn. specialize (Htk t). destruct (outs !! t) as [ids|] eqn:E.
    + apply list_elem_of_fmap. exists (t, ids). split; [done|]. by apply Hin.
    + cbn in Htk. assert (Hi : i ∈ (filter (fun ti : string * Z => ti.1 = t) tk).*2).
      { apply list_elem_of_fmap. exists (t, i). split; [done|]. by apply list_elem_of_filter. }
      rewrite <- Htk in Hi. by apply not_elem_of_nil in Hi.
Qed.

Definition vout_sum (tx : UTXOTransaction) : Z := lsum (out_Value <$> utx_Vout tx).

(** The output of the account [k] an input cites. *)
Definition cited st (k : bytes) (vin : TxIn) : option Z :=
  utxo (uas_UTXOs (account st k)) (EncodeToString (in_PrevTxId vin)) (in_Index vin).

(** The inputs [vins] spend outputs of [k] that are unspent in [st], each
    once and of total value [v], and [st'] is [st] without them. *)
Definition spent_by st st' (k : bytes) (vins : list TxIn) (v : Z) : Prop :=
  (exists vs, Forall2 (fun vin x => cited st k vin = Some x) vins vs /\ lsum vs = v) /\
  NoDup (outpoint <$> vins) /\
  (forall t i, utxo (uas_UTXOs (account st' k)) t i =
     if decide ((t, i) ∈ outpoint <$> vins) then None else utxo (uas_UTXOs (account st k)) t i) /\
  (forall k', k <> k' -> account st' k' = account st k') /\
  ledger_eq (ubal st') (upd (ubal st) k (ubal st k - v)).

Lemma lsum_perm l k : l ≡ₚ k -> lsum l = lsum k.
Proof. apply zsum_perm. Qed.

(** Values read back along the outpoints. *)
Lemma cited_values st k (tk : list Outpoint) vins :
  (forall t i v, (t, i, v) ∈ tk -> utxo (uas_UTXOs (account st k)) t i = Some v) ->
  outpoint <$> vins ≡ₚ tk.*1 ->
  exists vs, Forall2 (fun vin x => cited st k vin = Some x) vins vs /\ lsum vs = lsum tk.*2.
Proof.
  intros Htk Hperm. set (f := fun ti : string * Z => default 0 (utxo (uas_UTXOs (account st k)) ti.1 ti.2)).
  exists (f <$> (outpoint <$> vins)). split.
  - rewrite <- list_fmap_compose. apply Forall2_fmap_r, Forall_Forall2_diag, list.Forall_forall. intros vin Hvin.
    assert (Hin : outpoint vin ∈ tk.*1) by (rewrite <- Hperm; by apply list_elem_of_fmap_2).
    apply list_elem_of_fmap in Hin as ([[t i] v] & E & Hin). cbn in E.
    unfold cited, f. cbn. injection E as -> ->. by rewrite (Htk t i v Hin).
  - rewrite (lsum_perm _ (f <$> tk.*1)) by (by rewrite Hperm). f_equal. rewrite <- list_fmap_compose.
    apply list_fmap_ext. intros j [[t i] v] Hj. apply list_elem_of_lookup_2 in Hj. unfold f. cbn.
    by rewrite (Htk t i v Hj).
Qed.

Lemma NewUTXO_funded ch from to amount bc st :
  choices_ok ch -> open_utxo bc = Ret st -> wf_utrie st -> 0 < amount <= ubal st (sha256 from) ->
  exists tx bc' st', NewUTXOTransaction ch from to amount bc = Ret (Some tx, None, bc') /\
    open_utxo bc' = Ret st' /\ wf_utrie st' /\ same_but_utxo bc bc' /\ utx_Recipient tx = to /\
    utx_Vout tx !! 0%nat = Some (mkTxOut amount (sha256 to)) /\
    Forall (fun out => out_PubKeyHash out ∈ [sha256 from; sha256 to]) (utx_Vout tx) /\
    Forall (fun vin => in_PubKey vin = from) (utx_Vin tx) /\
    spent_by st st' (sha256 from) (utx_Vin tx) (vout_sum tx).
Proof.
  intros Hch Ho Hwf Ha.
  destruct (find_funded ch (sha256 from) amount bc st Hch Ho Hwf Ha)
    as (sp & tk & bc' & st' & H1 & [A B V L K O N D U] & H2 & H3 & H4 & H5 & H6 & H7).
  cbn in A, B, V, L, K, U. destruct (wf_utrie_account st (sha256 from) Hwf) as (Hbal & Hkeys & _).
  destruct (inputs_spec ch from (sp_outputs sp) tk.*1 Hch) as (inputs & I1 & I2 & I3).
  { intros t. rewrite O. cbn. by rewrite lookup_empty. }
  { intros t Ht. apply N in Ht as [Ht|Ht]; [cbn in Ht; rewrite lookup_empty in Ht; by destruct Ht|].
    apply Hkeys. apply list_elem_of_fmap in Ht as ([t' i] & -> & Ht).
    apply list_elem_of_fmap in Ht as ([[t i'] v] & E & Ht). injection E as -> ->. cbn.
    apply U in Ht. unfold utxo in Ht. destruct (_ !! t); [by eexists|done]. }
  unfold NewUTXOTransaction. rewrite H1. cbn [mbind res_bind].
  destruct (Z.eqb_spec (sp_accumulated sp) (-1)); [lia|]. destruct (Z.eqb_spec (sp_accumulated sp) 0); [lia|].
  cbn [orb]. rewrite I1. cbn [mbind res_bind].
  eexists _, bc', st'. split; [reflexivity|]. split; [done|]. split; [done|]. split; [done|].
  cbn [utx_Vin utx_Vout utx_Recipient set_field UTXOTransaction_eta].
  match goal with |- context [vout_sum ?tx] => assert (Hsum : vout_sum tx = lsum tk.*2) end.
  { unfold vout_sum. cbn. destruct (Z.ltb_spec amount (sp_accumulated sp)); cbn; lia. }
  rewrite Hsum. split; [done|]. split; [by case_match|].
  split; [case_match; repeat apply list.Forall_cons_2; cbn; by repeat constructor|]. split; [done|].
  split; [by apply cited_values|]. split; [by rewrite I2|]. split; [|split; [done|]].
  - intros t i. cbn. rewrite H6, L. apply decide_ext. by rewrite I2.
  - intros k. unfold upd, ubal. case_decide as Hk; [subst k; rewrite H6, B; done|by rewrite H7].
Qed.

Lemma NewUTXO_unfunded ch from to amount bc st :
  choices_ok ch -> open_utxo bc = Ret st -> wf_utrie st -> ubal st (sha256 from) < amount ->
  let cb := NewCoinbaseTX (sha256 from) amount None (rand_coinbase ch) in
  exists tx bc' st', NewUTXOTransaction ch from to amount bc = Ret (Some tx, Some cb, bc') /\
    open_utxo bc' = Ret st' /\ wf_utrie st' /\ same_but_utxo bc bc' /\ utx_Recipient tx = to /\
    utx_Vout tx = [mkTxOut amount (sha256 to)] /\ utx_Vin tx = [mkTxIn (utx_TxId cb) 0 "" from] /\
    (forall k, uas_UTXOs (account st' k) = uas_UTXOs (account st k)) /\ ledger_eq (ubal st') (ubal st).
Proof.
  intros Hch Ho Hwf Ha cb. destruct (find_unfunded ch (sha256 from) amount bc st Ho Hwf Ha)
    as (acc & bc' & st' & H1 & Hacc & H2 & H3 & H4 & H5 & H6).
  unfold NewUTXOTransaction. rewrite H1. cbn [mbind res_bind]. rewrite Hacc. fold cb.
  assert (Hr : range_spent ch {[EncodeToString (utx_TxId cb) := [0]]} = [(EncodeToString (utx_TxId cb), [0])]).
  { apply Permutation_length_1_inv. symmetry. rewrite (co_spent ch Hch). by rewrite map_to_list_singleton. }
  rewrite Hr. cbn [foldM]. unfold inputs_of. cbn [fst snd]. rewrite DecodeString_EncodeToString.
  cbn [must mbind res_bind app fmap list_fmap]. rewrite Z.ltb_irrefl.
  eexists _, bc', st'. split; [reflexivity|]. by split_and!.
Qed.

(** C30: a UTXO transaction is balanced.  Asked to
    send [amount > 0], whatever the order in which the maps are visited: when
    the sender's account holds at least [amount], the new transaction spends
    unspent outputs of the sender, each once, its outputs (the payment first,
    then the change) add up to exactly what it spends, and exactly these
    outputs leave the sender's account; otherwise a coinbase transaction of
    [amount] is minted for the sender, the new transaction spends it and
    nothing else, and no account changes.  Accounts stay well-formed. *)
Theorem NewUTXOTransaction_balanced ch from to amount bc st :
  choices_ok ch -> open_utxo bc = Ret st -> wf_utrie st -> 0 < amount ->
  exists tx cb bc' st', NewUTXOTransaction ch from to amount bc = Ret (Some tx, cb, bc') /\
    open_utxo bc' = Ret st' /\ wf_utrie st' /\ utx_Recipient tx = to /\
    utx_Vout tx !! 0%nat = Some (mkTxOut amount (sha256 to)) /\
    match cb with
    | None => amount <= ubal st (sha256 from) /\
        Forall (fun vin => in_PubKey vin = from) (utx_Vin tx) /\
        spent_by st st' (sha256 from) (utx_Vin tx) (vout_sum tx)
    | Some c => ubal st (sha256 from) < amount /\
        utx_Vout c = [mkTxOut amount (sha256 from)] /\ IsCoinbase c = true /\
        utx_Vin tx = [mkTxIn (utx_TxId c) 0 "" from] /\ vout_sum tx = vout_sum c /\
        (forall k, uas_UTXOs (account st' k) = uas_UTXOs (account st k)) /\ ledger_eq (ubal st') (ubal st)
    end.
Proof.
  intros Hch Ho Hwf Ha. destruct (Z.le_gt_cases amount (ubal st (sha256 from))) as [Hle|Hgt].
  - destruct (NewUTXO_funded ch from to amount bc st Hch Ho Hwf (conj Ha Hle))
      as (tx & bc' & st' & H1 & H2 & H3 & _ & H4 & H5 & _ & H6 & H7).
    by exists tx, None, bc', st'.
  - destruct (NewUTXO_unfunded ch from to amount bc st Hch Ho Hwf Hgt)
      as (tx & bc' & st' & H1 & H2 & H3 & _ & H4 & H5 & H6 & H7 & H8).
    eexists tx, (Some _), bc', st'. split; [exact H1|]. split; [done|]. split; [done|].
    split; [done|]. split; [by rewrite H5|]. split; [done|]. rewrite NewCoinbaseTX_Vout.
    split; [done|]. split; [apply NewCoinbaseTX_IsCoinbase|]. split; [done|].
    split; [|done]. unfold vout_sum. by rewrite H5, NewCoinbaseTX_Vout.
Qed.

(** ** Adding a transaction's outputs *)
Definition credit (l : ledger) (out : TxOut) : ledger :=
  upd l (out_PubKeyHash out) (l (out_PubKeyHash out) + out_Value out).
Definition credit_all (l : ledger) (outs : list TxOut) : ledger := foldl credit l outs.

#[local] Instance credit_proper : Proper (ledger_eq ==> (=) ==> ledger_eq) credit.
Proof. intros l1 l2 H out ? <- k. unfold credit, upd. case_decide; rewrite H; done. Qed.

Lemma credit_all_proper outs l1 l2 : ledger_eq l1 l2 -> ledger_eq (credit_all l1 outs) (credit_all l2 outs).
Proof. revert l1 l2. induction outs as [|o outs IH]; intros l1 l2 H; [done|]. cbn. apply IH. by rewrite H. Qed.

Lemma total_credit_all addrs outs : forall l, NoDup addrs ->
  Forall (fun out => out_PubKeyHash out ∈ addrs) outs ->
  total (credit_all l outs) addrs = total l addrs + lsum (out_Value <$> outs).
Proof.
  induction outs as [|o outs IH]; intros l Hnd Hall; [cbn; lia|].
  apply list.Forall_cons in Hall as [Ho Hall]. cbn [credit_all foldl fmap list_fmap].
  change (foldl credit (credit l o) outs) with (credit_all (credit l o) outs).
  rewrite IH by done. unfold credit. rewrite total_upd by done. rewrite lsum_cons. lia.
Qed.

(** Position [n] and the following ones of the transaction [id] are free. *)
Definition free_from st (id : bytes) (n : Z) : Prop :=
  forall k i, n <= i -> utxo (uas_UTXOs (account st k)) (EncodeToString id) i = None.

Definition fresh st (id : bytes) : Prop :=
  forall k, uas_UTXOs (account st k) !! EncodeToString id = None.

Lemma wf_account_add s id i v :
  wf_account s -> 0 <= i -> utxo (uas_UTXOs s) (EncodeToString id) i = None ->
  wf_account (s
    <| uas_UTXOs ::= <[EncodeToString id := <[i := v]> (default ∅ (uas_UTXOs s !! EncodeToString id))]> |>
    <| uas_Balance ::= fun b => b + v |>).
Proof.
  intros (H1 & H2 & H3) Hi Hn. split; [|split]; cbn.
  - rewrite utxos_value_add by done. lia.
  - intros t. destruct (decide (EncodeToString id = t)) as [<-|]; [by eexists|].
    rewrite lookup_insert_ne by done. apply H2.
  - intros t j. rewrite utxo_insert. case_decide as E; [by destruct E as [_ <-]|apply H3].
Qed.

Lemma add_output_spec ch id st i out td :
  wf_utrie st -> opened st td -> 0 <= i -> free_from st id i ->
  exists st', add_output ch id st (i, out) = Ret st' /\ wf_utrie st' /\ opened st' td /\
    free_from st' id (i + 1) /\ ledger_eq (ubal st') (credit (ubal st) out).
Proof.
  intros Hwf Ho Hi Hfree. unfold add_output. set (k := out_PubKeyHash out).
  assert (Hs : exists s, load_utxo_account st k (rand_receiver ch i) = Ret s /\ wf_account s /\
    uas_Balance s = ubal st k /\ uas_UTXOs s = uas_UTXOs (account st k)).
  { destruct (load_utxo_account_ok st k (rand_receiver ch i) Hwf) as (s & H1 & H2 & H3).
    exists s. split; [done|]. split; [|done]. destruct (wf_utrie_account st k Hwf) as (W1 & W2 & W3).
    unfold wf_account. rewrite H3, H2. done. }
  destruct Hs as (s & Hl & Hw & Hb & Hu). rewrite Hl. cbn [mbind res_bind].
  eexists. split; [reflexivity|]. split; [apply wf_utrie_update; [done|]|].
  { apply wf_account_add; [done..|]. rewrite Hu. apply Hfree. lia. }
  split; [by apply opened_Update|]. split.
  - intros k' j Hj. destruct (decide (k = k')) as [<-|Hne].
    + rewrite account_update_eq. cbn. rewrite utxo_insert, decide_False by (intros [_ ?]; lia).
      rewrite Hu. apply Hfree. lia.
    + rewrite account_update_ne by done. apply Hfree. lia.
  - rewrite ubal_update. cbn. rewrite Hb. done.
Qed.

Lemma add_outputs_spec ch id td outs : forall n st,
  wf_utrie st -> opened st td -> free_from st id (Z.of_nat n) ->
  exists st', foldM (add_output ch id) st (imap (fun i x => (Z.of_nat (n + i), x)) outs) = Ret st' /\
    wf_utrie st' /\ opened st' td /\ ledger_eq (ubal st') (credit_all (ubal st) outs).
Proof.
  induction outs as [|o outs IH]; intros n st Hwf Ho Hf; [by exists st|].
  cbn [imap foldM]. rewrite Nat.add_0_r.
  destruct (add_output_spec ch id st (Z.of_nat n) o td) as (st1 & -> & W1 & O1 & F1 & L1); [done..|lia|done|].
  cbn [mbind res_bind]. destruct (IH (S n) st1) as (st' & H1 & W2 & O2 & L2); [done..| |].
  { by replace (Z.of_nat (S n)) with (Z.of_nat n + 1) by lia. }
  exists st'. split.
  - rewrite <- H1. f_equal. apply imap_ext. intros i x _. cbn. do 2 f_equal. lia.
  - split; [done|]. split; [done|]. rewrite L2.
    change (credit_all (ubal st) (o :: outs)) with (credit_all (credit (ubal st) o) outs).
    by apply credit_all_proper.
Qed.

Lemma AddUTXO_spec ch tx bc st :
  open_utxo bc = Ret st -> wf_utrie st -> fresh st (utx_TxId tx) ->
  exists bc' st', AddUTXO2StatusTrie ch (Some tx) bc = Ret bc' /\ open_utxo bc' = Ret st' /\
    wf_utrie st' /\ same_but_utxo bc bc' /\ ledger_eq (ubal st') (credit_all (ubal st) (utx_Vout tx)).
Proof.
  intros Ho Hwf Hf. unfold AddUTXO2StatusTrie. rewrite Ho. cbn [mbind res_bind].
  destruct (open_utxo_opened _ _ Ho) as (td & Htd & Hop).
  destruct (add_outputs_spec ch (utx_TxId tx) td (utx_Vout tx) 0 st) as (st1 & H1 & W1 & O1 & L1); [done..| |].
  { intros k i _. unfold utxo. by rewrite Hf. }
  change (indexed (utx_Vout tx)) with (imap (fun i x => (Z.of_nat (0 + i), x)) (utx_Vout tx)).
  rewrite H1. cbn [mbind res_bind].
  destruct (commit_utxo_ok bc st1 td Htd O1) as (bc' & st' & C1 & C2 & C3 & C4).
  exists bc', st'. split; [done|]. split; [done|]. split; [by eapply wf_utrie_same|]. split; [done|].
  by rewrite <- (ubal_same _ _ C3).
Qed.

(** ** The transformation of injected transactions *)
Definition minted (txs : list UTXOTransaction) : Z :=
  lsum (vout_sum <$> filter (fun tx => IsCoinbase tx = true) txs).
Definition payments (txs : list UTXOTransaction) : list string :=
  utx_Recipient <$> filter (fun tx => IsCoinbase tx <> true) txs.

Lemma minted_app l k : minted (l ++ k) = minted l + minted k.
Proof. unfold minted. by rewrite list.filter_app, fmap_app, lsum_app. Qed.
Lemma payments_app l k : payments (l ++ k) = payments l ++ payments k.
Proof. unfold payments. by rewrite list.filter_app, fmap_app. Qed.

Lemma minted_cons tx l : minted (tx :: l) = (if IsCoinbase tx then vout_sum tx else 0) + minted l.
Proof.
  unfold minted. rewrite filter_cons. destruct (IsCoinbase tx).
  - by rewrite decide_True.
  - by rewrite decide_False.
Qed.
Lemma payments_cons tx l :
  payments (tx :: l) = (if IsCoinbase tx then [] else [utx_Recipient tx]) ++ payments l.
Proof.
  unfold payments. rewrite filter_cons. destruct (IsCoinbase tx).
  - by rewrite decide_False by tauto.
  - by rewrite decide_True.
Qed.

(** The id of a new transaction is not the id of one whose outputs are kept. *)
Definition fresh_id chs bc (itx : Z * Transaction) : Prop :=
  forall tx cb bc1 st1,
    NewUTXOTransaction (chs itx.1) (tx_Sender itx.2) (tx_Recipient itx.2) (tx_Value itx.2) bc
      = Ret (Some tx, cb, bc1) ->
    open_utxo bc1 = Ret st1 -> fresh st1 (utx_TxId tx).

Fixpoint fresh_along chs bc (itxs : list (Z * Transaction)) : Prop :=
  match itxs with
  | [] => True
  | itx :: itxs => fresh_id chs bc itx /\
      forall txs bc' txs', transform_tx chs (bc, txs) itx = Ret (bc', txs') -> fresh_along chs bc' itxs
  end.

Definition tx_ok (addrs : list bytes) (tx : Transaction) : Prop :=
  0 < tx_Value tx /\ sha256 (tx_Sender tx) ∈ addrs /\ sha256 (tx_Recipient tx) ∈ addrs.

Lemma same_but_utxo_trans bc1 bc2 bc3 : same_but_utxo bc1 bc2 -> same_but_utxo bc2 bc3 -> same_but_utxo bc1 bc3.
Proof. unfold same_but_utxo. intros -> ->. by destruct bc1. Qed.

(** An input that cites an output of a well-formed account is not that of a coinbase. *)
Lemma spent_not_coinbase st st' k tx v :
  wf_utrie st -> spent_by st st' k (utx_Vin tx) v -> IsCoinbase tx = false.
Proof.
  intros Hwf ((vs & Hvs & _) & _). unfold IsCoinbase.
  destruct (utx_Vin tx) as [|vin [|? ?]]; [done| |done].
  inversion Hvs as [|? x ? ? Hc _]; subst. destruct (wf_utrie_account st k Hwf) as (_ & _ & Hidx).
  assert (0 <= in_Index vin) by (eapply Hidx; eexists; exact Hc).
  destruct (Z.eqb_spec (in_Index vin) (-1)); [lia|]. by rewrite andb_false_r.
Qed.

Lemma transform_tx_spec chs bc txs st itx addrs :
  choices_ok (chs itx.1) -> open_utxo bc = Ret st -> wf_utrie st -> NoDup addrs -> tx_ok addrs itx.2 ->
  fresh_id chs bc itx ->
  exists bc' st' new, transform_tx chs (bc, txs) itx = Ret (bc', txs ++ new) /\
    open_utxo bc' = Ret st' /\ wf_utrie st' /\ same_but_utxo bc bc' /\
    total (ubal st') addrs = total (ubal st) addrs + minted new /\ payments new = [tx_Recipient itx.2].
Proof.
  destruct itx as [i tx]. cbn [fst snd]. intros Hch Ho Hwf Hnd (Hv & Hs & Hr) Hf. unfold transform_tx.
  destruct (Z.le_gt_cases (tx_Value tx) (ubal st (sha256 (tx_Sender tx)))) as [Hle|Hgt].
  - destruct (NewUTXO_funded (chs i) (tx_Sender tx) (tx_Recipient tx) (tx_Value tx) bc st Hch Ho Hwf (conj Hv Hle))
      as (utx & bc1 & st1 & H1 & H2 & H3 & H4 & H5 & _ & H6 & _ & H7).
    destruct (AddUTXO_spec (chs i) utx bc1 st1 H2 H3) as (bc2 & st2 & A1 & A2 & A3 & A4 & A5); [by eapply Hf|].
    rewrite H1. cbn [mbind res_bind]. rewrite A1. cbn [mbind res_bind].
    pose proof (spent_not_coinbase _ _ _ _ _ Hwf H7) as Hc. destruct H7 as (_ & _ & _ & _ & H7).
    exists bc2, st2, [utx]. split; [done|]. split; [done|]. split; [done|].
    split; [by eapply same_but_utxo_trans|]. split.
    + rewrite A5, (credit_all_proper _ _ _ H7), total_credit_all, total_upd; [|done..|].
      * rewrite minted_cons, Hc. change (minted []) with 0. unfold vout_sum. lia.
      * eapply list.Forall_impl; [exact H6|]. cbn.
        intros out [->|[->|H]%elem_of_cons]%elem_of_cons; [done..|by apply not_elem_of_nil in H].
    + by rewrite payments_cons, Hc, H5.
  - destruct (NewUTXO_unfunded (chs i) (tx_Sender tx) (tx_Recipient tx) (tx_Value tx) bc st Hch Ho Hwf Hgt)
      as (utx & bc1 & st1 & H1 & H2 & H3 & H4 & H5 & H6 & H7 & _ & H8).
    destruct (AddUTXO_spec (chs i) utx bc1 st1 H2 H3) as (bc2 & st2 & A1 & A2 & A3 & A4 & A5); [by eapply Hf|].
    rewrite H1. cbn [mbind res_bind]. rewrite A1. cbn [mbind res_bind].
    assert (Hc : IsCoinbase utx = false) by (unfold IsCoinbase; rewrite H7; cbn; by rewrite andb_false_r).
    eexists bc2, st2, [_; utx]. split; [done|]. split; [done|]. split; [done|].
    split; [by eapply same_but_utxo_trans|]. split.
    + rewrite A5, (credit_all_proper _ _ _ H8), total_credit_all; [|done|rewrite H6; by apply list.Forall_singleton].
      rewrite !minted_cons, NewCoinbaseTX_IsCoinbase, Hc. change (minted []) with 0.
      unfold vout_sum. rewrite NewCoinbaseTX_Vout, H6. cbn. lia.
    + by rewrite !payments_cons, NewCoinbaseTX_IsCoinbase, Hc, H5.
Qed.

Lemma transform_loop chs addrs itxs : forall bc txs st,
  (forall i, choices_ok (chs i)) -> open_utxo bc = Ret st -> wf_utrie st -> NoDup addrs ->
  Forall (fun itx => tx_ok addrs itx.2) itxs -> fresh_along chs bc itxs ->
  exists bc' st' new, foldM (transform_tx chs) (bc, txs) itxs = Ret (bc', txs ++ new) /\
    open_utxo bc' = Ret st' /\ wf_utrie st' /\ same_but_utxo bc bc' /\
    total (ubal st') addrs = total (ubal st) addrs + minted new /\ payments new = tx_Recipient <$> itxs.*2.
Proof.
  induction itxs as [|itx itxs IH]; intros bc txs st Hch Ho Hwf Hnd Hok Hf.
  - exists bc, st, []. rewrite app_nil_r. split; [done|]. split; [done|]. split; [done|].
    split; [by destruct bc|]. split; [cbn; lia|done].
  - apply list.Forall_cons in Hok as [Hok1 Hok]. destruct Hf as [Hf1 Hf].
    destruct (transform_tx_spec chs bc txs st itx addrs) as (bc1 & st1 & n1 & H1 & O1 & W1 & S1 & T1 & P1); [done..|].
    cbn [foldM]. rewrite H1. cbn [mbind res_bind].
    destruct (IH bc1 (txs ++ n1) st1) as (bc' & st' & n2 & H2 & O2 & W2 & S2' & T2 & P2);
      [done..|by eapply Hf|].
    exists bc', st', (n1 ++ n2). rewrite app_assoc. split; [done|]. split; [done|]. split; [done|].
    split; [by eapply same_but_utxo_trans|]. rewrite minted_app, payments_app, P1, P2. split; [lia|done].
Qed.

(** C31: one round of [TxTransform] creates no money but
    the coinbase transactions it announces.  The (at most 200) oldest injected
    transactions leave the transaction pool and enter the UTXO pool as
    transactions that pay the same recipients in the same order, together with
    the coinbase transactions that fund those whose sender cannot pay; the
    balances of the status trie grow by exactly the outputs of these
    coinbase transactions, every account stays well-formed, and nothing else
    of the chain changes. *)
Theorem TxTransform_conserves chs now bc st addrs :
  let injected := (TxPool_PackTxs 200 (bc_Txpool bc)).1 in
  let bc0 := bc <| bc_Txpool := (TxPool_PackTxs 200 (bc_Txpool bc)).2 |> in
  (forall i, choices_ok (chs i)) -> open_utxo bc = Ret st -> wf_utrie st -> NoDup addrs ->
  Forall (tx_ok addrs) injected -> fresh_along chs bc0 (indexed injected) ->
  exists bc' st' txs, TxTransform chs now bc = Ret bc' /\
    bc_UTXOTxpool bc' = UTXOTxPool_AddTxs2Pool now txs (bc_UTXOTxpool bc) /\
    payments txs = tx_Recipient <$> injected /\
    injected ++ TxQueue (bc_Txpool bc') = TxQueue (bc_Txpool bc) /\
    open_utxo bc' = Ret st' /\ wf_utrie st' /\
    total (ubal st') addrs = total (ubal st) addrs + minted txs /\
    bc_CurrentBlock bc' = bc_CurrentBlock bc /\ bc_Storage bc' = bc_Storage bc.
Proof.
  intros injected bc0 Hch Ho Hwf Hnd Hok Hf. unfold TxTransform. subst injected bc0.
  destruct (TxPool_PackTxs 200 (bc_Txpool bc)) as [inj pool] eqn:Ep. cbn [fst snd] in *.
  destruct (transform_loop chs addrs (indexed inj) (bc <| bc_Txpool := pool |>) [] st)
    as (bc' & st' & new & H1 & H2 & H3 & H4 & H5 & H6); [done..| |done|].
  { apply list.Forall_fmap with (f := snd) (P := tx_ok addrs). by rewrite indexed_snd. }
  rewrite H1. cbn [mbind res_bind app].
  exists (bc' <| bc_UTXOTxpool ::= UTXOTxPool_AddTxs2Pool now new |>), st', new.
  rewrite H4. split; [done|]. split; [done|]. split; [by rewrite H6, indexed_snd|].
  split; [apply (pool_PackTxs_app _ _ _ _ Ep)|]. split; [by rewrite H4 in H2|]. by split_and!.
Qed.
End trie.

(** *** Concrete runs: accounts are named by their public key *)
Module RefUTXO.
Export RefChain.
#[export] Instance sha_id : Sha256 := fun b => b.

Definition choices : Choices :=
  mkChoices map_to_list map_to_list map_to_list 0 0 (fun _ => 0).
Lemma choices_are_ok : choices_ok choices.
Proof. by split. Qed.

(** Alice has two outputs of one transaction. *)
Definition alice_state : UTXOAccountState :=
  mkUTXOAccountState "alice" 0 12 {[ EncodeToString "tx" := {[ 0 := 5; 1 := 7 ]} ]}.
Definition funded : gmap bytes bytes := {[ "alice"%string := enc alice_state ]}.

Definition chain_at (st : gmap bytes bytes) : BlockChain :=
  chain 0 <| bc_triedb := Some ({[ st ]} : TrieDB) |> <| bc_UTXOStateRoot := RefTrie.root st |>.

Lemma chain_at_open st : open_utxo (chain_at st) = Ret st.
Proof.
  unfold open_utxo, chain_at. cbn [bc_triedb bc_UTXOStateRoot set_field BlockChain_eta must mbind res_bind].
  change (must (RefTrie.find (RefTrie.root st) {[st]}) = Ret st). rewrite RefTrie.find_root; [done|]. set_solver.
Qed.

Lemma open_pool bc pool : open_utxo (bc <| bc_Txpool := pool |>) = open_utxo bc.
Proof. done. Qed.

Lemma funded_wf : wf_utrie (TL := RefTrie.lib) funded.
Proof.
  intros k e H. change (funded !! k = Some e) in H. unfold funded in H. apply lookup_singleton_Some in H as [<- <-].
  exists alice_state.
  split; [apply dec_enc|]. split; [vm_compute; reflexivity|]. split.
  - intros t [m H]. unfold alice_state in H. cbn [uas_UTXOs] in H.
    apply lookup_singleton_Some in H as [<- _]. by eexists.
  - intros t i [v H]. unfold utxo, alice_state in H. cbn [uas_UTXOs] in H.
    apply bind_Some in H as (m & H1 & H2). apply lookup_singleton_Some in H1 as [_ <-].
    apply lookup_insert_Some in H2 as [[<- _]|[_ H2]]; [done|].
    apply lookup_singleton_Some in H2 as [<- _]. done.
Qed.

Lemma empty_utrie_wf : wf_utrie (TL := RefTrie.lib) (∅ : gmap bytes bytes).
Proof. intros k e H. change ((∅ : gmap bytes bytes) !! k = Some e) in H. by rewrite lookup_empty in H. Qed.

Definition injected : Transaction := sample_tx "alice" "bob" 6 "h".
Definition with_injected : BlockChain := chain_at ∅ <| bc_Txpool := mkPool [injected] None |>.
End RefUTXO.

Import RefUTXO.

Lemma NewUTXOTransaction_balanced_witness :
  exists tx bc' st', NewUTXOTransaction choices "alice" "bob" 6 (chain_at funded) = Ret (Some tx, None, bc') /\
    utx_Vout tx !! 0%nat = Some (mkTxOut 6 "bob") /\
    spent_by (TL := RefTrie.lib) funded st' "alice" (utx_Vin tx) (vout_sum tx).
Proof.
  destruct (NewUTXOTransaction_balanced choices "alice" "bob" 6 (chain_at funded) funded choices_are_ok
    (chain_at_open funded) funded_wf ltac:(lia)) as (tx & [c|] & bc' & st' & H1 & _ & _ & _ & H2 & H3).
  - destruct H3 as [H3 _]. vm_compute in H3. discriminate H3.
  - exists tx, bc', st'. split; [exact H1|]. split; [exact H2|apply H3].
Defined.

Lemma TxTransform_conserves_witness :
  exists bc bc' st' txs, open_utxo bc = Ret ∅ /\ TxQueue (bc_Txpool bc) = [injected] /\
    TxTransform (fun _ => choices) 1 bc = Ret bc' /\
    payments txs = ["bob"%string] /\ open_utxo bc' = Ret st' /\
    total (ubal st') ["alice"; "bob"]%string = 0 + minted txs.
Proof.
  assert (Hbc : exists bc, open_utxo bc = Ret ∅ /\ bc_Txpool bc = mkPool [injected] None)
    by (exists with_injected; split; [unfold with_injected; rewrite open_pool; exact (chain_at_open ∅)|done]).
  destruct Hbc as (bc & Ho & Hp). exists bc.
  destruct (TxTransform_conserves (fun _ => choices) 1 bc ∅ ["alice"; "bob"]%string)
    as (bc' & st' & txs & H1 & _ & H2 & _ & H3 & _ & H4 & _); rewrite ?Hp.
  - intros _. exact choices_are_ok.
  - exact Ho.
  - exact empty_utrie_wf.
  - apply (bool_decide_unpack _). vm_compute. reflexivity.
  - apply list.Forall_singleton. split; [done|]. split; apply (bool_decide_unpack _); vm_compute; reflexivity.
  - split; [|done]. intros tx cb bc1 st1 Hn Hst k. cbn [fst snd] in Hn.
    edestruct (NewUTXO_unfunded choices "alice" "bob" 6) as (tx' & bc2 & st2 & G1 & G2 & _ & _ & _ & _ & _ & G3 & _);
      [exact choices_are_ok|rewrite open_pool; exact Ho|exact empty_utrie_wf|done|].
    cbn in Hn. cbn in G1. rewrite G1 in Hn. injection Hn as _ _ <-. rewrite G2 in Hst. injection Hst as <-.
    rewrite G3. reflexivity.
  - rewrite Hp in H2. exists bc', st', txs. split_and!; done.
Defined.
