(* ===== verification/UtxoChain.v ===== *)
(** * UtxoChain: the outputs a chain of blocks leaves unspent

    [FindUTXO] reads the stored chain backwards, and [Reindex] fills the
    store's UTXO bucket with what it found.  The specification [unspent] looks
    at the whole chain at once. *)
From stdpp Require Import base gmap strings list countable.
From Stdlib Require Import ZArith Lia.
From S2P Require Import Prelude GoStd Libs Core Pools StorageDB Chain Ledger Execution Query UtxoSet.

(** ** The specification *)






(** ** The scan of a list of transactions, newest block first *)
















(** ** [FindUTXO] *)
Section chain.
Context {TL : TrieLib} {BL : BoltLib} {HL : Sha256} {CC : CoreCodecs}.
Context {BW : BoltLaws BL} {CL : CoreCodecsLaws} {LV : BoltLive BL}.

(** The chain [bs] is in the store. *)
Definition on_disk (bs : list Block) (db : BoltDB) : Prop :=
  forall b, b ∈ bs -> bolt_Get db "block"%string (b_Hash b) = Some (Some (enc b)).







(** What a node has adopted is on its disk. *)
Lemma history_on_disk bs bc : history bs bc -> on_disk bs (DataBase (bc_Storage bc)).
Proof. intros H b Hb. apply (hy_stored _ _ H). by exists b. Qed.

(** ** [Reindex] *)



End chain.

(** *** A chain of two blocks: the second spends an output of the first *)
Module RefUtxoChain.
Export RefChain.


End RefUtxoChain.

Import RefUtxoChain.

