(* ===== verification/UtxoMod.v ===== *)
(** * UtxoMod: pbft_all/pbftInside_module_utxo.go and pbftOutside_module_utxo.go

    The modules of the relay mechanism over UTXO transactions.  The loop over
    the committed block and the report are those of the SyncHotstuff module
    (synchotstuff_all/synchotstuffMod_Relay_utxo.go) too, so they are stated
    on the chain, for both. *)
From stdpp Require Import base gmap strings list countable.
From Stdlib Require Import ZArith Lia.
From S2P Require Import Prelude GoStd Libs Core Pools Messages StorageDB Chain Pbft RelayMod.

Section utxo_relay.
Context (P : Params).
Context {TL : TrieLib} {BL : BoltLib} {HL : Sha256} {CC : CoreCodecs} {MC : MsgCodecs}.

(** What the loop over the block builds: [txExcuted], [relay1Txs], the pool,
    and the block's transactions, marked through their pointers. *)
Record UTXORelayLoop := mkUTXORelayLoop {
  ul_excuted : list UTXOTransaction;
  ul_relay1 : list UTXOTransaction;
  ul_utxo : list UTXOTransaction;
  ul_pool : Pool UTXOTransaction }.

Definition utxo_relay_tx (bc : BlockChain) (shard : Z) (s : UTXORelayLoop) (tx : UTXOTransaction) :
    res UTXORelayLoop :=
  if IsCoinbase tx then
    Ret (mkUTXORelayLoop (ul_excuted s ++ [tx]) (ul_relay1 s) (ul_utxo s ++ [tx]) (ul_pool s))
  else
    rsid ← Get_PartitionMap P (utx_Recipient tx) bc;
    if negb (rsid =? shard) then
      let ntx := tx <| utx_Relayed := true |> in
      pool ← UTXOTxPool_AddRelayTx ntx rsid (ul_pool s);
      Ret (mkUTXORelayLoop (ul_excuted s) (ul_relay1 s ++ [ntx]) (ul_utxo s ++ [ntx]) pool)
    else Ret (mkUTXORelayLoop (ul_excuted s ++ [tx]) (ul_relay1 s) (ul_utxo s ++ [tx]) (ul_pool s)).

Definition utxo_relay_txs (bc : BlockChain) (shard : Z) (utxos : list UTXOTransaction) : res UTXORelayLoop :=
  foldM (utxo_relay_tx bc shard)
    (mkUTXORelayLoop [] [] [] (bc_UTXOTxpool bc <| RelayPool := Some ∅ |>)) utxos.

(** [&core.Transaction{TxHash: tx.TxHash, Time: tx.Time}] *)
Definition MakeupTx (tx : UTXOTransaction) : Transaction :=
  zero_Transaction <| tx_TxHash := utx_TxHash tx |> <| tx_Time := utx_Time tx |>.

(** The test that skips a shard reads [Txpool.RelayPool], not [UTXOTxpool.RelayPool]. *)
Definition skips_shard (bc : BlockChain) (shard sid : Z) : bool :=
  (sid =? shard) || (length (default [] (relay_lookup (bc_Txpool bc) sid)) =? 0)%nat.

Definition utxo_bim (s : UTXORelayLoop) (block : Block) (shard ReqTime now : Z) : BlockInfoMsg :=
  mkBlockInfoMsg (Z.of_nat (length (b_UTXO block))) (MakeupTx <$> ul_excuted s) 0 ReqTime now shard
    (Z.of_nat (length (ul_relay1 s))) (MakeupTx <$> ul_relay1 s) 0 [] 0 [].

(** The chain after the loop: the relay pool is cleared, and the adopted
    block is the one whose transactions were marked. *)
Definition after_utxo_relay (s : UTXORelayLoop) (accepted : bool) (bc : BlockChain) : BlockChain :=
  bc <| bc_UTXOTxpool := UTXOTxPool_ClearRelayPool (ul_pool s) |>
     <| bc_CurrentBlock ::= fun b => if accepted then b <| b_UTXO := ul_utxo s |> else b |>.

(** One coinbase transaction per output of a relayed transaction, under that
    transaction's hash (a relayed transaction has one); [rnd] are
    the random nonces drawn for the outputs in turn. *)
Definition relay_outs (txs : list UTXOTransaction) : list (TxOut * bytes) :=
  txs ≫= fun tx => (fun out => (out, utx_TxHash tx)) <$> utx_Vout tx.
Definition coinbases (rnd : Z -> Z) (txs : list UTXOTransaction) : list UTXOTransaction :=
  imap (fun i '(out, h) => NewCoinbaseTX (out_PubKeyHash out) (out_Value out) (Some h) (rnd (Z.of_nat i)))
    (relay_outs txs).

Definition receive_relay (now : Z) (rnd : Z -> Z) (txs : list UTXOTransaction) (bc : BlockChain) : BlockChain :=
  bc <| bc_UTXOTxpool ::= UTXOTxPool_AddTxs2Pool now (coinbases rnd txs) |>.
End utxo_relay.

Section modules.
Context (P : Params).
Context {TL : TrieLib} {BL : BoltLib} {HL : Sha256} {CC : CoreCodecs} {MC : MsgCodecs}.
Context {X : Type}.
Implicit Types (p : PbftConsensusNode X).

(** ** RawUTXORelayPbftExtraHandleMod *)
Definition UTXO_HandleinPropose (now : Z) : Pm X (option (bool * Request)) :=
  p ← get;
  '(block, bc) ← lift (GenerateBlock P now (CurChain p));
  _ ← modify (fun p => p <| CurChain := bc |>);
  mret (Some (true, mkRequest BlockRequest (enc block) now)).

Definition UTXO_HandleinPrePrepare (ppmsg : PrePrepare) : Pm X bool :=
  p ← get;
  b ← lift (must (dec (req_Msg (pp_RequestMsg ppmsg))));
  match IsValidUTXOBlock b (CurChain p) with
  | Some _ => mret false
  | None =>
      _ ← modify (fun p => p <| requestPool ::= <[pp_Digest ppmsg := pp_RequestMsg ppmsg]> |>);
      mret true
  end.

Definition UTXO_HandleinPrepare (pmsg : Prepare) : Pm X bool := mret true.

(** One shard of the sending loop. *)
Definition utxo_send_relay (p : PbftConsensusNode X) (pool : Pool UTXOTransaction) (sid : Z) : Pm X () :=
  if skips_shard (CurChain p) (p_ShardID p) sid then mret tt
  else dial CRelay (json_enc (mkRelayUTXO (default [] (relay_lookup pool sid)) (p_ShardID p) (sequenceID p)))
         (node_ip p sid 0).

Definition utxo_relay_and_report (now : Z) (block : Block) (accepted : bool) (ReqTime : Z) : Pm X () :=
  p ← get;
  s ← lift (utxo_relay_txs P (CurChain p) (p_ShardID p) (b_UTXO block));
  _ ← forM (shard_ids (ShardNums (pbftChainConfig p))) (utxo_send_relay p (ul_pool s));
  _ ← modify (fun p => p <| CurChain ::= after_utxo_relay s accepted |>);
  let bim := utxo_bim s block (p_ShardID p) ReqTime now in
  _ ← dial CBlockInfo (json_enc bim) (node_ip p DeciderShard 0);
  emit (CSVline [Z.of_nat (length (TxQueue (bc_Txpool (CurChain p)))); Z.of_nat (length (ul_excuted s));
                 bim_Relay1TxNum bim]).

Definition UTXO_HandleinCommit (now : Z) (cmsg : Commit) : Pm X bool :=
  p ← get;
  r ← lift (must (requestPool p !! c_Digest cmsg));
  block ← lift (must (dec (req_Msg r)));
  bc ← lift (AddBlock P block (CurChain p));
  _ ← modify (fun p => p <| CurChain := bc |>);
  _ ← (if p_NodeID p =? view p then
         utxo_relay_and_report now block (next_height block (CurChain p)) (req_ReqTime r)
       else mret tt);
  mret true.

Definition UTXO_HandleReqestforOldSeq (rom : RequestOldMessage) : Pm X bool := mret true.

(** Word for word the function of the relay module. *)
Definition UTXO_HandleforSequentialRequest (som : SendOldMessage) : Pm X bool :=
  Relay_HandleforSequentialRequest P som.

#[global] Instance RawUTXORelayPbftExtraHandleMod : InsideMod X := {|
  HandleinPropose := UTXO_HandleinPropose;
  HandleinPrePrepare := UTXO_HandleinPrePrepare;
  HandleinPrepare := UTXO_HandleinPrepare;
  HandleinCommit := UTXO_HandleinCommit;
  HandleReqestforOldSeq := UTXO_HandleReqestforOldSeq;
  HandleforSequentialRequest := UTXO_HandleforSequentialRequest |}.

(** ** RawUTXORelayOutsideModule; [rnd] as in [coinbases] *)
Definition UTXO_handleRelay (rnd : Z -> Z) (now : Z) (content : bytes) : Pm X () :=
  relay ← lift (must (json_dec content : option RelayUTXO));
  modify (fun p => p
    <| CurChain ::= receive_relay now rnd (ru_Txs relay) |>
    <| seqIDMap ::= <[ru_SenderShardID relay := ru_SenderSeq relay]> |>).

Definition UTXO_handleInjectTx (now : Z) (content : bytes) : Pm X () :=
  it ← lift (must (json_dec content));
  modify (fun p => p
    <| CurChain ::= fun bc => bc <| bc_Txpool ::= TxPool_AddTxs2Pool now (it_Txs it) |> |>).

Definition UTXO_HandleMessageOutsidePBFT (rnd : Z -> Z) (now : Z) (msgType : MessageType) (content : bytes) :
    Pm X bool :=
  _ ← (if bool_decide (msgType = CRelay) then UTXO_handleRelay rnd now content
       else if bool_decide (msgType = CInject) then UTXO_handleInjectTx now content
       else mret tt);
  mret true.

#[global] Instance RawUTXORelayOutsideModule (rnd : Z -> Z) : OutsideMod X := {|
  HandleMessageOutsidePBFT := UTXO_HandleMessageOutsidePBFT rnd |}.
End modules.
