(* ===== verification/UtxoModProps.v ===== *)
(** * UtxoModProps: the UTXO relay modules keep to the interface, and never relay *)
From stdpp Require Import base gmap strings list countable.
From Stdlib Require Import ZArith Lia.
From S2P Require Import Prelude GoStd Libs Core Pools Messages StorageDB Chain Ledger Execution Pbft PbftProps RelayMod RelayProps UtxoSet UtxoProps UtxoMod.

(** ** The node's own code, for any relation on the chain and the output

    The node leaves the chain to its modules: a relation that allows every
    change outside [CurChain] and the consensus's messages holds of a step
    when it holds of what the modules do. *)
Section frame.
Context {TL : TrieLib} {BL : BoltLib} {HL : Sha256} {CC : CoreCodecs} {MC : MsgCodecs}.
Context {X : Type} {IM : InsideMod X} {OM : OutsideMod X}.
Implicit Types (p : PbftConsensusNode X).
Context (R : PbftConsensusNode X -> PbftConsensusNode X -> list Event -> Prop) `{!Composes R}.

Definition consensus_types : list MessageType :=
  [CPrePrepare; CPrepare; CCommit; CRequestOldrequest; CSendOldrequest].

Context (HR : forall f, (forall p, CurChain (f p) = CurChain p) -> obeys R (modify f)).
Context (HE : forall t content m addr, t ∈ consensus_types -> MergeMessage t content = Ret m ->
  obeys R (emit (TcpDial m addr) : Pm X ())).
Context (HI1 : forall now, obeys R (HandleinPropose now)) (HI2 : forall m, obeys R (HandleinPrePrepare m))
  (HI3 : forall m, obeys R (HandleinPrepare m)) (HI4 : forall now m, obeys R (HandleinCommit now m))
  (HI5 : forall m, obeys R (HandleReqestforOldSeq m)) (HI6 : forall m, obeys R (HandleforSequentialRequest m))
  (HO : forall now t c, obeys R (HandleMessageOutsidePBFT now t c)).

Lemma frame_lifted {A B} (r : res A) (k : A -> Pm X B) :
  (forall a, r = Ret a -> obeys R (k a)) -> obeys R (lift r ≫= k).
Proof.
  intros Hk p b p' o (a & s1 & o1 & o2 & H1 & H2 & ->)%M_bind_Ret. unfold lift in H1.
  destruct r as [a'| |]; [|done..]. injection H1 as -> <- <-. by eapply Hk.
Qed.

Lemma frame_dial t content addr : t ∈ consensus_types -> obeys R (dial t content addr : Pm X ()).
Proof. intros Ht. apply frame_lifted. intros m Hm. by eapply HE. Qed.

Lemma frame_broadcast t content : t ∈ consensus_types -> obeys R (broadcast_neighbors t content : Pm X ()).
Proof.
  intros Ht. apply frame_lifted. intros m Hm. apply obeys_bind; [done|by apply obeys_get|]. intros p.
  apply obeys_forM; [done|]. intros ip _. case_bool_decide; [by apply obeys_ret|by eapply HE].
Qed.

Lemma adopt_chain b rs p : CurChain (adopt_requests b rs p) = CurChain p.
Proof.
  unfold adopt_requests. revert p. induction (indexed rs) as [|[i r] l IH]; intros p; [done|]. cbn. by rewrite IH.
Qed.

Ltac frame_step :=
  first
    [ apply obeys_ret; exact Composes0 | apply obeys_get; exact Composes0 | apply obeys_lift; exact Composes0
    | apply obeys_panic | apply obeys_block
    | apply frame_broadcast; apply (bool_decide_unpack _); reflexivity
    | apply frame_dial; apply (bool_decide_unpack _); reflexivity
    | apply HI1 | apply HI2 | apply HI3 | apply HI4 | apply HI5 | apply HI6 | apply HO
    | apply HR; first [intros; apply adopt_chain|done]
    | apply obeys_bind; [exact Composes0| |intros ?]
    | case_match ].
Ltac frame_ok := repeat frame_step.

Lemma within_propose now : obeys R (propose_body now).
Proof. unfold propose_body, propose_request. frame_ok. Qed.
Lemma within_prePrepare c : obeys R (handlePrePrepare c).
Proof. unfold handlePrePrepare, broadcast_prepare, store_request. frame_ok. Qed.
Lemma within_prepare c : obeys R (handlePrepare c).
Proof. unfold handlePrepare, new_ptr, set2DMap, commit_if_prepared. frame_ok. Qed.
Lemma within_commit now c : obeys R (handleCommit now c).
Proof.
  unfold handleCommit, new_ptr, set2DMap, request_old, execute_commit, lock_askForLock, unlock_sequenceLock.
  frame_ok.
Qed.
Lemma within_requestOld c : obeys R (handleRequestOldSeq c).
Proof. unfold handleRequestOldSeq. frame_ok. Qed.
Lemma within_sendOld c : obeys R (handleSendOldSeq c).
Proof. unfold handleSendOldSeq, unlock_askForLock, broadcast_prepare. frame_ok. Qed.

#[local] Opaque propose_body handlePrePrepare handlePrepare handleCommit handleRequestOldSeq handleSendOldSeq.

Lemma frame_step i : obeys R (step i).
Proof.
  destruct i as [now msg|now]; cbn [step].
  - unfold handleMessage, WaitToStop, send_pStop. frame_ok;
      first [ apply within_prePrepare | apply within_prepare | apply within_commit
            | apply within_requestOld | apply within_sendOld | apply within_propose ].
  - unfold propose_step. frame_ok; apply within_propose.
Qed.

Lemma frame_run p tr p' : run p tr p' -> R p p' (concat tr.*2).
Proof.
  induction 1 as [p|p tr p1 i p2 evs Hrun IH Hstep]; [apply composes_refl|].
  rewrite fmap_app, concat_app. cbn. rewrite app_nil_r. eapply composes_trans; [exact IH|].
  by eapply frame_step.
Qed.
End frame.

Section laws.
Context (P : Params).
Context {TL : TrieLib} {BL : BoltLib} {HL : Sha256} {CC : CoreCodecs} {MC : MsgCodecs}.
Context {X : Type}.

#[global] Instance RawUTXORelay_inside_laws : InsideLaws (RawUTXORelayPbftExtraHandleMod P (X := X)).
Proof.
  split; cbn; intros; [split..|];
    unfold UTXO_HandleinPropose, UTXO_HandleinPrePrepare, UTXO_HandleinPrepare,
      UTXO_HandleinCommit, utxo_relay_and_report, utxo_send_relay, UTXO_HandleReqestforOldSeq,
      UTXO_HandleforSequentialRequest, Relay_HandleforSequentialRequest; mod_ok.
Qed.

#[global] Instance RawUTXORelay_outside_laws rnd : OutsideLaws (RawUTXORelayOutsideModule rnd (X := X)).
Proof.
  split; cbn; intros. split; unfold UTXO_HandleMessageOutsidePBFT, UTXO_handleRelay, UTXO_handleInjectTx; mod_ok.
Qed.
End laws.

(** ** No relay message is ever sent *)
Section norelay.
Context (P : Params) (rnd : Z -> Z) (HU : UTXO P = true).
Context {TL : TrieLib} {BL : BoltLib} {HL : Sha256} {CC : CoreCodecs} {MC : MsgCodecs}.
Context {X : Type}.
Implicit Types (p : PbftConsensusNode X).

(** The relay pool of the account transactions has nothing for any shard. *)
Definition no_account_relays (bc : BlockChain) : Prop :=
  forall sid, default [] (relay_lookup (bc_Txpool bc) sid) = [].

Definition not_relay (e : Event) : Prop :=
  match e with
  | TcpDial m _ => forall content, SplitMessage m <> Ret (CRelay, content)
  | CSVline _ => True
  end.

Definition norelay_rel p p' (evs : list Event) : Prop :=
  no_account_relays (CurChain p) -> no_account_relays (CurChain p') /\ Forall not_relay evs.

#[local] Instance norelay_composes : Composes norelay_rel.
Proof.
  split; [by intros p H|]. intros p1 p2 p3 o1 o2 H1 H2 H. destruct (H1 H) as [H3 E1].
  destruct (H2 H3) as [H4 E2]. split; [done|]. by apply Forall_app_2.
Qed.

Definition same_relays (bc bc' : BlockChain) : Prop := RelayPool (bc_Txpool bc') = RelayPool (bc_Txpool bc).

Lemma same_relays_none bc bc' : same_relays bc bc' -> no_account_relays bc -> no_account_relays bc'.
Proof. unfold no_account_relays, relay_lookup. intros H. by rewrite H. Qed.

Lemma norelay_modify (f : PbftConsensusNode X -> PbftConsensusNode X) :
  (forall p, same_relays (CurChain p) (CurChain (f p))) -> obeys norelay_rel (modify f).
Proof.
  intros Hf. apply obeys_modify. intros p H. split; [|constructor]. eapply same_relays_none; [apply Hf|done].
Qed.

Lemma norelay_emit t content m addr :
  t <> CRelay -> t ∈ message_types -> MergeMessage t content = Ret m ->
  obeys norelay_rel (emit (TcpDial m addr) : Pm X ()).
Proof.
  intros Hne Ht Hm. apply obeys_emit. intros p H. split; [done|]. apply list.Forall_singleton.
  intros content' Hm'. apply message_types_ok in Ht. apply SplitMessage_MergeMessage in Hm; [|done]. congruence.
Qed.

Lemma norelay_dial t content addr :
  t <> CRelay -> t ∈ message_types -> obeys norelay_rel (dial t content addr : Pm X ()).
Proof. intros Hne Ht. apply frame_lifted. intros m Hm. by eapply norelay_emit. Qed.

Lemma GenerateBlock_relays now bc b bc' : GenerateBlock P now bc = Ret (b, bc') -> same_relays bc bc'.
Proof.
  unfold GenerateBlock. rewrite HU. destruct (UTXOTxPool_PackTxs _ _) as [txs pool].
  cbn [mbind res_bind]. intros H. by injection H as _ <-.
Qed.

Lemma AddBlock_relays b bc bc' : AddBlock P b bc = Ret bc' -> same_relays bc bc'.
Proof.
  unfold AddBlock. rewrite HU. destruct (negb _) eqn:E; [by intros [= <-]|].
  rewrite andb_false_r. cbn [mbind res_bind]. intros H. by inv_res.
Qed.

Lemma add_old_relays fuel rs start last : forall h bc bc',
  add_old_blocks P fuel rs start last h bc = Ret bc' -> same_relays bc bc'.
Proof.
  induction fuel as [|fuel IH]; intros h bc bc' H; cbn [add_old_blocks] in H; [by injection H as <-|].
  destruct (last <? h); [by injection H as <-|].
  apply bind_Ret in H as (r & _ & H). apply bind_Ret in H as (bc1 & H1 & H). apply IH in H.
  unfold same_relays in *. rewrite H. clear H. case_bool_decide; [|by injection H1 as <-].
  apply bind_Ret in H1 as (b & _ & H1). by apply AddBlock_relays in H1.
Qed.

(** From one state on: a handler reads the chain, computes a new one from it
    and stores it. *)
Definition obeys_at {A} p (m : Pm X A) : Prop := forall a p' o, m p = Ret (a, p', o) -> norelay_rel p p' o.

Lemma at_obeys {A} (m : Pm X A) : (forall p, obeys_at p m) -> obeys norelay_rel m.
Proof. intros H p a p' o. apply H. Qed.
Lemma at_get {A} (g : PbftConsensusNode X -> Pm X A) p : obeys_at p (g p) -> obeys_at p (get ≫= g).
Proof. intros H a p' o. rewrite get_bind. apply H. Qed.
Lemma at_lift {A B} (r : res A) (k : A -> Pm X B) p :
  (forall a, r = Ret a -> obeys_at p (k a)) -> obeys_at p (lift r ≫= k).
Proof.
  intros Hk b p' o (a & s1 & o1 & o2 & H1 & H2 & ->)%M_bind_Ret. unfold lift in H1.
  destruct r as [a'| |]; [|done..]. injection H1 as -> <- <-. by eapply Hk.
Qed.
Lemma at_store {A} f (k : () -> Pm X A) p :
  same_relays (CurChain p) (CurChain (f p)) -> obeys norelay_rel (k tt) -> obeys_at p (modify f ≫= k).
Proof.
  intros Hf Hk a p' o. rewrite modify_bind. intros H Hn. apply Hk in H. apply H. by eapply same_relays_none.
Qed.

Ltac norelay_step :=
  first
    [ apply obeys_ret; apply _ | apply obeys_get; apply _ | apply obeys_lift; apply _
    | apply norelay_dial; [done|apply (bool_decide_unpack _); reflexivity]
    | apply norelay_modify; done
    | apply obeys_emit; intros ? ?; split; [done|by repeat constructor]
    | apply obeys_bind; [apply _| |intros ?]
    | case_match ].

Lemma norelay_propose now : obeys norelay_rel (UTXO_HandleinPropose P now : Pm X _).
Proof.
  apply at_obeys. intros p. apply at_get, at_lift. intros [b bc] H.
  apply at_store; [by eapply GenerateBlock_relays|]. repeat norelay_step.
Qed.

(** With nothing in the relay pool it reads, the loop skips every shard. *)
Lemma norelay_report now block acc rt : obeys norelay_rel (utxo_relay_and_report P now block acc rt : Pm X ()).
Proof.
  apply at_obeys. intros p. apply at_get, at_lift. intros s _ a p' o H Hn.
  apply M_bind_Ret in H as (u & s1 & o1 & o2 & H1 & H2 & ->).
  assert (s1 = p /\ o1 = []) as [-> ->].
  { clear H2. revert u s1 o1 H1. induction (shard_ids _) as [|sid sids IH]; intros u s1 o1 H1.
    - by injection H1 as <- <- <-.
    - cbn [forM] in H1. apply M_bind_Ret in H1 as (u' & s2 & o3 & o4 & H3 & H4 & ->).
      unfold utxo_send_relay, skips_shard in H3. rewrite (Hn sid), orb_true_r in H3.
      injection H3 as <- <- <-. by apply IH in H4. }
  revert Hn. change (norelay_rel p p' o2). revert a p' o2 H2.
  change (obeys_at p (_ ← modify (fun p => p <| CurChain ::= after_utxo_relay s acc |>);
    _ ← dial CBlockInfo (json_enc (utxo_bim s block (p_ShardID p) rt now)) (node_ip p DeciderShard 0);
    emit (CSVline [Z.of_nat (length (TxQueue (bc_Txpool (CurChain p)))); Z.of_nat (length (ul_excuted s));
                 bim_Relay1TxNum (utxo_bim s block (p_ShardID p) rt now)]) : Pm X ())).
  apply at_store; [done|]. repeat norelay_step.
Qed.

Lemma norelay_commit now c : obeys norelay_rel (UTXO_HandleinCommit P now c : Pm X _).
Proof.
  apply at_obeys. intros p. apply at_get, at_lift. intros r _. apply at_lift. intros b _.
  apply at_lift. intros bc Hadd. apply at_store; [by eapply AddBlock_relays|].
  apply obeys_bind; [apply _| |intros _; repeat norelay_step].
  case_match; [apply norelay_report|norelay_step].
Qed.

Lemma norelay_sequential som : obeys norelay_rel (UTXO_HandleforSequentialRequest P som : Pm X _).
Proof.
  unfold UTXO_HandleforSequentialRequest, Relay_HandleforSequentialRequest. case_match; [norelay_step|].
  apply at_obeys. intros p. apply at_get, at_lift. intros bc Hadd.
  apply at_store; [by eapply add_old_relays|repeat norelay_step].
Qed.

Lemma norelay_outside now t c : obeys norelay_rel (UTXO_HandleMessageOutsidePBFT rnd now t c : Pm X _).
Proof.
  unfold UTXO_HandleMessageOutsidePBFT, UTXO_handleRelay, UTXO_handleInjectTx.
  repeat first [norelay_step|apply norelay_modify; intros p; cbn; apply pool_AddTxs2Pool_RelayPool].
Qed.

(** C40: a node with the UTXO relay modules never relays a
    transaction to another shard, although its commits collect them.  Started
    with no account transaction waiting to be relayed, over every run, whatever
    messages arrive, no event the node puts out is a relay message. *)
Theorem utxo_never_relays p tr p' :
  run (IM := RawUTXORelayPbftExtraHandleMod P) (OM := RawUTXORelayOutsideModule rnd) p tr p' ->
  no_account_relays (CurChain p) ->
  forall m addr content, TcpDial m addr ∈ concat tr.*2 -> SplitMessage m <> Ret (CRelay, content).
Proof.
  intros Hrun Hn. apply (frame_run norelay_rel) in Hrun; first last.
  - apply norelay_outside.
  - apply norelay_sequential.
  - intros m. apply obeys_ret; apply _.
  - apply norelay_commit.
  - intros m. apply obeys_ret; apply _.
  - intros m. cbn. unfold UTXO_HandleinPrePrepare. repeat norelay_step.
  - apply norelay_propose.
  - intros t content m addr Ht Hm.
    repeat (apply elem_of_cons in Ht as [->|Ht];
      [eapply norelay_emit; [| |exact Hm]; [done|apply (bool_decide_unpack _); reflexivity]|]).
    by apply not_elem_of_nil in Ht.
  - intros f Hf. apply norelay_modify. intros q. by rewrite Hf.
  - destruct (Hrun Hn) as [_ H]. intros m addr content Hin Hs.
    rewrite list.Forall_forall in H. by apply (H _ Hin content).
Qed.
End norelay.

(** *** Concrete run: the leader of shard 0 commits a block with a coinbase
    transaction and one whose recipient lives in shard 1. *)
Module RefUTXOMod.
Export RefNode.
Definition uparams : Params :=
  {| MaxLatency := 5; UTXO := true; UseSyncHotstuff := false; TxInputCount := 20000;
     Block_Interval := 1000; MaxBlockSize_global := 500; InjectSpeed := 100; TotalDataSize := 100000;
     BatchSize := 4000; BrokerNum := 10; NodesInShard := 4; ShardNum := 2;
     SupervisorAddr := "127.0.0.1:18800" |}.
Definition mint : UTXOTransaction := NewCoinbaseTX "pk" 6 None 0.
Definition pay : UTXOTransaction :=
  mkUTXOTransaction "id" [mkTxIn "c" 0 "" "pk"] [mkTxOut 6 "pk1"] 0 1 "id" false "0000000b".
Definition ublock : Block := mkBlock (zero_BlockHeader <| bh_Number := 1 |>) [] [mint; pay] "hash1".
Definition ureq : Request := mkRequest BlockRequest (enc ublock) 1.
Definition uleader : PbftConsensusNode () :=
  member 0 <| pbftChainConfig := RefChain.node 0 |> <| malicious_nums := 0 |> <| sequenceLock := true |>
    <| requestPool := {[ getDigest ureq := ureq ]} |>.
Definition ucommit : bytes := wire CCommit (json_enc (mkCommit (getDigest ureq) 1 (peer 1))).

(** The block is adopted, and one relay and one report are due. *)
Lemma uleader_step :
  match step (IM := RawUTXORelayPbftExtraHandleMod uparams) (OM := RawUTXORelayOutsideModule (fun _ => 0))
    (Receive 5 ucommit) uleader with
  | Ret (_, p', evs) => bool_decide (length evs = 2%nat) &&
      bool_decide (bh_Number (b_Header (bc_CurrentBlock (CurChain p'))) = 1) &&
      bool_decide (utx_Relayed <$> b_UTXO (bc_CurrentBlock (CurChain p')) = [false; true])
  | _ => false
  end = true.
Proof. vm_compute. reflexivity. Qed.
End RefUTXOMod.
Import RefUTXOMod.

Lemma utxo_never_relays_witness :
  exists p' evs, run (IM := RawUTXORelayPbftExtraHandleMod uparams)
      (OM := RawUTXORelayOutsideModule (fun _ => 0)) uleader ([] ++ [(Receive 5 ucommit, evs)]) p' /\
    length evs = 2%nat /\ utx_Relayed <$> b_UTXO (bc_CurrentBlock (CurChain p')) = [false; true] /\
    forall m addr content, TcpDial m addr ∈ evs -> SplitMessage m <> Ret (CRelay, content).
Proof.
  pose proof uleader_step as Hs. set (s0 := uleader) in *.
  assert (Hn : no_account_relays (CurChain s0)).
  { intros sid. unfold relay_lookup. cbn. by rewrite lookup_empty. }
  clearbody s0.
  destruct (step (Receive 5 ucommit) s0) as [[[[] p'] evs]| |] eqn:E; [|discriminate Hs..].
  apply andb_prop in Hs as [Hs H3]. apply andb_prop in Hs as [H1 _].
  apply bool_decide_eq_true in H1, H3. exists p', evs.
  assert (Hrun := run_step _ _ _ _ _ _ (run_refl s0) E).
  split; [exact Hrun|]. split; [exact H1|]. split; [exact H3|].
  intros m addr content Hin.
  apply (utxo_never_relays uparams (fun _ => 0) eq_refl _ _ _ Hrun Hn m addr content).
  cbn. by rewrite app_nil_r.
Defined.
