(* ===== verification/Hotstuff.v ===== *)
(** * Hotstuff: src/consensus_shard/synchotstuff_all

    A SyncHotstuff node.  Its goroutines are the message loop, [Propose] and
    [TxTransform] (of the leader) and one [WaitToCommit] per accepted proposal,
    which sleeps [2 * MaxLatency] and then commits: [h_waiting] are the ones
    that sleep, [h_asking] the one that holds [node.lock] and waits for
    [askForLock].  A step is a message, an iteration of [Propose] up to or from
    its mutex, a round of [TxTransform], a timer that fires, or the rendezvous
    of the stop signal.

    [NewSyncHotstuffNode] never makes the channel [pBreak], so it is nil: a
    send blocks for ever and the receive in [WaitToCommit] is never ready. *)
From stdpp Require Import base gmap strings list countable.
From Stdlib Require Import ZArith Lia.
From S2P Require Import Prelude GoStd Libs Core Pools Messages StorageDB Chain Pbft RelayMod UtxoSet UtxoMod.

(** [h_sending]: the message loop is at [node.pStop <- 1]; [h_txing]: the
    [TxTransform] loop runs. *)
Record Procs := mkProcs {
  h_propose_pc : ProposePC;
  h_txing : bool;
  h_sending : bool;
  h_waiting : list Propose;
  h_asking : option Propose }.
#[export] Instance Procs_eta : Eta Procs := fun r =>
  mkProcs (h_propose_pc r) (h_txing r) (h_sending r) (h_waiting r) (h_asking r).

Inductive SyncInput :=
  | SyncReceive (now : Z) (msg : bytes)
  | SyncRunPropose (now : Z)
  | SyncRunTx (now : Z) (chs : Z -> Choices)
  | SyncTimer (now : Z) (k : nat)
  | SyncAsk
  | SyncStopPropose
  | SyncStopTx.

Section node.
Context (P : Params).
Context {TL : TrieLib} {BL : BoltLib} {HL : Sha256} {CC : CoreCodecs} {MC : MsgCodecs}.

Record SyncHotstuffConsensusNode := mkSync {
  h_RunningNode : Node;
  h_ShardID : Z;
  h_NodeID : Z;
  h_CurChain : BlockChain;
  h_ChainConfig : ChainConfig;
  h_ip_nodeTable : gmap Z (gmap Z string);
  h_node_nums : Z;
  h_malicious_nums : Z;
  h_view : Z;
  h_sequenceID : Z;
  h_stop : bool;
  h_requestPool : gmap bytes Request;
  h_cntVoteConfirm : gmap bytes Z;
  h_isReply : gmap bytes bool;
  h_height2Digest : gmap Z bytes;
  h_sequenceLock : bool;
  h_askForLock : bool;
  h_seqIDMap : gmap Z Z;
  h_procs : Procs }.
#[global] Instance SyncHotstuffConsensusNode_eta : Eta SyncHotstuffConsensusNode := fun r =>
  mkSync (h_RunningNode r) (h_ShardID r) (h_NodeID r) (h_CurChain r) (h_ChainConfig r)
    (h_ip_nodeTable r) (h_node_nums r) (h_malicious_nums r) (h_view r) (h_sequenceID r) (h_stop r)
    (h_requestPool r) (h_cntVoteConfirm r) (h_isReply r) (h_height2Digest r) (h_sequenceLock r)
    (h_askForLock r) (h_seqIDMap r) (h_procs r).

#[local] Abbreviation Hm := (M SyncHotstuffConsensusNode Event).
Implicit Types (n : SyncHotstuffConsensusNode).

Class SyncHotstuffInsideExtraHandleMod := {
  sync_HandleinPropose : Propose -> Hm bool;
  sync_Commit : Z -> Propose -> Hm bool;
  sync_HandleinVote : Vote -> Hm bool;
  sync_HandleReqestforOldSeq : RequestOldMessage -> Hm bool;
  sync_HandleforSequentialRequest : SendOldMessage -> Hm bool }.

Class SyncHotstuffOutsideHandleMod := {
  HandleMessageOutsideConsensus : Z -> MessageType -> bytes -> Hm bool }.

Definition NewSyncHotstuffNode (shardID nodeID : Z) (pcc : ChainConfig) (ips : gmap Z (gmap Z string))
    (db : EthDB) (file : BoltDB) : res SyncHotstuffConsensusNode :=
  chain ← NewBlockChain P pcc db file;
  Ret {| h_RunningNode := mkNode nodeID shardID (default "" (ips !! shardID ≫= (.!! nodeID)));
         h_ShardID := shardID; h_NodeID := nodeID; h_CurChain := chain; h_ChainConfig := pcc;
         h_ip_nodeTable := ips; h_node_nums := Nodes_perShard pcc;
         h_malicious_nums := Nodes_perShard pcc / 2; h_view := 0;
         h_sequenceID := u64 (bh_Number (b_Header (bc_CurrentBlock chain)) + 1); h_stop := false;
         h_requestPool := ∅; h_cntVoteConfirm := ∅; h_isReply := ∅; h_height2Digest := ∅;
         h_sequenceLock := false; h_askForLock := false; h_seqIDMap := ∅;
         h_procs := mkProcs (if nodeID =? 0 then AtSelect else Returned) (nodeID =? 0) false [] None |}.

Definition sync_getNeighborNodes n : list string :=
  (map_to_list (default ∅ (h_ip_nodeTable n !! h_ShardID n))).*2.

Definition sync_ip n (shardID nodeID : Z) : string :=
  default "" (h_ip_nodeTable n !! shardID ≫= (.!! nodeID)).

Definition sync_broadcast (t : MessageType) (content : bytes) : Hm () :=
  msg ← lift (MergeMessage t content);
  n ← get;
  forM (sync_getNeighborNodes n) (fun ip =>
    if bool_decide (ip = nd_IPaddr (h_RunningNode n)) then mret tt else emit (TcpDial msg ip)).

Definition sync_dial (t : MessageType) (content : bytes) (addr : string) : Hm () :=
  msg ← lift (MergeMessage t content);
  emit (TcpDial msg addr).

(** [go node.WaitToCommit(pmsg)] *)
Definition go_WaitToCommit (pmsg : Propose) : Hm () :=
  modify (fun n => n <| h_procs ::= fun q => q <| h_waiting ::= fun l => l ++ [pmsg] |> |>).

Definition set_propose_pc (pc : ProposePC) : Hm () :=
  modify (fun n => n <| h_procs ::= fun q => q <| h_propose_pc := pc |> |>).

(** The request goes into the pool and under its height. *)
Definition record_request (seq : Z) (r : Request) : Hm () :=
  modify (fun n => n <| h_requestPool ::= <[getDigest r := r]> |>
                     <| h_height2Digest ::= <[seq := getDigest r]> |>).

(** ** Propose, from the mutex on *)
Definition sync_propose_body (now : Z) : Hm () :=
  n ← get;
  '(block, bc) ← lift (GenerateBlock P now (h_CurChain n));
  _ ← modify (fun n => n <| h_CurChain := bc |>);
  let r := mkRequest BlockRequest (enc block) now in
  let pmsg := mkPropose r (getDigest r) (h_sequenceID n) in
  _ ← record_request (h_sequenceID n) r;
  _ ← sync_broadcast CPropose (json_enc pmsg);
  _ ← record_request (pr_SeqID pmsg) (pr_RequestMsg pmsg);
  go_WaitToCommit pmsg.

Definition sync_propose_step (now : Z) : Hm () :=
  n ← get;
  if negb (h_view n =? h_NodeID n) then mret tt
  else match h_propose_pc (h_procs n) with
  | AtSelect => set_propose_pc AtLock
  | AtLock =>
      if h_sequenceLock n then block
      else
        _ ← modify (fun n => n <| h_sequenceLock := true |>);
        _ ← sync_propose_body now;
        set_propose_pc AtSelect
  | _ => mret tt
  end.

(** One round of [TxTransform]. *)
Definition sync_tx_step (now : Z) (chs : Z -> Choices) : Hm () :=
  n ← get;
  if negb (h_view n =? h_NodeID n) || negb (h_txing (h_procs n)) then mret tt
  else
    bc ← lift (TxTransform chs now (h_CurChain n));
    modify (fun n => n <| h_CurChain := bc |>).

Section handlers.
Context {IM : SyncHotstuffInsideExtraHandleMod} {OM : SyncHotstuffOutsideHandleMod}.

Definition broadcast_vote (pmsg : Propose) : Hm () :=
  n ← get;
  sync_broadcast CVote
    (json_enc (mkVote (pr_RequestMsg pmsg) (pr_Digest pmsg) (pr_SeqID pmsg) (h_RunningNode n))).

(** The common part of [handlePropose] and [handleVote]: check a new
    proposal, and when the module accepts it, vote and start to wait. *)
Definition accept_proposal (pmsg : Propose) : Hm () :=
  flag ←
    (if negb (bool_decide (getDigest (pr_RequestMsg pmsg) = pr_Digest pmsg)) then mret false
     else
       flag ← sync_HandleinPropose pmsg;
       _ ← record_request (pr_SeqID pmsg) (pr_RequestMsg pmsg);
       mret flag);
  if (flag : bool) then
    _ ← broadcast_vote pmsg;
    go_WaitToCommit pmsg
  else mret tt.

Definition handlePropose (content : bytes) : Hm () :=
  pmsg ← lift (must (json_dec content));
  n ← get;
  match h_requestPool n !! pr_Digest pmsg with
  | Some _ => broadcast_vote pmsg
  | None => accept_proposal pmsg
  end.

(** ** WaitToCommit, when its timer has fired *)
Definition sync_request_old (pmsg : Propose) : Hm () :=
  n ← get;
  let sn := mkNode (h_view n) (h_ShardID n) (sync_ip n (h_ShardID n) (h_view n)) in
  let orequest := mkRequestOldMessage (u64 (h_sequenceID n + 1)) (pr_SeqID pmsg) sn (h_RunningNode n) in
  sync_dial CRequestOldrequest (json_enc orequest) (nd_IPaddr sn).

(** The main node unlocks [sequenceLock]; a mutex that is not locked panics. *)
Definition release_sequenceLock : Hm () :=
  n ← get;
  if h_NodeID n =? h_view n then
    if h_sequenceLock n then modify (fun n => n <| h_sequenceLock := false |>) else panic
  else mret tt.

(** [node.askForLock.Lock()] and what follows it. *)
Definition ask_old (pmsg : Propose) : Hm () :=
  _ ← modify (fun n => n <| h_askForLock := true |>);
  _ ← sync_request_old pmsg;
  release_sequenceLock.

Definition sync_commit (now : Z) (pmsg : Propose) : Hm () :=
  _ ← sync_Commit now pmsg;
  _ ← modify (fun n => n <| h_isReply ::= <[pr_Digest pmsg := true]> |>
                         <| h_sequenceID ::= fun s => u64 (s + 1) |>);
  release_sequenceLock.

(** The timer of the [k]-th sleeping [WaitToCommit]; it blocks while another
    one holds [node.lock]. *)
Definition WaitToCommit (now : Z) (k : nat) : Hm () :=
  n ← get;
  match h_waiting (h_procs n) !! k with
  | None => mret tt
  | Some pmsg =>
      match h_asking (h_procs n) with
      | Some _ => block
      | None =>
          _ ← modify (fun n => n <| h_procs ::= fun q => q <| h_waiting ::= delete k |> |>);
          match h_requestPool n !! pr_Digest pmsg with
          | None =>
              _ ← modify (fun n => n <| h_isReply ::= <[pr_Digest pmsg := true]> |>);
              if h_askForLock n then
                modify (fun n => n <| h_procs ::= fun q => q <| h_asking := Some pmsg |> |>)
              else ask_old pmsg
          | Some _ => sync_commit now pmsg
          end
      end
  end.

(** The one that waits for [askForLock] gets it. *)
Definition resume_asking : Hm () :=
  n ← get;
  match h_asking (h_procs n) with
  | None => mret tt
  | Some pmsg =>
      if h_askForLock n then block
      else
        _ ← modify (fun n => n <| h_procs ::= fun q => q <| h_asking := None |> |>);
        ask_old pmsg
  end.

(** ** handleVote *)
Definition count_vote (d : bytes) : Hm () :=
  n ← get;
  if h_NodeID n =? h_view n then
    modify (fun n => n <| h_cntVoteConfirm ::= fun m => <[d := default 0 (m !! d) + 1]> m |>)
  else mret tt.

(** [node.pBreak <- 1] on the nil channel *)
Definition send_pBreak : Hm () := block.

Definition handleVote (content : bytes) : Hm () :=
  vmsg ← lift (must (json_dec content : option Vote));
  _ ← count_vote (vt_Digest vmsg);
  n ← get;
  if negb (bool_decide (vt_Digest vmsg = default ""%string (h_height2Digest n !! vt_SeqID vmsg)))
     && (vt_SeqID vmsg =? h_sequenceID n) then send_pBreak
  else if h_sequenceID n <? vt_SeqID vmsg then
    match h_requestPool n !! vt_Digest vmsg with
    | Some _ => mret tt
    | None => accept_proposal (mkPropose (vt_RequestMsg vmsg) (vt_Digest vmsg) (vt_SeqID vmsg))
    end
  else mret tt.

(** ** Old requests *)
Definition sync_handleRequestOldSeq (content : bytes) : Hm () :=
  n ← get;
  if negb (h_view n =? h_NodeID n) then mret tt
  else
    rom ← lift (must (json_dec content));
    let oldR := old_requests (S (size (h_height2Digest n))) (h_height2Digest n) (h_requestPool n)
                  (ro_SeqStartHeight rom) (ro_SeqEndHeight rom) in
    _ ← sync_HandleReqestforOldSeq rom;
    n ← get;
    let sb := mkSendOldMessage (ro_SeqStartHeight rom) (ro_SeqEndHeight rom) oldR (h_RunningNode n) in
    sync_dial CSendOldrequest (json_enc sb) (nd_IPaddr (ro_SenderNode rom)).

Definition sync_adopt_request (beginSeq : Z) (ir : Z * Request) n : SyncHotstuffConsensusNode :=
  let '(idx, r) := ir in
  n <| h_requestPool ::= <[getDigest r := r]> |>
    <| h_height2Digest ::= <[u64 (idx + beginSeq) := getDigest r]> |>
    <| h_isReply ::= <[getDigest r := true]> |>.

Definition unlock_ask : Hm () :=
  n ← get;
  if h_askForLock n then modify (fun n => n <| h_askForLock := false |>) else panic.

Definition sync_handleSendOldSeq (content : bytes) : Hm () :=
  som ← lift (must (json_dec content));
  _ ← sync_HandleforSequentialRequest som;
  _ ← modify (fun n => foldl (fun n ir => sync_adopt_request (so_SeqStartHeight som) ir n) n
                         (indexed (so_OldRequest som)));
  _ ← modify (fun n => n <| h_sequenceID := u64 (so_SeqEndHeight som + 1) |>);
  unlock_ask.

(** ** The stop signal: the leader's message loop waits until [Propose] or
    [TxTransform] takes it from the channel. *)
Definition sync_WaitToStop : Hm () :=
  _ ← modify (fun n => n <| h_stop := true |>);
  n ← get;
  if h_NodeID n =? h_view n then
    modify (fun n => n <| h_procs ::= fun q => q <| h_sending := true |> |>)
  else mret tt.

Definition stop_propose : Hm () :=
  n ← get;
  match h_propose_pc (h_procs n) with
  | AtSelect =>
      if h_sending (h_procs n) then
        modify (fun n => n <| h_procs ::= fun q => q <| h_sending := false |> <| h_propose_pc := Returned |> |>)
      else block
  | _ => block
  end.

Definition stop_tx : Hm () :=
  n ← get;
  if h_sending (h_procs n) && h_txing (h_procs n) then
    modify (fun n => n <| h_procs ::= fun q => q <| h_sending := false |> <| h_txing := false |> |>)
  else block.

Definition sync_handleMessage (now : Z) (msg : bytes) : Hm () :=
  '(msgType, content) ← lift (SplitMessage msg);
  if bool_decide (msgType = CPropose) then handlePropose content
  else if bool_decide (msgType = CVote) then handleVote content
  else if bool_decide (msgType = CRequestOldrequest) then sync_handleRequestOldSeq content
  else if bool_decide (msgType = CSendOldrequest) then sync_handleSendOldSeq content
  else if bool_decide (msgType = CStop) then sync_WaitToStop
  else
    _ ← HandleMessageOutsideConsensus now msgType content;
    mret tt.

Definition sync_step (i : SyncInput) : Hm () :=
  match i with
  | SyncReceive now msg =>
      n ← get;
      if h_stop n then mret tt else sync_handleMessage now msg
  | SyncRunPropose now => sync_propose_step now
  | SyncRunTx now chs => sync_tx_step now chs
  | SyncTimer now k => WaitToCommit now k
  | SyncAsk => resume_asking
  | SyncStopPropose => stop_propose
  | SyncStopTx => stop_tx
  end.

Inductive sync_run : SyncHotstuffConsensusNode -> list (SyncInput * list Event) ->
    SyncHotstuffConsensusNode -> Prop :=
  | sync_run_refl n : sync_run n [] n
  | sync_run_step n tr n1 i n2 evs :
      sync_run n tr n1 -> sync_step i n1 = Ret (tt, n2, evs) -> sync_run n (tr ++ [(i, evs)]) n2.
End handlers.
End node.
Arguments SyncHotstuffInsideExtraHandleMod {TL BL}.
Arguments SyncHotstuffOutsideHandleMod {TL BL}.
Abbreviation Hm := (M SyncHotstuffConsensusNode Event).

(** ** synchotstuffMod_Relay_utxo.go and synchotstuff_OutsideModRelay.go *)
Section modules.
Context (P : Params).
Context {TL : TrieLib} {BL : BoltLib} {HL : Sha256} {CC : CoreCodecs} {MC : MsgCodecs}.
Implicit Types (n : SyncHotstuffConsensusNode).

Definition Sync_HandleinPropose (pmsg : Propose) : Hm bool :=
  n ← get;
  b ← lift (must (dec (req_Msg (pr_RequestMsg pmsg))));
  match IsValidUTXOBlock b (h_CurChain n) with
  | Some _ => mret false
  | None =>
      _ ← modify (fun n => n <| h_requestPool ::= <[pr_Digest pmsg := pr_RequestMsg pmsg]> |>);
      mret true
  end.

Definition sync_send_relay n (pool : Pool UTXOTransaction) (sid : Z) : Hm () :=
  if skips_shard (h_CurChain n) (h_ShardID n) sid then mret tt
  else sync_dial CRelay
         (json_enc (mkRelayUTXO (default [] (relay_lookup pool sid)) (h_ShardID n) (h_sequenceID n)))
         (sync_ip n sid 0).

Definition sync_relay_and_report (now : Z) (b : Block) (accepted : bool) (ReqTime : Z) : Hm () :=
  n ← get;
  s ← lift (utxo_relay_txs P (h_CurChain n) (h_ShardID n) (b_UTXO b));
  _ ← forM (shard_ids (ShardNums (h_ChainConfig n))) (sync_send_relay n (ul_pool s));
  _ ← modify (fun n => n <| h_CurChain ::= after_utxo_relay s accepted |>);
  let bim := utxo_bim s b (h_ShardID n) ReqTime now in
  _ ← sync_dial CBlockInfo (json_enc bim) (sync_ip n DeciderShard 0);
  emit (CSVline [Z.of_nat (length (TxQueue (bc_Txpool (h_CurChain n)))); Z.of_nat (length (ul_excuted s));
                 bim_Relay1TxNum bim]).

Definition Sync_Commit (now : Z) (pmsg : Propose) : Hm bool :=
  n ← get;
  r ← lift (must (h_requestPool n !! pr_Digest pmsg));
  b ← lift (must (dec (req_Msg r)));
  bc ← lift (AddBlock P b (h_CurChain n));
  _ ← modify (fun n => n <| h_CurChain := bc |>);
  _ ← (if h_NodeID n =? h_view n then
         sync_relay_and_report now b (next_height b (h_CurChain n)) (req_ReqTime r)
       else mret tt);
  mret true.

Definition Sync_HandleinVote (vmsg : Vote) : Hm bool := mret true.
Definition Sync_HandleReqestforOldSeq (rom : RequestOldMessage) : Hm bool := mret true.

Definition Sync_HandleforSequentialRequest (som : SendOldMessage) : Hm bool :=
  let len := i64 (u64 (so_SeqEndHeight som - so_SeqStartHeight som + 1)) in
  if negb (len =? Z.of_nat (length (so_OldRequest som))) then mret true
  else
    n ← get;
    bc ← lift (add_old_blocks P (S (length (so_OldRequest som))) (so_OldRequest som)
           (so_SeqStartHeight som) (so_SeqEndHeight som) (so_SeqStartHeight som) (h_CurChain n));
    _ ← modify (fun n => n <| h_CurChain := bc |>
                            <| h_sequenceID := u64 (so_SeqEndHeight som + 1) |>);
    mret true.

#[global] Instance RawUTXORelayExtraHandleMod : SyncHotstuffInsideExtraHandleMod := {|
  sync_HandleinPropose := Sync_HandleinPropose;
  sync_Commit := Sync_Commit;
  sync_HandleinVote := Sync_HandleinVote;
  sync_HandleReqestforOldSeq := Sync_HandleReqestforOldSeq;
  sync_HandleforSequentialRequest := Sync_HandleforSequentialRequest |}.

Definition Sync_handleRelay (rnd : Z -> Z) (now : Z) (content : bytes) : Hm () :=
  relay ← lift (must (json_dec content : option RelayUTXO));
  modify (fun n => n
    <| h_CurChain ::= receive_relay now rnd (ru_Txs relay) |>
    <| h_seqIDMap ::= <[ru_SenderShardID relay := ru_SenderSeq relay]> |>).

Definition Sync_handleInjectTx (now : Z) (content : bytes) : Hm () :=
  it ← lift (must (json_dec content));
  modify (fun n => n
    <| h_CurChain ::= fun bc => bc <| bc_Txpool ::= TxPool_AddTxs2Pool now (it_Txs it) |> |>).

Definition Sync_HandleMessageOutsideConsensus (rnd : Z -> Z) (now : Z) (msgType : MessageType)
    (content : bytes) : Hm bool :=
  _ ← (if bool_decide (msgType = CRelay) then Sync_handleRelay rnd now content
       else if bool_decide (msgType = CInject) then Sync_handleInjectTx now content
       else mret tt);
  mret true.

#[global] Instance SyncUTXORelayOutsideModule (rnd : Z -> Z) : SyncHotstuffOutsideHandleMod := {|
  HandleMessageOutsideConsensus := Sync_HandleMessageOutsideConsensus rnd |}.
End modules.
