(* ===== verification/HotstuffProps.v ===== *)
(** * HotstuffProps: what a SyncHotstuff node guarantees, and where it stops *)
From stdpp Require Import base gmap strings list countable.
From Stdlib Require Import ZArith Lia.
From S2P Require Import Prelude GoStd Libs Core Pools Messages StorageDB Chain Ledger Execution Pbft PbftProps RelayMod RelayProps UtxoSet UtxoMod UtxoModProps Hotstuff.

Section props.
Context (P : Params) (rnd : Z -> Z).
Context {TL : TrieLib} {BL : BoltLib} {HL : Sha256} {CC : CoreCodecs} {MC : MsgCodecs} {ML : MsgCodecsLaws}.
Implicit Types (n : SyncHotstuffConsensusNode) (pm : Propose).
#[local] Instance inside : SyncHotstuffInsideExtraHandleMod := RawUTXORelayExtraHandleMod P.
#[local] Instance outside : SyncHotstuffOutsideHandleMod := SyncUTXORelayOutsideModule rnd.

(** ** Broadcasts *)
Lemma sync_broadcast_spec t content n a n' o :
  sync_broadcast t content n = Ret (a, n', o) ->
  n' = n /\ exists m, MergeMessage t content = Ret m /\ forall e, e ∈ o -> exists ip, e = TcpDial m ip.
Proof.
  unfold sync_broadcast. intros (m & s1 & o1 & o2 & H1 & H2 & ->)%M_bind_Ret.
  unfold lift in H1. destruct (MergeMessage t content) as [m'| |] eqn:Hm; [|done..].
  injection H1 as -> <- <-. rewrite get_bind in H2. cbn [app].
  enough (Hl : n' = n /\ forall e, e ∈ o2 -> exists ip, e = TcpDial m ip) by (split; [tauto|exists m; tauto]).
  revert a o2 H2. induction (sync_getNeighborNodes n) as [|ip l IH]; intros a o2 H2; cbn [forM] in H2.
  - injection H2 as <- <- <-. split; [done|]. by intros e ?%not_elem_of_nil.
  - apply M_bind_Ret in H2 as (u & s2 & o3 & o4 & H3 & H4 & ->).
    assert (s2 = n /\ forall e, e ∈ o3 -> exists ip, e = TcpDial m ip) as [-> Ho].
    { case_bool_decide; injection H3 as <- <- <-; (split; [done|]); [by intros e ?%not_elem_of_nil|].
      intros e ->%list_elem_of_singleton. by eexists. }
    destruct (IH _ _ H4) as [-> Ho2]. split; [done|]. intros e [?|?]%elem_of_app; auto.
Qed.

Lemma sync_broadcast_returns t content n :
  t ∈ message_types -> exists m o, MergeMessage t content = Ret m /\
    sync_broadcast t content n = Ret (tt, n, o) /\
    forall ip, ip ∈ sync_getNeighborNodes n -> ip <> nd_IPaddr (h_RunningNode n) -> TcpDial m ip ∈ o.
Proof.
  intros Ht. destruct (MergeMessage_ok t content (message_types_ok t Ht)) as [m Hmsg].
  unfold sync_broadcast. rewrite Hmsg. exists m.
  enough (Hl : exists o, (forM (sync_getNeighborNodes n) (fun ip =>
      if bool_decide (ip = nd_IPaddr (h_RunningNode n)) then mret tt else emit (TcpDial m ip)) : Hm ()) n
      = Ret (tt, n, o) /\ forall ip, ip ∈ sync_getNeighborNodes n -> ip <> nd_IPaddr (h_RunningNode n) -> TcpDial m ip ∈ o).
  { destruct Hl as (o & H1 & H2). exists o. split; [done|]. split; [|exact H2].
    etransitivity; [apply (lift_bind (Ret m)); reflexivity|]. rewrite get_bind. exact H1. }
  induction (sync_getNeighborNodes n) as [|ip l IH]; cbn [forM].
  - exists []. split; [done|]. by intros ip ?%not_elem_of_nil.
  - destruct IH as (o & H1 & H2).
    exists ((if bool_decide (ip = nd_IPaddr (h_RunningNode n)) then [] else [TcpDial m ip]) ++ o). split.
    + eapply bind_returns; [|exact H1]. by case_bool_decide.
    + intros ip' [->|Hin]%elem_of_cons Hne; [rewrite bool_decide_false by done; left|].
      apply elem_of_app. right. by apply H2.
Qed.

Lemma bind_silent {A B} (m : Hm A) (f : A -> Hm B) n a n1 :
  m n = Ret (a, n1, []) -> (m ≫= f) n = f a n1.
Proof. intros H. unfold mbind, M_bind. rewrite H. destruct (f a n1) as [[[b n2] o]| |]; done. Qed.

(** ** A vote and its proposal *)

(** C34: a vote must not overtake its proposal.  A node that has
    recorded the proposal of its current height takes a vote for it and
    changes nothing but the leader's count.  A node that has recorded nothing
    at this height takes the same vote for an equivocation and blocks for ever,
    sending on the channel that is never made; and so it does on a vote for
    any other proposal of this height. *)
Theorem vote_order now m content v n :
  h_stop n = false -> SplitMessage m = Ret (CVote, content) -> json_dec content = Some v ->
  vt_SeqID v = h_sequenceID n -> vt_Digest v <> EmptyString ->
  (h_height2Digest n !! vt_SeqID v = Some (vt_Digest v) ->
     exists cnt, sync_step P (SyncReceive now m) n = Ret (tt, n <| h_cntVoteConfirm := cnt |>, [])) /\
  (h_height2Digest n !! vt_SeqID v = None -> sync_step P (SyncReceive now m) n = Blocked) /\
  (forall d, h_height2Digest n !! vt_SeqID v = Some d -> d <> vt_Digest v ->
     sync_step P (SyncReceive now m) n = Blocked).
Proof.
  intros Hst Hs Hd Hseq Hne.
  assert (Hh : sync_step P (SyncReceive now m) n = handleVote content n).
  { cbn [sync_step]. rewrite get_bind, Hst. unfold sync_handleMessage. rewrite Hs.
    etransitivity; [apply (lift_bind (Ret (CVote, content))); reflexivity|]. reflexivity. }
  rewrite !Hh. clear Hh.
  assert (Hc : exists cnt, count_vote (vt_Digest v) n = Ret (tt, n <| h_cntVoteConfirm := cnt |>, [])).
  { unfold count_vote. rewrite get_bind. destruct (_ =? _); [by eexists|].
    exists (h_cntVoteConfirm n). by destruct n. }
  destruct Hc as [cnt Hc].
  unfold handleVote. rewrite Hd.
  erewrite (lift_bind (Ret v) _ _ v) by reflexivity. rewrite (bind_silent _ _ _ _ _ Hc), get_bind.
  cbn [h_height2Digest h_sequenceID set_field SyncHotstuffConsensusNode_eta].
  rewrite Hseq, Z.eqb_refl, Z.ltb_irrefl. split; [|split].
  - intros Hr. exists cnt. rewrite Hr. cbn [default from_option id]. by rewrite bool_decide_true.
  - intros Hr. rewrite Hr. cbn [default from_option id]. by rewrite bool_decide_false.
  - intros d Hr Hne'. rewrite Hr. cbn [default from_option id]. rewrite bool_decide_false by congruence. done.
Qed.

(** ** A round *)
Context (HU : UTXO P = true) {BW : BoltLaws BL} {BV : BoltLive BL} {CL : CoreCodecsLaws}.

(** The block of the packed UTXO transactions. *)
Lemma GenerateBlock_utxo now bc :
  let packed := (UTXOTxPool_PackTxs (BlockSize (bc_ChainConfig bc)) (bc_UTXOTxpool bc)).1 in
  exists b pool, GenerateBlock P now bc = Ret (b, bc <| bc_UTXOTxpool := pool |>) /\
    b_UTXO b = packed /\ IsValidUTXOBlock b bc = None /\
    bh_Number (b_Header b) = u64 (bh_Number (b_Header (bc_CurrentBlock bc)) + 1).
Proof.
  intros packed. unfold GenerateBlock. rewrite HU. subst packed.
  destruct (UTXOTxPool_PackTxs _ _) as [txs pool]. cbn [mbind res_bind fst].
  eexists _, pool. split; [reflexivity|]. split; [done|]. split; [|done].
  unfold IsValidUTXOBlock. cbn. by rewrite !bool_decide_true by done.
Qed.

Lemma AddBlock_utxo b bc :
  storage_ok (bc_Storage bc) -> storable b ->
  bh_Number (b_Header b) = u64 (bh_Number (b_Header (bc_CurrentBlock bc)) + 1) ->
  exists s, AddBlock P b bc = Ret (bc <| bc_CurrentBlock := b |> <| bc_Storage := s |>) /\ storage_ok s.
Proof.
  intros Hs Hb Hn. destruct (Storage_AddBlock_total b _ Hs Hb) as [s Ha].
  exists s. split; [|by destruct (Storage_AddBlock_chain _ _ _ Hs Ha)].
  unfold AddBlock. rewrite Hn, Z.eqb_refl, HU. cbn [negb]. rewrite andb_false_r. cbn [mbind res_bind].
  change (bc_Storage (bc <| bc_CurrentBlock := b |>)) with (bc_Storage bc). by rewrite Ha.
Qed.

(** A payment has a shard to go to. *)
Definition pay_ok (bc : BlockChain) (tx : UTXOTransaction) : Prop :=
  IsCoinbase tx = true \/ is_Ret (Get_PartitionMap P (utx_Recipient tx) bc).

Lemma utxo_relay_total bc shard utxos : Forall (pay_ok bc) utxos -> exists s, utxo_relay_txs P bc shard utxos = Ret s.
Proof.
  intros Hall. unfold utxo_relay_txs.
  destruct (foldM_total (fun s => is_Some (RelayPool (ul_pool s))) (utxo_relay_tx P bc shard) utxos
    (mkUTXORelayLoop [] [] [] (bc_UTXOTxpool bc <| RelayPool := Some ∅ |>))) as (s & Hs & _).
  - by eexists.
  - intros s tx Hin Hs. unfold utxo_relay_tx. rewrite list.Forall_forall in Hall.
    destruct (IsCoinbase tx) eqn:E; [by eexists|].
    destruct (Hall tx Hin) as [Hc|[r Hr]]; [congruence|]. rewrite Hr. cbn [mbind res_bind].
    destruct (negb _); [|by eexists]. unfold UTXOTxPool_AddRelayTx.
    destruct (pool_AddRelayTx _ r (ul_pool s)) as [pl| |] eqn:Ep;
      [|unfold pool_AddRelayTx in Ep; destruct Hs as [m Hm]; by rewrite Hm in Ep..].
    cbn [mbind res_bind]. eexists. split; [done|]. by eapply pool_AddRelayTx_open.
  - by exists s.
Qed.

Lemma sync_dial_returns t content addr n :
  t ∈ message_types -> exists o, sync_dial t content addr n = Ret (tt, n, o).
Proof.
  intros Ht. destruct (MergeMessage_ok t content (message_types_ok t Ht)) as [m Hm].
  exists [TcpDial m addr]. unfold sync_dial. rewrite Hm.
  etransitivity; [apply (lift_bind (Ret m)); reflexivity|]. done.
Qed.

Lemma sync_report_returns now b acc rt n :
  Forall (pay_ok (h_CurChain n)) (b_UTXO b) ->
  exists s o, sync_relay_and_report P now b acc rt n = Ret (tt, n <| h_CurChain ::= after_utxo_relay s acc |>, o).
Proof.
  intros Hall. destruct (utxo_relay_total (h_CurChain n) (h_ShardID n) (b_UTXO b) Hall) as [s Hs].
  exists s. unfold sync_relay_and_report. rewrite get_bind, Hs.
  erewrite (lift_bind (Ret s) _ _ s) by reflexivity.
  assert (Hloop : exists o, (forM (shard_ids (ShardNums (h_ChainConfig n))) (sync_send_relay n (ul_pool s))) n
    = Ret (tt, n, o)).
  { induction (shard_ids _) as [|sid sids [o IH]]; cbn [forM]; [by exists []|].
    assert (H1 : exists o1, sync_send_relay n (ul_pool s) sid n = Ret (tt, n, o1)).
    { unfold sync_send_relay. case_match; [by exists []|].
      apply sync_dial_returns, (bool_decide_unpack _). reflexivity. }
    destruct H1 as [o1 H1]. exists (o1 ++ o). by eapply bind_returns. }
  destruct Hloop as [o1 Hloop].
  edestruct (sync_dial_returns CBlockInfo) as [o2 Hd]; [apply (bool_decide_unpack _); reflexivity|].
  eexists. eapply bind_returns; [exact Hloop|]. rewrite modify_bind. eapply bind_returns; [exact Hd|]. reflexivity.
Qed.

Lemma Sync_Commit_returns now pm n r b bc :
  h_requestPool n !! pr_Digest pm = Some r -> req_Msg r = enc b -> AddBlock P b (h_CurChain n) = Ret bc ->
  (h_NodeID n = h_view n -> Forall (pay_ok bc) (b_UTXO b)) ->
  exists bc' o, Sync_Commit P now pm n = Ret (true, n <| h_CurChain := bc' |>, o) /\
    tip_of (bc_CurrentBlock bc') = tip_of (bc_CurrentBlock bc) /\ bc_Storage bc' = bc_Storage bc /\
    bc_PartitionMap bc' = bc_PartitionMap bc.
Proof.
  intros Hr Hb Ha Hall. unfold Sync_Commit. rewrite get_bind, Hr.
  erewrite (lift_bind (Ret r) _ _ r) by reflexivity. rewrite Hb, dec_enc.
  erewrite (lift_bind (Ret b) _ _ b) by reflexivity. rewrite Ha.
  erewrite (lift_bind (Ret bc) _ _ bc) by reflexivity. rewrite modify_bind.
  destruct (Z.eqb_spec (h_NodeID n) (h_view n)) as [E|E].
  - destruct (sync_report_returns now b (next_height b (h_CurChain n)) (req_ReqTime r) (n <| h_CurChain := bc |>))
      as (s & o & Hs); [by apply Hall|].
    exists (after_utxo_relay s (next_height b (h_CurChain n)) bc), (o ++ []).
    split; [eapply bind_returns; [exact Hs|reflexivity]|]. unfold after_utxo_relay. cbn. split; [|done].
    by case_match.
  - exists bc, ([] ++ []). split; [|done]. by eapply bind_returns.
Qed.

(** A leader and a follower of the same shard. *)
Record sync_pair L F : Prop := mkSyncPair {
  sp_leader : h_NodeID L = h_view L;
  sp_follower : h_NodeID F <> h_view F;
  sp_seq : h_sequenceID L = h_sequenceID F;
  sp_tip : tip_of (bc_CurrentBlock (h_CurChain L)) = tip_of (bc_CurrentBlock (h_CurChain F));
  sp_store : storage_ok (bc_Storage (h_CurChain L)) /\ storage_ok (bc_Storage (h_CurChain F));
  sp_asking : h_asking (h_procs L) = None /\ h_asking (h_procs F) = None }.

Definition recorded (seq : Z) (r : Request) n : SyncHotstuffConsensusNode :=
  n <| h_requestPool ::= <[getDigest r := r]> |> <| h_height2Digest ::= <[seq := getDigest r]> |>.
Definition waits pm n : SyncHotstuffConsensusNode :=
  n <| h_procs ::= fun q => q <| h_waiting ::= fun l => l ++ [pm] |> |>.

(** The proposal of the leader. *)
Lemma sync_propose_returns now n b bc :
  GenerateBlock P now (h_CurChain n) = Ret (b, bc) ->
  let r := mkRequest BlockRequest (enc b) now in
  let pm := mkPropose r (getDigest r) (h_sequenceID n) in
  exists m o n', sync_propose_body P now n = Ret (tt, n', o) /\
    MergeMessage CPropose (json_enc pm) = Ret m /\
    (forall ip, ip ∈ sync_getNeighborNodes n -> ip <> nd_IPaddr (h_RunningNode n) -> TcpDial m ip ∈ o) /\
    n' = waits pm (recorded (h_sequenceID n) r (recorded (h_sequenceID n) r (n <| h_CurChain := bc |>))).
Proof.
  intros Hg r pm. unfold sync_propose_body. rewrite get_bind, Hg.
  erewrite (lift_bind (Ret (b, bc)) _ _ (b, bc)) by reflexivity. cbn beta iota. rewrite modify_bind.
  unfold record_request. rewrite modify_bind.
  match goal with |- context [(sync_broadcast _ ?c ≫= _) ?q] =>
    destruct (sync_broadcast_returns CPropose c q) as (m & o & Hm & Hbc & Hev) end;
    [apply (bool_decide_unpack _); reflexivity|].
  exists m, (o ++ []). eexists. split; [eapply bind_returns; [exact Hbc|reflexivity]|]. split; [exact Hm|].
  split; [|reflexivity]. intros ip H1 H2. rewrite app_nil_r. by apply Hev.
Qed.

(** The follower accepts a valid proposal it has not seen. *)
Lemma follower_accepts n b r seq :
  req_Msg r = enc b -> IsValidUTXOBlock b (h_CurChain n) = None -> h_requestPool n !! getDigest r = None ->
  let pm := mkPropose r (getDigest r) seq in
  exists m o n', handlePropose (json_enc pm) n = Ret (tt, n', o) /\
    MergeMessage CVote (json_enc (mkVote r (getDigest r) seq (h_RunningNode n))) = Ret m /\
    (forall ip, ip ∈ sync_getNeighborNodes n -> ip <> nd_IPaddr (h_RunningNode n) -> TcpDial m ip ∈ o) /\
    n' = waits pm (recorded seq r (n <| h_requestPool ::= <[getDigest r := r]> |>)).
Proof.
  intros Hr Hv Hnew pm. unfold handlePropose. rewrite json_dec_enc.
  erewrite (lift_bind (Ret pm) _ _ pm) by reflexivity. rewrite get_bind.
  change (pr_Digest pm) with (getDigest r). rewrite Hnew. unfold accept_proposal.
  change (pr_Digest pm) with (getDigest r). change (pr_RequestMsg pm) with r. change (pr_SeqID pm) with seq.
  rewrite bool_decide_true by done. cbn [negb]. rewrite bind_bind.
  assert (Hask : sync_HandleinPropose pm n = Ret (true, n <| h_requestPool ::= <[getDigest r := r]> |>, [])).
  { cbn [sync_HandleinPropose inside RawUTXORelayExtraHandleMod]. unfold Sync_HandleinPropose.
    rewrite get_bind. change (pr_RequestMsg pm) with r. rewrite Hr, dec_enc.
    erewrite (lift_bind (Ret b) _ _ b) by reflexivity. by rewrite Hv, modify_bind. }
  rewrite (bind_silent _ _ _ _ _ Hask), bind_bind. unfold record_request. rewrite modify_bind, ret_bind.
  cbn beta iota. unfold broadcast_vote. rewrite bind_bind, get_bind.
  match goal with |- context [(sync_broadcast _ ?c ≫= _) ?q] =>
    destruct (sync_broadcast_returns CVote c q) as (m & o & Hm & Hbc & Hev) end;
    [apply (bool_decide_unpack _); reflexivity|].
  exists m, (o ++ []). eexists. split; [eapply bind_returns; [exact Hbc|reflexivity]|].
  split; [exact Hm|]. split; [|reflexivity]. intros ip H1 H2. rewrite app_nil_r. by apply Hev.
Qed.

(** The timer of the last proposal a node waits for. *)
Lemma timer_returns now n pm r b bc :
  h_requestPool n !! pr_Digest pm = Some r -> req_Msg r = enc b -> AddBlock P b (h_CurChain n) = Ret bc ->
  (h_NodeID n = h_view n -> Forall (pay_ok bc) (b_UTXO b) /\ h_sequenceLock n = true) ->
  h_asking (h_procs n) = None ->
  exists n' o, sync_step P (SyncTimer now (length (h_waiting (h_procs n)))) (waits pm n) = Ret (tt, n', o) /\
    tip_of (bc_CurrentBlock (h_CurChain n')) = tip_of (bc_CurrentBlock bc) /\
    bc_Storage (h_CurChain n') = bc_Storage bc /\ h_sequenceID n' = u64 (h_sequenceID n + 1) /\
    h_NodeID n' = h_NodeID n /\ h_view n' = h_view n /\ h_asking (h_procs n') = None /\
    h_waiting (h_procs n') = h_waiting (h_procs n) /\
    h_sequenceLock n' = (if h_NodeID n =? h_view n then false else h_sequenceLock n).
Proof.
  intros Hr Hb Ha Hall Hask. cbn [sync_step]. unfold WaitToCommit. rewrite get_bind.
  change (h_waiting (h_procs (waits pm n))) with (h_waiting (h_procs n) ++ [pm]).
  change (h_asking (h_procs (waits pm n))) with (h_asking (h_procs n)).
  rewrite list_lookup_middle by done. rewrite Hask, modify_bind.
  change (h_requestPool (waits pm n)) with (h_requestPool n). rewrite Hr. unfold sync_commit.
  set (n1 := waits pm n <| h_procs ::= _ |>).
  assert (Hw : h_waiting (h_procs n1) = h_waiting (h_procs n)).
  { unfold n1, waits. cbn. rewrite delete_middle. by rewrite app_nil_r. }
  destruct (Sync_Commit_returns now pm n1 r b bc Hr Hb Ha) as (bc' & o & Hc & H1 & H2 & _); [intros E; by destruct (Hall E)|].
  assert (Hrel : exists n', (_ ← modify (fun n => n <| h_isReply ::= <[pr_Digest pm := true]> |>
                         <| h_sequenceID ::= fun s => u64 (s + 1) |>); release_sequenceLock)
      (n1 <| h_CurChain := bc' |>) = Ret (tt, n', []) /\
    h_CurChain n' = bc' /\ h_sequenceID n' = u64 (h_sequenceID n + 1) /\ h_NodeID n' = h_NodeID n /\
    h_view n' = h_view n /\ h_procs n' = h_procs n1 /\
    h_sequenceLock n' = (if h_NodeID n =? h_view n then false else h_sequenceLock n)).
  { rewrite modify_bind. unfold release_sequenceLock. rewrite get_bind. cbn -[u64].
    destruct (Z.eqb_spec (h_NodeID n) (h_view n)) as [E|E].
    - destruct (Hall E) as [_ Hl]. rewrite Hl. eexists. split; [reflexivity|]. done.
    - eexists. split; [reflexivity|]. done. }
  destruct Hrel as (n' & G1 & G2 & G3 & G4 & G5 & G6 & G7).
  exists n', (o ++ []). split; [eapply bind_returns; [exact Hc|exact G1]|]. rewrite G2, G6, Hw.
  split; [exact H1|]. split; [exact H2|]. split; [exact G3|]. split; [exact G4|]. split; [exact G5|].
  split; [|split; [done|exact G7]]. unfold n1, waits. cbn. exact Hask.
Qed.

Lemma pay_ok_ext bc bc' tx : bc_PartitionMap bc' = bc_PartitionMap bc -> pay_ok bc tx -> pay_ok bc' tx.
Proof. intros H. unfold pay_ok. by rewrite (Get_PartitionMap_ext P bc' bc). Qed.

Lemma receive_step t content m now n :
  h_stop n = false -> t ∈ message_types -> MergeMessage t content = Ret m ->
  t = CPropose -> sync_step P (SyncReceive now m) n = handlePropose content n.
Proof.
  intros Hst Ht Hm ->. cbn [sync_step]. rewrite get_bind, Hst. unfold sync_handleMessage.
  apply SplitMessage_MergeMessage in Hm; [|by apply message_types_ok]. rewrite Hm.
  etransitivity; [apply (lift_bind (Ret (CPropose, content))); reflexivity|]. reflexivity.
Qed.

(** Both ends of a round commit the block. *)
Lemma round_timers now1 now2 L F L0 F0 pm r b :
  sync_pair L F -> storable b -> req_Msg r = enc b ->
  bh_Number (b_Header b) = u64 (bh_Number (b_Header (bc_CurrentBlock (h_CurChain L))) + 1) ->
  Forall (pay_ok (h_CurChain L)) (b_UTXO b) ->
  (h_requestPool L0 !! pr_Digest pm = Some r /\ h_requestPool F0 !! pr_Digest pm = Some r) ->
  (exists pool, h_CurChain L0 = h_CurChain L <| bc_UTXOTxpool := pool |>) -> h_CurChain F0 = h_CurChain F ->
  (h_sequenceID L0 = h_sequenceID L /\ h_NodeID L0 = h_NodeID L /\ h_view L0 = h_view L /\ h_sequenceLock L0 = true) ->
  (h_sequenceID F0 = h_sequenceID F /\ h_NodeID F0 = h_NodeID F /\ h_view F0 = h_view F) ->
  (h_asking (h_procs L0) = None /\ h_asking (h_procs F0) = None) ->
  exists L2 F2 o1 o2,
    sync_step P (SyncTimer now1 (length (h_waiting (h_procs L0)))) (waits pm L0) = Ret (tt, L2, o1) /\
    sync_step P (SyncTimer now2 (length (h_waiting (h_procs F0)))) (waits pm F0) = Ret (tt, F2, o2) /\
    sync_pair L2 F2 /\ h_sequenceID L2 = u64 (h_sequenceID L + 1) /\
    tip_of (bc_CurrentBlock (h_CurChain L2)) = tip_of b /\ h_sequenceLock L2 = false /\
    h_waiting (h_procs L2) = h_waiting (h_procs L0) /\ h_waiting (h_procs F2) = h_waiting (h_procs F0).
Proof.
  intros [SL SF Ss St [SsL SsF] _] Hb Hr Hn Hpay [RL RF] [pool CL0] CF0 (E1 & E2 & E3 & E4) (E5 & E6 & E7) [A1 A2].
  assert (HtF : bh_Number (b_Header (bc_CurrentBlock (h_CurChain F)))
    = bh_Number (b_Header (bc_CurrentBlock (h_CurChain L)))) by (injection St as St _; by rewrite St).
  destruct (AddBlock_utxo b (h_CurChain L0)) as (sL & HaL & KL); [by rewrite CL0|done|by rewrite CL0|].
  destruct (AddBlock_utxo b (h_CurChain F0)) as (sF & HaF & KF); [by rewrite CF0|done|by rewrite CF0, HtF|].
  destruct (timer_returns now1 L0 pm r b _ RL Hr HaL) as (L2 & o1 & T1 & G1 & G2 & G3 & G4 & G5 & G6 & G7 & G8); [|done|].
  { intros _. split; [|done]. eapply list.Forall_impl; [exact Hpay|]. intros tx. apply pay_ok_ext. by rewrite CL0. }
  destruct (timer_returns now2 F0 pm r b _ RF Hr HaF) as (F2 & o2 & T2 & K1 & K2 & K3 & K4 & K5 & K6 & K7 & _); [|done|].
  { intros E. exfalso. apply SF. congruence. }
  exists L2, F2, o1, o2. split; [exact T1|]. split; [exact T2|]. cbn in G1, G2, K1, K2.
  assert (Hlead : h_NodeID L0 = h_view L0) by congruence. rewrite Hlead, Z.eqb_refl in G8.
  split; [split; [congruence..|by rewrite G2, K2|done]|]. rewrite G3, E1. by split_and!.
Qed.

(** C32: a round of SyncHotstuff keeps leader and follower at the
    same block.  From the same tip, the leader's proposal is a block of the
    packed UTXO transactions, sent to every other node; a follower that has
    not seen it accepts it, votes and starts to wait; and when both timers fire
    both have appended the block, one sequence number higher, the leader's
    mutex is free again and the two are ready for the next round. *)
Theorem sync_round now L F :
  sync_pair L F -> h_propose_pc (h_procs L) = AtLock -> h_sequenceLock L = false -> h_stop F = false ->
  let packed := (UTXOTxPool_PackTxs (BlockSize (bc_ChainConfig (h_CurChain L))) (bc_UTXOTxpool (h_CurChain L))).1 in
  Forall (pay_ok (h_CurChain L)) packed ->
  exists b r mP L1 oL,
    sync_step P (SyncRunPropose now) L = Ret (tt, L1, oL) /\ b_UTXO b = packed /\ req_Msg r = enc b /\
    MergeMessage CPropose (json_enc (mkPropose r (getDigest r) (h_sequenceID L))) = Ret mP /\
    (forall ip, ip ∈ sync_getNeighborNodes L -> ip <> nd_IPaddr (h_RunningNode L) -> TcpDial mP ip ∈ oL) /\
    (h_requestPool F !! getDigest r = None -> forall now', exists mV F1 oF,
       sync_step P (SyncReceive now' mP) F = Ret (tt, F1, oF) /\
       MergeMessage CVote (json_enc (mkVote r (getDigest r) (h_sequenceID L) (h_RunningNode F))) = Ret mV /\
       (forall ip, ip ∈ sync_getNeighborNodes F -> ip <> nd_IPaddr (h_RunningNode F) -> TcpDial mV ip ∈ oF) /\
       (storable b -> forall now1 now2, exists L2 F2 o1 o2,
          sync_step P (SyncTimer now1 (length (h_waiting (h_procs L)))) L1 = Ret (tt, L2, o1) /\
          sync_step P (SyncTimer now2 (length (h_waiting (h_procs F)))) F1 = Ret (tt, F2, o2) /\
          sync_pair L2 F2 /\ h_sequenceID L2 = u64 (h_sequenceID L + 1) /\
          tip_of (bc_CurrentBlock (h_CurChain L2)) = tip_of b /\ h_sequenceLock L2 = false /\
          h_waiting (h_procs L2) = h_waiting (h_procs L) /\ h_waiting (h_procs F2) = h_waiting (h_procs F))).
Proof.
  intros Hpair Hpc Hlock Hstop packed Hpay. pose proof Hpair as [SL SF Ss St SS [SA1 SA2]].
  destruct (GenerateBlock_utxo now (h_CurChain L)) as (b & pool & Hg & Hbody & Hvalid & Hnum).
  set (r := mkRequest BlockRequest (enc b) now).
  pose (Llock := L <| h_sequenceLock := true |>).
  destruct (sync_propose_returns now Llock b _ Hg) as (m & o & n1 & Hp & Hm & Hev & Hn1).
  fold r in Hm, Hn1. set (L0 := recorded _ _ (recorded _ _ _)) in Hn1.
  pose (Lw := L0 <| h_procs ::= fun q => q <| h_propose_pc := AtSelect |> |>).
  exists b, r, m, (waits (mkPropose r (getDigest r) (h_sequenceID L)) Lw), (o ++ []).
  split; [|split; [exact Hbody|split; [done|split; [exact Hm|split]]]].
  - cbn [sync_step]. unfold sync_propose_step. rewrite get_bind, SL, Z.eqb_refl, Hpc, Hlock. cbn [negb].
    rewrite modify_bind. eapply bind_returns; [exact Hp|]. rewrite Hn1. reflexivity.
  - intros ip H1 H2. rewrite app_nil_r. by apply Hev.
  - intros Hnew now'.
    assert (HvF : IsValidUTXOBlock b (h_CurChain F) = None).
    { unfold IsValidUTXOBlock in *. injection St as _ St. by rewrite <- St. }
    destruct (follower_accepts F b r (h_sequenceID L) eq_refl HvF Hnew) as (mV & oF & F1 & HF & HmV & HevF & HF1).
    exists mV, F1, oF. split; [|split; [exact HmV|split; [exact HevF|]]].
    + rewrite (receive_step CPropose (json_enc (mkPropose r (getDigest r) (h_sequenceID L)))); [exact HF|done| |exact Hm|done].
      apply (bool_decide_unpack _). reflexivity.
    + intros Hst now1 now2. rewrite HF1.
      destruct (round_timers now1 now2 L F Lw
        (recorded (h_sequenceID L) r (F <| h_requestPool ::= <[getDigest r := r]> |>))
        (mkPropose r (getDigest r) (h_sequenceID L)) r b Hpair Hst eq_refl Hnum) as (L2 & F2 & o1 & o2 & H1 & H2 & H3).
      * by rewrite Hbody.
      * split; cbn; by rewrite lookup_insert_eq.
      * by exists pool.
      * done.
      * done.
      * done.
      * done.
      * exists L2, F2, o1, o2. split; [exact H1|]. split; [exact H2|]. exact H3.
Qed.

(** ** Waiting proposals *)
Definition not_ask (e : Event) : Prop :=
  match e with
  | TcpDial m _ => forall content, SplitMessage m <> Ret (CRequestOldrequest, content)
  | CSVline _ => True
  end.

(** Requests are kept, the goroutines and the mutex are left alone, and no
    old request is asked for. *)
Definition stays n n' (o : list Event) : Prop :=
  (forall d, is_Some (h_requestPool n !! d) -> is_Some (h_requestPool n' !! d)) /\
  h_waiting (h_procs n') = h_waiting (h_procs n) /\ h_asking (h_procs n') = h_asking (h_procs n) /\
  h_askForLock n' = h_askForLock n /\ Forall not_ask o.

#[local] Instance stays_composes : Composes stays.
Proof.
  split; [by intros n|]. intros n1 n2 n3 o1 o2 (A1 & B1 & C1 & D1 & E1) (A2 & B2 & C2 & D2 & E2).
  split; [auto|]. split_and!; [congruence..|]. by apply Forall_app_2.
Qed.

Lemma stays_modify (f : SyncHotstuffConsensusNode -> SyncHotstuffConsensusNode) :
  (forall n, stays n (f n) []) -> obeys stays (modify f).
Proof. apply obeys_modify. Qed.

Lemma stays_emit t content m addr :
  t <> CRequestOldrequest -> t ∈ message_types -> MergeMessage t content = Ret m ->
  obeys stays (emit (TcpDial m addr) : Hm ()).
Proof.
  intros Hne Ht Hm. apply obeys_emit. intros n. split_and!; try done. apply list.Forall_singleton.
  intros content' Hm'. apply message_types_ok in Ht. apply SplitMessage_MergeMessage in Hm; [|done]. congruence.
Qed.

Lemma stays_lift {A B} (r : res A) (k : A -> Hm B) :
  (forall a, r = Ret a -> obeys stays (k a)) -> obeys stays (lift r ≫= k).
Proof.
  intros Hk n b n' o (a & s1 & o1 & o2 & H1 & H2 & ->)%M_bind_Ret. unfold lift in H1.
  destruct r as [a'| |]; [|done..]. injection H1 as -> <- <-. by eapply Hk.
Qed.

Lemma stays_broadcast t content :
  t <> CRequestOldrequest -> t ∈ message_types -> obeys stays (sync_broadcast t content).
Proof.
  intros Hne Ht. apply stays_lift. intros m Hm. apply obeys_bind; [apply _|apply obeys_get; apply _|]. intros n.
  apply obeys_forM; [apply _|]. intros ip _. case_bool_decide; [apply obeys_ret; apply _|by eapply stays_emit].
Qed.

Lemma stays_dial t content addr :
  t <> CRequestOldrequest -> t ∈ message_types -> obeys stays (sync_dial t content addr).
Proof. intros Hne Ht. apply stays_lift. intros m Hm. by eapply stays_emit. Qed.

Ltac stays_step :=
  first
    [ apply obeys_ret; apply _ | apply obeys_get; apply _ | apply obeys_lift; apply _
    | apply obeys_panic | apply obeys_block
    | apply stays_broadcast; [done|apply (bool_decide_unpack _); reflexivity]
    | apply stays_dial; [done|apply (bool_decide_unpack _); reflexivity]
    | apply stays_modify; intros ?; split_and!; try done; intros; cbn;
        repeat apply insert_keeps_request; done
    | apply obeys_emit; intros ?; split_and!; [done..|by repeat constructor]
    | apply obeys_forM; [apply _|intros ? ?]
    | apply obeys_bind; [apply _| |intros ?]
    | case_match ].
Ltac stays_ok := repeat stays_step.

Lemma stays_HandleinPropose pm : obeys stays (Sync_HandleinPropose pm).
Proof. unfold Sync_HandleinPropose. stays_ok. Qed.
Lemma stays_Commit now pm : obeys stays (Sync_Commit P now pm).
Proof. unfold Sync_Commit, sync_relay_and_report, sync_send_relay. stays_ok. Qed.
Lemma stays_outside now t c : obeys stays (Sync_HandleMessageOutsideConsensus rnd now t c).
Proof. unfold Sync_HandleMessageOutsideConsensus, Sync_handleRelay, Sync_handleInjectTx. stays_ok. Qed.
Lemma stays_sequential som : obeys stays (Sync_HandleforSequentialRequest P som).
Proof. unfold Sync_HandleforSequentialRequest. stays_ok. Qed.
#[local] Opaque Sync_HandleinPropose Sync_Commit Sync_HandleMessageOutsideConsensus
  Sync_HandleforSequentialRequest.

Lemma stays_count d : obeys stays (count_vote d).
Proof. unfold count_vote. stays_ok. Qed.
Lemma stays_vote pm : obeys stays (broadcast_vote pm).
Proof. unfold broadcast_vote. stays_ok. Qed.
Lemma stays_commit now pm : obeys stays (sync_commit now pm).
Proof. unfold sync_commit, release_sequenceLock. stays_ok; apply stays_Commit. Qed.
Lemma stays_requestOld c : obeys stays (sync_handleRequestOldSeq c).
Proof. unfold sync_handleRequestOldSeq. stays_ok. Qed.

(** Every proposal a node waits for is stored under its own digest, and
    nobody waits for or holds [askForLock]. *)
Definition waiting_ok n : Prop :=
  h_asking (h_procs n) = None /\ h_askForLock n = false /\
  Forall (fun pm => getDigest (pr_RequestMsg pm) = pr_Digest pm /\ is_Some (h_requestPool n !! pr_Digest pm))
    (h_waiting (h_procs n)).

Lemma stays_waiting n n' o : stays n n' o -> waiting_ok n -> waiting_ok n' /\ Forall not_ask o.
Proof.
  intros (A & B & C & D & E) (W1 & W2 & W3). split; [|done]. split_and!; [congruence..|].
  rewrite B. eapply list.Forall_impl; [exact W3|]. intros pm [H1 H2]. auto.
Qed.

(** What a step may do to the invariant. *)
Definition keeps_waiting n n' (o : list Event) : Prop := waiting_ok n -> waiting_ok n' /\ Forall not_ask o.

#[local] Instance keeps_waiting_composes : Composes keeps_waiting.
Proof.
  split; [by intros n H|]. intros n1 n2 n3 o1 o2 H1 H2 H. destruct (H1 H) as [H3 E1].
  destruct (H2 H3) as [H4 E2]. split; [done|]. by apply Forall_app_2.
Qed.

Lemma stays_keeps {A} (m : Hm A) : obeys stays m -> obeys keeps_waiting m.
Proof. intros H n a n' o Hm. intros Hw. eapply stays_waiting; [by eapply H|done]. Qed.

Lemma go_waits pm n :
  getDigest (pr_RequestMsg pm) = pr_Digest pm -> is_Some (h_requestPool n !! pr_Digest pm) ->
  waiting_ok n -> waiting_ok (waits pm n).
Proof. intros H1 H2 (W1 & W2 & W3). split_and!; [done..|]. apply Forall_app_2; [done|]. by apply list.Forall_singleton. Qed.

Lemma stays_lift_keeps {A B} (r : res A) (k : A -> Hm B) :
  (forall a, r = Ret a -> obeys keeps_waiting (k a)) -> obeys keeps_waiting (lift r ≫= k).
Proof.
  intros Hk n b n' o (a & s1 & o1 & o2 & H1 & H2 & ->)%M_bind_Ret. unfold lift in H1.
  destruct r as [a'| |]; [|done..]. injection H1 as -> <- <-. by eapply Hk.
Qed.

Lemma keeps_accept pm : obeys keeps_waiting (accept_proposal pm).
Proof.
  intros n a n' o H Hw. unfold accept_proposal in H. apply M_bind_Ret in H as (flag & n1 & o1 & o2 & H1 & H2 & ->).
  assert (Hfirst : obeys stays (if negb (bool_decide (getDigest (pr_RequestMsg pm) = pr_Digest pm)) then mret false
     else flag ← sync_HandleinPropose pm; _ ← record_request (pr_SeqID pm) (pr_RequestMsg pm); mret flag)).
  { clear. unfold record_request. stays_ok; apply stays_HandleinPropose. }
  destruct (stays_waiting n n1 o1 (Hfirst _ _ _ _ H1) Hw) as [W1 O1].
  destruct flag; [|injection H2 as <- <- <-; by rewrite app_nil_r].
  assert (Hpool : getDigest (pr_RequestMsg pm) = pr_Digest pm /\ is_Some (h_requestPool n1 !! pr_Digest pm)).
  { case_bool_decide as E; [|by injection H1]. split; [done|]. cbn [negb] in H1.
    apply M_bind_Ret in H1 as (f & n2 & o3 & o4 & _ & H1 & _). unfold record_request in H1.
    rewrite modify_bind in H1. injection H1 as _ <- _. cbn. rewrite <- E, lookup_insert_eq. by eexists. }
  apply M_bind_Ret in H2 as (u & n2 & o3 & o4 & H2 & H3 & ->). injection H3 as <- <- <-.
  pose proof (stays_vote pm _ _ _ _ H2) as Hs. destruct (stays_waiting _ _ _ Hs W1) as [W2 O2].
  rewrite app_nil_r. split; [|by apply Forall_app_2]. apply go_waits; [apply Hpool| |done]. apply Hs, Hpool.
Qed.

(** The step of the chosen case of a computation, by cases on how it goes on. *)
Lemma keeps_at_get {A} (g : SyncHotstuffConsensusNode -> Hm A) :
  (forall n a n' o, g n n = Ret (a, n', o) -> keeps_waiting n n' o) -> obeys keeps_waiting (get ≫= g).
Proof. intros H n a n' o. rewrite get_bind. apply H. Qed.

Lemma keeps_handlePropose c : obeys keeps_waiting (handlePropose c).
Proof.
  unfold handlePropose. apply obeys_bind; [apply _|apply obeys_lift; apply _|]. intros pm.
  apply obeys_bind; [apply _|apply obeys_get; apply _|]. intros n.
  case_match; [apply stays_keeps, stays_vote|apply keeps_accept].
Qed.

Lemma keeps_handleVote c : obeys keeps_waiting (handleVote c).
Proof.
  unfold handleVote. apply obeys_bind; [apply _|apply obeys_lift; apply _|]. intros v.
  apply obeys_bind; [apply _|apply stays_keeps, stays_count|]. intros _.
  apply obeys_bind; [apply _|apply obeys_get; apply _|]. intros n.
  case_match; [apply obeys_block|]. case_match; [|apply obeys_ret; apply _].
  case_match; [apply obeys_ret; apply _|apply keeps_accept].
Qed.

(** Without an outstanding request for old blocks, their arrival panics. *)
Lemma sendOld_panics c n a n' o : h_askForLock n = false -> sync_handleSendOldSeq c n <> Ret (a, n', o).
Proof.
  intros Hl H. unfold sync_handleSendOldSeq in H.
  apply M_bind_Ret in H as (som & n1 & o1 & o2 & H1 & H & _).
  unfold lift in H1. destruct (must _) as [som'| |]; [|done..]. injection H1 as -> <- _.
  apply M_bind_Ret in H as (b & n2 & o3 & o4 & H2 & H & _).
  pose proof (stays_sequential som _ _ _ _ H2) as (_ & _ & _ & Hs & _).
  rewrite modify_bind, modify_bind in H. unfold unlock_ask in H. rewrite get_bind in H.
  assert (Hf : forall l k, h_askForLock (foldl (fun n ir => sync_adopt_request (so_SeqStartHeight som) ir n) k l)
    = h_askForLock k).
  { induction l as [|[i r] l IH]; intros k; cbn [foldl]; [done|]. by rewrite IH. }
  cbn [h_askForLock set_field SyncHotstuffConsensusNode_eta] in H. rewrite Hf, Hs, Hl in H. done.
Qed.

Lemma keeps_message now m : obeys keeps_waiting (sync_handleMessage now m).
Proof.
  unfold sync_handleMessage. apply stays_lift_keeps. intros [t c] _.
  case_match; [apply keeps_handlePropose|]. case_match; [apply keeps_handleVote|].
  case_match; [apply stays_keeps, stays_requestOld|]. case_match.
  { intros n a n' o Hso (W1 & W2 & W3). by apply sendOld_panics in Hso. }
  case_match; [|apply stays_keeps, obeys_bind; [apply _|apply stays_outside|intros _; apply obeys_ret; apply _]].
  apply stays_keeps. unfold sync_WaitToStop. stays_ok.
Qed.

Lemma keeps_timer now k : obeys keeps_waiting (WaitToCommit now k).
Proof.
  unfold WaitToCommit. apply keeps_at_get. intros n a n' o H Hw. pose proof Hw as (W1 & W2 & W3).
  destruct (h_waiting (h_procs n) !! k) as [pm|] eqn:Ek; [|injection H as <- <- <-; done].
  rewrite W1, modify_bind in H. rewrite list.Forall_forall in W3.
  destruct (W3 pm) as [_ [r Hr]]; [by eapply list_elem_of_lookup_2|]. rewrite Hr in H.
  eapply (stays_waiting (n <| h_procs ::= fun q => q <| h_waiting ::= delete k |> |>));
    [by eapply stays_commit|]. split_and!; [done..|]. apply list.Forall_forall. intros x Hx. apply W3.
  eapply elem_of_submseteq; [exact Hx|]. apply sublist_submseteq, sublist_delete.
Qed.

Lemma keeps_propose now : obeys keeps_waiting (sync_propose_body P now).
Proof.
  unfold sync_propose_body. apply keeps_at_get. intros n a n' o H Hw.
  apply M_bind_Ret in H as ([b bc] & n1 & o1 & o2 & H1 & H & ->).
  unfold lift in H1. destruct (GenerateBlock P now (h_CurChain n)) as [[b' bc']| |]; [|done..].
  injection H1 as -> -> <- <-. unfold record_request in H. rewrite modify_bind in H. cbn beta zeta in H.
  set (r := mkRequest BlockRequest (enc b) now) in *. rewrite modify_bind in H.
  apply M_bind_Ret in H as (u & n2 & o3 & o4 & H2 & H & ->). apply sync_broadcast_spec in H2 as Hb.
  destruct Hb as [-> _]. rewrite modify_bind in H. injection H as <- <- <-.
  match type of H2 with sync_broadcast _ _ ?q = _ => assert (W2 : waiting_ok q /\ Forall not_ask o3) end.
  { eapply stays_waiting; [eapply stays_broadcast; [| |exact H2]; [done|apply (bool_decide_unpack _); reflexivity]|].
    eapply (stays_waiting n _ []); [|exact Hw]. split_and!; try done. intros d Hd. cbn. by apply insert_keeps_request. }
  rewrite app_nil_r. destruct W2 as [W2 O2]. split; [|done]. 
  pose (nb := n <| h_CurChain := bc |>).
  change (waiting_ok (waits (mkPropose r (getDigest r) (h_sequenceID n))
    (recorded (h_sequenceID n) r (recorded (h_sequenceID n) r nb)))).
  apply go_waits; [done|cbn; rewrite lookup_insert_eq; by eexists|].
  eapply (stays_waiting (recorded (h_sequenceID n) r nb) _ []); [|exact W2].
  split_and!; try done. intros d Hd. cbn. by apply insert_keeps_request.
Qed.

Lemma keeps_step i : obeys keeps_waiting (sync_step P i).
Proof.
  destruct i as [now m|now|now chs|now k| | |]; cbn [sync_step].
  - apply obeys_bind; [apply _|apply obeys_get; apply _|]. intros n. case_match; [apply obeys_ret; apply _|apply keeps_message].
  - unfold sync_propose_step, set_propose_pc. apply obeys_bind; [apply _|apply obeys_get; apply _|]. intros n.
    case_match; [apply obeys_ret; apply _|]. case_match; [apply stays_keeps; stays_ok| |apply obeys_ret; apply _..].
    case_match; [apply obeys_block|]. apply obeys_bind; [apply _|apply stays_keeps; stays_ok|]. intros _.
    apply obeys_bind; [apply _|apply keeps_propose|]. intros _. apply stays_keeps. stays_ok.
  - apply stays_keeps. unfold sync_tx_step. stays_ok.
  - apply keeps_timer.
  - unfold resume_asking. apply keeps_at_get. intros n a n' o H Hw. pose proof Hw as (W1 & _).
    rewrite W1 in H. injection H as <- <- <-. done.
  - apply stays_keeps. unfold stop_propose. stays_ok.
  - apply stays_keeps. unfold stop_tx. stays_ok.
Qed.

(** C33: what a SyncHotstuff node is going to commit is always a
    request it has stored under its own digest.  Over every run of a node that
    starts with nothing to wait for, whatever messages arrive, each proposal it
    waits for has the digest of its request and is stored; so the branch of
    [WaitToCommit] that asks the leader for missing blocks is never taken: no
    such message is ever sent, and blocks sent by the leader as an answer are
    never adopted, they stop the node. *)
Theorem sync_waiting n0 tr n :
  sync_run P n0 tr n -> waiting_ok n0 ->
  (forall pm, pm ∈ h_waiting (h_procs n) ->
     getDigest (pr_RequestMsg pm) = pr_Digest pm /\ is_Some (h_requestPool n !! pr_Digest pm)) /\
  (forall m addr content, TcpDial m addr ∈ concat tr.*2 -> SplitMessage m <> Ret (CRequestOldrequest, content)) /\
  (forall now m content, h_stop n = false -> SplitMessage m = Ret (CSendOldrequest, content) ->
     ~ is_Ret (sync_step P (SyncReceive now m) n)).
Proof.
  intros Hrun H0. assert (Hk : keeps_waiting n0 n (concat tr.*2)).
  { clear H0. induction Hrun as [n0|n0 tr n1 i n2 evs Hrun IH Hstep]; [apply composes_refl; apply _|].
    rewrite fmap_app, concat_app. cbn. rewrite app_nil_r. eapply composes_trans; [exact IH|].
    by eapply keeps_step. }
  destruct (Hk H0) as [(_ & W2 & W3) Ho]. rewrite list.Forall_forall in W3.
  pose proof (proj1 (list.Forall_forall _ _) Ho) as Ho2. clear Ho. split_and!.
  - exact W3.
  - intros m addr content Hin. exact (Ho2 _ Hin content).
  - intros now m content Hst Hs [[[u n'] o] H]. cbn [sync_step] in H. rewrite get_bind, Hst in H.
    unfold sync_handleMessage in H. rewrite Hs in H.
    erewrite (lift_bind (Ret (CSendOldrequest, content)) _ _ (CSendOldrequest, content)) in H by reflexivity.
    by apply sendOld_panics in H.
Qed.
End props.

(** *** Concrete runs *)
Module RefSync.
Export RefUTXOMod.
Definition sync_member (k : Z) : SyncHotstuffConsensusNode :=
  mkSync (peer k) 0 k (RefChain.fallback k) (RefChain.node k) ips 4 2 0 1 false
    ∅ ∅ ∅ ∅ false false ∅ (mkProcs AtLock (k =? 0) false [] None).
Definition sync_leader : SyncHotstuffConsensusNode :=
  sync_member 0 <| h_CurChain ::= fun bc => bc <| bc_UTXOTxpool := mkPool [mint; pay] None |> |>.

(** A proposal of height 1, and node 2's vote for it. *)
Definition vblock : Block :=
  mkBlock (zero_BlockHeader <| bh_Number := 1 |> <| bh_TxRoot := GetUTXOTxTreeRoot [mint; pay] |>) []
    [mint; pay] "hash1".
Definition vreq : Request := mkRequest BlockRequest (enc vblock) 1.
Definition vote : Vote := mkVote vreq (getDigest vreq) 1 (peer 2).
Definition vote_content : bytes := json_enc vote.

(** The follower takes the proposal. *)
Lemma member_accepts :
  exists m n evs, sync_step (IM := RawUTXORelayExtraHandleMod uparams) (OM := SyncUTXORelayOutsideModule (fun _ => 0))
      uparams (SyncReceive 5 m) (sync_member 1) = Ret (tt, n, evs) /\ length (h_waiting (h_procs n)) = 1%nat.
Proof.
  destruct (follower_accepts uparams (sync_member 1) vblock vreq 1 eq_refl) as (m & o & n & H1 & _ & _ & H2).
  - vm_compute. reflexivity.
  - apply lookup_empty.
  - destruct (MergeMessage_ok CPropose (json_enc (mkPropose vreq (getDigest vreq) 1))) as [mP Hm].
    { apply message_types_ok, (bool_decide_unpack _). reflexivity. }
    exists mP, n, o. split.
    + etransitivity; [|exact H1].
      apply (receive_step uparams (fun _ => 0) CPropose (json_enc (mkPropose vreq (getDigest vreq) 1)));
        [reflexivity| |exact Hm|reflexivity].
      apply (bool_decide_unpack _). reflexivity.
    + rewrite H2. reflexivity.
Qed.
End RefSync.
Import RefSync.

Lemma vote_order_witness :
  exists m, SplitMessage m = Ret (CVote, vote_content) /\
    sync_step (IM := RawUTXORelayExtraHandleMod uparams) (OM := SyncUTXORelayOutsideModule (fun _ => 0))
      uparams (SyncReceive 5 m) (sync_member 1) = Blocked.
Proof.
  destruct (MergeMessage_ok CVote vote_content) as [m Hm].
  - apply message_types_ok, (bool_decide_unpack _). reflexivity.
  - apply SplitMessage_MergeMessage in Hm; [|apply message_types_ok, (bool_decide_unpack _); reflexivity].
    exists m. split; [exact Hm|].
    apply (proj1 (proj2 (vote_order uparams (fun _ => 0) 5 m vote_content vote (sync_member 1) eq_refl Hm
      (json_dec_enc _) eq_refl ltac:(discriminate)))).
    reflexivity.
Defined.

Lemma sync_round_witness :
  exists b r mP L1 oL,
    sync_step (IM := RawUTXORelayExtraHandleMod uparams) (OM := SyncUTXORelayOutsideModule (fun _ => 0))
      uparams (SyncRunPropose 3) sync_leader = Ret (tt, L1, oL) /\ b_UTXO b = [mint; pay] /\
    MergeMessage CPropose (json_enc (mkPropose r (getDigest r) 1)) = Ret mP /\
    exists mV F1 oF,
      sync_step (IM := RawUTXORelayExtraHandleMod uparams) (OM := SyncUTXORelayOutsideModule (fun _ => 0))
        uparams (SyncReceive 4 mP) (sync_member 1) = Ret (tt, F1, oF) /\ TcpDial mV "n2" ∈ oF.
Proof.
  destruct (sync_round uparams (fun _ => 0) eq_refl 3 sync_leader (sync_member 1))
    as (b & r & mP & L1 & oL & H1 & H2 & _ & H3 & _ & H4).
  - assert (Hs : storage_ok RefStorage.store) by (apply (NewStorage_ok RefStorage.config ∅); reflexivity).
    split; [reflexivity|intros H; discriminate H|reflexivity|reflexivity|split; exact Hs|split; reflexivity].
  - reflexivity.
  - reflexivity.
  - reflexivity.
  - change (Forall (pay_ok uparams (h_CurChain sync_leader)) [mint; pay]).
    apply list.Forall_cons. split; [left; reflexivity|]. apply list.Forall_singleton.
    right. eexists. reflexivity.
  - exists b, r, mP, L1, oL. split; [exact H1|]. split; [exact H2|]. split; [exact H3|].
    destruct (H4 (lookup_empty _) 4) as (mV & F1 & oF & H5 & _ & H6 & _).
    exists mV, F1, oF. split; [exact H5|]. apply H6; [|discriminate].
    apply (bool_decide_unpack _). vm_compute. reflexivity.
Defined.

Lemma sync_waiting_witness :
  exists m n evs,
    sync_run (IM := RawUTXORelayExtraHandleMod uparams) (OM := SyncUTXORelayOutsideModule (fun _ => 0)) uparams
      (sync_member 1) ([] ++ [(SyncReceive 5 m, evs)]) n /\
    length (h_waiting (h_procs n)) = 1%nat /\
    forall pm, pm ∈ h_waiting (h_procs n) -> is_Some (h_requestPool n !! pr_Digest pm).
Proof.
  destruct member_accepts as (m & n & evs & E & Hs). exists m, n, evs.
  assert (Hw : waiting_ok (sync_member 1)) by (split_and!; [reflexivity..|constructor]).
  assert (Hrun := sync_run_step _ _ _ _ _ _ _ (sync_run_refl uparams (sync_member 1)) E).
  split; [exact Hrun|]. split; [exact Hs|].
  intros pm Hpm. exact (proj2 (proj1 (sync_waiting uparams (fun _ => 0) _ _ _ Hrun Hw) pm Hpm)).
Defined.
