(* ===== verification/Committee.v ===== *)
(** * Committee: src/supervisor/{signal,committee} and src/broker

    The committees of the supervisor: they read transactions from a file, send
    them to the shards in batches and react to the shards' reports.  The
    supervisor and its committee point to one [StopSignal]; [Control C] is
    that signal beside the committee's own state [C].

    A committee has two goroutines, [TxHandling] and the supervisor's message
    loop.  A step is a message, or one iteration of a loop of [TxHandling], whose
    place is its [TxPC]; a [txSending] inside a step is not interleaved with
    the other goroutine although it sleeps between its batches.  [csv.Reader]
    gives a list of rows, [None] an error of the reader. *)
From stdpp Require Import base gmap strings list countable.
From Stdlib Require Import ZArith Lia Ascii SpecFloat.
From S2P Require Import Prelude GoStd Libs Core Messages Pbft RelayMod Partition.

(** ** signal/supervisorStopModule.go *)
Record StopSignal := mkStopSignal { stopGap : Z; stopThreshold : Z }.
#[export] Instance StopSignal_eta : Eta StopSignal := fun r => mkStopSignal (stopGap r) (stopThreshold r).

Definition NewStopSignal (stop_Threshold : Z) : StopSignal := mkStopSignal 0 stop_Threshold.
Definition StopGap_Inc (ss : StopSignal) : StopSignal := ss <| stopGap ::= fun n => i64 (n + 1) |>.
Definition StopGap_Reset (ss : StopSignal) : StopSignal := ss <| stopGap := 0 |>.
Definition GapEnough (ss : StopSignal) : bool := stopThreshold ss <=? stopGap ss.

(** ** broker/broker.go *)
Record Broker := mkBroker {
  BrokerRawMegs : gmap bytes BrokerRawMeg;
  br_ChainConfig : option ChainConfig;
  BrokerAddress : list string;
  RawTx2BrokerTx : gmap bytes (list bytes) }.
#[export] Instance Broker_eta : Eta Broker := fun r =>
  mkBroker (BrokerRawMegs r) (br_ChainConfig r) (BrokerAddress r) (RawTx2BrokerTx r).

(** The loop appends a line before it counts it: no limit unless [num] is positive. *)
Definition initBrokerAddr (file : list string) (num : Z) : list string :=
  if 0 <? num then take (Z.to_nat num) file else file.

Definition NewBroker (P : Params) (file : list string) (pcc : option ChainConfig) : Broker :=
  mkBroker ∅ pcc (initBrokerAddr file (BrokerNum P)) ∅.

Definition IsBroker (b : Broker) (address : string) : bool := bool_decide (address ∈ BrokerAddress b).

(** ** committee_relay.go: data2tx *)
Fixpoint dec_digits (acc : Z) (s : string) : option Z :=
  match s with
  | EmptyString => Some acc
  | String c s =>
      let n := byte_val c in
      if (48 <=? n) && (n <=? 57) then dec_digits (10 * acc + (n - 48)) s else None
  end.

(** [new(big.Int).SetString(s, 10)]: an optional sign and at least one digit. *)
Definition SetString10 (s : string) : option Z :=
  match s with
  | EmptyString | String "-" EmptyString | String "+" EmptyString => None
  | String "-" s => Z.opp <$> dec_digits 0 s
  | String "+" s => dec_digits 0 s
  | _ => dec_digits 0 s
  end.

Section data2tx.
Context {HL : Sha256} {CC : CoreCodecs}.

(** [&&] reads the row's cells from left to right and stops at the first [false]. *)
Definition data2tx (data : list string) (nonce : Z) : res (option Transaction) :=
  d6 ← must (data !! 6%nat);
  if negb (bool_decide (d6 = "0"%string)) then Ret None
  else
    d7 ← must (data !! 7%nat);
    if negb (bool_decide (d7 = "0"%string)) then Ret None
    else
      d3 ← must (data !! 3%nat);
      if (String.length d3 <=? 16)%nat then Ret None
      else
        d4 ← must (data !! 4%nat);
        if (String.length d4 <=? 16)%nat || bool_decide (d3 = d4) then Ret None
        else
          d8 ← must (data !! 8%nat);
          val ← must (SetString10 d8);
          Ret (Some (NewTransaction (bdrop 2 d3) (bdrop 2 d4) val nonce)).
End data2tx.

(** ** The committee's world *)
Record Control (C : Type) := mkControl { Ss : StopSignal; com : C }.
Arguments mkControl {C} _ _.
Arguments Ss {C} _.
Arguments com {C} _.
#[export] Instance Control_eta C : Eta (Control C) := fun r => mkControl (Ss r) (com r).

Abbreviation Cm C := (M (Control C) Event).
Definition modify_com {C} (f : C -> C) : Cm C () := modify (fun w => w <| com ::= f |>).
Definition modify_Ss {C} (f : StopSignal -> StopSignal) : Cm C () := modify (fun w => w <| Ss ::= f |>).

Abbreviation Row := (option (list string)).

(** Where [TxHandling] is: reading rows in its [i]-th iteration, in the loop
    that waits for the last blocks, or returned. *)
Inductive TxPC :=
  | Reading (rows : list Row) (txlist : list Transaction) (i : Z)
  | Draining
  | Done.

(** What one iteration takes from outside: its [time.Now()]s, before
    [txSending], after it (or after the first [time.Sleep]) and at the end,
    and the order in which the [i]-th iteration of a partition visits the
    keys of the vertex map. *)
Record Tick := mkTick { tk_now : Z; tk_sent : Z; tk_later : Z; tk_orders : nat -> list string -> list string }.

(** committeeInterface.go *)
Class CommitteeModule (C : Type) := {
  AdjustByBlockInfos : BlockInfoMsg -> Cm C ();
  TxHandling : Tick -> TxPC -> Cm C TxPC;
  HandleOtherMessage : bytes -> Cm C () }.

(** [TxHandling]'s loop over [ticks] iterations, with nothing in between. *)
Fixpoint run_TxHandling {C} {IC : CommitteeModule C} (ticks : list Tick) (pc : TxPC) : Cm C TxPC :=
  match ticks with
  | [] => mret pc
  | t :: ticks => pc ← TxHandling t pc; run_TxHandling ticks pc
  end.

(** What the committees have in common. *)
Record Source := mkSource {
  dataTotalNum : Z;
  nowDataNum : Z;
  batchDataNum : Z;
  IpNodeTable : gmap Z (gmap Z string) }.
#[export] Instance Source_eta : Eta Source := fun r =>
  mkSource (dataTotalNum r) (nowDataNum r) (batchDataNum r) (IpNodeTable r).

(** The address of node [nid] of shard [sid]; a missing entry is "". *)
Definition table_ip (ips : gmap Z (gmap Z string)) (sid nid : Z) : string :=
  default "" (ips !! sid ≫= (.!! nid)).

(** A committee has a [Source] and chooses a transaction's shard. *)
Class Committee (C : Type) := {
  source : C -> Source;
  set_source : (Source -> Source) -> C -> C;
  tx_shard : C -> Transaction -> res Z }.

(** ** txSending, the same loop in the four committees *)
Section sending.
Context (P : Params) {MC : MsgCodecs} {C : Type} {CM : Committee C}.

Definition send_to_shard (sendToShard : gmap Z (list Transaction)) (sid : Z) : Cm C () :=
  w ← get;
  let it := mkInjectTxs (default [] (sendToShard !! sid)) sid in
  send_msg ← lift (MergeMessage CInject (json_enc it));
  emit (TcpDial send_msg (table_ip (IpNodeTable (source (com w))) sid 0)).

Definition send_batch (sendToShard : gmap Z (list Transaction)) : Cm C () :=
  forM (shard_ids (u64 (ShardNum P))) (send_to_shard sendToShard).

(** The condition at index [idx], before [rest]; Go takes the remainder first. *)
Definition batch_due (idx : Z) (rest : list Transaction) : res bool :=
  if 0 <? idx then
    if InjectSpeed P =? 0 then Panic
    else Ret ((Z.rem idx (InjectSpeed P) =? 0) || (length rest =? 0)%nat)
  else Ret false.

Definition append_tx (sid : Z) (tx : Transaction) (m : gmap Z (list Transaction)) :=
  <[sid := default [] (m !! sid) ++ [tx]]> m.

Fixpoint txSending_from (idx : Z) (sendToShard : gmap Z (list Transaction)) (txlist : list Transaction) :
    Cm C () :=
  due ← lift (batch_due idx txlist);
  m ← (if due : bool then _ ← send_batch sendToShard; mret ∅ else mret sendToShard);
  match txlist with
  | [] => mret tt
  | tx :: rest =>
      w ← get;
      sendersid ← lift (tx_shard (com w) tx);
      txSending_from (idx + 1) (append_tx sendersid tx m) rest
  end.

Definition txSending (txlist : list Transaction) : Cm C () := txSending_from 0 ∅ txlist.
End sending.

(** The row becomes a transaction of the batch, or is skipped. *)
Section reading.
Context {HL : Sha256} {CC : CoreCodecs} {C : Type} {CM : Committee C}.

Definition read_row (data : list string) (txlist : list Transaction) : Cm C (option (list Transaction)) :=
  w ← get;
  otx ← lift (data2tx data (u64 (nowDataNum (source (com w)))));
  match otx with
  | Some tx =>
      _ ← modify_com (set_source (fun s => s <| nowDataNum ::= fun n => i64 (n + 1) |>));
      mret (Some (txlist ++ [tx]))
  | None => mret None
  end.

(** [len(txlist) == batchDataNum || nowDataNum == dataTotalNum], and the latter *)
Definition batch_full (s : Source) (txlist : list Transaction) : bool :=
  (Z.of_nat (length txlist) =? batchDataNum s) || (nowDataNum s =? dataTotalNum s).
Definition all_read (s : Source) : bool := nowDataNum s =? dataTotalNum s.
End reading.

(** ** committee_relay.go *)
Record RelayCommitteeModule := mkRelayCommittee { rc_source : Source }.
#[export] Instance RelayCommitteeModule_eta : Eta RelayCommitteeModule := fun r =>
  mkRelayCommittee (rc_source r).

Definition NewRelayCommitteeModule (Ip_nodeTable : gmap Z (gmap Z string)) (dataNum batchNum : Z) :
    RelayCommitteeModule := mkRelayCommittee (mkSource dataNum 0 batchNum Ip_nodeTable).

Section relay.
Context (P : Params) {HL : Sha256} {CC : CoreCodecs} {MC : MsgCodecs}.

(** [uint64(utils.Addr2Shard(addr))] *)
Definition addr_shard (addr : string) : res Z := s ← Addr2Shard P addr; Ret (u64 s).

#[export] Instance relay_committee : Committee RelayCommitteeModule := {|
  source := rc_source;
  set_source f c := c <| rc_source ::= f |>;
  tx_shard c tx := addr_shard (tx_Sender tx) |}.

Definition Relay_TxHandling (t : Tick) (pc : TxPC) : Cm RelayCommitteeModule TxPC :=
  match pc with
  | Reading rows txlist i =>
      if negb (i <? TxInputCount P) then mret Done
      else
        match rows with
        | [] => mret Done
        | None :: _ => panic
        | Some data :: rows =>
            otxs ← read_row data txlist;
            let txlist := default txlist otxs in
            w ← get;
            let s := source (com w) in
            txlist ← (if batch_full s txlist then
                        _ ← txSending P txlist; _ ← modify_Ss StopGap_Reset; mret []
                      else mret txlist);
            mret (if all_read s then Done else Reading rows txlist (i + 1))
        end
  | Draining | Done => mret Done
  end.

#[export] Instance relay_module : CommitteeModule RelayCommitteeModule := {|
  AdjustByBlockInfos _ := mret tt;
  TxHandling := Relay_TxHandling;
  HandleOtherMessage _ := mret tt |}.
End relay.

(** ** The re-partitioning of committee_clpa.go and committee_clpa_broker.go *)
Record ClpaPart := mkClpaPart {
  clpaGraph : CLPAState;
  modifiedMap : gmap string Z;
  clpaLastRunningTime : Z;
  clpaFreq : Z }.
#[export] Instance ClpaPart_eta : Eta ClpaPart := fun r =>
  mkClpaPart (clpaGraph r) (modifiedMap r) (clpaLastRunningTime r) (clpaFreq r).

Class ClpaHost (C : Type) := {
  clpa_part : C -> ClpaPart;
  set_clpa : (ClpaPart -> ClpaPart) -> C -> C }.

Definition half : spec_float := fdiv (of_int 1) (of_int 2).

Section clpa.
Context (P : Params) {HL : Sha256} {CC : CoreCodecs} {MC : MsgCodecs}.

(** [new(partition.CLPAState)] and [Init_CLPAState(0.5, 100, params.ShardNum)] *)
Definition new_clpaGraph : CLPAState := Init_CLPAState half 100 (ShardNum P) zero_CLPAState.

Definition NewClpaPart (clpaFrequency : Z) : ClpaPart := mkClpaPart new_clpaGraph ∅ 0 clpaFrequency.

Definition fetchModifiedMap (c : ClpaPart) (key : string) : res Z :=
  match modifiedMap c !! key with
  | None => addr_shard P key
  | Some val => Ret val
  end.

Definition clpaReset (c : ClpaPart) : ClpaPart :=
  c <| clpaGraph := new_clpaGraph <| PartitionMap := i64 <$> modifiedMap c |> |>.

Context {C : Type} {CM : Committee C} {CH : ClpaHost C}.

Definition clpaMapSend (m : gmap string Z) : Cm C () :=
  send_msg ← lift (MergeMessage CPartitionMsg (json_enc (mkPartitionModifiedMap m)));
  forM (shard_ids (u64 (ShardNum P))) (fun i =>
    w ← get;
    emit (TcpDial send_msg (table_ip (IpNodeTable (source (com w))) i 0))).

(** The block under [clpaLock]: partition, send, adopt, reset. *)
Definition repartition (t : Tick) : Cm C () :=
  w ← get;
  let g := clpaGraph (clpa_part (com w)) in
  '(mmap, _, cs) ← lift (CLPA_Partition (fun i => tk_orders t i (elements (VertexSet (NetGraph g)))) g);
  _ ← modify_com (set_clpa (fun c => c <| clpaGraph := cs |>));
  _ ← clpaMapSend mmap;
  _ ← modify_com (set_clpa (fun c => clpaReset (c <| modifiedMap ::= fun m => mmap ∪ m |>)));
  modify_com (set_clpa (fun c => c <| clpaLastRunningTime := tk_later t |>)).

(** [time.Since(clpaLastRunningTime) >= clpaFreq * time.Second] *)
Definition clpa_due (t : Tick) (c : ClpaPart) : bool :=
  i64 (clpaFreq c * Second) <=? time_Sub (tk_sent t) (clpaLastRunningTime c).

(** What follows a row of the batch; [deal] is what the committee does to a
    full batch before it is sent. *)
Definition clpa_after_row (deal : list Transaction -> Cm C (list Transaction)) (t : Tick)
    (rows : list Row) (txlist : list Transaction) (i : Z) : Cm C TxPC :=
  w ← get;
  let s := source (com w) in
  txlist ← (if batch_full s txlist then
              _ ← modify_com (set_clpa (fun c =>
                    if IsZero (clpaLastRunningTime c) then c <| clpaLastRunningTime := tk_now t |> else c));
              itx ← deal txlist;
              _ ← txSending P itx;
              _ ← modify_Ss StopGap_Reset;
              mret []
            else mret txlist);
  w ← get;
  let c := clpa_part (com w) in
  _ ← (if negb (IsZero (clpaLastRunningTime c)) && clpa_due t c then repartition t else mret tt);
  mret (if all_read s then Draining else Reading rows txlist i).

Definition clpa_TxHandling (deal : list Transaction -> Cm C (list Transaction)) (t : Tick) (pc : TxPC) :
    Cm C TxPC :=
  match pc with
  | Reading [] _ _ => mret Draining
  | Reading (None :: _) _ _ => panic
  | Reading (Some data :: rows) txlist i =>
      otxs ← read_row data txlist;
      match otxs with
      | None => mret (Reading rows txlist i)
      | Some txlist => clpa_after_row deal t rows txlist i
      end
  | Draining =>
      w ← get;
      if GapEnough (Ss w) then mret Done
      else
        _ ← (if clpa_due t (clpa_part (com w)) then repartition t else mret tt);
        mret Draining
  | Done => mret Done
  end.

Definition add_edge (c : ClpaPart) (uv : string * string) : res ClpaPart :=
  g ← CLPA_AddEdge P uv.1 uv.2 (clpaGraph c); Ret (c <| clpaGraph := g |>).

(** [clpaGraph.AddEdge] for each pair *)
Definition add_edges (es : list (string * string)) : Cm C () :=
  w ← get;
  c ← lift (foldM add_edge (clpa_part (com w)) es);
  modify_com (set_clpa (fun _ => c)).
End clpa.

(** ** committee_clpa.go *)
Record CLPACommitteeModule := mkCLPACommittee { cm_source : Source; cm_clpa : ClpaPart }.
#[export] Instance CLPACommitteeModule_eta : Eta CLPACommitteeModule := fun r =>
  mkCLPACommittee (cm_source r) (cm_clpa r).

Definition NewCLPACommitteeModule (P : Params) (Ip_nodeTable : gmap Z (gmap Z string))
    (dataNum batchNum clpaFrequency : Z) : CLPACommitteeModule :=
  mkCLPACommittee (mkSource dataNum 0 batchNum Ip_nodeTable) (NewClpaPart P clpaFrequency).

Section clpa_committee.
Context (P : Params) {HL : Sha256} {CC : CoreCodecs} {MC : MsgCodecs}.

#[export] Instance clpa_committee : Committee CLPACommitteeModule := {|
  source := cm_source;
  set_source f c := c <| cm_source ::= f |>;
  tx_shard c tx := fetchModifiedMap P (cm_clpa c) (tx_Sender tx) |}.
#[export] Instance clpa_host : ClpaHost CLPACommitteeModule := {|
  clpa_part := cm_clpa;
  set_clpa f c := c <| cm_clpa ::= f |> |}.

Definition CLPA_AdjustByBlockInfos (b : BlockInfoMsg) : Cm CLPACommitteeModule () :=
  if bim_BlockBodyLength b =? 0 then mret tt
  else add_edges P ((fun tx => (tx_Sender tx, tx_Recipient tx)) <$> bim_ExcutedTxs b).

Definition CLPA_TxHandling : Tick -> TxPC -> Cm CLPACommitteeModule TxPC :=
  clpa_TxHandling P (fun txlist => mret txlist).

#[export] Instance clpa_module : CommitteeModule CLPACommitteeModule := {|
  AdjustByBlockInfos := CLPA_AdjustByBlockInfos;
  TxHandling := CLPA_TxHandling;
  HandleOtherMessage _ := mret tt |}.
End clpa_committee.

(** ** The broker protocol of committee_broker.go and committee_clpa_broker.go *)
Record BrokerPart := mkBrokerPart {
  broker : Broker;
  brokerConfirm1Pool : gmap bytes Mag1Confirm;
  brokerConfirm2Pool : gmap bytes Mag2Confirm;
  brokerTxPool : list Transaction }.
#[export] Instance BrokerPart_eta : Eta BrokerPart := fun r =>
  mkBrokerPart (broker r) (brokerConfirm1Pool r) (brokerConfirm2Pool r) (brokerTxPool r).

Definition NewBrokerPart (P : Params) (file : list string) : BrokerPart :=
  mkBrokerPart (NewBroker P file None) ∅ ∅ [].

(** [fetch] is the committee's [fetchModifiedMap]. *)
Class BrokerHost (C : Type) := {
  broker_part : C -> BrokerPart;
  set_broker : (BrokerPart -> BrokerPart) -> C -> C;
  fetch : C -> string -> res Z }.

Section broker.
Context {HL : Sha256} {CC : CoreCodecs} {MC : MsgCodecs} {C : Type} {BH : BrokerHost C}.

(** The shard a transaction is sent to: the recipient's when a broker pays. *)
Definition broker_tx_shard (c : C) (tx : Transaction) : res Z :=
  sendersid ← fetch c (tx_Sender tx);
  if IsBroker (broker (broker_part c)) (tx_Sender tx) then fetch c (tx_Recipient tx) else Ret sendersid.

Context (P : Params) {CM : Committee C}.

Definition getBrokerRawMagDigest (r : BrokerRawMeg) : bytes := sha256 (json_enc r).

(** [tx1.OriginalSender = ctx.Sender] and so on *)
Definition half_tx (ctx tx : Transaction) : Transaction :=
  tx <| tx_OriginalSender := tx_Sender ctx |> <| tx_FinalRecipient := tx_Recipient ctx |>
     <| tx_RawTxHash := tx_TxHash ctx |>.

Definition type1_tx (m : BrokerType1Meg) : Transaction :=
  let ctx := brm_Tx (bt1_RawMeg m) in
  half_tx ctx (NewTransaction (tx_Sender ctx) (bt1_Broker m) (tx_Value ctx) (tx_Nonce ctx)).

Definition type2_tx (m : BrokerType2Meg) : Transaction :=
  let ctx := brm_Tx (bt2_RawMeg m) in
  half_tx ctx (NewTransaction (bt2_Broker m) (tx_Recipient ctx) (tx_Value ctx) (tx_Nonce ctx)).

Definition handleBrokerType1Mes (brokerType1Megs : list BrokerType1Meg) : Cm C () :=
  _ ← forM brokerType1Megs (fun m =>
        let tx1 := type1_tx m in
        modify_com (set_broker (fun p => p <| brokerConfirm1Pool ::=
          <[tx_TxHash tx1 := mkMag1Confirm (tx_TxHash tx1) (bt1_RawMeg m)]> |>)));
  txSending P (type1_tx <$> brokerType1Megs).

Definition handleBrokerType2Mes (brokerType2Megs : list BrokerType2Meg) : Cm C () :=
  _ ← forM brokerType2Megs (fun m =>
        let tx2 := type2_tx m in
        modify_com (set_broker (fun p => p <| brokerConfirm2Pool ::=
          <[tx_TxHash tx2 := mkMag2Confirm (tx_TxHash tx2) (bt2_RawMeg m)]> |>)));
  txSending P (type2_tx <$> brokerType2Megs).

Definition record_raw (meg : BrokerRawMeg) : Cm C () :=
  modify_com (set_broker (fun p => p <| broker ::= fun b =>
    b <| BrokerRawMegs ::= <[getBrokerRawMagDigest meg := meg]> |> |>)).

Definition handleBrokerRawMag (brokerRawMags : list BrokerRawMeg) : Cm C () :=
  _ ← forM brokerRawMags record_raw;
  handleBrokerType1Mes ((fun meg => mkBrokerType1Meg meg 0 (brm_Broker meg)) <$> brokerRawMags).

(** [b.RawTx2BrokerTx[raw] = append(b.RawTx2BrokerTx[raw], half)] *)
Definition record_half (raw half : bytes) : Cm C () :=
  modify_com (set_broker (fun p => p <| broker ::= fun b =>
    b <| RawTx2BrokerTx ::= fun m => <[raw := default [] (m !! raw) ++ [half]]> m |> |>)).

Definition confirm1_step (acc : list BrokerType2Meg) (m : Mag1Confirm) : Cm C (list BrokerType2Meg) :=
  let RawMeg := mc1_RawMeg m in
  w ← get;
  let b := broker (broker_part (com w)) in
  match BrokerRawMegs b !! getBrokerRawMagDigest RawMeg with
  | None => mret acc
  | Some _ =>
      _ ← record_half (tx_TxHash (brm_Tx RawMeg)) (mc1_Tx1Hash m);
      addr ← lift (must (head (BrokerAddress b)));
      mret (acc ++ [mkBrokerType2Meg RawMeg addr])
  end.

Fixpoint confirm1_loop (acc : list BrokerType2Meg) (l : list Mag1Confirm) : Cm C (list BrokerType2Meg) :=
  match l with
  | [] => mret acc
  | m :: l => acc ← confirm1_step acc m; confirm1_loop acc l
  end.

Definition handleTx1ConfirmMag (mag1confirms : list Mag1Confirm) : Cm C () :=
  brokerType2Mags ← confirm1_loop [] mag1confirms;
  handleBrokerType2Mes brokerType2Mags.

(** The number of finished transactions is only printed. *)
Definition handleTx2ConfirmMag (mag2confirms : list Mag2Confirm) : Cm C () :=
  forM mag2confirms (fun m => record_half (tx_TxHash (brm_Tx (mc2_RawMeg m))) (mc2_Tx2Hash m)).

Definition createConfirm (txs : list Transaction) : Cm C () :=
  w ← get;
  let p := broker_part (com w) in
  let confirm1s := omap (fun tx => brokerConfirm1Pool p !! tx_TxHash tx) txs in
  let confirm2s := omap (fun tx => brokerConfirm2Pool p !! tx_TxHash tx) txs in
  _ ← (if negb (length confirm1s =? 0)%nat then handleTx1ConfirmMag confirm1s else mret tt);
  if negb (length confirm2s =? 0)%nat then handleTx2ConfirmMag confirm2s else mret tt.

(** A transaction of a batch: split through the first broker, or sent as it is. *)
Definition deal_tx (c : C) (s : list Transaction * list BrokerRawMeg) (tx : Transaction) :
    res (list Transaction * list BrokerRawMeg) :=
  let b := broker (broker_part c) in
  rSid ← fetch c (tx_Recipient tx);
  sSid ← fetch c (tx_Sender tx);
  if negb (rSid =? sSid) && negb (IsBroker b (tx_Recipient tx)) && negb (IsBroker b (tx_Sender tx)) then
    addr ← must (head (BrokerAddress b));
    Ret (s.1, s.2 ++ [mkBrokerRawMeg tx addr 0 0 0 ""])
  else
    let tx := if IsBroker b (tx_Recipient tx) || IsBroker b (tx_Sender tx)
              then tx <| tx_HasBroker := true |> <| tx_SenderIsBroker := IsBroker b (tx_Sender tx) |>
              else tx in
    Ret (s.1 ++ [tx], s.2).

Definition dealTxByBroker (txs : list Transaction) : Cm C (list Transaction) :=
  w ← get;
  '(itxs, brokerRawMegs) ← lift (foldM (deal_tx (com w)) ([], []) txs);
  _ ← (if negb (length brokerRawMegs =? 0)%nat then handleBrokerRawMag brokerRawMegs else mret tt);
  mret itxs.
End broker.

(** ** committee_broker.go *)
Record BrokerCommitteeMod := mkBrokerCommittee { bm_source : Source; bm_broker : BrokerPart }.
#[export] Instance BrokerCommitteeMod_eta : Eta BrokerCommitteeMod := fun r =>
  mkBrokerCommittee (bm_source r) (bm_broker r).

(** [file] holds the lines of ./broker/broker. *)
Definition NewBrokerCommitteeMod (P : Params) (file : list string) (Ip_nodeTable : gmap Z (gmap Z string))
    (dataNum batchNum : Z) : BrokerCommitteeMod :=
  mkBrokerCommittee (mkSource dataNum 0 batchNum Ip_nodeTable) (NewBrokerPart P file).

Section broker_committee.
Context (P : Params) {HL : Sha256} {CC : CoreCodecs} {MC : MsgCodecs}.

#[export] Instance broker_host : BrokerHost BrokerCommitteeMod := {|
  broker_part := bm_broker;
  set_broker f c := c <| bm_broker ::= f |>;
  fetch _ key := addr_shard P key |}.
#[export] Instance broker_committee : Committee BrokerCommitteeMod := {|
  source := bm_source;
  set_source f c := c <| bm_source ::= f |>;
  tx_shard := broker_tx_shard |}.

Definition Broker_txSending (txlist : list Transaction) : Cm BrokerCommitteeMod () := txSending P txlist.

(** The halves that the block committed are confirmed. *)
Definition Broker_AdjustByBlockInfos (b : BlockInfoMsg) : Cm BrokerCommitteeMod () :=
  if bim_BlockBodyLength b =? 0 then mret tt
  else createConfirm P (bim_Broker1Txs b ++ bim_Broker2Txs b).

Definition Broker_TxHandling (t : Tick) (pc : TxPC) : Cm BrokerCommitteeMod TxPC :=
  match pc with
  | Reading [] _ _ => mret Done
  | Reading (None :: _) _ _ => panic
  | Reading (Some data :: rows) txlist i =>
      otxs ← read_row data txlist;
      match otxs with
      | None => mret (Reading rows txlist i)
      | Some txlist =>
          w ← get;
          let s := source (com w) in
          txlist ← (if batch_full s txlist then
                      itx ← dealTxByBroker P txlist;
                      _ ← Broker_txSending itx;
                      _ ← modify_Ss StopGap_Reset;
                      mret []
                    else mret txlist);
          mret (if all_read s then Done else Reading rows txlist i)
      end
  | Draining | Done => mret Done
  end.

#[export] Instance broker_module : CommitteeModule BrokerCommitteeMod := {|
  AdjustByBlockInfos := Broker_AdjustByBlockInfos;
  TxHandling := Broker_TxHandling;
  HandleOtherMessage _ := mret tt |}.
End broker_committee.

(** ** committee_clpa_broker.go *)
Record CLPACommitteeMod_Broker := mkCLPABrokerCommittee {
  cb_source : Source;
  cb_clpa : ClpaPart;
  cb_broker : BrokerPart }.
#[export] Instance CLPACommitteeMod_Broker_eta : Eta CLPACommitteeMod_Broker := fun r =>
  mkCLPABrokerCommittee (cb_source r) (cb_clpa r) (cb_broker r).

Definition NewCLPACommitteeMod_Broker (P : Params) (file : list string)
    (Ip_nodeTable : gmap Z (gmap Z string)) (dataNum batchNum clpaFrequency : Z) : CLPACommitteeMod_Broker :=
  mkCLPABrokerCommittee (mkSource dataNum 0 batchNum Ip_nodeTable) (NewClpaPart P clpaFrequency)
    (NewBrokerPart P file).

Section clpa_broker_committee.
Context (P : Params) {HL : Sha256} {CC : CoreCodecs} {MC : MsgCodecs}.
Abbreviation CB := (Cm CLPACommitteeMod_Broker).

#[export] Instance clpa_broker_host : BrokerHost CLPACommitteeMod_Broker := {|
  broker_part := cb_broker;
  set_broker f c := c <| cb_broker ::= f |>;
  fetch c key := fetchModifiedMap P (cb_clpa c) key |}.
#[export] Instance clpa_broker_committee : Committee CLPACommitteeMod_Broker := {|
  source := cb_source;
  set_source f c := c <| cb_source ::= f |>;
  tx_shard := broker_tx_shard |}.
#[export] Instance clpa_broker_clpa : ClpaHost CLPACommitteeMod_Broker := {|
  clpa_part := cb_clpa;
  set_clpa f c := c <| cb_clpa ::= f |> |}.

(** The functions of the broker protocol, word for word those of committee_broker.go *)
Definition CLPAB_handleBrokerType1Mes (l : list BrokerType1Meg) : CB () := handleBrokerType1Mes P l.
Definition CLPAB_handleBrokerType2Mes (l : list BrokerType2Meg) : CB () := handleBrokerType2Mes P l.
Definition CLPAB_handleBrokerRawMag (l : list BrokerRawMeg) : CB () := handleBrokerRawMag P l.
Definition CLPAB_handleTx1ConfirmMag (l : list Mag1Confirm) : CB () := handleTx1ConfirmMag P l.
Definition CLPAB_handleTx2ConfirmMag (l : list Mag2Confirm) : CB () := handleTx2ConfirmMag l.
Definition CLPAB_createConfirm (txs : list Transaction) : CB () := createConfirm P txs.
Definition CLPAB_dealTxByBroker (txs : list Transaction) : CB (list Transaction) := dealTxByBroker P txs.

(** ... and of the re-partitioning, those of committee_clpa.go *)
Definition CLPAB_clpaMapSend (m : gmap string Z) : CB () := clpaMapSend P m.
Definition CLPAB_repartition (t : Tick) : CB () := repartition P t.
Definition CLPAB_txSending (txlist : list Transaction) : CB () := txSending P txlist.

Definition CLPAB_HandleOtherMessage (msg : bytes) : CB () :=
  '(msgType, content) ← lift (SplitMessage msg);
  if negb (bool_decide (msgType = CInner2CrossTx)) then mret tt
  else
    itct ← lift (must (json_dec (A := InnerTx2CrossTx) content));
    itxs ← CLPAB_dealTxByBroker (ic_Txs itct);
    CLPAB_txSending itxs.

(** The edges of a block: its whole transactions without a broker, and the
    ends of the split ones, once. *)
Definition CLPAB_edges (b : BlockInfoMsg) : list (string * string) :=
  ((fun tx => (tx_Sender tx, tx_Recipient tx)) <$>
     filter (fun tx => tx_HasBroker tx = false) (bim_ExcutedTxs b)) ++
  ((fun tx => (tx_OriginalSender tx, tx_FinalRecipient tx)) <$> bim_Broker1Txs b).

Definition CLPAB_AdjustByBlockInfos (b : BlockInfoMsg) : CB () :=
  if bim_BlockBodyLength b =? 0 then mret tt
  else
    _ ← CLPAB_createConfirm (bim_Broker1Txs b ++ bim_Broker2Txs b);
    add_edges P (CLPAB_edges b).

Definition CLPAB_TxHandling : Tick -> TxPC -> CB TxPC := clpa_TxHandling P CLPAB_dealTxByBroker.

#[export] Instance clpa_broker_module : CommitteeModule CLPACommitteeMod_Broker := {|
  AdjustByBlockInfos := CLPAB_AdjustByBlockInfos;
  TxHandling := CLPAB_TxHandling;
  HandleOtherMessage := CLPAB_HandleOtherMessage |}.
End clpa_broker_committee.
