(* ===== verification/CommitteeProps.v ===== *)
(** * CommitteeProps: what the committees send

    [txSending] delivers every transaction once, to the shard its committee
    chooses, in messages of at most [InjectSpeed] transactions; on top of it
    what a whole run of the relay committee injects. *)
From stdpp Require Import base gmap strings list countable.
From Stdlib Require Import ZArith Lia Ascii SpecFloat.
From S2P Require Import Prelude GoStd Libs Core Pools Messages StorageDB Chain Ledger Execution Pbft RelayMod Partition Committee.

(** ** Reading the messages that were sent *)
Section delivery.
Context {MC : MsgCodecs} {ML : MsgCodecsLaws}.

Definition inject_of (e : Event) : option InjectTxs :=
  match e with
  | TcpDial msg _ =>
      match SplitMessage msg with
      | Ret (t, c) => if bool_decide (t = CInject) then json_dec c else None
      | _ => None
      end
  | CSVline _ => None
  end.

Definition inject_txs (sid : Z) (e : Event) : list Transaction :=
  match inject_of e with
  | Some it => if it_ToShardID it =? sid then it_Txs it else []
  | None => []
  end.

(** The transactions injected into shard [sid], in order. *)
Definition injected (sid : Z) (evs : list Event) : list Transaction := evs ≫= inject_txs sid.

(** An inject message to the leader of an existing shard, of at most [n] transactions. *)
Definition inject_ok (ips : gmap Z (gmap Z string)) (shards n : Z) (e : Event) : Prop :=
  exists it msg, e = TcpDial msg (table_ip ips (it_ToShardID it) 0) /\
    inject_of e = Some it /\ 0 <= it_ToShardID it < shards /\ Z.of_nat (length (it_Txs it)) <= n.

Lemma injected_app sid e1 e2 : injected sid (e1 ++ e2) = injected sid e1 ++ injected sid e2.
Proof. apply bind_app. Qed.

Context (P : Params) {C : Type} {CM : Committee C}.
Context (HS : 0 < ShardNum P < 2 ^ 64) (HI : 0 < InjectSpeed P).
Implicit Types (w : Control C).

Lemma inject_message it : exists msg, MergeMessage CInject (json_enc it) = Ret msg /\
  forall addr, inject_of (TcpDial msg addr) = Some it.
Proof.
  assert (Ht : type_ok CInject) by (by apply type_ok_dec).
  destruct (MergeMessage_ok CInject (json_enc it) Ht) as [msg Hm]. exists msg. split; [done|].
  intros addr. unfold inject_of. rewrite (SplitMessage_MergeMessage _ _ _ Ht Hm). cbn. apply json_dec_enc.
Qed.

Lemma send_batch_ok m w n :
  (forall sid, Z.of_nat (length (default [] (m !! sid))) <= n) ->
  exists evs, send_batch P m w = Ret (tt, w, evs) /\
    Forall (inject_ok (IpNodeTable (source (com w))) (ShardNum P) n) evs /\
    forall sid, 0 <= sid < ShardNum P -> injected sid evs = default [] (m !! sid).
Proof.
  intros Hn. unfold send_batch, shard_ids. rewrite u64_small by lia.
  assert (H : forall l, NoDup l -> (forall sid, sid ∈ l -> 0 <= sid < ShardNum P) ->
    exists evs, forM l (send_to_shard m) w = Ret (tt, w, evs) /\
      Forall (inject_ok (IpNodeTable (source (com w))) (ShardNum P) n) evs /\
      forall sid, injected sid evs = if decide (sid ∈ l) then default [] (m !! sid) else []).
  { induction l as [|k l IH]; intros Hnd Hr.
    - exists []. split_and!; [done|by constructor|]. intros sid. by rewrite decide_False by apply not_elem_of_nil.
    - apply list.NoDup_cons in Hnd as [Hk Hnd].
      destruct IH as (evs & E & Hok & Hin); [done|intros; apply Hr; by right|].
      set (it := mkInjectTxs (default [] (m !! k)) k).
      destruct (inject_message it) as (msg & Hm & Hi).
      exists (TcpDial msg (table_ip (IpNodeTable (source (com w))) k 0) :: evs). split_and!.
      + change (_ :: evs) with ([TcpDial msg (table_ip (IpNodeTable (source (com w))) k 0)] ++ evs).
        cbn [forM]. eapply bind_returns; [|exact E]. unfold send_to_shard. rewrite get_bind. fold it.
        by rewrite (lift_bind _ _ _ _ Hm).
      + constructor; [|done]. exists it, msg. split_and!; [done|apply Hi|apply (Hr k); by left| |apply Hn].
        apply (Hr k). by left.
      + intros sid. change (injected sid (?e :: evs)) with (inject_txs sid e ++ injected sid evs).
        unfold inject_txs. rewrite Hi, Hin. cbn [it it_ToShardID it_Txs].
        destruct (Z.eqb_spec k sid) as [->|Hne].
        * rewrite decide_False by done. by rewrite app_nil_r, decide_True by left.
        * cbn [app]. repeat case_decide; [done| |exfalso|done]; set_solver. }
  destruct (H (seqZ 0 (ShardNum P))) as (evs & E & Hok & Hin).
  - apply NoDup_seqZ.
  - intros sid Hs%elem_of_seqZ. lia.
  - exists evs. split_and!; [done..|]. intros sid Hs. rewrite Hin, decide_True; [done|].
    apply elem_of_seqZ. lia.
Qed.
(** The transactions of [l] that belong to shard [sid]. *)
Definition bound_for (c : C) (sid : Z) (l : list Transaction) : list Transaction :=
  filter (fun tx => tx_shard c tx = Ret sid) l.

(** Every transaction has an existing shard. *)
Definition routable (c : C) (l : list Transaction) : Prop :=
  Forall (fun tx => exists s, tx_shard c tx = Ret s /\ 0 <= s < ShardNum P) l.

(** How full a bucket can be before index [idx]. *)
Definition bucket_room (idx : Z) : Z := if idx =? 0 then 0 else (idx - 1) mod InjectSpeed P + 1.

Definition filled (idx : Z) (m : gmap Z (list Transaction)) : Prop :=
  forall sid, Z.of_nat (length (default [] (m !! sid))) <= bucket_room idx.

Lemma filled_append idx sid tx m :
  0 <= idx -> filled idx m -> (0 < idx -> idx mod InjectSpeed P <> 0) -> filled (idx + 1) (append_tx sid tx m).
Proof.
  unfold filled, bucket_room, append_tx. intros Hi Hf Hm k.
  destruct (Z.eqb_spec (idx + 1) 0) as [|_]; [lia|]. rewrite Z.add_simpl_r.
  assert (Hk : Z.of_nat (length (default [] (m !! k))) <= idx mod InjectSpeed P).
  { specialize (Hf k). destruct (Z.eqb_spec idx 0) as [->|Hne]; [rewrite Z.mod_0_l; lia|].
    enough (idx mod InjectSpeed P = (idx - 1) mod InjectSpeed P + 1) by lia.
    assert (Hr : idx mod InjectSpeed P <> 0) by (apply Hm; lia).
    pose proof (Z.mod_pos_bound idx (InjectSpeed P) HI) as Hb.
    pose proof (Z.div_mod idx (InjectSpeed P)) as Hd.
    rewrite <- (Z.mod_unique (idx - 1) (InjectSpeed P) (idx / InjectSpeed P) (idx mod InjectSpeed P - 1)); lia. }
  destruct (decide (k = sid)) as [->|Hne].
  - rewrite lookup_insert_eq. cbn. rewrite length_app. cbn. lia.
  - rewrite lookup_insert_ne by done. lia.
Qed.

Lemma filled_empty idx : 0 <= idx -> filled idx ∅.
Proof.
  intros Hi sid. rewrite lookup_empty. cbn. unfold bucket_room. case_match; [lia|].
  pose proof (Z.mod_pos_bound (idx - 1) (InjectSpeed P) HI). lia.
Qed.

Lemma bucket_room_le idx : bucket_room idx <= InjectSpeed P.
Proof. unfold bucket_room. case_match; [lia|]. pose proof (Z.mod_pos_bound (idx - 1) (InjectSpeed P) HI). lia. Qed.

(** The batch that may be due before index [idx]. *)
Lemma flush_ok idx rest m w :
  0 <= idx -> filled idx m ->
  exists evs m', (due ← lift (batch_due P idx rest);
      (if due : bool then _ ← send_batch P m; mret ∅ else mret m)) w = Ret (m', w, evs) /\
    Forall (inject_ok (IpNodeTable (source (com w))) (ShardNum P) (InjectSpeed P)) evs /\
    (forall sid, 0 <= sid < ShardNum P -> injected sid evs ++ default [] (m' !! sid) = default [] (m !! sid)) /\
    filled idx m' /\ (0 < idx -> idx mod InjectSpeed P = 0 -> m' = ∅) /\ (0 < idx -> rest = [] -> m' = ∅).
Proof.
  intros Hi Hf. unfold batch_due. destruct (Z.ltb_spec 0 idx) as [Hpos|]; cbn [lift].
  2: { exists [], m. rewrite (lift_bind _ _ _ false) by done. split_and!; [done|by constructor|done|done|lia|lia]. }
  destruct (Z.eqb_spec (InjectSpeed P) 0); [lia|]. rewrite (lift_bind _ _ _ _ eq_refl).
  rewrite Z.rem_mod_nonneg by lia.
  destruct ((idx mod InjectSpeed P =? 0) || _) eqn:Hdue.
  - destruct (send_batch_ok m w (InjectSpeed P)) as (evs & E & Hok & Hin).
    { intros sid. etrans; [apply Hf|apply bucket_room_le]. }
    exists evs, ∅. split_and!; [|done| |by apply filled_empty|done|done].
    + erewrite bind_returns; [|exact E|reflexivity]. by rewrite app_nil_r.
    + intros sid Hs. rewrite lookup_empty, Hin by done. by rewrite app_nil_r.
  - apply orb_false_iff in Hdue as [H1 H2]. exists [], m. split_and!; [done|by constructor|done|done| |].
    + intros _ H. by rewrite H in H1.
    + intros _ ->. done.
Qed.

Lemma txSending_from_ok l : forall idx m w,
  0 <= idx -> filled idx m -> routable (com w) l ->
  exists evs, txSending_from P idx m l w = Ret (tt, w, evs) /\
    Forall (inject_ok (IpNodeTable (source (com w))) (ShardNum P) (InjectSpeed P)) evs /\
    forall sid, 0 <= sid < ShardNum P -> injected sid evs = default [] (m !! sid) ++ bound_for (com w) sid l.
Proof.
  induction l as [|tx l IH]; intros idx m w Hi Hf Hr.
  - destruct (flush_ok idx [] m w Hi Hf) as (evs & m' & E & Hok & Hin & Hf' & _ & Hend).
    exists evs. split_and!; [|done|].
    + cbn [txSending_from]. rewrite <- bind_bind. erewrite bind_returns; [|exact E|reflexivity].
      by rewrite app_nil_r.
    + intros sid Hs. rewrite <- (Hin sid Hs), <- app_assoc. unfold bound_for. cbn [filter list_filter].
      rewrite app_nil_r. destruct (decide (0 < idx)) as [Hpos|Hz].
      * rewrite Hend by done. by rewrite lookup_empty, app_nil_r.
      * assert (Hlen : length (default [] (m' !! sid)) = 0%nat).
        { specialize (Hf' sid). unfold bucket_room in Hf'. replace idx with 0 in Hf' by lia. cbn in Hf'. lia. }
        apply nil_length_inv in Hlen. by rewrite Hlen, app_nil_r.
  - apply list.Forall_cons in Hr as [(s & Hs & Hsr) Hr].
    destruct (flush_ok idx (tx :: l) m w Hi Hf) as (evs & m' & E & Hok & Hin & Hf' & Hemp & _).
    assert (Hf1 : filled (idx + 1) (append_tx s tx m')).
    { destruct (decide (0 < idx /\ idx mod InjectSpeed P = 0)) as [[H1 H2]|Hn].
      - rewrite (Hemp H1 H2). intros k. unfold append_tx. rewrite lookup_empty. unfold bucket_room.
        destruct (Z.eqb_spec (idx + 1) 0); [lia|].
        pose proof (Z.mod_pos_bound (idx + 1 - 1) (InjectSpeed P) HI).
        destruct (decide (k = s)) as [->|]; [rewrite lookup_insert_eq|rewrite lookup_insert_ne, lookup_empty by done];
          cbn; lia.
      - apply filled_append; [done|done|]. intros H1 H2. by apply Hn. }
    destruct (IH (idx + 1) (append_tx s tx m') w) as (evs2 & E2 & Hok2 & Hin2); [lia|done|done|].
    exists (evs ++ evs2). split_and!; [|by apply Forall_app|].
    + cbn [txSending_from]. rewrite <- bind_bind. eapply bind_returns; [exact E|].
      rewrite get_bind. by rewrite (lift_bind _ _ _ _ Hs).
    + intros sid Hsid. rewrite injected_app, (Hin2 sid Hsid), <- (Hin sid Hsid). unfold bound_for.
      rewrite filter_cons, Hs. unfold append_tx. destruct (decide (s = sid)) as [->|Hne].
      * rewrite lookup_insert_eq, decide_True by done. cbn. by rewrite <- !app_assoc.
      * rewrite lookup_insert_ne, decide_False by congruence. by rewrite <- !app_assoc.
Qed.

(** [txSending]: every transaction goes once, and in order, to its shard. *)
Lemma txSending_delivers l w :
  routable (com w) l ->
  exists evs, txSending P l w = Ret (tt, w, evs) /\
    Forall (inject_ok (IpNodeTable (source (com w))) (ShardNum P) (InjectSpeed P)) evs /\
    forall sid, 0 <= sid < ShardNum P -> injected sid evs = bound_for (com w) sid l.
Proof.
  intros Hr. destruct (txSending_from_ok l 0 ∅ w) as (evs & E & Hok & Hin); [done|by apply filled_empty|done|].
  exists evs. split_and!; [done..|]. intros sid Hs. by rewrite Hin.
Qed.
End delivery.

(** ** A run of the relay committee *)

(** The transactions of the rows, numbered from [n], up to [total]. *)
Fixpoint parse_rows {HL : Sha256} {CC : CoreCodecs} (total n : Z) (rows : list Row) : list Transaction :=
  match rows with
  | Some data :: rows =>
      match data2tx data (u64 n) with
      | Ret (Some tx) => tx :: (if n + 1 =? total then [] else parse_rows total (n + 1) rows)
      | Ret None => parse_rows total n rows
      | _ => []
      end
  | _ => []
  end.

(** How many of [k] pending transactions are sent when [n] have been read:
    all of them once [total] is reached, and otherwise the full batches. *)
Definition sent (total batch n : Z) (k : nat) : nat :=
  if n =? total then k else Z.to_nat (Z.of_nat k / batch * batch).

Lemma sent_small total batch n k :
  n <> total -> Z.of_nat k < batch -> sent total batch n k = 0%nat.
Proof. intros Hn Hk. unfold sent. destruct (Z.eqb_spec n total); [done|]. by rewrite Z.div_small by lia. Qed.

Lemma sent_batch total batch n k j :
  0 < batch -> Z.of_nat j = batch -> sent total batch n (j + k) = (j + sent total batch n k)%nat.
Proof.
  intros Hb Hj. unfold sent. case_match; [done|]. rewrite Nat2Z.inj_add, Hj.
  replace (batch + Z.of_nat k) with (Z.of_nat k + 1 * batch) by lia. rewrite Z.div_add by lia.
  pose proof (Z.div_pos (Z.of_nat k) batch). nia.
Qed.

Section relay.
Context {HL : Sha256} {CC : CoreCodecs} {MC : MsgCodecs} {ML : MsgCodecsLaws}.
Context (P : Params) (HS : 0 < ShardNum P < 2 ^ 64) (HI : 0 < InjectSpeed P).
#[local] Hint Extern 0 (Committee RelayCommitteeModule) => exact (relay_committee P) : typeclass_instances.
#[local] Hint Extern 0 (CommitteeModule RelayCommitteeModule) => exact (relay_module P) : typeclass_instances.
Implicit Types (w : Control RelayCommitteeModule).

(** A row the reader gives without error and whose value, if used, is a number. *)
Definition row_ok (r : Row) : Prop := exists data, r = Some data /\ forall n, is_Ret (data2tx data n).

Lemma parse_rows_length total n rows :
  n < total -> n + Z.of_nat (length (parse_rows total n rows)) <= total.
Proof.
  revert n. induction rows as [|[data|] rows IH]; intros n Hn; cbn [parse_rows length]; [lia| |lia].
  destruct (data2tx data (u64 n)) as [[tx|]| |]; cbn [length]; [|by apply IH|lia..].
  destruct (Z.eqb_spec (n + 1) total); [cbn; lia|]. specialize (IH (n + 1)). lia.
Qed.

Lemma run_done ticks w : run_TxHandling ticks Done w = Ret (Done, w, []).
Proof. induction ticks as [|t ticks IH]; [done|]. cbn. erewrite bind_returns; [|reflexivity|exact IH]. done. Qed.

(** The run from [w] to [w'] injected the transactions [l] and reset the stop
    signal when there were any. *)
Definition sent_to w w' (evs : list Event) (l : list Transaction) : Prop :=
  Forall (inject_ok (IpNodeTable (source (com w))) (ShardNum P) (InjectSpeed P)) evs /\
  (forall sid, 0 <= sid < ShardNum P -> injected sid evs = bound_for (com w) sid l) /\
  Ss w' = match l with [] => Ss w | _ => StopGap_Reset (Ss w) end.

Lemma sent_to_app w w1 w2 e1 e2 l1 l2 :
  IpNodeTable (source (com w1)) = IpNodeTable (source (com w)) ->
  sent_to w w1 e1 l1 -> sent_to w1 w2 e2 l2 -> sent_to w w2 (e1 ++ e2) (l1 ++ l2).
Proof.
  intros Hip (Hok1 & Hin1 & Hs1) (Hok2 & Hin2 & Hs2). rewrite Hip in Hok2. split_and!.
  - by apply Forall_app.
  - intros sid Hs. rewrite injected_app, Hin1, Hin2 by done. unfold bound_for. by rewrite list.filter_app.
  - rewrite Hs2, Hs1. by destruct l1, l2.
Qed.

Lemma sent_to_nil w : sent_to w w [] [].
Proof. split_and!; [constructor|done|done]. Qed.

(** A full batch. *)
Lemma relay_batch txlist w :
  routable P (com w) txlist -> txlist <> [] ->
  exists w' evs, (_ ← txSending P txlist; _ ← modify_Ss StopGap_Reset; mret ([] : list Transaction)) w
      = Ret ([], w', evs) /\ com w' = com w /\ sent_to w w' evs txlist.
Proof.
  intros Hr Hne. destruct (txSending_delivers P HS HI txlist w Hr) as (evs & E & Hok & Hin).
  eexists _, evs. split; [|split; [|split_and!; [exact Hok|exact Hin|]]].
  - erewrite bind_returns; [|exact E|reflexivity]. by rewrite app_nil_r.
  - done.
  - by destruct txlist.
Qed.

Definition counted_up w : Control RelayCommitteeModule :=
  w <| com ::= fun c => c <| rc_source ::= fun s => s <| nowDataNum ::= fun n => i64 (n + 1) |> |> |>.

Lemma read_row_some data txlist tx w :
  data2tx data (u64 (nowDataNum (source (com w)))) = Ret (Some tx) ->
  read_row data txlist w = Ret (Some (txlist ++ [tx]), counted_up w, []).
Proof. intros H. unfold read_row. rewrite get_bind, (lift_bind _ _ _ _ H). done. Qed.

Lemma read_row_none data txlist w :
  data2tx data (u64 (nowDataNum (source (com w)))) = Ret None -> read_row data txlist w = Ret (None, w, []).
Proof. intros H. unfold read_row. rewrite get_bind, (lift_bind _ _ _ _ H). done. Qed.

(** An iteration that reads a row, the rest of the loop being [f]. *)
Lemma relay_step t data rows txlist i w otxs w1 :
  i < TxInputCount P -> read_row data txlist w = Ret (otxs, w1, []) ->
  TxHandling t (Reading (Some data :: rows) txlist i) w =
  (txs ← (if batch_full (source (com w1)) (default txlist otxs) then
            _ ← txSending P (default txlist otxs); _ ← modify_Ss StopGap_Reset; mret []
          else mret (default txlist otxs));
   mret (if all_read (source (com w1)) then Done else Reading rows txs (i + 1))) w1.
Proof.
  intros Hi Hr. cbn [TxHandling relay_module Relay_TxHandling].
  rewrite (proj2 (Z.ltb_lt _ _) Hi). cbn [negb].
  rewrite (quiet_bind _ _ _ _ _ Hr), get_bind. done.
Qed.

Lemma relay_quiet t data rows txlist i w otxs w1 :
  i < TxInputCount P -> read_row data txlist w = Ret (otxs, w1, []) ->
  batch_full (source (com w1)) (default txlist otxs) = false ->
  TxHandling t (Reading (Some data :: rows) txlist i) w = Ret (Reading rows (default txlist otxs) (i + 1), w1, []).
Proof.
  intros Hi Hr Hb. rewrite (relay_step _ _ _ _ _ _ _ _ Hi Hr), Hb. unfold batch_full in Hb.
  apply orb_false_iff in Hb as [_ Hb]. unfold all_read. by rewrite Hb.
Qed.

Lemma relay_full t data rows txlist i w txs w1 :
  i < TxInputCount P -> read_row data txlist w = Ret (Some txs, w1, []) ->
  batch_full (source (com w1)) txs = true -> routable P (com w1) txs -> txs <> [] ->
  exists w2 evs, TxHandling t (Reading (Some data :: rows) txlist i) w =
      Ret (if all_read (source (com w1)) then Done else Reading rows [] (i + 1), w2, evs) /\
    com w2 = com w1 /\ sent_to w1 w2 evs txs.
Proof.
  intros Hi Hr Hb Hrt Hne. rewrite (relay_step _ _ _ _ _ _ _ _ Hi Hr). change (default txlist (Some txs)) with txs. rewrite Hb.
  destruct (relay_batch txs w1 Hrt Hne) as (w2 & evs & E & Hc & Hs).
  exists w2, evs. split; [|done]. erewrite bind_returns; [|exact E|reflexivity]. by rewrite app_nil_r.
Qed.

(** What is read from here on is sent, but for an incomplete last batch. *)
Definition reads (rows : list Row) (ticks : list Tick) (txlist : list Transaction) (i : Z) w : Prop :=
  let s := source (com w) in
  let n := nowDataNum s in
  let rest := parse_rows (dataTotalNum s) n (take (Z.to_nat (TxInputCount P - i)) rows) in
  0 <= n < dataTotalNum s -> dataTotalNum s < 2 ^ 63 -> Z.of_nat (length txlist) < batchDataNum s ->
  routable P (com w) (txlist ++ rest) ->
  exists w' evs, run_TxHandling ticks (Reading rows txlist i) w = Ret (Done, w', evs) /\
    nowDataNum (source (com w')) = n + Z.of_nat (length rest) /\
    sent_to w w' evs (take (sent (dataTotalNum s) (batchDataNum s) (n + Z.of_nat (length rest))
                              (length txlist + length rest)) (txlist ++ rest)).

(** The next row, when there is one to read. *)
Lemma parse_next total n i data rows otx :
  i < TxInputCount P -> data2tx data (u64 n) = Ret otx ->
  parse_rows total n (take (Z.to_nat (TxInputCount P - i)) (Some data :: rows)) =
  match otx with
  | Some tx => tx :: (if n + 1 =? total then []
                      else parse_rows total (n + 1) (take (Z.to_nat (TxInputCount P - (i + 1))) rows))
  | None => parse_rows total n (take (Z.to_nat (TxInputCount P - (i + 1))) rows)
  end.
Proof.
  intros Hi Ho. replace (Z.to_nat (TxInputCount P - i)) with (S (Z.to_nat (TxInputCount P - (i + 1)))) by lia.
  cbn [take parse_rows]. by rewrite Ho.
Qed.

Lemma counted_up_now w :
  0 <= nowDataNum (source (com w)) < dataTotalNum (source (com w)) -> dataTotalNum (source (com w)) < 2 ^ 63 ->
  nowDataNum (source (com (counted_up w))) = nowDataNum (source (com w)) + 1.
Proof. intros H1 H2. cbn. apply i64_small. cbn in *. lia. Qed.

Lemma full_spec txlist tx w n :
  nowDataNum (source (com (counted_up w))) = n + 1 ->
  batch_full (source (com (counted_up w))) (txlist ++ [tx]) =
  (Z.of_nat (length txlist) + 1 =? batchDataNum (source (com w))) || (n + 1 =? dataTotalNum (source (com w))).
Proof. intros H. unfold batch_full. rewrite H, length_app, Nat2Z.inj_add. done. Qed.

Lemma all_read_spec w n :
  nowDataNum (source (com (counted_up w))) = n + 1 ->
  all_read (source (com (counted_up w))) = (n + 1 =? dataTotalNum (source (com w))).
Proof. intros H. unfold all_read. by rewrite H. Qed.

Lemma reads_stop t ticks rows txlist i w :
  (forall total n, parse_rows total n (take (Z.to_nat (TxInputCount P - i)) rows) = []) ->
  TxHandling t (Reading rows txlist i) w = Ret (Done, w, []) -> reads rows (t :: ticks) txlist i w.
Proof.
  intros Hp E. unfold reads.
  set (s := source (com w)) in *. set (n := nowDataNum s) in *. intros Hn Ht Hl Hrt. rewrite Hp. exists w, []. cbn [length].
  rewrite sent_small by lia. split_and!; [|unfold n, s; lia|apply sent_to_nil].
  cbn [run_TxHandling]. erewrite quiet_bind; [apply run_done|exact E].
Qed.

Lemma reads_skip t ticks data rows txlist i w :
  i < TxInputCount P -> data2tx data (u64 (nowDataNum (source (com w)))) = Ret None ->
  reads rows ticks txlist (i + 1) w -> reads (Some data :: rows) (t :: ticks) txlist i w.
Proof.
  intros Hi Ho IH. unfold reads.
  set (s := source (com w)) in *. set (n := nowDataNum s) in *. intros Hn Ht Hl Hrt.
  rewrite (parse_next _ _ _ _ _ _ Hi Ho) in *. destruct IH as (w' & evs & E & H); [done..|].
  exists w', evs. split; [|exact H]. cbn [run_TxHandling]. erewrite quiet_bind; [exact E|].
  apply (relay_quiet t data rows txlist i w None w Hi (read_row_none data txlist w Ho)).
  unfold batch_full. change (default txlist None) with txlist. fold s n. apply orb_false_iff; split; apply Z.eqb_neq; lia.
Qed.

Lemma reads_more t ticks data tx rows txlist i w :
  i < TxInputCount P -> data2tx data (u64 (nowDataNum (source (com w)))) = Ret (Some tx) ->
  batch_full (source (com (counted_up w))) (txlist ++ [tx]) = false ->
  reads rows ticks (txlist ++ [tx]) (i + 1) (counted_up w) -> reads (Some data :: rows) (t :: ticks) txlist i w.
Proof.
  intros Hi Ho Hb IH. unfold reads.
  set (s := source (com w)) in *. set (n := nowDataNum s) in *. intros Hn Ht Hl Hrt. rewrite (parse_next _ _ _ _ _ _ Hi Ho) in *.
  assert (Hn1 : nowDataNum (source (com (counted_up w))) = n + 1) by (by apply counted_up_now). 
  pose proof Hb as Hf. rewrite (full_spec _ _ _ _ Hn1) in Hf. fold s in Hf.
  apply orb_false_iff in Hf as [Hf1 Hf2]. rewrite Hf2 in *. apply Z.eqb_neq in Hf1, Hf2.
  unfold reads in IH. rewrite Hn1 in IH. change (dataTotalNum (source (com (counted_up w)))) with (dataTotalNum s) in IH.
  change (batchDataNum (source (com (counted_up w)))) with (batchDataNum s) in IH.
  rewrite length_app, <- app_assoc in IH. cbn [length app] in IH.
  destruct IH as (w' & evs & E & Hn2 & Hs); [lia|done|lia|done|].
  exists w', evs. cbn [length]. split_and!.
  - cbn [run_TxHandling]. erewrite quiet_bind; [exact E|].
    by apply (relay_quiet t data rows txlist i w _ _ Hi (read_row_some data txlist tx w Ho)).
  - rewrite Hn2. lia.
  - revert Hs. rewrite <- Nat.add_assoc, Nat.add_1_l.
    replace (n + 1 + Z.of_nat _) with (n + Z.of_nat (S (length (parse_rows (dataTotalNum s) (n + 1)
      (take (Z.to_nat (TxInputCount P - (i + 1))) rows))))) by lia. done.
Qed.

(** The last batch. *)
Lemma reads_last t ticks data tx rows txlist i w :
  i < TxInputCount P -> data2tx data (u64 (nowDataNum (source (com w)))) = Ret (Some tx) ->
  nowDataNum (source (com w)) + 1 = dataTotalNum (source (com w)) ->
  reads (Some data :: rows) (t :: ticks) txlist i w.
Proof.
  intros Hi Ho He. unfold reads.
  set (s := source (com w)) in *. set (n := nowDataNum s) in *. intros Hn Ht Hl Hrt. rewrite (parse_next _ _ _ _ _ _ Hi Ho) in *.
  rewrite (proj2 (Z.eqb_eq _ _) He) in *.
  assert (Hn1 : nowDataNum (source (com (counted_up w))) = n + 1) by (by apply counted_up_now). 
  destruct (relay_full t data rows txlist i w (txlist ++ [tx]) (counted_up w) Hi (read_row_some data txlist tx w Ho))
    as (w2 & evs & E & Hc & Hs); [|done|by destruct txlist|].
  { rewrite (full_spec _ _ _ _ Hn1). fold s. rewrite (proj2 (Z.eqb_eq _ _) He). apply orb_true_r. }
  exists w2, evs. cbn [length]. split_and!.
  - rewrite (all_read_spec _ _ Hn1) in E. fold s in E. rewrite (proj2 (Z.eqb_eq _ _) He) in E. cbn [run_TxHandling].
    erewrite bind_returns; [|exact E|apply run_done]. by rewrite app_nil_r.
  - rewrite Hc, Hn1. done.
  - unfold sent. replace (n + Z.of_nat 1) with (dataTotalNum s) by lia. rewrite Z.eqb_refl.
    rewrite take_ge by (rewrite length_app; cbn [length]; lia). done.
Qed.

(** A full batch before the last. *)
Lemma reads_full t ticks data tx rows txlist i w :
  i < TxInputCount P -> data2tx data (u64 (nowDataNum (source (com w)))) = Ret (Some tx) ->
  nowDataNum (source (com w)) + 1 <> dataTotalNum (source (com w)) ->
  Z.of_nat (length txlist) + 1 = batchDataNum (source (com w)) ->
  (forall w2, com w2 = com (counted_up w) -> reads rows ticks [] (i + 1) w2) ->
  reads (Some data :: rows) (t :: ticks) txlist i w.
Proof.
  intros Hi Ho Hne Hf IH. unfold reads.
  set (s := source (com w)) in *. set (n := nowDataNum s) in *. intros Hn Ht Hl Hrt. rewrite (parse_next _ _ _ _ _ _ Hi Ho) in *.
  rewrite (proj2 (Z.eqb_neq _ _) Hne) in *.
  set (rest' := parse_rows _ _ _) in *. rewrite (cons_middle tx txlist rest') in *. rewrite (assoc_L (++)) in *.
  apply Forall_app in Hrt as [Hrt1 Hrt2]. assert (Hn1 : nowDataNum (source (com (counted_up w))) = n + 1) by (by apply counted_up_now). 
  destruct (relay_full t data rows txlist i w (txlist ++ [tx]) (counted_up w) Hi (read_row_some data txlist tx w Ho))
    as (w2 & evs & E & Hc & Hs); [|done|by destruct txlist|].
  { rewrite (full_spec _ _ _ _ Hn1). fold s. by rewrite (proj2 (Z.eqb_eq _ _) Hf). }
  rewrite (all_read_spec _ _ Hn1) in E. fold s in E.
  rewrite (proj2 (Z.eqb_neq _ _) Hne) in E.
  specialize (IH w2 Hc). unfold reads in IH. rewrite Hc, Hn1 in IH. cbn [length] in IH. fold s in IH.
  destruct IH as (w' & evs2 & E2 & Hn2 & Hs2); [cbn in *; lia|done|cbn in *; lia|exact Hrt2|].
  exists w', (evs ++ evs2). cbn [length run_TxHandling]. split_and!.
  - by eapply bind_returns.
  - change (nowDataNum (source (com w')) = n + 1 + Z.of_nat (length rest')) in Hn2. rewrite Hn2. lia.
  - replace (length txlist + S (length rest'))%nat with (length (txlist ++ [tx]) + length rest')%nat
      by (rewrite length_app; cbn [length]; lia).
    rewrite sent_batch by (rewrite ?length_app; cbn [length]; lia). rewrite take_app_add.
    replace (n + Z.of_nat (S (length rest'))) with (n + 1 + Z.of_nat (length rest')) by lia.
    eapply (sent_to_app w w2); [by rewrite Hc|done|exact Hs2].
Qed.

Lemma relay_reads rows : forall ticks txlist i w,
  Forall row_ok rows -> (length rows < length ticks)%nat -> reads rows ticks txlist i w.
Proof.
  induction rows as [|r rows IH]; intros [|t ticks] txlist i w Hok Hlen; [cbn in Hlen; lia| |cbn in Hlen; lia|].
  - apply reads_stop; [intros; by rewrite take_nil|cbn; by case_match].
  - cbn [length] in Hlen. apply list.Forall_cons in Hok as [(data & -> & Hd) Hok].
    destruct (Z.ltb_spec i (TxInputCount P)) as [Hi|Hi].
    2: { apply reads_stop; [intros; by replace (Z.to_nat (TxInputCount P - i)) with 0%nat by lia|].
      cbn. by rewrite (proj2 (Z.ltb_ge _ _) Hi). }
    destruct (Hd (u64 (nowDataNum (source (com w))))) as [[tx|] Ho]; [|apply (reads_skip t); [done..|apply IH; [done|lia]]].
    destruct (decide (nowDataNum (source (com w)) + 1 = dataTotalNum (source (com w)))) as [He|Hne];
      [by eapply reads_last|].
    destruct (decide (Z.of_nat (length txlist) + 1 = batchDataNum (source (com w)))) as [Hf|Hf].
    + eapply reads_full; [done..|]. intros w2 _. apply IH; [done|lia].
    + unfold reads. intros Hn Ht. eapply reads_more; [done..| |apply IH; [done|lia]|done|done].
      rewrite (full_spec _ _ _ _ (counted_up_now w Hn Ht)). apply orb_false_iff; split; by apply Z.eqb_neq.
Qed.

(** C37: the relay committee's [TxHandling], run without interruption on
    a file of well-formed rows, returns after at most one iteration more than
    there are rows.  It has then read the transactions of the first
    [TxInputCount] rows up to [dataTotalNum] of them, and injected, each once
    and in the order of the file, into the shard of its sender: all of them if
    [dataTotalNum] was reached, and otherwise only the full batches.  Each
    message goes to the leader of an existing shard and carries at most
    [InjectSpeed] transactions; the stop signal is reset iff something was sent. *)
Theorem relay_TxHandling_injects rows ticks w :
  let s := source (com w) in
  let txs := parse_rows (dataTotalNum s) 0 (take (Z.to_nat (TxInputCount P)) rows) in
  let n := Z.of_nat (length txs) in
  let l := take (sent (dataTotalNum s) (batchDataNum s) n (length txs)) txs in
  nowDataNum s = 0 -> 0 < dataTotalNum s < 2 ^ 63 -> 0 < batchDataNum s ->
  Forall row_ok rows -> routable P (com w) txs -> (length rows < length ticks)%nat ->
  exists w' evs, run_TxHandling ticks (Reading rows [] 0) w = Ret (Done, w', evs) /\
    nowDataNum (source (com w')) = n /\
    Forall (inject_ok (IpNodeTable s) (ShardNum P) (InjectSpeed P)) evs /\
    (forall sid, 0 <= sid < ShardNum P -> injected sid evs = bound_for (com w) sid l) /\
    Ss w' = match l with [] => Ss w | _ => StopGap_Reset (Ss w) end.
Proof.
  intros s txs n l H0 Ht Hb Hok Hrt Hlen. unfold n, l, txs in *.
  pose proof (relay_reads rows ticks [] 0 w Hok Hlen) as H. unfold reads in H. fold s in H.
  rewrite H0, Z.sub_0_r in H. cbn [length app] in H.
  destruct H as (w' & evs & E & Hn & Hs); [lia|lia|lia|exact Hrt|].
  exists w', evs. split; [exact E|]. split; [exact Hn|exact Hs].
Qed.
End relay.

(** ** Instances *)
Module RefCommittee.
Export RefChain RefJson.
Definition addr (last : string) : string := "0x" +:+ "00000000000000" +:+ last.
Definition row (from to v : string) : Row :=
  Some ["1"; "2"; "3"; addr from; addr to; "5"; "0"; "0"; v]%string.
Definition rows : list Row :=
  [row "00000001" "00000002" "7"; row "00000002" "00000001" "8";
   Some ["1"; "2"; "3"; "4"; "5"; "6"; "1"]%string; row "00000003" "00000001" "+9"].
Definition ips : gmap Z (gmap Z string) := {[ 0 := {[0 := "ip00"]}; 1 := {[0 := "ip10"]} ]}%string.
Definition committee : RelayCommitteeModule := NewRelayCommitteeModule ips 100 2.
Definition world : Control RelayCommitteeModule := mkControl (NewStopSignal 4) committee.
Definition tick : Tick := mkTick 1 2 3 (fun _ keys => keys).

Lemma rows_ok : Forall row_ok rows.
Proof.
  unfold rows. repeat constructor; (eexists; split; [reflexivity|]); intros n; unfold data2tx; cbn;
    by eexists.
Qed.
End RefCommittee.
Import RefCommittee.

Lemma relay_TxHandling_injects_witness :
  exists w' evs,
    run_TxHandling (IC := relay_module RefChain.params) (replicate 5 RefCommittee.tick)
      (Reading RefCommittee.rows [] 0) RefCommittee.world = Ret (Done, w', evs) /\
    nowDataNum (rc_source (com w')) = 3 /\
    tx_Value <$> injected 0 evs = [8] /\ tx_Value <$> injected 1 evs = [7].
Proof.
  destruct (relay_TxHandling_injects RefChain.params ltac:(by cbn) ltac:(by cbn) RefCommittee.rows
    (replicate 5 RefCommittee.tick) RefCommittee.world) as (w' & evs & E & Hn & _ & Hin & _).
  - done.
  - done.
  - done.
  - exact RefCommittee.rows_ok.
  - repeat constructor; eexists; (split; [vm_compute; reflexivity|done]).
  - cbn. lia.
  - exists w', evs. split; [exact E|]. split; [etrans; [exact Hn|vm_compute; reflexivity]|].
    rewrite !Hin by (cbn; lia). split; vm_compute; reflexivity.
Defined.
