(* ===== verification/BrokerProtocol.v ===== *)
(** * BrokerProtocol: a cross-shard transaction through a broker

    The committee splits a cross-shard transaction into a first half, from its
    sender to the broker, and once a block reports that half, a second, from
    the broker to its recipient.  Both broker committees run the same
    functions: [BrokerHostLaws] is what they need of their host. *)
From stdpp Require Import base gmap strings list countable.
From Stdlib Require Import ZArith Lia.
From S2P Require Import Prelude GoStd Libs Core Pools Messages StorageDB Chain Ledger Execution Pbft RelayMod Partition PartitionProps Committee CommitteeProps.

Class BrokerHostLaws (C : Type) {CM : Committee C} {BH : BrokerHost C} : Prop := {
  host_part : forall f c, broker_part (set_broker f c) = f (broker_part c);
  host_fetch : forall f (c : C) key, fetch (set_broker f c) key = fetch c key;
  host_source : forall f (c : C), source (set_broker f c) = source c;
  host_shard : forall (c : C) tx, tx_shard c tx = broker_tx_shard c tx }.

(** ** Maps filled by a loop *)
Section loops.
Context {A V : Type} (k : A -> string).
Implicit Types (m : gmap string V) (l : list A).

Lemma fill_other (g : option V -> A -> V) l : forall m key,
  key ∉ k <$> l -> foldl (fun m x => <[k x := g (m !! k x) x]> m) m l !! key = m !! key.
Proof.
  induction l as [|x l IH]; intros m key Hk; [done|]. cbn in *. apply not_elem_of_cons in Hk as [Hne Hk].
  rewrite IH by done. by rewrite lookup_insert_ne.
Qed.

(** An entry is written once, from the value its key had before. *)
Lemma fill_in (g : option V -> A -> V) l : forall m x,
  NoDup (k <$> l) -> x ∈ l ->
  foldl (fun m x => <[k x := g (m !! k x) x]> m) m l !! k x = Some (g (m !! k x) x).
Proof.
  induction l as [|y l IH]; intros m x Hnd Hx; [by apply not_elem_of_nil in Hx|]. cbn in *.
  apply list.NoDup_cons in Hnd as [Hy Hnd]. apply elem_of_cons in Hx as [->|Hx].
  - rewrite (fill_other g) by done. by rewrite lookup_insert_eq.
  - rewrite IH by done. rewrite lookup_insert_ne; [done|]. intros E. apply Hy. rewrite E. by apply list_elem_of_fmap_2.
Qed.

(** Whatever the keys, an entry is there. *)
Lemma fill_some (v : A -> V) l : forall m x,
  x ∈ l \/ is_Some (m !! k x) -> is_Some (foldl (fun m x => <[k x := v x]> m) m l !! k x).
Proof.
  induction l as [|y l IH]; intros m x [Hx|Hm]; cbn; [by apply not_elem_of_nil in Hx|done| |].
  - apply IH. apply elem_of_cons in Hx as [->|Hx]; [|by left]. right. rewrite lookup_insert_eq. done.
  - apply IH. right. destruct (decide (k y = k x)) as [->|]; [by rewrite lookup_insert_eq|by rewrite lookup_insert_ne].
Qed.

Lemma omap_fmap_some {B} (f : B -> option V) (h : A -> B) (v : A -> V) l :
  (forall x, x ∈ l -> f (h x) = Some (v x)) -> omap f (h <$> l) = v <$> l.
Proof.
  induction l as [|x l IH]; intros H; [done|]. cbn. rewrite H by left. f_equal.
  apply IH. intros. apply H. by right.
Qed.

Lemma omap_fmap_none {B} (f : B -> option V) (h : A -> B) l :
  (forall x, x ∈ l -> f (h x) = None) -> omap f (h <$> l) = [].
Proof. induction l as [|x l IH]; intros H; [done|]. cbn. rewrite H by left. apply IH. intros. apply H. by right. Qed.
End loops.

Lemma forM_fmap {S O A B} (h : A -> B) (f : B -> M S O ()) (l : list A) :
  forM (h <$> l) f = forM l (fun x => f (h x)).
Proof. induction l as [|x l IH]; [done|]. cbn. by rewrite IH. Qed.

Lemma filter_fmap {A B} (h : A -> B) (Q : B -> Prop) `{!forall x, Decision (Q x)} (l : list A) :
  filter Q (h <$> l) = h <$> filter (fun x => Q (h x)) l.
Proof. induction l as [|x l IH]; [done|]. cbn [fmap list_fmap]. rewrite !filter_cons, IH. by case_decide. Qed.

(** ** The committee's broker part *)

(** A field the loops update, which is not the list of brokers. *)
Class PartField {F} (upd : (F -> F) -> BrokerPart -> BrokerPart) : Prop := {
  upd_id : forall p, upd (fun v => v) p = p;
  upd_comp : forall f g p, upd f (upd g p) = upd (fun v => f (g v)) p;
  upd_addr : forall f p, BrokerAddress (broker (upd f p)) = BrokerAddress (broker p) }.

Definition upd_pool1 f (p : BrokerPart) : BrokerPart := p <| brokerConfirm1Pool ::= f |>.
Definition upd_pool2 f (p : BrokerPart) : BrokerPart := p <| brokerConfirm2Pool ::= f |>.
Definition upd_raw f (p : BrokerPart) : BrokerPart := p <| broker ::= fun b => b <| BrokerRawMegs ::= f |> |>.
Definition upd_halves f (p : BrokerPart) : BrokerPart := p <| broker ::= fun b => b <| RawTx2BrokerTx ::= f |> |>.

#[export] Instance pool1_field : PartField upd_pool1.
Proof. split; intros; by repeat match goal with p : BrokerPart |- _ => destruct p as [[] ? ? ?] end. Qed.
#[export] Instance pool2_field : PartField upd_pool2.
Proof. split; intros; by repeat match goal with p : BrokerPart |- _ => destruct p as [[] ? ? ?] end. Qed.
#[export] Instance raw_field : PartField upd_raw.
Proof. split; intros; by repeat match goal with p : BrokerPart |- _ => destruct p as [[] ? ? ?] end. Qed.
#[export] Instance halves_field : PartField upd_halves.
Proof. split; intros; by repeat match goal with p : BrokerPart |- _ => destruct p as [[] ? ? ?] end. Qed.

Lemma filter_iff_in {A} (Q R : A -> Prop) `{!forall x, Decision (Q x), !forall x, Decision (R x)} (l : list A) :
  (forall x, x ∈ l -> Q x <-> R x) -> filter Q l = filter R l.
Proof.
  induction l as [|x l IH]; intros HQR; [done|]. rewrite !filter_cons, IH by (intros; apply HQR; by right).
  specialize (HQR x ltac:(left)). repeat case_decide; tauto.
Qed.

Section protocol.
Context {HL : Sha256} {CC : CoreCodecs} {MC : MsgCodecs} {ML : MsgCodecsLaws}.
Context {C : Type} {CM : Committee C} {BH : BrokerHost C} {BL : BrokerHostLaws C}.
Context (P : Params) (HS : 0 < ShardNum P < 2 ^ 64) (HI : 0 < InjectSpeed P).
Implicit Types (w : Control C) (c : C) (b : string).

Abbreviation part w := (broker_part (com w)).

(** What decides where a transaction goes is the same in both states. *)
Definition same c' c : Prop :=
  source c' = source c /\ BrokerAddress (broker (broker_part c')) = BrokerAddress (broker (broker_part c)) /\
  forall key, fetch c' key = fetch c key.

Lemma same_refl c : same c c.
Proof. done. Qed.
Lemma same_trans c1 c2 c3 : same c1 c2 -> same c2 c3 -> same c1 c3.
Proof. intros (H1 & H2 & H3) (K1 & K2 & K3). split_and!; [congruence..|]. intros. by rewrite H3. Qed.

Lemma same_shard c' c tx : same c' c -> tx_shard c' tx = tx_shard c tx.
Proof. intros (_ & Ha & Hf). rewrite !host_shard. unfold broker_tx_shard, IsBroker. by rewrite !Hf, Ha. Qed.

Lemma same_update {F} (upd : (F -> F) -> BrokerPart -> BrokerPart) `{!PartField upd} f c :
  same (set_broker (upd f) c) c.
Proof. split_and!; [apply host_source|by rewrite host_part, upd_addr|]. intros. apply host_fetch. Qed.

(** A loop that updates a field. *)
Lemma field_loop {F A} (upd : (F -> F) -> BrokerPart -> BrokerPart) `{!PartField upd} (f : A -> F -> F) l : forall w,
  exists w', forM l (fun x => modify_com (set_broker (upd (f x)))) w = Ret (tt, w', []) /\
    same (com w') (com w) /\ part w' = upd (fun v => foldl (fun v x => f x v) v l) (part w).
Proof.
  induction l as [|x l IH]; intros w.
  - exists w. split_and!; [done|done|]. cbn. by rewrite upd_id.
  - destruct (IH (w <| com ::= set_broker (upd (f x)) |>)) as (w' & E & Hs & Hp). exists w'. split_and!.
    + cbn [forM]. by erewrite quiet_bind; [exact E|].
    + eapply same_trans; [exact Hs|]. apply (same_update upd).
    + rewrite Hp. cbn [com set_field]. cbn. rewrite host_part. apply upd_comp.
Qed.

(** ** The two halves of a transaction *)
Definition raw_meg b (tx : Transaction) : BrokerRawMeg := mkBrokerRawMeg tx b 0 0 0 "".
Definition first_half b (tx : Transaction) : Transaction := type1_tx (mkBrokerType1Meg (raw_meg b tx) 0 b).
Definition second_half b (tx : Transaction) : Transaction := type2_tx (mkBrokerType2Meg (raw_meg b tx) b).
Definition confirm1 b (tx : Transaction) : Mag1Confirm := mkMag1Confirm (tx_TxHash (first_half b tx)) (raw_meg b tx).
Definition confirm2 b (tx : Transaction) : Mag2Confirm := mkMag2Confirm (tx_TxHash (second_half b tx)) (raw_meg b tx).

(** The transactions of [l] were injected, each once and in order, into the
    shard of their [end_]. *)
Definition delivered w (evs : list Event) (end_ : Transaction -> string) (half : Transaction -> Transaction)
    (l : list Transaction) : Prop :=
  Forall (inject_ok (IpNodeTable (source (com w))) (ShardNum P) (InjectSpeed P)) evs /\
  forall sid, 0 <= sid < ShardNum P ->
    injected sid evs = half <$> filter (fun tx => fetch (com w) (end_ tx) = Ret sid) l.

Definition placed c (key : string) : Prop := exists s, fetch c key = Ret s /\ 0 <= s < ShardNum P.

Lemma txSending_half w end_ half l :
  (forall tx, tx ∈ l -> placed (com w) (end_ tx) /\ tx_shard (com w) (half tx) = fetch (com w) (end_ tx)) ->
  exists evs, txSending P (half <$> l) w = Ret (tt, w, evs) /\ delivered w evs end_ half l.
Proof.
  intros H. destruct (txSending_delivers P HS HI (half <$> l) w) as (evs & E & Hok & Hin).
  { apply Forall_fmap, list.Forall_forall. intros tx Ht. destruct (H tx Ht) as [(s & Hs & Hr) He].
    exists s. cbn. by rewrite He. }
  exists evs. split; [done|]. split; [done|]. intros sid Hs. rewrite Hin by done. unfold bound_for.
  rewrite filter_fmap. f_equal. apply filter_iff_in. intros tx Ht. by rewrite (proj2 (H tx Ht)).
Qed.

Lemma same_delivered w' w evs end_ half l :
  same (com w') (com w) -> delivered w' evs end_ half l -> delivered w evs end_ half l.
Proof.
  intros (Hso & _ & Hf) [Hok Hin]. split; [by rewrite Hso in Hok|].
  intros sid Hsid. rewrite Hin by done. f_equal. apply list_filter_iff. intros tx. by rewrite Hf.
Qed.

Lemma same_placed c' c key : same c' c -> placed c key -> placed c' key.
Proof. intros (_ & _ & Hf) (s & Hs & Hr). exists s. by rewrite Hf. Qed.

(** ** Splitting a batch *)

(** Between two shards, and no broker at either end. *)
Definition crosses c (tx : Transaction) : bool :=
  let bk := broker (broker_part c) in
  negb (bool_decide (fetch c (tx_Recipient tx) = fetch c (tx_Sender tx))) &&
  negb (IsBroker bk (tx_Recipient tx)) && negb (IsBroker bk (tx_Sender tx)).

(** A transaction that is not split knows whether a broker takes part. *)
Definition marked c (tx : Transaction) : Transaction :=
  let bk := broker (broker_part c) in
  if IsBroker bk (tx_Recipient tx) || IsBroker bk (tx_Sender tx)
  then tx <| tx_HasBroker := true |> <| tx_SenderIsBroker := IsBroker bk (tx_Sender tx) |> else tx.

Definition ends_placed c (tx : Transaction) : Prop := placed c (tx_Sender tx) /\ placed c (tx_Recipient tx).

Lemma deal_tx_ok c b s tx :
  head (BrokerAddress (broker (broker_part c))) = Some b -> ends_placed c tx ->
  deal_tx c s tx = Ret (if crosses c tx then (s.1, s.2 ++ [raw_meg b tx]) else (s.1 ++ [marked c tx], s.2)).
Proof.
  intros Hb [(ss & Hs & _) (sr & Hr & _)]. unfold deal_tx, crosses. rewrite Hs, Hr, Hb. cbn.
  assert (E : bool_decide (Ret sr = Ret ss) = (sr =? ss)).
  { destruct (Z.eqb_spec sr ss) as [->|Hne]; [by apply bool_decide_eq_true|].
    apply bool_decide_eq_false. congruence. }
  rewrite E. by case_match.
Qed.

Lemma deal_txs_ok c b txs : forall s,
  head (BrokerAddress (broker (broker_part c))) = Some b -> Forall (ends_placed c) txs ->
  foldM (deal_tx c) s txs =
  Ret (s.1 ++ (marked c <$> filter (fun tx => crosses c tx = false) txs),
       s.2 ++ (raw_meg b <$> filter (fun tx => crosses c tx = true) txs)).
Proof.
  induction txs as [|tx txs IH]; intros [l1 l2] Hb Hp; [cbn; by rewrite !app_nil_r|].
  apply list.Forall_cons in Hp as [Ht Hp]. cbn [foldM]. rewrite (deal_tx_ok c b) by done. cbn [mbind res_bind].
  rewrite IH, !filter_cons by done. destruct (crosses c tx); cbn; by rewrite <- app_assoc.
Qed.

(** A split transaction's halves go where their account is. *)
Lemma first_half_shard c b tx :
  crosses c tx = true -> tx_shard c (first_half b tx) = fetch c (tx_Sender (first_half b tx)).
Proof.
  rewrite host_shard. intros Hc. unfold broker_tx_shard. cbn. apply andb_true_iff in Hc as [_ Hc].
  destruct (fetch c (tx_Sender tx)); [|done..]. cbn. apply negb_true_iff in Hc. by rewrite Hc.
Qed.

Lemma second_half_shard c b tx :
  head (BrokerAddress (broker (broker_part c))) = Some b -> is_Ret (fetch c b) ->
  tx_shard c (second_half b tx) = fetch c (tx_Recipient tx).
Proof.
  rewrite host_shard. intros Hb [s Hs]. unfold broker_tx_shard. cbn. rewrite Hs. cbn.
  assert (Hi : IsBroker (broker (broker_part c)) b = true).
  { apply bool_decide_eq_true. apply head_Some in Hb as [l ->]. left. }
  by rewrite Hi.
Qed.

(** ** The handlers *)
Lemma handleBrokerRawMag_ok w b l :
  Forall (ends_placed (com w)) l -> Forall (fun tx => crosses (com w) tx = true) l ->
  exists w' evs, handleBrokerRawMag P (raw_meg b <$> l) w = Ret (tt, w', evs) /\ same (com w') (com w) /\
    delivered w evs tx_Sender (first_half b) l /\
    part w' = upd_pool1 (fun m => foldl (fun m tx => <[tx_TxHash (first_half b tx) := confirm1 b tx]> m) m l)
      (upd_raw (fun m => foldl (fun m tx => <[getBrokerRawMagDigest (raw_meg b tx) := raw_meg b tx]> m) m l) (part w)).
Proof.
  intros Hp Hc. unfold handleBrokerRawMag.
  destruct (field_loop upd_raw (fun tx => <[getBrokerRawMagDigest (raw_meg b tx) := raw_meg b tx]>) l w)
    as (w1 & E1 & Hs1 & Hp1).
  destruct (field_loop upd_pool1 (fun tx => <[tx_TxHash (first_half b tx) := confirm1 b tx]>) l w1)
    as (w2 & E2 & Hs2 & Hp2).
  assert (Hs : same (com w2) (com w)) by (by eapply same_trans).
  destruct (txSending_half w2 tx_Sender (first_half b) l) as (evs & E3 & Hd).
  { intros tx Ht. rewrite list.Forall_forall in Hp, Hc. split; [by eapply same_placed, Hp|].
    rewrite (same_shard (com w2) (com w)), first_half_shard by (done || by apply Hc). symmetry. apply Hs. }
  exists w2, evs. split_and!; [|done| |].
  - rewrite forM_fmap. erewrite quiet_bind; [|exact E1]. unfold handleBrokerType1Mes.
    rewrite !forM_fmap, <- !list_fmap_compose. by erewrite quiet_bind; [|exact E2].
  - by eapply same_delivered.
  - by rewrite Hp2, Hp1.
Qed.

(** [half] is noted for every transaction of [l]. *)
Definition note (half : Transaction -> Transaction) (l : list Transaction) (m : gmap bytes (list bytes)) :=
  foldl (fun m tx => <[tx_TxHash tx := default [] (m !! tx_TxHash tx) ++ [tx_TxHash (half tx)]]> m) m l.

Lemma confirm1_loop_ok b l : forall acc w,
  head (BrokerAddress (broker (part w))) = Some b ->
  (forall tx, tx ∈ l -> is_Some (BrokerRawMegs (broker (part w)) !! getBrokerRawMagDigest (raw_meg b tx))) ->
  exists w', confirm1_loop acc (confirm1 b <$> l) w =
      Ret (acc ++ ((fun tx => mkBrokerType2Meg (raw_meg b tx) b) <$> l), w', []) /\
    same (com w') (com w) /\ part w' = upd_halves (note (first_half b) l) (part w).
Proof.
  induction l as [|tx l IH]; intros acc w Hb Hraw.
  - exists w. cbn. rewrite app_nil_r. split_and!; [done..|]. by destruct (part w) as [[] ? ? ?].
  - set (w1 := w <| com ::= set_broker (upd_halves (fun m =>
        <[tx_TxHash tx := default [] (m !! tx_TxHash tx) ++ [tx_TxHash (first_half b tx)]]> m)) |>).
    assert (Hs1 : same (com w1) (com w)) by apply (same_update upd_halves).
    assert (Hp1 : part w1 = upd_halves _ (part w)) by apply host_part.
    destruct (IH (acc ++ [mkBrokerType2Meg (raw_meg b tx) b]) w1) as (w' & E & Hs & Hp).
    + by rewrite Hp1.
    + intros tx' Ht. rewrite Hp1. apply Hraw. by right.
    + exists w'. split_and!; [|by eapply same_trans|].
      * cbn [fmap list_fmap confirm1_loop]. rewrite <- app_assoc in E. erewrite quiet_bind; [exact E|].
        unfold confirm1_step. rewrite get_bind. destruct (Hraw tx) as [meg Hmeg]; [by left|].
        cbn [mc1_RawMeg confirm1]. rewrite Hmeg. unfold record_half, modify_com. rewrite modify_bind.
        by rewrite Hb.
      * rewrite Hp, Hp1. by rewrite (upd_comp (upd := upd_halves)).
Qed.

Lemma handleTx1ConfirmMag_ok w b l :
  head (BrokerAddress (broker (part w))) = Some b -> is_Ret (fetch (com w) b) ->
  Forall (ends_placed (com w)) l ->
  (forall tx, tx ∈ l -> is_Some (BrokerRawMegs (broker (part w)) !! getBrokerRawMagDigest (raw_meg b tx))) ->
  exists w' evs, handleTx1ConfirmMag P (confirm1 b <$> l) w = Ret (tt, w', evs) /\ same (com w') (com w) /\
    delivered w evs tx_Recipient (second_half b) l /\
    part w' = upd_pool2 (fun m => foldl (fun m tx => <[tx_TxHash (second_half b tx) := confirm2 b tx]> m) m l)
      (upd_halves (note (first_half b) l) (part w)).
Proof.
  intros Hb Hbs Hp Hraw. unfold handleTx1ConfirmMag.
  destruct (confirm1_loop_ok b l [] w Hb Hraw) as (w1 & E1 & Hs1 & Hp1).
  destruct (field_loop upd_pool2 (fun tx => <[tx_TxHash (second_half b tx) := confirm2 b tx]>) l w1)
    as (w2 & E2 & Hs2 & Hp2).
  assert (Hs : same (com w2) (com w)) by (by eapply same_trans).
  destruct (txSending_half w2 tx_Recipient (second_half b) l) as (evs & E3 & Hd).
  { intros tx Ht. rewrite list.Forall_forall in Hp. split; [by eapply same_placed, Hp|].
    rewrite (same_shard (com w2) (com w)), second_half_shard by done. symmetry. apply Hs. }
  exists w2, evs. split_and!; [|done|by eapply same_delivered|by rewrite Hp2, Hp1].
  erewrite quiet_bind; [|exact E1]. cbn [app]. unfold handleBrokerType2Mes.
  rewrite forM_fmap, <- !list_fmap_compose. by erewrite quiet_bind; [|exact E2].
Qed.

(** A block's report of first halves, and of second halves. *)
Lemma createConfirm_first w b l :
  head (BrokerAddress (broker (part w))) = Some b -> is_Ret (fetch (com w) b) ->
  Forall (ends_placed (com w)) l ->
  (forall tx, tx ∈ l -> is_Some (BrokerRawMegs (broker (part w)) !! getBrokerRawMagDigest (raw_meg b tx)) /\
    brokerConfirm1Pool (part w) !! tx_TxHash (first_half b tx) = Some (confirm1 b tx) /\
    brokerConfirm2Pool (part w) !! tx_TxHash (first_half b tx) = None) ->
  exists w' evs, createConfirm P (first_half b <$> l) w = Ret (tt, w', evs) /\ same (com w') (com w) /\
    delivered w evs tx_Recipient (second_half b) l /\
    part w' = upd_pool2 (fun m => foldl (fun m tx => <[tx_TxHash (second_half b tx) := confirm2 b tx]> m) m l)
      (upd_halves (note (first_half b) l) (part w)).
Proof.
  intros Hb Hbs Hp Hl. unfold createConfirm. setoid_rewrite get_bind.
  rewrite (omap_fmap_some _ _ (confirm1 b)) by apply Hl. rewrite omap_fmap_none by apply Hl.
  destruct l as [|tx l].
  - exists w, []. split_and!; [done..| |by destruct (part w) as [[] ? ? ?]]. split; [by constructor|done].
  - destruct (handleTx1ConfirmMag_ok w b (tx :: l)) as (w' & evs & E & H); [done..|apply Hl|].
    exists w', evs. split; [|exact H]. erewrite bind_returns; [|exact E|done]. by rewrite app_nil_r.
Qed.

Lemma createConfirm_second w b l :
  (forall tx, tx ∈ l -> brokerConfirm1Pool (part w) !! tx_TxHash (second_half b tx) = None /\
    brokerConfirm2Pool (part w) !! tx_TxHash (second_half b tx) = Some (confirm2 b tx)) ->
  exists w', createConfirm P (second_half b <$> l) w = Ret (tt, w', []) /\ same (com w') (com w) /\
    part w' = upd_halves (note (second_half b) l) (part w).
Proof.
  intros Hl. unfold createConfirm. setoid_rewrite get_bind.
  rewrite (omap_fmap_none (fun tx => brokerConfirm1Pool (part w) !! tx_TxHash tx)) by apply Hl.
  rewrite (omap_fmap_some _ _ (confirm2 b)) by apply Hl.
  destruct l as [|tx l].
  - exists w. split_and!; [done..|]. by destruct (part w) as [[] ? ? ?].
  - cbn [length Nat.eqb negb]. unfold handleTx2ConfirmMag.
    destruct (field_loop upd_halves (fun tx m =>
      <[tx_TxHash tx := default [] (m !! tx_TxHash tx) ++ [tx_TxHash (second_half b tx)]]> m) (tx :: l) w)
      as (w' & E & H).
    exists w'. split; [|exact H]. rewrite ret_bind. cbn [fmap list_fmap length Nat.eqb negb].
    change (confirm2 b tx :: _) with (confirm2 b <$> (tx :: l)). by rewrite forM_fmap.
Qed.

Lemma dealTxByBroker_ok w b txs :
  let c := com w in
  let split := filter (fun tx => crosses c tx = true) txs in
  head (BrokerAddress (broker (part w))) = Some b -> Forall (ends_placed c) txs ->
  exists w' evs, dealTxByBroker P txs w =
      Ret (marked c <$> filter (fun tx => crosses c tx = false) txs, w', evs) /\ same (com w') c /\
    delivered w evs tx_Sender (first_half b) split /\
    part w' = upd_pool1 (fun m => foldl (fun m tx => <[tx_TxHash (first_half b tx) := confirm1 b tx]> m) m split)
      (upd_raw (fun m => foldl (fun m tx => <[getBrokerRawMagDigest (raw_meg b tx) := raw_meg b tx]> m) m split) (part w)).
Proof.
  intros c split Hb Hp. unfold dealTxByBroker. setoid_rewrite get_bind.
  setoid_rewrite (lift_bind _ _ _ _ (deal_txs_ok (com w) b txs ([], []) Hb Hp)). cbn [fst snd app]. fold c. fold split.
  assert (Hsp : Forall (ends_placed c) split) by (apply list.Forall_forall; intros tx [_ Ht]%list_elem_of_filter;
    by eapply list.Forall_forall in Hp).
  assert (Hc : Forall (fun tx => crosses c tx = true) split).
  { apply list.Forall_forall. intros tx [H _]%list_elem_of_filter. exact H. }
  clearbody split. destruct split as [|tx l].
  - exists w, []. split; [done|]. split; [apply same_refl|]. split; [by split|].
    change (broker_part c) with (part w). by destruct (part w) as [[] ? ? ?].
  - destruct (handleBrokerRawMag_ok w b (tx :: l) Hsp Hc) as (w' & evs & E & H).
    exists w', evs. split; [|exact H]. erewrite bind_returns; [|exact E|done]. by rewrite app_nil_r.
Qed.

Lemma submseteq_NoDup_fmap {A B} (h : A -> B) (l k : list A) : l ⊆+ k -> NoDup (h <$> k) -> NoDup (h <$> l).
Proof.
  intros [k' Hk]%submseteq_Permutation. rewrite Hk, fmap_app. by intros (? & _ & _)%list.NoDup_app.
Qed.

(** No half of a transaction of [l] has the hash of another, or of one that
    the committee already knows. *)
Definition fresh_halves w b (l : list Transaction) : Prop :=
  NoDup ((tx_TxHash ∘ first_half b <$> l) ++ (tx_TxHash ∘ second_half b <$> l)) /\
  forall tx, tx ∈ l ->
    brokerConfirm2Pool (part w) !! tx_TxHash (first_half b tx) = None /\
    brokerConfirm1Pool (part w) !! tx_TxHash (second_half b tx) = None.

(** After a batch was dealt with, its split transactions wait for the reports
    of their first halves. *)
Lemma dealt_waits w w' b split :
  fresh_halves w b split ->
  part w' = upd_pool1 (fun m => foldl (fun m tx => <[tx_TxHash (first_half b tx) := confirm1 b tx]> m) m split)
    (upd_raw (fun m => foldl (fun m tx => <[getBrokerRawMagDigest (raw_meg b tx) := raw_meg b tx]> m) m split) (part w)) ->
  forall tx, tx ∈ split ->
    is_Some (BrokerRawMegs (broker (part w')) !! getBrokerRawMagDigest (raw_meg b tx)) /\
    brokerConfirm1Pool (part w') !! tx_TxHash (first_half b tx) = Some (confirm1 b tx) /\
    brokerConfirm2Pool (part w') !! tx_TxHash (first_half b tx) = None /\
    brokerConfirm1Pool (part w') !! tx_TxHash (second_half b tx) = None.
Proof.
  intros [Hnd Hf] -> tx Ht. apply list.NoDup_app in Hnd as (Hnd & Hdis & _). cbn. split_and!.
  - apply (fill_some (fun tx => getBrokerRawMagDigest (raw_meg b tx)) (raw_meg b)). by left.
  - apply (fill_in (tx_TxHash ∘ first_half b) (fun _ => confirm1 b)); done.
  - by apply Hf.
  - etrans; [|by apply Hf]. apply (fill_other (tx_TxHash ∘ first_half b) (fun _ => confirm1 b)).
    intros Hin. apply (Hdis _ Hin). by apply (list_elem_of_fmap_2 (tx_TxHash ∘ second_half b)).
Qed.

(** Both halves of a reported transaction are noted, in their order. *)
Lemma note_both b l m tx :
  NoDup (tx_TxHash <$> l) -> tx ∈ l ->
  note (second_half b) l (note (first_half b) l m) !! tx_TxHash tx =
  Some (default [] (m !! tx_TxHash tx) ++ [tx_TxHash (first_half b tx); tx_TxHash (second_half b tx)]).
Proof.
  intros Hnd Ht. unfold note.
  rewrite (fill_in tx_TxHash (fun o tx => default [] o ++ [tx_TxHash (second_half b tx)])) by done.
  rewrite (fill_in tx_TxHash (fun o tx => default [] o ++ [tx_TxHash (first_half b tx)])) by done.
  cbn. by rewrite <- app_assoc.
Qed.

(** C35: a cross-shard transaction through a broker.  When a committee
    deals with a batch, the transactions inside one shard or with a broker at
    one end are handed back for sending, marked.  Every other one is split: its
    first half, to the first broker, is injected into the sender's shard; and
    once a block reports first halves, in whatever selection and order, exactly
    their second halves, from the broker, are injected into the recipients'
    shards; a report of those completes the record of both hashes and sends
    nothing.  The halves carry the value of the transaction and its hash. *)
Theorem broker_two_phase w b txs :
  let c := com w in
  let split := filter (fun tx => crosses c tx = true) txs in
  head (BrokerAddress (broker (part w))) = Some b -> is_Ret (fetch c b) ->
  Forall (ends_placed c) txs -> NoDup (tx_TxHash <$> split) -> fresh_halves w b split ->
  exists w1 evs1, dealTxByBroker P txs w =
      Ret (marked c <$> filter (fun tx => crosses c tx = false) txs, w1, evs1) /\
    delivered w evs1 tx_Sender (first_half b) split /\
    (forall l, l ⊆+ split -> exists w2 evs2 w3,
      createConfirm P (first_half b <$> l) w1 = Ret (tt, w2, evs2) /\
      delivered w evs2 tx_Recipient (second_half b) l /\
      createConfirm P (second_half b <$> l) w2 = Ret (tt, w3, []) /\
      forall tx, tx ∈ l -> RawTx2BrokerTx (broker (part w3)) !! tx_TxHash tx =
        Some (default [] (RawTx2BrokerTx (broker (part w)) !! tx_TxHash tx) ++
              [tx_TxHash (first_half b tx); tx_TxHash (second_half b tx)])) /\
    Forall (fun tx =>
      let h1 := first_half b tx in let h2 := second_half b tx in
      (tx_Sender h1 = tx_Sender tx /\ tx_Recipient h1 = b /\ tx_Sender h2 = b /\ tx_Recipient h2 = tx_Recipient tx) /\
      tx_Value h1 = tx_Value tx /\ tx_Value h2 = tx_Value tx /\
      tx_RawTxHash h1 = tx_TxHash tx /\ tx_RawTxHash h2 = tx_TxHash tx) split.
Proof.
  intros c split Hb Hbs Hp Hnd Hf.
  destruct (dealTxByBroker_ok w b txs Hb Hp) as (w1 & evs1 & E1 & Hs1 & Hd1 & Hp1). fold c split in E1, Hs1, Hd1, Hp1.
  exists w1, evs1. split_and!; [done..| |by apply list.Forall_forall]. intros l Hl.
  assert (Hsub : forall tx, tx ∈ l -> tx ∈ split) by (intros; by eapply elem_of_submseteq).
  assert (Hadr : BrokerAddress (broker (part w1)) = BrokerAddress (broker (part w))) by apply Hs1.
  pose proof (dealt_waits w w1 b split Hf Hp1) as Hw.
  destruct (createConfirm_first w1 b l) as (w2 & evs2 & E2 & Hs2 & Hd2 & Hp2).
  { by rewrite Hadr. }
  { destruct Hbs as [s Hs]. exists s. destruct Hs1 as (_ & _ & Hfe). by rewrite Hfe. }
  { apply list.Forall_forall. intros tx [_ Ht]%Hsub%list_elem_of_filter.
    eapply list.Forall_forall in Hp as [H1 H2]; [|exact Ht]. split; by eapply same_placed. }
  { intros tx Ht. destruct (Hw tx (Hsub _ Ht)) as (? & ? & ? & _). done. }
  destruct (createConfirm_second w2 b l) as (w3 & E3 & _ & Hp3).
  { intros tx Ht. rewrite Hp2. split; [by apply Hw, Hsub|]. cbn.
    apply (fill_in (tx_TxHash ∘ second_half b) (fun _ => confirm2 b)); [|done].
    destruct Hf as [Hf _]. apply list.NoDup_app in Hf as (_ & _ & Hf).
    by eapply submseteq_NoDup_fmap. }
  exists w2, evs2, w3. split_and!; [done|by eapply same_delivered|done|]. intros tx Ht.
  rewrite Hp3, Hp2, Hp1. cbn. apply note_both; [|done].
  by eapply submseteq_NoDup_fmap.
Qed.
End protocol.

(** ** The hosts *)
Section hosts.
Context (P : Params) {HL : Sha256} {CC : CoreCodecs} {MC : MsgCodecs}.
#[export] Instance broker_host_laws :
  BrokerHostLaws BrokerCommitteeMod (CM := broker_committee P) (BH := broker_host P).
Proof. split; done. Qed.
#[export] Instance clpa_broker_host_laws :
  BrokerHostLaws CLPACommitteeMod_Broker (CM := clpa_broker_committee P) (BH := clpa_broker_host P).
Proof. split; done. Qed.
End hosts.

(** ** Instances *)
Module RefBroker.
Export RefJson.
#[export] Existing Instance RefCodecs.codecs.
#[export] Existing Instance RefCodecs.laws.
#[export] Instance sha_id : Sha256 := fun b => b.
Abbreviation P := RefChain.params.

(** A committee with one broker and a batch of two cross-shard transactions,
    one inside shard 0 and one that the broker sends. *)
Definition committee : BrokerCommitteeMod :=
  NewBrokerCommitteeMod P ["0000000a"%string] RefCommittee.ips 100 4.
Definition world : Control BrokerCommitteeMod := mkControl (NewStopSignal 4) committee.
Definition txs : list Transaction :=
  [NewTransaction "00000000" "00000001" 5 0; NewTransaction "00000000" "00000002" 6 1;
   NewTransaction "00000001" "00000002" 7 2; NewTransaction "0000000a" "00000001" 8 3]%string.
(** What [NewTransaction] hashes. *)
Definition hashed (sender recipient : string) (value nonce : Z) : Transaction :=
  zero_Transaction <| tx_Sender := sender |> <| tx_Recipient := recipient |>
    <| tx_Value := value |> <| tx_Nonce := nonce |>.
Definition shown (tx : Transaction) : string * string * Z := (tx_Sender tx, tx_Recipient tx, tx_Value tx).

(** The first and the third are split. *)
Definition t0 : Transaction := NewTransaction "00000000" "00000001" 5 0.
Definition t2 : Transaction := NewTransaction "00000001" "00000002" 7 2.
Lemma split_txs :
  filter (fun tx => crosses (BH := broker_host P) (com world) tx = true) txs = [t0; t2].
Proof.
  unfold txs. rewrite filter_cons_True by reflexivity. rewrite filter_cons_False by (clear; by cbn).
  rewrite filter_cons_True by reflexivity. rewrite filter_cons_False by (clear; by cbn). reflexivity.
Qed.
End RefBroker.
Import RefBroker.

Lemma broker_two_phase_witness :
  exists w1 evs1 w2 evs2 w3 l,
    dealTxByBroker (CM := broker_committee P) (BH := broker_host P) P RefBroker.txs RefBroker.world = Ret (l, w1, evs1) /\
    shown <$> l = [("00000000", "00000002", 6); ("0000000a", "00000001", 8)]%string /\
    shown <$> injected 0 evs1 = [("00000000", "0000000a", 5)]%string /\
    shown <$> injected 1 evs1 = [("00000001", "0000000a", 7)]%string /\
    createConfirm (CM := broker_committee P) (BH := broker_host P) P
      [first_half "0000000a"%string RefBroker.t2] w1 = Ret (tt, w2, evs2) /\
    shown <$> injected 0 evs2 = [("0000000a", "00000002", 7)]%string /\ injected 1 evs2 = [] /\
    createConfirm (CM := broker_committee P) (BH := broker_host P) P
      [second_half "0000000a"%string RefBroker.t2] w2 = Ret (tt, w3, []).
Proof.
  destruct (broker_two_phase (CM := broker_committee P) (BH := broker_host P) (BL := broker_host_laws P) P
    ltac:(by cbn) ltac:(by cbn) RefBroker.world "0000000a"%string RefBroker.txs)
    as (w1 & evs1 & E1 & (_ & Hd1) & Hl & _).
  - reflexivity.
  - eexists. reflexivity.
  - repeat constructor; eexists; (split; [reflexivity|done]).
  - rewrite split_txs.
    change (NoDup (enc <$> [hashed "00000000" "00000001" 5 0; hashed "00000001" "00000002" 7 2]%string)).
    apply NoDup_fmap_2; [apply enc_inj, _|]. by apply (bool_decide_unpack _).
  - rewrite split_txs. split; [|intros tx _; split; apply lookup_empty].
    change (NoDup (enc <$> [hashed "00000000" "0000000a" 5 0; hashed "00000001" "0000000a" 7 2;
      hashed "0000000a" "00000001" 5 0; hashed "0000000a" "00000002" 7 2]%string)).
    apply NoDup_fmap_2; [apply enc_inj, _|]. by apply (bool_decide_unpack _).
  - rewrite split_txs in Hl, Hd1.
    destruct (Hl [RefBroker.t2]) as (w2 & evs2 & w3 & E2 & (_ & Hd2) & E3 & _).
    { apply submseteq_cons, (reflexivity (R := submseteq)). }
    eexists w1, evs1, w2, evs2, w3, _. split; [exact E1|].
    rewrite !Hd1, !Hd2 by (cbn; lia). do 3 (split; [reflexivity|]). split; [exact E2|].
    do 2 (split; [reflexivity|]). exact E3.
Defined.
