(* ===== verification/Measure.v ===== *)
(** * Measure: src/supervisor/measure

    The modules that compute a metric from the reports of committed blocks.
    [float64] is the specification of IEEE binary64 of [Partition]; every
    module keeps one cell per epoch, and a report for a negative epoch
    indexes out of range.  [MeasureModule] is the Go interface with its eight
    implementations. *)
From stdpp Require Import base gmap strings list.
From Stdlib Require Import ZArith Lia SpecFloat.
From S2P Require Import Prelude GoStd Core Messages Partition.

Abbreviation float := spec_float.
Definition fadd (x y : float) : float := SFadd prec emax x y.
Definition fzero : float := of_int 0.
Definition fhalf : float := fdiv (of_int 1) (of_int 2).

(** [d.Seconds()] *)
Definition Seconds (d : Z) : float :=
  fadd (of_int (Z.quot d Second)) (fdiv (of_int (Z.rem d Second)) (of_int Second)).

(** [for epochID < epochid { l = append(l, z); epochID++ }] *)
Definition extend {A} (z : A) (epochID epochid : Z) (l : list A) : list A :=
  l ++ replicate (Z.to_nat (epochid - epochID)) z.

(** [l[i]] and [l[i] = x] *)
Definition cell {A} (l : list A) (i : Z) : res A := if i <? 0 then Panic else must (l !! Z.to_nat i).
Definition set_cell {A} (l : list A) (i : Z) (x : A) : res (list A) :=
  _ ← cell l i; Ret (<[Z.to_nat i := x]> l).
Definition add_cell (l : list float) (i : Z) (d : float) : res (list float) :=
  x ← cell l i; set_cell l i (fadd x d).

(** [float64(b.Broker1TxNum) + float64(b.Broker2TxNum)) / 2] *)
Definition broker_halves (b : BlockInfoMsg) : float :=
  fdiv (fadd (of_int (bim_Broker1TxNum b)) (of_int (bim_Broker2TxNum b))) (of_int 2).

Definition empty_block (b : BlockInfoMsg) : bool := bim_BlockBodyLength b =? 0.
Definition num_txs (l : list Transaction) : Z := Z.of_nat (length l).
Definition float_sum (l : list float) : float := foldl fadd fzero l.

(** ** measure_TxNumCount_{Relay,Broker}.go *)
Record TestTxNumCount := mkTxNumCount { nc_epochID : Z; nc_txNum : list float }.

Definition NewTestTxNumCount : TestTxNumCount := mkTxNumCount (-1) [].

Definition count_txs (n : float) (b : BlockInfoMsg) (m : TestTxNumCount) : res TestTxNumCount :=
  if empty_block b then Ret m
  else
    let epochid := bim_Epoch b in
    txNum ← add_cell (extend fzero (nc_epochID m) epochid (nc_txNum m)) epochid n;
    Ret (mkTxNumCount (Z.max (nc_epochID m) epochid) txNum).

Definition TxNumCount_Relay_Update (b : BlockInfoMsg) : TestTxNumCount -> res TestTxNumCount :=
  count_txs (of_int (num_txs (bim_ExcutedTxs b))) b.
Definition TxNumCount_Broker_Update (b : BlockInfoMsg) : TestTxNumCount -> res TestTxNumCount :=
  count_txs (fadd (of_int (num_txs (bim_ExcutedTxs b))) (broker_halves b)) b.

Definition TxNumCount_Output (m : TestTxNumCount) : list float * float := (nc_txNum m, float_sum (nc_txNum m)).

(** ** measure_CrossTxRate_{Relay,Broker}.go *)
Definition cross_Output (totTxNum totCrossTxNum : list float) : list float * float :=
  let allEpoch_totTxNum := float_sum totTxNum in
  let allEpoch_ctxNum := float_sum totCrossTxNum in
  (zip_with fdiv totCrossTxNum totTxNum ++ [allEpoch_totTxNum; allEpoch_ctxNum],
   fdiv allEpoch_ctxNum allEpoch_totTxNum).

Record TestCrossTxRate_Relay := mkCrossRelay {
  xr_epochID : Z;
  xr_totTxNum : list float;
  xr_totCrossTxNum : list float;
  xr_relayTxRecord : gmap bytes bool }.

Definition NewTestCrossTxRate_Relay : TestCrossTxRate_Relay := mkCrossRelay (-1) [] [] ∅.

(** A relayed transaction counts one half here and one half where it ends. *)
Definition relay1_half (epochid : Z) (m : TestCrossTxRate_Relay) (r1tx : Transaction) :
    res TestCrossTxRate_Relay :=
  cross ← add_cell (xr_totCrossTxNum m) epochid fhalf;
  tot ← add_cell (xr_totTxNum m) epochid fhalf;
  Ret (mkCrossRelay (xr_epochID m) tot cross (<[tx_TxHash r1tx := true]> (xr_relayTxRecord m))).

Definition relay2_half (epochid : Z) (m : TestCrossTxRate_Relay) (tx : Transaction) :
    res TestCrossTxRate_Relay :=
  match xr_relayTxRecord m !! tx_TxHash tx with
  | None =>
      tot ← add_cell (xr_totTxNum m) epochid (of_int 1);
      Ret (mkCrossRelay (xr_epochID m) tot (xr_totCrossTxNum m) (xr_relayTxRecord m))
  | Some _ =>
      tot ← add_cell (xr_totTxNum m) epochid fhalf;
      cross ← add_cell (xr_totCrossTxNum m) epochid fhalf;
      Ret (mkCrossRelay (xr_epochID m) tot cross (xr_relayTxRecord m))
  end.

Definition CrossTxRate_Relay_Update (b : BlockInfoMsg) (m : TestCrossTxRate_Relay) :
    res TestCrossTxRate_Relay :=
  if empty_block b then Ret m
  else
    let epochid := bim_Epoch b in
    let m := mkCrossRelay (Z.max (xr_epochID m) epochid)
               (extend fzero (xr_epochID m) epochid (xr_totTxNum m))
               (extend fzero (xr_epochID m) epochid (xr_totCrossTxNum m)) (xr_relayTxRecord m) in
    m ← foldM (relay1_half epochid) m (bim_Relay1Txs b);
    foldM (relay2_half epochid) m (bim_ExcutedTxs b).

Definition CrossTxRate_Relay_Output (m : TestCrossTxRate_Relay) : list float * float :=
  cross_Output (xr_totTxNum m) (xr_totCrossTxNum m).

Record TestCrossTxRate_Broker := mkCrossBroker {
  xb_epochID : Z;
  xb_totTxNum : list float;
  xb_totCrossTxNum : list float;
  xb_b2num : Z;
  xb_b1num : Z }.

Definition NewTestCrossTxRate_Broker : TestCrossTxRate_Broker := mkCrossBroker (-1) [] [] 0 0.

Definition CrossTxRate_Broker_Update (b : BlockInfoMsg) (m : TestCrossTxRate_Broker) :
    res TestCrossTxRate_Broker :=
  if empty_block b then Ret m
  else
    let epochid := bim_Epoch b in
    cross ← add_cell (extend fzero (xb_epochID m) epochid (xb_totCrossTxNum m)) epochid (broker_halves b);
    tot ← add_cell (extend fzero (xb_epochID m) epochid (xb_totTxNum m)) epochid
            (fadd (of_int (num_txs (bim_ExcutedTxs b))) (broker_halves b));
    Ret (mkCrossBroker (Z.max (xb_epochID m) epochid) tot cross
           (i64 (xb_b2num m + i64 (bim_Broker2TxNum b))) (i64 (xb_b1num m + i64 (bim_Broker1TxNum b)))).

Definition CrossTxRate_Broker_Output (m : TestCrossTxRate_Broker) : list float * float :=
  cross_Output (xb_totTxNum m) (xb_totCrossTxNum m).

(** ** measure_TCL_{relay,Broker}.go *)
Record TestModule_TCL := mkTCL {
  tcl_epochID : Z;
  tcl_totTxLatencyEpoch : list float;
  tcl_txNum : list float;
  tcl_brokerTxMap : gmap bytes Z }.

(** The relay's module has no [brokerTxMap]; here it stays empty. *)
Definition NewTestModule_TCL : TestModule_TCL := mkTCL (-1) [] [] ∅.

Definition add_latency (epochid : Z) (d : Z) (m : TestModule_TCL) : res TestModule_TCL :=
  tot ← add_cell (tcl_totTxLatencyEpoch m) epochid (Seconds d);
  Ret (mkTCL (tcl_epochID m) tot (tcl_txNum m) (tcl_brokerTxMap m)).

Definition latency_of (epochid CommitTime : Z) (m : TestModule_TCL) (tx : Transaction) : res TestModule_TCL :=
  if IsZero (tx_Time tx) then Ret m
  else
    m ← add_latency epochid (time_Sub CommitTime (tx_Time tx)) m;
    num ← add_cell (tcl_txNum m) epochid (of_int 1);
    Ret (mkTCL (tcl_epochID m) (tcl_totTxLatencyEpoch m) num (tcl_brokerTxMap m)).

Definition TCL_Relay_Update (b : BlockInfoMsg) (m : TestModule_TCL) : res TestModule_TCL :=
  if empty_block b then Ret m
  else
    let epochid := bim_Epoch b in
    let m := mkTCL (Z.max (tcl_epochID m) epochid)
               (extend fzero (tcl_epochID m) epochid (tcl_totTxLatencyEpoch m))
               (extend fzero (tcl_epochID m) epochid (tcl_txNum m)) (tcl_brokerTxMap m) in
    foldM (latency_of epochid (bim_CommitTime b)) m (bim_ExcutedTxs b).

(** When the first half was put into the pool. *)
Definition broker1_time (m : TestModule_TCL) (b1tx : Transaction) : TestModule_TCL :=
  mkTCL (tcl_epochID m) (tcl_totTxLatencyEpoch m) (tcl_txNum m)
    (<[tx_RawTxHash b1tx := tx_Time b1tx]> (tcl_brokerTxMap m)).

Definition broker2_latency (epochid ProposeTime : Z) (m : TestModule_TCL) (b2tx : Transaction) :
    res TestModule_TCL :=
  match tcl_brokerTxMap m !! tx_RawTxHash b2tx with
  | Some t => add_latency epochid (time_Sub ProposeTime t) m
  | None => Ret m
  end.

Definition TCL_Broker_Update (b : BlockInfoMsg) (m : TestModule_TCL) : res TestModule_TCL :=
  if empty_block b then Ret m
  else
    m ← TCL_Relay_Update b m;
    let m := foldl broker1_time m (bim_Broker1Txs b) in
    foldM (broker2_latency (bim_Epoch b) (bim_ProposeTime b)) m (bim_Broker2Txs b).

Definition TCL_Output (m : TestModule_TCL) : list float * float :=
  (zip_with fdiv (tcl_totTxLatencyEpoch m) (tcl_txNum m),
   fdiv (float_sum (tcl_totTxLatencyEpoch m)) (float_sum (tcl_txNum m))).

(** ** measure_avgTPS_{relay,Broker}.go *)
Record Epochs := mkEpochs {
  tps_epochID : Z;
  tps_excutedTxNum : list float;
  tps_startTime : list Z;
  tps_endTime : list Z }.

Definition NewEpochs : Epochs := mkEpochs (-1) [] [] [].

(** A block's transactions [n] and its times enter its epoch's cells. *)
Definition enter_block (b : BlockInfoMsg) (ns : list float) (e : Epochs) : res Epochs :=
  let epochid := bim_Epoch b in
  num ← foldM (fun l d => add_cell l epochid d) (extend fzero (tps_epochID e) epochid (tps_excutedTxNum e)) ns;
  let start := extend 0 (tps_epochID e) epochid (tps_startTime e) in
  let end_ := extend 0 (tps_epochID e) epochid (tps_endTime e) in
  s ← cell start epochid;
  start ← (if IsZero s || (bim_ProposeTime b <? s) then set_cell start epochid (bim_ProposeTime b) else Ret start);
  t ← cell end_ epochid;
  end_ ← (if IsZero t || (t <? bim_CommitTime b) then set_cell end_ epochid (bim_CommitTime b) else Ret end_);
  Ret (mkEpochs (Z.max (tps_epochID e) epochid) num start end_).

Definition epoch_rate (e : Epochs) (eid : nat) (exTxNum : float) : float :=
  fdiv exTxNum (Seconds (time_Sub (nth eid (tps_endTime e) 0) (nth eid (tps_startTime e) 0))).

Definition epoch_rates (e : Epochs) : list float := imap (epoch_rate e) (tps_excutedTxNum e).

Record TestModule_avgTPS_Relay := mkTPSRelay { tr_epochs : Epochs; tr_relayTx : gmap bytes bool }.

(** [shardNum] is not kept. *)
Definition NewTestModule_avgTPS_Relay (shardNum : Z) : TestModule_avgTPS_Relay := mkTPSRelay NewEpochs ∅.

Definition TPS_Relay_Update (b : BlockInfoMsg) (m : TestModule_avgTPS_Relay) : res TestModule_avgTPS_Relay :=
  if empty_block b then Ret m
  else
    let relayTx := foldl (fun r tx => <[tx_TxHash tx := true]> r) (tr_relayTx m) (bim_Relay1Txs b) in
    let ns := fdiv (of_int (bim_Relay1TxNum b)) (of_int 2) ::
              ((fun tx => match relayTx !! tx_TxHash tx with Some _ => fhalf | None => of_int 1 end)
                 <$> bim_ExcutedTxs b) in
    e ← enter_block b ns (tr_epochs m);
    Ret (mkTPSRelay e relayTx).

(** [now] is [time.Now()], where the search for the earliest start begins. *)
Definition TPS_Relay_Output (now : Z) (m : TestModule_avgTPS_Relay) : list float * float :=
  let e := tr_epochs m in
  let eTime := foldl Z.min now (tps_startTime e) in
  let lTime := foldl Z.max 0 (tps_endTime e) in
  (epoch_rates e, fdiv (float_sum (tps_excutedTxNum e)) (Seconds (time_Sub lTime eTime))).

Record TestModule_avgTPS_Broker := mkTPSBroker { tb_epochs : Epochs; tb_duration : Z; tb_shardNum : Z }.

Definition NewTestModule_avgTPS_Broker (shardNum : Z) : TestModule_avgTPS_Broker :=
  mkTPSBroker NewEpochs 0 shardNum.

Definition TPS_Broker_Update (b : BlockInfoMsg) (m : TestModule_avgTPS_Broker) : res TestModule_avgTPS_Broker :=
  if empty_block b then Ret m
  else
    let n := fadd (of_int (num_txs (bim_ExcutedTxs b))) (broker_halves b) in
    e ← enter_block b [n] (tb_epochs m);
    Ret (mkTPSBroker e (i64 (tb_duration m + time_Sub (bim_CommitTime b) (bim_ProposeTime b))) (tb_shardNum m)).

Definition TPS_Broker_Output (m : TestModule_avgTPS_Broker) : list float * float :=
  (epoch_rates (tb_epochs m), fdiv (float_sum (tps_excutedTxNum (tb_epochs m))) (Seconds (tb_duration m))).

(** ** measureInterface.go; [HandleExtraMessage] does nothing in every module *)
Inductive MeasureModule :=
  | TPS_Relay (m : TestModule_avgTPS_Relay)
  | TPS_Broker (m : TestModule_avgTPS_Broker)
  | TCL_Relay (m : TestModule_TCL)
  | TCL_Broker (m : TestModule_TCL)
  | CrossTxRate_Relay (m : TestCrossTxRate_Relay)
  | CrossTxRate_Broker (m : TestCrossTxRate_Broker)
  | TxNumberCount_Relay (m : TestTxNumCount)
  | TxNumberCount_Broker (m : TestTxNumCount).

Definition UpdateMeasureRecord (b : BlockInfoMsg) (m : MeasureModule) : res MeasureModule :=
  match m with
  | TPS_Relay m => m ← TPS_Relay_Update b m; Ret (TPS_Relay m)
  | TPS_Broker m => m ← TPS_Broker_Update b m; Ret (TPS_Broker m)
  | TCL_Relay m => m ← TCL_Relay_Update b m; Ret (TCL_Relay m)
  | TCL_Broker m => m ← TCL_Broker_Update b m; Ret (TCL_Broker m)
  | CrossTxRate_Relay m => m ← CrossTxRate_Relay_Update b m; Ret (CrossTxRate_Relay m)
  | CrossTxRate_Broker m => m ← CrossTxRate_Broker_Update b m; Ret (CrossTxRate_Broker m)
  | TxNumberCount_Relay m => m ← TxNumCount_Relay_Update b m; Ret (TxNumberCount_Relay m)
  | TxNumberCount_Broker m => m ← TxNumCount_Broker_Update b m; Ret (TxNumberCount_Broker m)
  end.

Definition OutputMetricName (m : MeasureModule) : string :=
  match m with
  | TPS_Relay _ | TPS_Broker _ => "Average_TPS"
  | TCL_Relay _ | TCL_Broker _ => "Transaction_Confirm_Latency"
  | CrossTxRate_Relay _ | CrossTxRate_Broker _ => "CrossTransaction_ratio"
  | TxNumberCount_Relay _ | TxNumberCount_Broker _ => "Tx_number"
  end.

Definition OutputRecord (now : Z) (m : MeasureModule) : list float * float :=
  match m with
  | TPS_Relay m => TPS_Relay_Output now m
  | TPS_Broker m => TPS_Broker_Output m
  | TCL_Relay m | TCL_Broker m => TCL_Output m
  | CrossTxRate_Relay m => CrossTxRate_Relay_Output m
  | CrossTxRate_Broker m => CrossTxRate_Broker_Output m
  | TxNumberCount_Relay m | TxNumberCount_Broker m => TxNumCount_Output m
  end.

(** The modules [NewSupervisor] makes from their names; an unknown name makes none. *)
Definition NewMeasure (shardNum : Z) (mModName : string) : option MeasureModule :=
  if bool_decide (mModName = "TPS_Relay") then Some (TPS_Relay (NewTestModule_avgTPS_Relay shardNum))
  else if bool_decide (mModName = "TPS_Broker") then Some (TPS_Broker (NewTestModule_avgTPS_Broker shardNum))
  else if bool_decide (mModName = "TCL_Relay") then Some (TCL_Relay NewTestModule_TCL)
  else if bool_decide (mModName = "TCL_Broker") then Some (TCL_Broker NewTestModule_TCL)
  else if bool_decide (mModName = "CrossTxRate_Relay") then Some (CrossTxRate_Relay NewTestCrossTxRate_Relay)
  else if bool_decide (mModName = "CrossTxRate_Broker") then Some (CrossTxRate_Broker NewTestCrossTxRate_Broker)
  else if bool_decide (mModName = "TxNumberCount_Relay") then Some (TxNumberCount_Relay NewTestTxNumCount)
  else if bool_decide (mModName = "TxNumberCount_Broker") then Some (TxNumberCount_Broker NewTestTxNumCount)
  else None.
