(* ===== verification/MeasureProps.v ===== *)
(** * MeasureProps: the measure modules over a run

    Every module keeps one cell per epoch in each of its lists: a module the
    supervisor made handles any reports with non-negative epochs, and the
    intervals of the TPS modules cover the blocks they were told of. *)
From stdpp Require Import base gmap strings list.
From Stdlib Require Import ZArith Lia SpecFloat.
From S2P Require Import Prelude GoStd Core Messages Partition Measure.

(** ** Cells *)
Definition cells {A} (n : Z) (l : list A) : Prop := Z.of_nat (length l) = n.

Lemma extend_cells {A} (z : A) e epochid l :
  cells (e + 1) l -> cells (Z.max e epochid + 1) (extend z e epochid l).
Proof. unfold cells, extend. intros H. rewrite length_app, length_replicate. lia. Qed.

Lemma extend_keeps {A} (z : A) e epochid l i x : l !! i = Some x -> extend z e epochid l !! i = Some x.
Proof. intros H. unfold extend. by apply lookup_app_l_Some. Qed.

Lemma cell_ok {A} (l : list A) n i : cells n l -> 0 <= i < n -> exists x, cell l i = Ret x /\ l !! Z.to_nat i = Some x.
Proof.
  unfold cells, cell. intros Hl Hi. rewrite (proj2 (Z.ltb_ge _ _)) by lia.
  destruct (lookup_lt_is_Some_2 l (Z.to_nat i)) as [x Hx]; [lia|]. exists x. by rewrite Hx.
Qed.

Lemma set_cell_ok {A} (l : list A) n i x :
  cells n l -> 0 <= i < n -> set_cell l i x = Ret (<[Z.to_nat i := x]> l).
Proof. intros Hl Hi. unfold set_cell. by destruct (cell_ok l n i Hl Hi) as (y & -> & _). Qed.

Lemma set_cells {A} (l : list A) n i x : cells n l -> cells n (<[i := x]> l).
Proof. unfold cells. by rewrite length_insert. Qed.

Lemma add_cell_ok l n i d : cells n l -> 0 <= i < n -> exists l', add_cell l i d = Ret l' /\ cells n l'.
Proof.
  intros Hl Hi. unfold add_cell. destruct (cell_ok l n i Hl Hi) as (x & -> & _). cbn.
  rewrite (set_cell_ok l n) by done. eexists. split; [done|]. by apply set_cells.
Qed.

(** The updates whose only failure is a cell out of range. *)
Ltac add_one l i d H :=
  let l' := fresh "l" in let E := fresh "E" in
  destruct (add_cell_ok l _ i d H) as (l' & E & ?); [lia|]; rewrite E;
  cbn [mbind res_bind tcl_epochID tcl_totTxLatencyEpoch tcl_txNum tcl_brokerTxMap].
Ltac add_cells :=
  repeat match goal with
  | H : cells _ ?l |- context [add_cell ?l ?i ?d] => add_one l i d H
  | H : cells (?e + 1) ?l |- context [add_cell (extend ?z ?e ?ep ?l) ?i ?d] =>
      add_one (extend z e ep l) i d (extend_cells z e ep l H)
  end.

Ltac by_cells :=
  repeat match goal with
  | |- context [?x =? 0] => destruct (Z.eqb_spec x 0)
  | |- context [?x <? ?y] => destruct (Z.ltb_spec x y)
  end; cbn; lia.

(** ** The epochs of the TPS modules *)
Definition epochs_ok (e : Epochs) : Prop :=
  -1 <= tps_epochID e /\ let n := tps_epochID e + 1 in
  cells n (tps_excutedTxNum e) /\ cells n (tps_startTime e) /\ cells n (tps_endTime e).

(** The interval of [b]'s epoch covers [b]. *)
Definition covers (e : Epochs) (b : BlockInfoMsg) : Prop :=
  exists s t, tps_startTime e !! Z.to_nat (bim_Epoch b) = Some s /\ s <> 0 /\ s <= bim_ProposeTime b /\
    tps_endTime e !! Z.to_nat (bim_Epoch b) = Some t /\ t <> 0 /\ bim_CommitTime b <= t.

(** A cell is set when it is empty or [better] than what it holds. *)
Lemma improve_cell (better : Z -> Z -> bool) n l i v :
  cells n l -> 0 <= i < n ->
  exists s, cell l i = Ret s /\ l !! Z.to_nat i = Some s /\
    (if IsZero s || better v s then set_cell l i v else Ret l) =
    Ret (<[Z.to_nat i := if IsZero s || better v s then v else s]> l).
Proof.
  intros Hl Hi. destruct (cell_ok l n i Hl Hi) as (s & H1 & H2). exists s. split_and!; [done..|].
  case_match; [by apply (set_cell_ok l n)|]. by rewrite list_insert_id.
Qed.

Lemma enter_block_ok b ns e :
  epochs_ok e -> 0 <= bim_Epoch b ->
  exists e', enter_block b ns e = Ret e' /\ epochs_ok e' /\
    tps_epochID e' = Z.max (tps_epochID e) (bim_Epoch b) /\
    (bim_ProposeTime b <> 0 -> bim_CommitTime b <> 0 ->
     covers e' b /\ forall b0, covers e b0 -> covers e' b0).
Proof.
  intros (He & Hn & Hs & Ht) Hb. unfold enter_block.
  set (ep := bim_Epoch b) in *. set (n := Z.max (tps_epochID e) ep + 1).
  apply (extend_cells fzero _ ep) in Hn. apply (extend_cells 0 _ ep) in Hs, Ht. fold n in Hn, Hs, Ht.
  destruct (foldM_total (cells n) (fun l d => add_cell l ep d) ns _ Hn) as (num & -> & Hnum).
  { intros l d _ Hl. apply add_cell_ok; [done|lia]. }
  destruct (improve_cell Z.ltb n _ ep (bim_ProposeTime b) Hs) as (s & E1 & Ls & E2); [lia|].
  destruct (improve_cell (fun v t => t <? v) n _ ep (bim_CommitTime b) Ht) as (t & E3 & Lt & E4); [lia|].
  cbn [mbind res_bind]. rewrite E1. cbn [mbind res_bind]. rewrite E2. cbn [mbind res_bind]. rewrite E3.
  cbn [mbind res_bind]. rewrite E4. cbn [mbind res_bind].
  eexists. split; [done|]. split_and!; [|done|].
  - split; [cbn; lia|]. cbn. split_and!; [done|by apply set_cells..].
  - intros Hp Hc. unfold IsZero, covers. cbn [tps_startTime tps_endTime]. split.
    + do 2 eexists. rewrite !list_lookup_insert_eq by by eapply lookup_lt_Some. split_and!; [done|by_cells|by_cells|done|by_cells|by_cells].
    + intros b0 (s0 & t0 & H1 & H2 & H6 & H3 & H4 & H5).
      apply (extend_keeps 0 (tps_epochID e) ep) in H1, H3.
      destruct (decide (Z.to_nat (bim_Epoch b0) = Z.to_nat ep)) as [E|Hne].
      * rewrite E in *. rewrite Ls in H1. rewrite Lt in H3. injection H1 as <-. injection H3 as <-.
        do 2 eexists. rewrite !list_lookup_insert_eq by by eapply lookup_lt_Some. split_and!; [done|by_cells|by_cells|done|by_cells|by_cells].
      * exists s0, t0. rewrite !list_lookup_insert_ne by done. done.
Qed.

(** ** The modules *)

(** The name [NewSupervisor] makes the module from. *)
Definition measure_name (m : MeasureModule) : string :=
  match m with
  | TPS_Relay _ => "TPS_Relay" | TPS_Broker _ => "TPS_Broker"
  | TCL_Relay _ => "TCL_Relay" | TCL_Broker _ => "TCL_Broker"
  | CrossTxRate_Relay _ => "CrossTxRate_Relay" | CrossTxRate_Broker _ => "CrossTxRate_Broker"
  | TxNumberCount_Relay _ => "TxNumberCount_Relay" | TxNumberCount_Broker _ => "TxNumberCount_Broker"
  end.

(** The latest epoch a module knows. *)
Definition measure_epoch (m : MeasureModule) : Z :=
  match m with
  | TPS_Relay m => tps_epochID (tr_epochs m) | TPS_Broker m => tps_epochID (tb_epochs m)
  | TCL_Relay m | TCL_Broker m => tcl_epochID m
  | CrossTxRate_Relay m => xr_epochID m | CrossTxRate_Broker m => xb_epochID m
  | TxNumberCount_Relay m | TxNumberCount_Broker m => nc_epochID m
  end.

Definition tcl_ok (n : Z) (m : TestModule_TCL) : Prop :=
  tcl_epochID m + 1 = n /\ cells n (tcl_totTxLatencyEpoch m) /\ cells n (tcl_txNum m).
Definition xr_ok (n : Z) (m : TestCrossTxRate_Relay) : Prop :=
  xr_epochID m + 1 = n /\ cells n (xr_totTxNum m) /\ cells n (xr_totCrossTxNum m).

(** One cell for each epoch, in every list. *)
Definition measure_ok (m : MeasureModule) : Prop :=
  let n := measure_epoch m + 1 in
  0 <= n /\
  match m with
  | TPS_Relay m => epochs_ok (tr_epochs m)
  | TPS_Broker m => epochs_ok (tb_epochs m)
  | TCL_Relay m | TCL_Broker m => tcl_ok n m
  | CrossTxRate_Relay m => xr_ok n m
  | CrossTxRate_Broker m => cells n (xb_totTxNum m) /\ cells n (xb_totCrossTxNum m)
  | TxNumberCount_Relay m | TxNumberCount_Broker m => cells n (nc_txNum m)
  end.

Definition covered (m : MeasureModule) (b : BlockInfoMsg) : Prop :=
  match m with
  | TPS_Relay m => covers (tr_epochs m) b
  | TPS_Broker m => covers (tb_epochs m) b
  | _ => True
  end.

Lemma count_txs_ok n b m :
  -1 <= nc_epochID m -> cells (nc_epochID m + 1) (nc_txNum m) -> empty_block b = false -> 0 <= bim_Epoch b ->
  exists m', count_txs n b m = Ret m' /\ nc_epochID m' = Z.max (nc_epochID m) (bim_Epoch b) /\
    cells (nc_epochID m' + 1) (nc_txNum m').
Proof.
  intros He Hc Hb Hr. unfold count_txs. rewrite Hb.
  add_cells. by eexists.
Qed.

Lemma latency_ok n epochid t m tx :
  tcl_ok n m -> 0 <= epochid < n -> exists m', latency_of epochid t m tx = Ret m' /\ tcl_ok n m'.
Proof.
  intros (He & H1 & H2) Hr. unfold latency_of, add_latency. case_match; [by eexists|].
  add_cells. eexists. split; [done|]. by split_and!.
Qed.

Lemma broker2_ok n epochid t m tx :
  tcl_ok n m -> 0 <= epochid < n -> exists m', broker2_latency epochid t m tx = Ret m' /\ tcl_ok n m'.
Proof.
  intros (He & H1 & H2) Hr. unfold broker2_latency, add_latency. case_match; [|by eexists].
  add_cells. eexists. split; [done|]. by split_and!.
Qed.

Lemma TCL_Relay_ok b m :
  -1 <= tcl_epochID m -> tcl_ok (tcl_epochID m + 1) m -> empty_block b = false -> 0 <= bim_Epoch b ->
  exists m', TCL_Relay_Update b m = Ret m' /\ tcl_ok (Z.max (tcl_epochID m) (bim_Epoch b) + 1) m'.
Proof.
  intros He (_ & H1 & H2) Hb Hr. unfold TCL_Relay_Update. rewrite Hb. apply (foldM_total (tcl_ok _)).
  - split_and!; [done|by apply extend_cells..].
  - intros s tx _ Hs. apply latency_ok; [done|lia].
Qed.

Lemma TCL_Broker_ok b m :
  -1 <= tcl_epochID m -> tcl_ok (tcl_epochID m + 1) m -> empty_block b = false -> 0 <= bim_Epoch b ->
  exists m', TCL_Broker_Update b m = Ret m' /\ tcl_ok (Z.max (tcl_epochID m) (bim_Epoch b) + 1) m'.
Proof.
  intros He Hm Hb Hr. unfold TCL_Broker_Update. rewrite Hb.
  destruct (TCL_Relay_ok b m He Hm Hb Hr) as (m1 & -> & H1). cbn [mbind res_bind].
  apply (foldM_total (tcl_ok _)).
  - revert m1 H1. induction (bim_Broker1Txs b) as [|tx l IH]; intros m1 H1; [done|]. by apply IH.
  - intros s tx _ Hs. apply broker2_ok; [done|lia].
Qed.

Lemma CrossTxRate_Relay_ok b m :
  -1 <= xr_epochID m -> xr_ok (xr_epochID m + 1) m -> empty_block b = false -> 0 <= bim_Epoch b ->
  exists m', CrossTxRate_Relay_Update b m = Ret m' /\ xr_ok (Z.max (xr_epochID m) (bim_Epoch b) + 1) m'.
Proof.
  intros He (_ & H1 & H2) Hb Hr. unfold CrossTxRate_Relay_Update. rewrite Hb.
  set (n := Z.max _ _ + 1).
  match goal with |- context [foldM (relay1_half _) ?m0 ?l] =>
    destruct (foldM_total (xr_ok n) (relay1_half (bim_Epoch b)) l m0) as (m1 & -> & Hm1) end.
  - split_and!; [done|by apply extend_cells..].
  - intros s tx _ (Hs & Hs1 & Hs2). unfold relay1_half. add_cells. eexists. split; [done|]. by split_and!.
  - cbn [mbind res_bind]. apply (foldM_total (xr_ok n)); [done|].
    intros s tx _ (Hs & Hs1 & Hs2). unfold relay2_half. case_match; add_cells; (eexists; split; [done|]); by split_and!.
Qed.

(** A report, in every module. *)
Lemma update_ok b m :
  measure_ok m -> empty_block b = false -> 0 <= bim_Epoch b ->
  exists m', UpdateMeasureRecord b m = Ret m' /\ measure_ok m' /\ measure_name m' = measure_name m /\
    measure_epoch m' = Z.max (measure_epoch m) (bim_Epoch b) /\
    (bim_ProposeTime b <> 0 -> bim_CommitTime b <> 0 ->
     covered m' b /\ forall b0, covered m b0 -> covered m' b0).
Proof.
  intros [Hn Hm] Hb Hr. destruct m as [m|m|m|m|m|m|m|m]; cbn in Hn, Hm; cbn [UpdateMeasureRecord].
  - unfold TPS_Relay_Update. rewrite Hb.
    edestruct (enter_block_ok b) as (e & E & He & Hep & Hc); [exact Hm|done|]. rewrite E.
    eexists. split; [reflexivity|]. split_and!; [split; [cbn; lia|exact He]|done|exact Hep|exact Hc].
  - unfold TPS_Broker_Update. rewrite Hb.
    edestruct (enter_block_ok b) as (e & E & He & Hep & Hc); [exact Hm|done|]. rewrite E.
    eexists. split; [reflexivity|]. split_and!; [split; [cbn; lia|exact He]|done|exact Hep|exact Hc].
  - destruct (TCL_Relay_ok b m) as (m' & -> & Hm'); [lia|done..|]. destruct Hm' as [He Hm'].
    eexists. split; [reflexivity|]. split_and!; [split; cbn; [lia|split; [done|by rewrite He]]|done|cbn; lia|done].
  - destruct (TCL_Broker_ok b m) as (m' & -> & Hm'); [lia|done..|]. destruct Hm' as [He Hm'].
    eexists. split; [reflexivity|]. split_and!; [split; cbn; [lia|split; [done|by rewrite He]]|done|cbn; lia|done].
  - destruct (CrossTxRate_Relay_ok b m) as (m' & -> & Hm'); [lia|done..|]. destruct Hm' as [He Hm'].
    eexists. split; [reflexivity|]. split_and!; [split; cbn; [lia|split; [done|by rewrite He]]|done|cbn; lia|done].
  - destruct Hm as [H1 H2]. unfold CrossTxRate_Broker_Update. rewrite Hb. add_cells.
    eexists. split; [reflexivity|]. split_and!; [split; cbn; [lia|done]|done|done|done].
  - destruct (count_txs_ok (of_int (num_txs (bim_ExcutedTxs b))) b m) as (m' & E & He & Hm'); [lia|done..|].
    unfold TxNumCount_Relay_Update. rewrite E. eexists. split; [reflexivity|].
    split_and!; [split; [cbn; lia|done]|done|done|done].
  - destruct (count_txs_ok (fadd (of_int (num_txs (bim_ExcutedTxs b))) (broker_halves b)) b m)
      as (m' & E & He & Hm'); [lia|done..|].
    unfold TxNumCount_Broker_Update. rewrite E. eexists. split; [reflexivity|].
    split_and!; [split; [cbn; lia|done]|done|done|done].
Qed.

Lemma update_empty b m : empty_block b = true -> UpdateMeasureRecord b m = Ret m.
Proof.
  intros Hb. destruct m; cbn; unfold TPS_Relay_Update, TPS_Broker_Update, TCL_Relay_Update, TCL_Broker_Update,
    CrossTxRate_Relay_Update, CrossTxRate_Broker_Update, TxNumCount_Relay_Update, TxNumCount_Broker_Update,
    count_txs; by rewrite Hb.
Qed.

Lemma NewMeasure_ok shardNum name m :
  NewMeasure shardNum name = Some m -> measure_name m = name /\ measure_ok m /\ measure_epoch m = -1.
Proof.
  unfold NewMeasure. repeat (case_bool_decide; [intros [= <-]; subst; by repeat split|]). done.
Qed.

(** What a leader may report: nothing, or a block of an epoch, with its times. *)
Definition report_ok (b : BlockInfoMsg) : Prop :=
  empty_block b = false -> 0 <= bim_Epoch b /\ bim_ProposeTime b <> 0 /\ bim_CommitTime b <> 0.

(** The latest epoch of a non-empty report. *)
Definition last_epoch (bs : list BlockInfoMsg) : Z :=
  foldl (fun e b => if empty_block b then e else Z.max e (bim_Epoch b)) (-1) bs.

Lemma updates_ok bs m0 :
  measure_ok m0 -> Forall report_ok bs ->
  exists m, foldM (fun m b => UpdateMeasureRecord b m) m0 bs = Ret m /\ measure_ok m /\
    measure_name m = measure_name m0 /\
    measure_epoch m = foldl (fun e b => if empty_block b then e else Z.max e (bim_Epoch b)) (measure_epoch m0) bs /\
    forall b, b ∈ bs /\ empty_block b = false \/ covered m0 b -> covered m b.
Proof.
  revert m0. induction bs as [|b bs IH]; intros m0 Hm Hr.
  - exists m0. split_and!; [done..|]. by intros b [[?%not_elem_of_nil _]|].
  - apply list.Forall_cons in Hr as [Hb Hr]. cbn [foldM foldl]. destruct (empty_block b) eqn:He.
    + rewrite update_empty by done. destruct (IH m0 Hm Hr) as (m & E & H1 & H2 & H3 & H4).
      exists m. split_and!; [done..|]. intros b0 [[[->|Hin]%elem_of_cons Hb0]|Hc]; [congruence|apply H4; by left|apply H4; by right].
    + destruct (Hb He) as (Hep & Hp & Hc). destruct (update_ok b m0 Hm He Hep) as (m1 & E1 & Hm1 & Hn & He1 & Hcov).
      destruct (Hcov Hp Hc) as [Hc1 Hc0]. rewrite E1. destruct (IH m1 Hm1 Hr) as (m & E & H1 & H2 & H3 & H4).
      exists m. split_and!; [done|done|congruence|by rewrite H3, He1|].
      intros b0 [[[->|Hin]%elem_of_cons Hb0]|Hc']; apply H4; auto.
Qed.

Lemma report_one b m :
  measure_ok m -> report_ok b -> exists m', UpdateMeasureRecord b m = Ret m' /\ measure_ok m'.
Proof.
  intros Hm Hb. destruct (updates_ok [b] m Hm) as (m' & E & H & _); [by apply Forall_singleton|].
  cbn [foldM] in E. apply bind_Ret in E as (m1 & E & [= ->]). by exists m'.
Qed.

(** C38: whatever blocks the leaders report, a measure module stays
    well-formed.  A module the supervisor makes from a name handles every
    sequence of reports with non-negative epochs without an index out of range,
    stays a module of that name with exactly one cell per epoch up to the
    latest one reported, in each of its lists, and the intervals of a TPS
    module cover every non-empty block it was told of. *)
Theorem measure_run shardNum name m0 bs :
  NewMeasure shardNum name = Some m0 -> Forall report_ok bs ->
  exists m, foldM (fun m b => UpdateMeasureRecord b m) m0 bs = Ret m /\
    measure_name m = name /\ measure_ok m /\ measure_epoch m = last_epoch bs /\
    forall b, b ∈ bs -> empty_block b = false -> covered m b.
Proof.
  intros (Hn & Hm & He)%NewMeasure_ok Hr. destruct (updates_ok bs m0 Hm Hr) as (m & E & H1 & H2 & H3 & H4).
  exists m. rewrite He in H3. split_and!; [done|congruence|done|done|]. intros b Hb Hne. apply H4. by left.
Qed.

(** ** Instances *)
Module RefMeasure.
Definition report (epoch propose commit n : Z) : BlockInfoMsg :=
  mkBlockInfoMsg n [zero_Transaction] epoch propose commit 0 0 [] 0 [] 0 [].
(** Two blocks of epoch 1, the later one first, and an empty report. *)
Definition reports : list BlockInfoMsg := [report 1 200 300 4; report 7 1 1 0; report 1 100 250 4].
End RefMeasure.

Lemma measure_run_witness :
  exists m, foldM (fun m b => UpdateMeasureRecord b m) (TPS_Broker (NewTestModule_avgTPS_Broker 2)) RefMeasure.reports
      = Ret (TPS_Broker m) /\
    epochs_ok (tb_epochs m) /\ tps_epochID (tb_epochs m) = 1 /\
    tps_startTime (tb_epochs m) = [0; 100] /\ tps_endTime (tb_epochs m) = [0; 300].
Proof.
  destruct (measure_run 2 "TPS_Broker" (TPS_Broker (NewTestModule_avgTPS_Broker 2)) RefMeasure.reports)
    as (m & E & Hn & [_ Hm] & He & _).
  - reflexivity.
  - repeat constructor; by intros.
  - destruct m as [m|m|m|m|m|m|m|m]; try discriminate Hn. exists m. split; [exact E|]. split; [exact Hm|].
    split; [exact He|]. vm_compute in E. injection E as <-. split; reflexivity.
Defined.
