(* ===== verification/Results.v ===== *)
(** * Results: the csv files the processes leave

    The leader of a shard appends a row per block to its shard's file
    (writeCSVline of both kinds of node, on the [CSVline] cells written by
    [Itoa]), and the supervisor a row per metric when it closes.  A file is
    created with its title row when it is missing and appended to otherwise.  [Files] is what the file system holds; [ok]
    tells whether it lets the directory be made and the file be opened.
    [encoding/csv] and [strconv] are rendered as the standard library has them. *)
From stdpp Require Import base gmap strings list pretty.
From Stdlib Require Import ZArith Lia Ascii SpecFloat.
From S2P Require Import Prelude GoStd Libs Messages Chain Pbft Hotstuff Partition Committee Measure.

(** ** Text *)
#[local] Open Scope string_scope.

Definition cat (l : list string) : string := foldr String.append EmptyString l.

(** [strconv.Itoa] *)
Definition Itoa (n : Z) : string := pretty n.

Definition nl : string := String newline EmptyString.
Definition dquote_char : ascii := "034".
Definition dquote : string := String dquote_char EmptyString.

(** [n / d] to the nearest, halves to the even. *)
Definition div_even (n d : Z) : Z :=
  let q := n / d in let r := n mod d in
  (if 2 * r <? d then q else if d <? 2 * r then q + 1 else if Z.even q then q else q + 1)%Z.

(** The last [k] decimal digits of [n]. *)
Fixpoint fixed_digits (k : nat) (n : Z) : string :=
  match k with
  | O => EmptyString
  | S k => fixed_digits k (n / 10) +:+ String (byte_of (48 + n mod 10)) EmptyString
  end.

(** [|x| * 10^8] to the nearest integer, for a finite [x] of mantissa [m] and exponent [e]. *)
Definition hundred_millionths (m : positive) (e : Z) : Z :=
  (if 0 <=? e then Z.pos m * 2 ^ e * 10 ^ 8 else div_even (Z.pos m * 10 ^ 8) (2 ^ (- e)))%Z.

Definition minus (s : bool) : string := if s then "-" else "".

(** [strconv.FormatFloat(x, 'f', 8, 64)] *)
Definition FormatFloat (x : float) : string :=
  match x with
  | S754_zero s => minus s +:+ "0.00000000"
  | S754_infinity s => (if s then "-" else "+") +:+ "Inf"
  | S754_nan => "NaN"
  | S754_finite s m e =>
      let q := hundred_millionths m e in
      minus s +:+ Itoa (q / 10 ^ 8) +:+ "." +:+ fixed_digits 8 q
  end.

(** [fieldNeedsQuotes] of [csv.Writer], of a field that does not start with a
    space outside ASCII. *)
Definition csv_special (c : ascii) : bool :=
  bool_decide (c ∈ [newline; "013"%char; dquote_char; ","%char]).
Definition ascii_space (c : ascii) : bool :=
  bool_decide (c ∈ ["009"%char; newline; "011"%char; "012"%char; "013"%char; " "%char]).
Definition fieldNeedsQuotes (field : string) : bool :=
  match field with
  | EmptyString => false
  | String c _ => bool_decide (field = "\.") || negb (ball (fun c => negb (csv_special c)) field) || ascii_space c
  end.

Fixpoint double_quotes (s : string) : string :=
  match s with
  | EmptyString => EmptyString
  | String c s => (if bool_decide (c = dquote_char) then dquote +:+ dquote else String c EmptyString) +:+ double_quotes s
  end.

Definition csv_field (s : string) : string :=
  if fieldNeedsQuotes s then dquote +:+ double_quotes s +:+ dquote else s.

(** [w.Write(fields); w.Flush()] *)
Definition csv_line (fields : list string) : string := String.concat "," (csv_field <$> fields) +:+ nl.

(** ** Files *)
Abbreviation Files := (gmap string string).

(** [os.OpenFile] with [O_CREATE] and [O_TRUNC] *)
Definition OpenFile (ok : bool) (name : string) (fs : Files) : res Files :=
  if ok then Ret (<[name := EmptyString]> fs) else Panic.
Definition WriteString (name str : string) (fs : Files) : Files := alter (fun s => s +:+ str) name fs.

(** [os.Open], then [os.Create] where there is no such file and an appending
    [os.OpenFile] where there is. *)
Definition csv_append (ok : bool) (target : string) (title row : list string) (fs : Files) : res Files :=
  match fs !! target with
  | None =>
      fs ← OpenFile ok target fs;
      Ret (WriteString target (csv_line row) (WriteString target (csv_line title) fs))
  | Some _ => if ok then Ret (WriteString target (csv_line row) fs) else Panic
  end.

Definition DataWrite_path : string := "./result/".

(** The file of a shard; the identities are converted to [int]. *)
Definition shard_csv (shardNums shardID : Z) : string :=
  DataWrite_path +:+ "pbft_" +:+ Itoa (i64 shardNums) +:+ "/Shard" +:+ Itoa (i64 shardID) +:+ Itoa (i64 shardNums) +:+ ".csv".

Definition csv_title : list string := ["txpool size"; "tx"; "ctx"].

(** ** toolFuncs.go of the PBFT node, messageHandle.go of SyncHotstuff *)
Section nodes.
Context {TL : TrieLib} {BL : BoltLib} {X : Type}.

Definition writeCSVline (ok : bool) (p : PbftConsensusNode X) (str : list string) (fs : Files) : res Files :=
  csv_append ok (shard_csv (ShardNums (pbftChainConfig p)) (p_ShardID p)) csv_title str fs.

Definition sync_writeCSVline (ok : bool) (n : SyncHotstuffConsensusNode) (str : list string) (fs : Files) : res Files :=
  csv_append ok (shard_csv (ShardNums (h_ChainConfig n)) (h_ShardID n)) csv_title str fs.
End nodes.

(** ** Text and numbers *)
Lemma cat_app l1 l2 : cat (l1 ++ l2) = cat l1 +:+ cat l2.
Proof.
  induction l1 as [|s l1 IH]; [done|]. cbn [app]. change (s +:+ cat (l1 ++ l2) = (s +:+ cat l1) +:+ cat l2).
  by rewrite IH, bapp_assoc.
Qed.

Lemma div_even_near n d : 0 < d -> 2 * Z.abs (n - d * div_even n d) <= d.
Proof.
  intros Hd. unfold div_even. pose proof (Z.div_mod n d ltac:(lia)) as E. pose proof (Z.mod_pos_bound n d Hd) as Hr.
  set (q := n / d) in *. set (r := n mod d) in *. cbv zeta.
  destruct (Z.ltb_spec (2 * r) d); [lia|]. destruct (Z.ltb_spec d (2 * r)); [lia|]. destruct (Z.even q); lia.
Qed.

Lemma div_even_nonneg n d : 0 <= n -> 0 < d -> 0 <= div_even n d.
Proof.
  intros Hn Hd. unfold div_even. cbv zeta. pose proof (Z.div_pos n d Hn Hd). destruct (_ <? _)%Z; [done|].
  destruct (_ <? _)%Z; [lia|]. destruct (Z.even _); lia.
Qed.

(** Of two integers at the same distance the even one. *)
Lemma div_even_tie n d : 0 < d -> 2 * (n mod d) = d -> Z.even (div_even n d) = true.
Proof.
  intros Hd H. unfold div_even. cbv zeta. rewrite H, Z.ltb_irrefl. destruct (Z.even (n / d)) eqn:E; [done|].
  by rewrite Z.even_add, E.
Qed.

Lemma dec_digits_app s t : forall acc,
  dec_digits acc (s +:+ t) = v ← dec_digits acc s; dec_digits v t.
Proof.
  induction s as [|c s IH]; intros acc; [done|]. cbn [dec_digits]. change (String c s +:+ t) with (String c (s +:+ t)).
  cbn [dec_digits]. destruct (_ && _); [apply IH|done].
Qed.

(** [fixed_digits] writes [k] digits, which read as [n mod 10^k]. *)
Lemma dec_fixed k : forall acc n, 0 <= n ->
  dec_digits acc (fixed_digits k n) = Some (acc * 10 ^ Z.of_nat k + n mod 10 ^ Z.of_nat k).
Proof.
  induction k as [|k IH]; intros acc n Hn; [cbn; by rewrite Z.mod_1_r, Z.mul_1_r, Z.add_0_r|].
  cbn [fixed_digits]. rewrite dec_digits_app, IH by (apply Z.div_pos; lia). cbn [dec_digits mbind option_bind].
  pose proof (Z.mod_pos_bound n 10 ltac:(lia)) as Hb. rewrite byte_val_of by lia.
  rewrite (proj2 (Z.leb_le 48 _)), (proj2 (Z.leb_le _ 57)) by lia. cbn [andb]. f_equal.
  rewrite Nat2Z.inj_succ, Z.pow_succ_r, Z.rem_mul_r by lia. lia.
Qed.

Lemma fixed_digits_length k : forall n, String.length (fixed_digits k n) = k.
Proof. induction k as [|k IH]; intros n; [done|]. cbn [fixed_digits]. rewrite bapp_length, IH. cbn. lia. Qed.

(** A finite number is written as the multiple of [10^-8] nearest to it: its
    integer part, and exactly eight digits that read as the rest. *)
Lemma FormatFloat_finite s m e : let q := hundred_millionths m e in
  exists frac, FormatFloat (S754_finite s m e) = minus s +:+ Itoa (q / 10 ^ 8) +:+ "." +:+ frac /\
    String.length frac = 8%nat /\ dec_digits 0 frac = Some (q mod 10 ^ 8) /\
    (if 0 <=? e then q = Z.pos m * 2 ^ e * 10 ^ 8 else 2 * Z.abs (Z.pos m * 10 ^ 8 - 2 ^ (- e) * q) <= 2 ^ (- e))%Z.
Proof.
  intros q. exists (fixed_digits 8 q). split; [done|]. split; [apply fixed_digits_length|].
  unfold q, hundred_millionths. destruct (Z.leb_spec 0 e) as [He|He].
  - rewrite dec_fixed by (apply Z.mul_nonneg_nonneg; [|done]; apply Z.mul_nonneg_nonneg; [done|]; apply Z.pow_nonneg; lia). done.
  - assert (Hd : 0 < 2 ^ (- e)) by (apply Z.pow_pos_nonneg; lia). split; [|by apply div_even_near].
    rewrite dec_fixed by (apply div_even_nonneg; lia). done.
Qed.

(** ** Files, one row at a time *)
Lemma write_one name s str (fs : Files) : WriteString name str (<[name:=s]> fs) = <[name := s +:+ str]> fs.
Proof. unfold WriteString. by rewrite alter_insert_eq. Qed.

(** A row goes to the end of the file, after the title if the file is new. *)
Lemma csv_append_row target title row fs :
  csv_append true target title row fs =
  Ret (<[target := default (csv_line title) (fs !! target) +:+ csv_line row]> fs).
Proof.
  unfold csv_append. destruct (fs !! target) as [s|] eqn:E; cbn [mbind res_bind OpenFile default].
  - unfold WriteString. rewrite <- (insert_id fs target s E) at 1. by rewrite alter_insert_eq.
  - by rewrite !write_one.
Qed.

Lemma bapp_inj_r s1 : forall s2 t, s1 +:+ t = s2 +:+ t -> s1 = s2.
Proof.
  intros s2 t H. revert s2 H. induction s1 as [|c s1 IH]; intros [|c2 s2] H; [done| | |].
  1,2: exfalso; apply (f_equal String.length) in H; rewrite ?bapp_length in H; cbn in H; rewrite ?bapp_length in H; lia.
  injection H as -> H. f_equal. by apply IH.
Qed.

(** The shards of a system have files of their own. *)
Lemma shard_csv_inj n i j : 0 <= i < 2 ^ 63 -> 0 <= j < 2 ^ 63 -> shard_csv n i = shard_csv n j -> i = j.
Proof.
  intros Hi Hj H. unfold shard_csv in H. do 4 apply (inj (String.append _)) in H.
  rewrite <- !bapp_assoc in H. do 2 apply bapp_inj_r in H. apply (inj pretty) in H. by rewrite !i64_small in H by lia.
Qed.

(** However the leaders' writes interleave, each shard's file holds its own
    rows, in their order, under one title. *)
Definition rows_of (i : Z) (ws : list (Z * list string)) : list (list string) :=
  (filter (fun w => w.1 = i) ws).*2.

Definition rows_file (rows : list (list string)) (old : option string) : option string :=
  if decide (rows = []) then old else Some (default (csv_line csv_title) old +:+ cat (csv_line <$> rows)).

Lemma rows_file_cons row rows old :
  rows_file rows (Some (default (csv_line csv_title) old +:+ csv_line row)) = rows_file (row :: rows) old.
Proof.
  unfold rows_file. rewrite (decide_False (P := row :: rows = [])) by done. cbn [fmap list_fmap].
  change (cat (csv_line row :: (csv_line <$> rows))) with (csv_line row +:+ cat (csv_line <$> rows)). rewrite <- bapp_assoc.
  case_decide as H; [subst; cbn [fmap list_fmap]; change (cat []) with ""; by rewrite bapp_nil_r|done].
Qed.

Lemma shard_csv_files n ws : forall fs, Forall (fun w => 0 <= w.1 < 2 ^ 63) ws ->
  exists fs', foldM (fun fs w => csv_append true (shard_csv n w.1) csv_title w.2 fs) fs ws = Ret fs' /\
    forall i, 0 <= i < 2 ^ 63 -> fs' !! shard_csv n i = rows_file (rows_of i ws) (fs !! shard_csv n i).
Proof.
  induction ws as [|[j row] ws IH]; intros fs Hws; [by exists fs|].
  apply list.Forall_cons in Hws as [Hj Hws]. cbn [fst] in Hj. cbn [foldM fst snd]. rewrite csv_append_row. cbn [mbind res_bind].
  destruct (IH (<[shard_csv n j := default (csv_line csv_title) (fs !! shard_csv n j) +:+ csv_line row]> fs) Hws)
    as (fs' & E & Hf). exists fs'. split; [exact E|]. intros i Hi. rewrite Hf by done. unfold rows_of. rewrite filter_cons.
  cbn [fst]. case_decide as Hij; [subst j; rewrite lookup_insert_eq; apply rows_file_cons|].
  by rewrite lookup_insert_ne by (intros H%shard_csv_inj; done).
Qed.

(** ** On concrete inputs *)
Example FormatFloat_third : FormatFloat (fdiv (of_int 2) (of_int 3)) = "0.66666667".
Proof. vm_compute. reflexivity. Qed.

Example FormatFloat_ratio : FormatFloat (fdiv (of_int 1) (of_int 0)) = "+Inf".
Proof. vm_compute. reflexivity. Qed.

Example csv_line_quotes :
  csv_line ["txpool size"; " tx"; "c,tx"; ""] = "txpool size," +:+ dquote +:+ " tx" +:+ dquote +:+ "," +:+ dquote +:+ "c,tx" +:+ dquote +:+ "," +:+ nl.
Proof. vm_compute. reflexivity. Qed.
