(* ===== verification/Supervisor.v ===== *)
(** * Supervisor: src/supervisor/supervisor.go and src/build/build.go

    The supervisor takes the leaders' reports and runs a committee.  It has two
    goroutines: [handleClientRequest] under [tcpLock], a message a step, and
    [SupervisorTxHandling], of which a step is an iteration of the committee's
    [TxHandling] or of the loop that waits for the stop signal. *)
From stdpp Require Import base gmap strings list pretty.
From Stdlib Require Import ZArith Lia SpecFloat.
From S2P Require Import Prelude GoStd Libs Core Messages Pbft RelayMod Partition Committee Measure Results.

(** ** build.go: initConfig *)

(** The address of node [j] of shard [i]. *)
Definition node_addr (i j : Z) : string := "127.0.0.1:" +:+ Itoa (i64 (28800 + i * 100 + j)).

(** The nodes [0 <= j < nnm] of one shard, added to what its table holds. *)
Definition add_nodes (nnm i : Z) (row : gmap Z string) : gmap Z string :=
  foldl (fun row j => <[j := node_addr i j]> row) row (seqZ 0 nnm).

Definition add_shards (nnm snm : Z) (ips : gmap Z (gmap Z string)) : gmap Z (gmap Z string) :=
  foldl (fun ips i => <[i := add_nodes nnm i (default ∅ (ips !! i))]> ips) ips (seqZ 0 snm).

(** The parameters, the address table and the chain configuration it leaves. *)
Definition initConfig (P : Params) (ips : gmap Z (gmap Z string)) (nid nnm sid snm : Z) :
    Params * gmap Z (gmap Z string) * ChainConfig :=
  let ips := <[DeciderShard := {[0 := SupervisorAddr P]}]> (add_shards nnm snm ips) in
  let P := {| MaxLatency := MaxLatency P; UTXO := UTXO P; UseSyncHotstuff := UseSyncHotstuff P;
              TxInputCount := TxInputCount P; Block_Interval := Block_Interval P;
              MaxBlockSize_global := MaxBlockSize_global P; InjectSpeed := InjectSpeed P;
              TotalDataSize := TotalDataSize P; BatchSize := BatchSize P; BrokerNum := BrokerNum P;
              NodesInShard := i64 nnm; ShardNum := i64 snm; SupervisorAddr := SupervisorAddr P |} in
  (P, ips,
   {| ChainID := sid; NodeID := nid; ShardID := sid; Nodes_perShard := u64 (NodesInShard P);
      ShardNums := snm; BlockSize := u64 (MaxBlockSize_global P); BlockInterval := u64 (Block_Interval P);
      cc_InjectSpeed := u64 (InjectSpeed P); MaxRelayBlockSize := 0 |}).

(** ** supervisor.go *)

(** Where [SupervisorTxHandling] is: in the committee, in its own loop, closed. *)
Inductive SupPC := InCommittee (pc : TxPC) | WaitGap | Closed.

Inductive SupInput :=
  | SupReceive (msg : bytes)
  | SupTick (t : Tick).

Section supervisor.
Context {HL : Sha256} {CC : CoreCodecs} {MC : MsgCodecs}.

Record Supervisor (C : Type) := mkSupervisor {
  sv_IPaddr : string;
  sv_ChainConfig : ChainConfig;
  Ip_nodeTable : gmap Z (gmap Z string);
  listenStop : bool;
  control : Control C;
  testMeasureMods : list MeasureModule;
  sv_pc : SupPC }.
Arguments mkSupervisor {C}.
Arguments sv_IPaddr {C}.
Arguments sv_ChainConfig {C}.
Arguments Ip_nodeTable {C}.
Arguments listenStop {C}.
Arguments control {C}.
Arguments testMeasureMods {C}.
Arguments sv_pc {C}.
#[global] Instance Supervisor_eta C : Eta (Supervisor C) := fun r =>
  mkSupervisor (sv_IPaddr r) (sv_ChainConfig r) (Ip_nodeTable r) (listenStop r) (control r)
    (testMeasureMods r) (sv_pc r).

(** What [NewSupervisor] makes around the committee [com] it chose; the
    file's rows are what [TxHandling] will read. *)
Definition NewSupervisor {C} (ip : string) (pcc : ChainConfig) (ips : gmap Z (gmap Z string))
    (com : C) (mearsureModNames : list string) (rows : list Row) : Supervisor C :=
  mkSupervisor ip pcc ips false
    (mkControl (NewStopSignal (i64 (2 * i64 (ShardNums pcc)))) com)
    (omap (NewMeasure (i64 (ShardNums pcc))) mearsureModNames) (InCommittee (Reading rows [] 0)).

(** [switch committeeMethod] *)
Inductive AnyCommittee :=
  | ClpaBrokerCommittee (c : CLPACommitteeMod_Broker)
  | ClpaCommittee (c : CLPACommitteeModule)
  | BrokerCommittee (c : BrokerCommitteeMod)
  | RelayCommittee (c : RelayCommitteeModule).

Definition NewCommittee (P : Params) (file : list string) (ips : gmap Z (gmap Z string))
    (committeeMethod : string) : AnyCommittee :=
  if bool_decide (committeeMethod = "CLPA_Broker")
  then ClpaBrokerCommittee (NewCLPACommitteeMod_Broker P file ips (TotalDataSize P) (BatchSize P) 80)
  else if bool_decide (committeeMethod = "CLPA")
  then ClpaCommittee (NewCLPACommitteeModule P ips (TotalDataSize P) (BatchSize P) 80)
  else if bool_decide (committeeMethod = "Broker")
  then BrokerCommittee (NewBrokerCommitteeMod P file ips (TotalDataSize P) (BatchSize P))
  else RelayCommittee (NewRelayCommitteeModule ips (TotalDataSize P) (BatchSize P)).

Context {C : Type} {IC : CommitteeModule C}.
#[local] Abbreviation SM := (M (Supervisor C) Event).

(** An operation of the committee inside the supervisor. *)
Definition in_control {A} (m : Cm C A) : SM A := fun d =>
  match m (control d) with
  | Ret (a, w, evs) => Ret (a, d <| control := w |>, evs)
  | Panic => Panic
  | Blocked => Blocked
  end.

Definition handleBlockInfos (content : bytes) : SM () :=
  bim ← lift (must (json_dec (A := BlockInfoMsg) content));
  _ ← in_control (modify_Ss (if bim_BlockBodyLength bim =? 0 then StopGap_Inc else StopGap_Reset));
  _ ← in_control (AdjustByBlockInfos bim);
  d ← get;
  ms ← lift (foldM (fun acc m => m ← UpdateMeasureRecord bim m; Ret (acc ++ [m])) [] (testMeasureMods d));
  modify (fun d => d <| testMeasureMods := ms |>).

Definition sup_handleMessage (msg : bytes) : SM () :=
  '(msgType, content) ← lift (SplitMessage msg);
  if bool_decide (msgType = CBlockInfo) then handleBlockInfos content
  else in_control (HandleOtherMessage msg).

(** The stop message goes to every node of every shard. *)
Definition send_stops : SM () :=
  stopmsg ← lift (MergeMessage CStop "this is a stop message~");
  d ← get;
  forM (shard_ids (ShardNums (sv_ChainConfig d))) (fun sid =>
    forM (shard_ids (Nodes_perShard (sv_ChainConfig d))) (fun nid =>
      emit (TcpDial stopmsg (table_ip (Ip_nodeTable d) sid nid)))).

Definition SupervisorTxHandling (t : Tick) : SM () :=
  d ← get;
  match sv_pc d with
  | InCommittee Done => modify (fun d => d <| sv_pc := WaitGap |>)
  | InCommittee pc =>
      pc ← in_control (TxHandling t pc);
      modify (fun d => d <| sv_pc := InCommittee pc |>)
  | WaitGap =>
      if GapEnough (Ss (control d)) then
        _ ← send_stops;
        modify (fun d => d <| listenStop := true |> <| sv_pc := Closed |>)
      else mret tt
  | Closed => mret tt
  end.

(** Each metric's total is a row of its file; [now] is the clock of the one
    module that reads it. *)
Definition metric_csv (name : string) : string := DataWrite_path +:+ "supervisor_measureOutput/" +:+ name +:+ ".csv".

Definition CloseSupervisor (ok : bool) (now : Z) (d : Supervisor C) (fs : Files) : res Files :=
  foldM (fun fs m =>
    let name := OutputMetricName m in
    csv_append ok (metric_csv name) [name] [FormatFloat (OutputRecord now m).2] fs) fs (testMeasureMods d).

Definition sup_step (i : SupInput) : SM () :=
  match i with
  | SupReceive msg => sup_handleMessage msg
  | SupTick t => SupervisorTxHandling t
  end.

Inductive sup_run : Supervisor C -> list (SupInput * list Event) -> Supervisor C -> Prop :=
  | sup_start d : sup_run d [] d
  | sup_next d tr d1 i d2 evs :
      sup_run d tr d1 -> sup_step i d1 = Ret (tt, d2, evs) -> sup_run d (tr ++ [(i, evs)]) d2.
End supervisor.
Arguments mkSupervisor {C}.
Arguments sv_IPaddr {C}.
Arguments sv_ChainConfig {C}.
Arguments Ip_nodeTable {C}.
Arguments listenStop {C}.
Arguments control {C}.
Arguments testMeasureMods {C}.
Arguments sv_pc {C}.
