(* ===== verification/SupervisorProps.v ===== *)
(** * SupervisorProps: the supervisor with a re-partitioning committee

    [Repartitioning] is what a committee that runs CLPA promises the
    supervisor; both of them fulfil it.  Whatever blocks are reported and
    whenever it re-partitions, the graph stays well-formed, the shard of every
    account is one that exists and is the one the shards have been told. *)
From stdpp Require Import base gmap strings list countable.
From Stdlib Require Import ZArith Lia SpecFloat.
From S2P Require Import Prelude GoStd Libs Core Pools Messages StorageDB Chain Ledger Execution Pbft RelayMod Partition PartitionProps Committee CommitteeProps Measure Results Supervisor.

(** ** The files of [CloseSupervisor] *)
Lemma metric_csv_inj : Inj (=) (=) metric_csv.
Proof. intros a b H. unfold metric_csv in H. do 2 apply (inj (String.append _)) in H. by apply bapp_inj_r in H. Qed.

Definition metric_rows (now : Z) (m : MeasureModule) (old : option string) : string :=
  default (csv_line [OutputMetricName m]) old +:+ csv_line [FormatFloat (OutputRecord now m).2].

(** Metrics of different names have files of their own: each gets its row, and
    no other file changes. *)
Lemma CloseSupervisor_files {C} now (d : Supervisor C) fs :
  NoDup (OutputMetricName <$> testMeasureMods d) ->
  exists fs', CloseSupervisor true now d fs = Ret fs' /\
    (forall m, m ∈ testMeasureMods d ->
      fs' !! metric_csv (OutputMetricName m) = Some (metric_rows now m (fs !! metric_csv (OutputMetricName m)))) /\
    forall f, (forall m, m ∈ testMeasureMods d -> f <> metric_csv (OutputMetricName m)) -> fs' !! f = fs !! f.
Proof.
  unfold CloseSupervisor. generalize (testMeasureMods d) as ms. clear d. intros ms. revert fs.
  induction ms as [|m ms IH]; intros fs Hnd; [exists fs; split_and!; [done| |done]; by intros ? ?%list.not_elem_of_nil|].
  cbn [fmap list_fmap] in Hnd. apply list.NoDup_cons in Hnd as [Hm Hnd].
  assert (Hne : forall m2, m2 ∈ ms -> metric_csv (OutputMetricName m) <> metric_csv (OutputMetricName m2)).
  { intros m2 H2 E%metric_csv_inj. apply Hm. rewrite E. by apply list_elem_of_fmap_2. }
  cbn [foldM]. rewrite csv_append_row. cbn [mbind res_bind].
  destruct (IH (<[metric_csv (OutputMetricName m) := metric_rows now m (fs !! metric_csv (OutputMetricName m))]> fs) Hnd) as (fs' & E & Hin & Hout). exists fs'. split; [exact E|]. split.
  - intros m2 [->|H2]%list.elem_of_cons; [rewrite Hout by auto; apply lookup_insert_eq|].
    rewrite Hin by done. by rewrite lookup_insert_ne by auto.
  - intros f Hf. rewrite Hout by (intros; apply Hf; by right). apply lookup_insert_ne. intros <-. by apply (Hf m); [left|].
Qed.

(** ** The address table of [initConfig] *)

(** Updating the keys [0 <= k < n] in turn, each from its old value. *)
Lemma foldl_update_lookup {A} (g : Z -> option A -> A) (n : Z) (m : gmap Z A) k :
  foldl (fun m j => <[j := g j (m !! j)]> m) m (seqZ 0 n) !! k =
  if decide (0 <= k < n) then Some (g k (m !! k)) else m !! k.
Proof.
  destruct (Z.le_gt_cases n 0) as [Hn|Hn].
  { rewrite decide_False by lia. by rewrite seqZ_nil. }
  revert k. pattern n. apply natlike_ind; [| |lia]; clear.
  - intros k. by rewrite decide_False by lia.
  - intros n Hn IH k. unfold Z.succ. rewrite (seqZ_app 0 n 1), foldl_app by lia. change (seqZ (0 + n) 1) with [n]. cbn [foldl].
    destruct (decide (k = n)) as [->|Hne].
    + rewrite lookup_insert_eq, IH, decide_False, decide_True by lia. done.
    + rewrite lookup_insert_ne, IH by done. repeat case_decide; (done || lia).
Qed.

Lemma initConfig_ip P nid nnm sid snm i j :
  snm <= DeciderShard -> 0 <= i < snm -> 0 <= j < nnm ->
  table_ip (initConfig P ∅ nid nnm sid snm).1.2 i j = node_addr i j.
Proof.
  intros Hs Hi Hj. unfold table_ip, initConfig. cbn [fst snd].
  rewrite lookup_insert_ne by (unfold DeciderShard in *; lia). unfold add_shards.
  rewrite (foldl_update_lookup (fun i row => add_nodes nnm i (default ∅ row))), decide_True by lia.
  cbn. rewrite lookup_empty. cbn. unfold add_nodes.
  by rewrite (foldl_update_lookup (fun j _ => node_addr i j)), decide_True by lia.
Qed.

Lemma node_addr_inj i j i' j' :
  0 <= i < 2 ^ 32 -> 0 <= j < 2 ^ 32 -> 0 <= i' < 2 ^ 32 -> 0 <= j' < 2 ^ 32 ->
  node_addr i j = node_addr i' j' <-> 100 * i + j = 100 * i' + j'.
Proof.
  intros. unfold node_addr, Itoa. rewrite !i64_small by lia. split.
  - intros H'%(inj _)%(inj _). lia.
  - intros H'. do 2 f_equal. lia.
Qed.

(** C39: on a fresh table [initConfig] gives every node of every shard an
    address and the supervisor's own under [DeciderShard], and it is exactly
    for at most 100 nodes a shard that no two nodes share an address. *)
Theorem initConfig_addresses P nid nnm sid snm :
  1 < snm <= DeciderShard -> 0 <= nnm < 2 ^ 32 ->
  let '(P', ips, pcc) := initConfig P ∅ nid nnm sid snm in
  ShardNum P' = snm /\ ShardNums pcc = snm /\ Nodes_perShard pcc = nnm /\
  table_ip ips DeciderShard 0 = SupervisorAddr P /\
  (forall i j, 0 <= i < snm -> 0 <= j < nnm -> table_ip ips i j = node_addr i j) /\
  (nnm <= 100 <->
   forall i j i' j', 0 <= i < snm -> 0 <= j < nnm -> 0 <= i' < snm -> 0 <= j' < nnm ->
     table_ip ips i j = table_ip ips i' j' -> i = i' /\ j = j').
Proof.
  intros Hs Hn. pose proof (fun i j => initConfig_ip P nid nnm sid snm i j ltac:(lia)) as Hip.
  unfold DeciderShard in *. unfold initConfig in *. cbn [fst snd] in Hip.
  split_and!; [cbn; apply i64_small; lia|done|cbn; rewrite i64_small, u64_small by lia; done| |exact Hip|split].
  - unfold table_ip. by rewrite lookup_insert_eq.
  - intros Hle i j i' j' Hi Hj Hi' Hj' H. rewrite !Hip in H by done. apply node_addr_inj in H; lia.
  - intros H. destruct (Z.le_gt_cases nnm 100) as [|Hgt]; [done|].
    destruct (H 0 100 1 0); [lia|lia|lia|lia| |lia]. rewrite !Hip by lia. apply node_addr_inj; lia.
Qed.

Lemma initConfig_addresses_witness :
  table_ip (initConfig RefGraph.P ∅ 0 4 1 2).1.2 1 3 = "127.0.0.1:28903"%string /\
  node_addr 0 100 = node_addr 1 0.
Proof.
  destruct (initConfig_addresses RefGraph.P 0 4 1 2) as (_ & _ & _ & _ & H & _); [by unfold DeciderShard|done|].
  split; [|vm_compute; reflexivity]. etrans; [apply H; lia|vm_compute; reflexivity].
Defined.

(** ** The partition messages that were sent *)
Section maps.
Context {MC : MsgCodecs} {ML : MsgCodecsLaws}.

Definition partition_of (e : Event) : list (gmap string Z) :=
  match e with
  | TcpDial msg _ =>
      match SplitMessage msg with
      | Ret (t, c) => if bool_decide (t = CPartitionMsg) then option_list (pm_PartitionModified <$> json_dec c) else []
      | _ => []
      end
  | CSVline _ => []
  end.
Definition partitions (evs : list Event) : list (gmap string Z) := evs ≫= partition_of.

(** What a shard knows after it has been sent the maps [ms]. *)
Definition adopt_maps (m : gmap string Z) (ms : list (gmap string Z)) : gmap string Z :=
  foldl (fun acc m => m ∪ acc) m ms.

Lemma partitions_app e1 e2 : partitions (e1 ++ e2) = partitions e1 ++ partitions e2.
Proof. apply bind_app. Qed.

Lemma partition_of_other t c msg addr :
  t ∈ message_types -> t <> CPartitionMsg -> MergeMessage t c = Ret msg -> partition_of (TcpDial msg addr) = [].
Proof.
  intros Ht Hne Hm. unfold partition_of. rewrite (SplitMessage_MergeMessage t c) by (by apply message_types_ok || done).
  by rewrite bool_decide_false.
Qed.

Lemma partition_of_map m msg addr :
  MergeMessage CPartitionMsg (json_enc (mkPartitionModifiedMap m)) = Ret msg ->
  partition_of (TcpDial msg addr) = [m].
Proof.
  intros Hm. unfold partition_of.
  rewrite (SplitMessage_MergeMessage CPartitionMsg (json_enc (mkPartitionModifiedMap m))) by (by apply type_ok_dec || done).
  cbn. by rewrite json_dec_enc.
Qed.

Lemma adopt_replicate n m acc : (0 < n)%nat -> adopt_maps acc (replicate n m) = m ∪ acc.
Proof.
  intros Hn. destruct n as [|n]; [lia|]. clear Hn. cbn. revert acc.
  induction n as [|n IH]; intros acc; [done|]. cbn. by rewrite (assoc_L (∪)), (idemp_L (∪)), IH.
Qed.
End maps.

(** ** The invariant of the re-partitioning part *)
Section inv.
Context {HL : Sha256} {CC : CoreCodecs} {MC : MsgCodecs} {ML : MsgCodecsLaws}.
Context (P : Params) (HS : 0 < ShardNum P < 2 ^ 63).

Record clpa_inv (c : ClpaPart) : Prop := {
  ci_wf : wf (clpaGraph c);
  ci_shards : cs_ShardNum (clpaGraph c) = ShardNum P;
  ci_map : map_Forall (fun _ s => 0 <= s < ShardNum P) (modifiedMap c) }.

Lemma new_part_inv freq : clpa_inv (NewClpaPart P freq).
Proof. split; [apply Init_CLPAState_wf; lia|done|apply map_Forall_empty]. Qed.

(** The invariant does not mention the timer. *)
Lemma clpa_inv_ext c c' :
  clpaGraph c' = clpaGraph c -> modifiedMap c' = modifiedMap c -> clpa_inv c -> clpa_inv c'.
Proof. intros Hg Hm []. by split; rewrite ?Hg, ?Hm. Qed.

Lemma fetch_range c key :
  clpa_inv c -> is_Ret (Addr2Shard P key) ->
  exists s, fetchModifiedMap P c key = Ret s /\ 0 <= s < ShardNum P.
Proof.
  intros [_ _ Hm] [s Hs]. unfold fetchModifiedMap. destruct (modifiedMap c !! key) as [v|] eqn:Hv.
  - exists v. split; [done|]. by apply (Hm key v).
  - unfold addr_shard. rewrite Hs. cbn. pose proof (Addr2Shard_range P key s ltac:(lia) Hs).
    rewrite u64_small by lia. by exists s.
Qed.

Lemma add_edges_inv es : forall c c', clpa_inv c -> foldM (add_edge P) c es = Ret c' ->
  clpa_inv c' /\ modifiedMap c' = modifiedMap c.
Proof.
  intros c c' Hc. apply (foldM_inv (fun c' => clpa_inv c' /\ modifiedMap c' = modifiedMap c)); [done|].
  intros c1 [u v] c2 _ [[Hw Hn Hm] Hmm] H. unfold add_edge in H. inv_res. cbn [fst snd] in *.
  destruct (CLPA_AddEdge_wf P u v (clpaGraph c1) x) as (Hw2 & _ & _ & Hn2); [congruence|done..|].
  split; [|done]. split; cbn; [done|congruence|done].
Qed.

(** A reset graph has no vertices, and the accounts' shards. *)
Lemma clpaReset_inv c :
  map_Forall (fun _ s => 0 <= s < ShardNum P) (modifiedMap c) -> clpa_inv (clpaReset P c).
Proof.
  intros Hm. split; [|done|done]. split; [|done|].
  - split; [cbn; lia|]. intros v. unfold shard_of. cbn. rewrite lookup_fmap.
    destruct (modifiedMap c !! v) as [s|] eqn:Hs; cbn; [|lia].
    specialize (Hm v s Hs). cbn in Hm. rewrite i64_small; lia.
  - apply zeros_tab.
Qed.
End inv.

(** ** What every operation keeps *)
Class ClpaHostLaws (C : Type) {CM : Committee C} {CH : ClpaHost C} : Prop := {
  clpa_set : forall f c, clpa_part (set_clpa f c) = f (clpa_part c);
  clpa_source : forall f (c : C), clpa_part (set_source f c) = clpa_part c }.

Section keeps.
Context {HL : Sha256} {CC : CoreCodecs} {MC : MsgCodecs} {ML : MsgCodecsLaws}.
Context (P : Params) (HS : 0 < ShardNum P < 2 ^ 63).
Context {C : Type} {CM : Committee C} {CH : ClpaHost C} {CL : ClpaHostLaws C}.
Implicit Types (w : Control C).

(** The invariant is kept, and the map follows the messages. *)
Definition keeps w w' (evs : list Event) : Prop :=
  clpa_inv P (clpa_part (com w)) ->
  clpa_inv P (clpa_part (com w')) /\
  modifiedMap (clpa_part (com w')) = adopt_maps (modifiedMap (clpa_part (com w))) (partitions evs).

#[export] Instance keeps_composes : Composes keeps.
Proof.
  split; [by intros w H|]. intros w1 w2 w3 e1 e2 H1 H2 H. destruct (H1 H) as [Hi1 Hm1].
  destruct (H2 Hi1) as [Hi2 Hm2]. split; [done|]. rewrite Hm2, Hm1, partitions_app. unfold adopt_maps.
  by rewrite foldl_app.
Qed.

Lemma keeps_same w w' evs :
  clpa_part (com w') = clpa_part (com w) -> partitions evs = [] -> keeps w w' evs.
Proof. intros Hc Hp H. by rewrite Hc, Hp. Qed.

Lemma keeps_com f : (forall c, clpa_part (f c) = clpa_part c) -> obeys keeps (modify_com f).
Proof. intros Hf. apply obeys_modify. intros w. by apply keeps_same; [apply Hf|]. Qed.
Lemma keeps_Ss f : obeys keeps (modify_Ss f).
Proof. apply obeys_modify. intros w. by apply keeps_same. Qed.

Ltac keeps_step :=
  first
    [ apply obeys_ret; exact keeps_composes | apply obeys_get; exact keeps_composes
    | apply obeys_lift; exact keeps_composes | apply obeys_panic
    | apply keeps_Ss | apply keeps_com; intros; apply clpa_source
    | apply obeys_bind; [exact keeps_composes| |intros ?]
    | case_match ].
Ltac keeps_ok := repeat keeps_step.

Lemma keeps_send_to m sid : obeys keeps (send_to_shard (C := C) m sid).
Proof.
  unfold send_to_shard. apply obeys_bind; [exact keeps_composes|keeps_ok|intros w].
  apply obeys_lift_bind. intros msg Hm. apply obeys_emit. intros w'. apply keeps_same; [done|].
  unfold partitions. cbn [mbind list_bind].
  rewrite (partition_of_other CInject _ msg _ ltac:(by apply (bool_decide_unpack _)) ltac:(done) Hm). done.
Qed.

Lemma keeps_txSending l : obeys keeps (txSending (C := C) P l).
Proof.
  unfold txSending. generalize 0 as idx. generalize (∅ : gmap Z (list Transaction)) as m.
  induction l as [|tx l IH]; intros m idx; cbn [txSending_from]; keeps_ok; try apply IH;
    apply obeys_forM; try exact keeps_composes; intros; apply keeps_send_to.
Qed.

Lemma keeps_read_row data txlist : obeys keeps (read_row (C := C) data txlist).
Proof. unfold read_row. keeps_ok. Qed.

Lemma keeps_add_edges es : obeys keeps (add_edges (C := C) P es).
Proof.
  unfold add_edges. apply obeys_get_bind. intros w b w' o H.
  apply M_bind_Ret in H as (c & w1 & o1 & o2 & H1 & H2 & ->). unfold lift in H1.
  destruct (foldM _ _ _) as [c'| |] eqn:E; [|done..]. injection H1 as <- <- <-.
  injection H2 as <- <- <-. intros Hi. cbn [com set_field]. rewrite clpa_set.
  by destruct (add_edges_inv P es _ _ Hi E) as [Hi' Hm].
Qed.

Lemma clpaMapSend_spec m w a w' evs :
  clpaMapSend (C := C) P m w = Ret (a, w', evs) ->
  w' = w /\ partitions evs = replicate (Z.to_nat (ShardNum P)) m.
Proof.
  unfold clpaMapSend. intros (msg & w1 & o1 & o2 & H1 & H2 & ->)%M_bind_Ret. unfold lift in H1.
  destruct (MergeMessage _ _) as [msg'| |] eqn:Hm; [|done..]. injection H1 as <- <- <-.
  unfold shard_ids in H2. rewrite u64_small in H2 by lia. cbn [app].
  replace (Z.to_nat (ShardNum P)) with (length (seqZ 0 (ShardNum P))) by apply length_seqZ.
  revert w a w' o2 H2. induction (seqZ 0 (ShardNum P)) as [|k l IH]; intros w a w' o2 H; cbn [forM] in H.
  - by injection H as <- <- <-.
  - apply M_bind_Ret in H as ([] & w1 & o3 & o4 & H3 & H4 & ->). rewrite get_bind in H3.
    injection H3 as <- <-. apply IH in H4 as [-> Hp]. split; [done|].
    rewrite partitions_app, Hp. cbn [partitions mbind list_bind length replicate].
    by rewrite (partition_of_map m msg') by done.
Qed.

(** Map iteration visits every key once, in some order. *)
Definition fair (t : Tick) : Prop := forall i l, tk_orders t i l ≡ₚ l.

Lemma union_range (m1 m2 : gmap string Z) n :
  map_Forall (fun _ s => 0 <= s < n) m1 -> map_Forall (fun _ s => 0 <= s < n) m2 ->
  map_Forall (fun _ s => 0 <= s < n) (m1 ∪ m2).
Proof. intros H1 H2 k s [Hk|[_ Hk]]%lookup_union_Some_raw; [by apply (H1 k)|by apply (H2 k)]. Qed.

(** A partition of a well-formed graph names existing shards. *)
Lemma partition_moves t c :
  fair t -> clpa_inv P c ->
  exists moves cross cs, CLPA_Partition (fun i => tk_orders t i (elements (VertexSet (NetGraph (clpaGraph c)))))
      (clpaGraph c) = Ret (moves, cross, cs) /\ map_Forall (fun _ s => 0 <= s < ShardNum P) moves.
Proof.
  intros Hf [Hw Hn Hm]. destruct (CLPA_Partition_loop (clpaGraph c) _ Hw (fun i => Hf i _)) as (s & cs & E & Hok & _).
  exists (lp_res s), (cross_edges cs), cs. split; [exact E|]. intros v n Hv.
  pose proof (lo_res _ _ Hok v) as Hr. rewrite Hv in Hr. destruct Hr as [_ ->].
  destruct (wf_range _ (lo_wf _ _ Hok)) as [_ Hr]. specialize (Hr v).
  destruct (lo_same _ _ Hok) as [_ Hsn]. rewrite Hsn, Hn in Hr. rewrite u64_small; lia.
Qed.

Lemma keeps_repartition t : fair t -> obeys keeps (repartition (C := C) P t).
Proof.
  intros Hf. unfold repartition. apply obeys_get_bind. intros w b w' evs H Hi.
  destruct (partition_moves t _ Hf Hi) as (moves & cross & cs & E & Hmv).
  rewrite (lift_bind _ _ _ _ E) in H. unfold modify_com in H. rewrite modify_bind in H.
  apply M_bind_Ret in H as ([] & w1 & o1 & o2 & H1 & H2 & ->). apply clpaMapSend_spec in H1 as [-> Hp].
  rewrite modify_bind in H2. injection H2 as <- <- <-. cbn [com set_field].
  rewrite partitions_app, Hp, !clpa_set, app_nil_r, adopt_replicate by lia.
  cbn [modifiedMap set_field clpaGraph clpaReset]. split; [|done].
  apply (clpa_inv_ext P (clpaReset P (clpa_part (com w) <| modifiedMap ::= fun m => moves ∪ m |>))); [done..|].
  apply clpaReset_inv; [done|]. apply union_range; [done|]. apply Hi.
Qed.

(** Starting the timer. *)
Lemma repartition_keeps_timer f :
  (forall c, clpaGraph (f c) = clpaGraph c /\ modifiedMap (f c) = modifiedMap c) ->
  obeys keeps (modify_com (set_clpa f)).
Proof.
  intros Hf. apply obeys_modify. intros w Hi. cbn [com set_field]. rewrite clpa_set.
  destruct (Hf (clpa_part (com w))) as [Hg Hm]. split; [by apply (clpa_inv_ext P (clpa_part (com w)))|done].
Qed.

Lemma keeps_TxHandling deal t pc :
  (forall l, obeys keeps (deal l)) -> fair t -> obeys keeps (clpa_TxHandling (C := C) P deal t pc).
Proof.
  intros Hd Hf. unfold clpa_TxHandling, clpa_after_row.
  repeat first [ apply keeps_read_row | apply Hd | apply keeps_txSending | apply keeps_repartition; exact Hf
               | apply repartition_keeps_timer; intros; by case_match | keeps_step ].
Qed.
End keeps.

(** ** The interface between a re-partitioning committee and the supervisor *)
Class Repartitioning (P : Params) (C : Type) {MC : MsgCodecs} {CM : Committee C} {CH : ClpaHost C}
    {IC : CommitteeModule C} : Prop := {
  rp_block : forall b, obeys (keeps P) (AdjustByBlockInfos b);
  rp_tick : forall t pc, fair t -> obeys (keeps P) (TxHandling t pc);
  rp_other : forall msg, obeys (keeps P) (HandleOtherMessage msg);
  rp_route : forall c tx, clpa_inv P (clpa_part c) ->
    is_Ret (Addr2Shard P (tx_Sender tx)) -> is_Ret (Addr2Shard P (tx_Recipient tx)) ->
    exists s, tx_shard c tx = Ret s /\ 0 <= s < ShardNum P }.

Section committees.
Context {HL : Sha256} {CC : CoreCodecs} {MC : MsgCodecs} {ML : MsgCodecsLaws}.
Context (P : Params) (HS : 0 < ShardNum P < 2 ^ 63).
#[local] Hint Extern 0 (Committee _) => exact (clpa_committee P) : typeclass_instances.
#[local] Hint Extern 0 (Committee _) => exact (clpa_broker_committee P) : typeclass_instances.
#[local] Hint Extern 0 (CommitteeModule _) => exact (clpa_module P) : typeclass_instances.
#[local] Hint Extern 0 (CommitteeModule _) => exact (clpa_broker_module P) : typeclass_instances.
#[local] Hint Extern 0 (BrokerHost _) => exact (clpa_broker_host P) : typeclass_instances.

#[export] Instance clpa_host_laws : ClpaHostLaws CLPACommitteeModule.
Proof. by split. Qed.
#[export] Instance clpa_broker_host_laws : ClpaHostLaws CLPACommitteeMod_Broker.
Proof. by split. Qed.

Lemma clpa_repartitioning : Repartitioning P CLPACommitteeModule.
Proof.
  split.
  - intros b. cbn. unfold CLPA_AdjustByBlockInfos. case_match; [apply obeys_ret, keeps_composes|].
    by apply (keeps_add_edges P (CM := clpa_committee P)).
  - intros t pc Hf. apply keeps_TxHandling; [done|apply _| |done]. intros l. apply obeys_ret, keeps_composes.
  - intros msg. apply obeys_ret, keeps_composes.
  - intros c tx Hi Hs _. by apply fetch_range.
Qed.

(** The broker protocol leaves the partition alone. *)
#[local] Abbreviation K := (keeps P (C := CLPACommitteeMod_Broker)).

Lemma keeps_broker f : obeys K (modify_com (set_broker f)).
Proof. by apply keeps_com. Qed.

Ltac broker_ok :=
  repeat first
    [ apply keeps_broker | by apply keeps_txSending
    | apply obeys_ret; exact (keeps_composes P) | apply obeys_get; exact (keeps_composes P)
    | apply obeys_lift; exact (keeps_composes P)
    | apply obeys_forM; [exact (keeps_composes P)|intros]
    | apply obeys_bind; [exact (keeps_composes P)| |intros ?]
    | case_match ].

Lemma keeps_createConfirm txs : obeys K (CLPAB_createConfirm P txs).
Proof.
  unfold CLPAB_createConfirm, createConfirm, handleTx1ConfirmMag, handleBrokerType2Mes, handleTx2ConfirmMag, record_half.
  assert (H : forall l acc, obeys K (confirm1_loop acc l)).
  { induction l as [|m l IH]; intros acc; cbn [confirm1_loop]; unfold confirm1_step, record_half; broker_ok; apply IH. }
  broker_ok; apply H.
Qed.

Lemma keeps_dealTxByBroker txs : obeys K (CLPAB_dealTxByBroker P txs).
Proof.
  unfold CLPAB_dealTxByBroker, dealTxByBroker, handleBrokerRawMag, record_raw, handleBrokerType1Mes. broker_ok.
Qed.

Lemma clpa_broker_repartitioning : Repartitioning P CLPACommitteeMod_Broker.
Proof.
  split.
  - intros b. cbn. unfold CLPAB_AdjustByBlockInfos.
    case_match; [apply obeys_ret, keeps_composes|].
    apply obeys_bind; [apply keeps_composes|apply keeps_createConfirm|intros []].
    by apply (keeps_add_edges P (CM := clpa_broker_committee P)).
  - intros t pc Hf. apply keeps_TxHandling; [done|apply _|apply keeps_dealTxByBroker|done].
  - intros msg. cbn. unfold CLPAB_HandleOtherMessage, CLPAB_txSending.
    repeat first [apply keeps_dealTxByBroker | progress broker_ok].
  - intros c tx Hi Hs Hr. cbn. unfold broker_tx_shard. cbn.
    change (clpa_inv P (cb_clpa c)) in Hi.
    destruct (fetch_range P HS _ _ Hi Hs) as (s & -> & Hsr), (fetch_range P HS _ _ Hi Hr) as (r & -> & Hrr).
    cbn. case_match; eauto.
Qed.
End committees.

(** ** Runs of the supervisor *)
Section runs.
Context {HL : Sha256} {CC : CoreCodecs} {MC : MsgCodecs} {ML : MsgCodecsLaws}.
Context (P : Params) (HS : 0 < ShardNum P < 2 ^ 63).
Context {C : Type} {CM : Committee C} {CH : ClpaHost C} {IC : CommitteeModule C} {RP : Repartitioning P C}.
Implicit Types (d : Supervisor C).

Definition sup_keeps d d' (evs : list Event) : Prop := keeps P (control d) (control d') evs.

#[export] Instance sup_keeps_composes : Composes sup_keeps.
Proof.
  split; [intros d; apply (composes_refl (R := keeps P (C := C)))|].
  intros d1 d2 d3 o1 o2. apply (composes_trans (R := keeps P (C := C))).
Qed.

Lemma in_control_keeps {A} (m : Cm C A) : obeys (keeps P) m -> obeys sup_keeps (in_control m).
Proof.
  intros Hm d a d' evs H. unfold in_control in H. destruct (m (control d)) as [[[b w] o]| |] eqn:E; [|done..].
  injection H as <- <- <-. by eapply (Hm _ _ _ _ E).
Qed.

Lemma same_control f : (forall d, control (f d) = control d) -> obeys sup_keeps (modify f).
Proof. intros Hf. apply obeys_modify. intros d. unfold sup_keeps. rewrite Hf. apply (composes_refl (R := keeps P (C := C))). Qed.

Lemma stops_keep : obeys sup_keeps (send_stops (C := C)).
Proof.
  unfold send_stops. apply obeys_lift_bind. intros msg Hm.
  apply obeys_bind; [exact sup_keeps_composes|apply obeys_get; exact sup_keeps_composes|intros d].
  apply obeys_forM; [exact sup_keeps_composes|intros sid _].
  apply obeys_forM; [exact sup_keeps_composes|intros nid _].
  apply obeys_emit. intros d'. apply (keeps_same P (C := C)); [done|].
  unfold partitions. cbn [mbind list_bind].
  by rewrite (partition_of_other CStop _ msg _ ltac:(by apply (bool_decide_unpack _)) ltac:(done) Hm).
Qed.

Definition fair_input (i : SupInput) : Prop := match i with SupTick t => fair t | SupReceive _ => True end.

Lemma sup_step_keeps i : fair_input i -> obeys sup_keeps (sup_step i).
Proof.
  intros Hf. destruct i as [msg|t]; cbn [sup_step];
    unfold sup_handleMessage, handleBlockInfos, SupervisorTxHandling;
  repeat first
    [ apply stops_keep | apply in_control_keeps; first [apply rp_block | apply rp_tick; exact Hf | apply rp_other | apply keeps_Ss]
    | apply same_control; done
    | apply obeys_ret; exact sup_keeps_composes | apply obeys_get; exact sup_keeps_composes
    | apply obeys_lift; exact sup_keeps_composes
    | apply obeys_bind; [exact sup_keeps_composes| |intros ?]
    | case_match ].
Qed.

Lemma sup_run_keeps d tr d' :
  sup_run d tr d' -> Forall (fun ie => fair_input ie.1) tr -> sup_keeps d d' (concat tr.*2).
Proof.
  induction 1 as [d|d tr d1 i d2 evs Hrun IH Hstep]; intros Hf; [apply (composes_refl (R := sup_keeps))|].
  apply Forall_app in Hf as [Hf Hi]. apply list.Forall_cons in Hi as [Hi _].
  rewrite fmap_app, concat_app. cbn. rewrite app_nil_r.
  eapply (composes_trans (R := sup_keeps)); [by apply IH|]. by eapply sup_step_keeps.
Qed.

(** C36: whatever reports and messages a supervisor with a re-partitioning
    committee receives and however its [TxHandling] interleaves with them, the
    committee's graph is well-formed, its map of moved accounts is exactly what
    the shards have been told by partition messages, and it sends any list of
    transactions whose addresses parse: each one once and in order, to an
    existing shard, which is the shard the committee's map gives it. *)
Theorem clpa_supervisor d tr d' l :
  clpa_part (com (control d)) = NewClpaPart P (clpaFreq (clpa_part (com (control d)))) ->
  sup_run d tr d' -> Forall (fun ie => fair_input ie.1) tr -> 0 < InjectSpeed P ->
  Forall (fun tx => is_Ret (Addr2Shard P (tx_Sender tx)) /\ is_Ret (Addr2Shard P (tx_Recipient tx))) l ->
  let c := com (control d') in
  wf (clpaGraph (clpa_part c)) /\
  modifiedMap (clpa_part c) = adopt_maps ∅ (partitions (concat tr.*2)) /\
  exists evs, txSending P l (control d') = Ret (tt, control d', evs) /\
    Forall (inject_ok (IpNodeTable (source c)) (ShardNum P) (InjectSpeed P)) evs /\
    (forall sid, 0 <= sid < ShardNum P -> injected sid evs = bound_for c sid l) /\
    Forall (fun tx => exists sid, 0 <= sid < ShardNum P /\ tx_shard c tx = Ret sid) l.
Proof.
  intros H0 Hrun Hf HI Hl c. pose proof (sup_run_keeps _ _ _ Hrun Hf) as Hk. unfold sup_keeps, keeps in Hk.
  rewrite H0 in Hk. destruct Hk as [Hi Hm]; [by apply new_part_inv|].
  assert (Hr : routable P c l).
  { eapply list.Forall_impl; [exact Hl|]. intros tx [Hs Hr]. by apply (rp_route (P := P)). }
  split; [apply Hi|]. split; [exact Hm|].
  destruct (txSending_delivers P ltac:(lia) HI l (control d') Hr) as (evs & E & Hok & Hin).
  exists evs. split_and!; [done..|]. eapply list.Forall_impl; [exact Hr|]. intros tx (s & ? & ?). eauto.
Qed.
End runs.

(** ** Instances *)
Module RefSupervisor.
Section ref.
Context {HL : Sha256} {CC : CoreCodecs} {MC : MsgCodecs} {ML : MsgCodecsLaws}.
Abbreviation P := RefGraph.P.
#[local] Hint Extern 0 (CommitteeModule CLPACommitteeModule) => exact (clpa_module P) : typeclass_instances.
#[local] Hint Extern 0 (Committee CLPACommitteeModule) => exact (clpa_committee P) : typeclass_instances.
Abbreviation Sup := (Supervisor CLPACommitteeModule).

(** The committee of two shards, with batches of one transaction. *)
Definition start : Sup :=
  NewSupervisor "sup" (RefChain.node 0) RefCommittee.ips
    (NewCLPACommitteeModule P RefCommittee.ips 100 1 80) ["Average_TPS"%string]
    [RefCommittee.row "00000001" "00000002" "7"].
(** A block with the transactions of the graph [RefGraph.es]. *)
Definition report : BlockInfoMsg :=
  mkBlockInfoMsg 4 ((fun e => zero_Transaction <| tx_Sender := e.1 |> <| tx_Recipient := e.2 |>) <$> RefGraph.es)
    0 1 2 0 0 [] 0 [] 0 [].
(** The batch is sent 1000 seconds before the timer is looked at. *)
Definition tick : Tick := mkTick 1 1000000000000 1000000000010 (fun _ keys => keys).

Definition outcome (r : res (() * Sup * list Event)) : Sup * list Event :=
  match r with Ret (_, d, evs) => (d, evs) | _ => (start, []) end.
Definition ok (r : res (() * Sup * list Event)) : bool := match r with Ret _ => true | _ => false end.
Lemma outcome_ok r : ok r = true -> r = Ret (tt, (outcome r).1, (outcome r).2).
Proof. by destruct r as [[[[] d] evs]| |]. Qed.

(** The supervisor once it has decoded the report. *)
Definition reported : Sup :=
  (outcome ((_ ← in_control (modify_Ss StopGap_Reset); in_control (AdjustByBlockInfos report)) start)).1.

Lemma report_step msg :
  MergeMessage CBlockInfo (json_enc report) = Ret msg -> sup_step (SupReceive msg) start = Ret (tt, reported, []).
Proof.
  intros Hm. cbn [sup_step]. unfold sup_handleMessage.
  rewrite (SplitMessage_MergeMessage CBlockInfo (json_enc report) msg) by (by apply type_ok_dec || done).
  rewrite (lift_bind _ _ _ _ eq_refl). unfold handleBlockInfos. cbn [bool_decide].
  change (bool_decide (CBlockInfo = CBlockInfo)) with true. cbv iota. rewrite json_dec_enc.
  rewrite (lift_bind _ _ _ report eq_refl). vm_compute. reflexivity.
Qed.

Lemma tick_ok : ok (sup_step (SupTick tick) reported) = true.
Proof. vm_compute. reflexivity. Qed.

Definition final : Sup := (outcome (sup_step (SupTick tick) reported)).1.

Lemma a_run : exists tr, sup_run start tr final /\ Forall (fun ie => fair_input ie.1) tr.
Proof.
  destruct (MergeMessage_ok CBlockInfo (json_enc report)) as [msg Hm]; [by apply type_ok_dec|].
  eexists. split.
  - eapply sup_next; [eapply sup_next; [apply sup_start|by apply report_step]|].
    apply outcome_ok, tick_ok.
  - repeat constructor. by intros i l.
Qed.

(** Three accounts have moved. *)
Lemma final_map : modifiedMap (cm_clpa (com (control final))) = {["00000003" := 0; "00000002" := 0; "00000000" := 1]}%string.
Proof. vm_compute. reflexivity. Qed.
(** A transaction of the moved account "00000000" goes to shard 1. *)
Definition moved_tx : Transaction := zero_Transaction <| tx_Sender := "00000000"%string |> <| tx_Recipient := "00000001"%string |>.
Lemma moved_shard : tx_shard (com (control final)) moved_tx = Ret 1.
Proof. vm_compute. reflexivity. Qed.
End ref.
End RefSupervisor.

Import RefChain RefJson.
Lemma clpa_supervisor_witness :
  let d := RefSupervisor.final in
  modifiedMap (cm_clpa (com (control d))) = {["00000003" := 0; "00000002" := 0; "00000000" := 1]}%string /\
  wf (clpaGraph (cm_clpa (com (control d)))) /\
  exists evs, txSending (CM := clpa_committee RefGraph.P) RefGraph.P [RefSupervisor.moved_tx] (control d) = Ret (tt, control d, evs) /\
    injected 1 evs = [RefSupervisor.moved_tx].
Proof.
  cbv zeta. split; [apply RefSupervisor.final_map|].
  destruct RefSupervisor.a_run as (tr & Hrun & Hf).
  destruct (clpa_supervisor (CM := clpa_committee RefGraph.P) (IC := clpa_module RefGraph.P)
    (RP := clpa_repartitioning RefGraph.P ltac:(by cbn)) RefGraph.P ltac:(by cbn) RefSupervisor.start tr
    RefSupervisor.final [RefSupervisor.moved_tx]) as (Hw & _ & evs & E & _ & Hin & _).
  - vm_compute. reflexivity.
  - exact Hrun.
  - exact Hf.
  - by cbn.
  - repeat constructor; eexists; vm_compute; reflexivity.
  - split; [exact Hw|]. exists evs. split; [exact E|]. etrans; [apply Hin; clear; by cbn|].
    unfold bound_for. rewrite filter_cons, decide_True; [reflexivity|].
    apply RefSupervisor.moved_shard.
Defined.
