(* ===== verification/Tool.v ===== *)
(** * Tool: src/build/tool.go and the flags of src/main.go

    The start scripts as files on disk ([Files] of [Results]); [ok] tells
    whether the file can be opened.  [absolute_path] is what [getABpath] finds
    at start-up.  The flag library (spf13/pflag) and the shell that reads the
    script are the interfaces [PflagLib] and [Shell]; their laws say what their
    manuals do. *)
From stdpp Require Import base gmap strings list pretty.
From Stdlib Require Import ZArith Lia Ascii.
From S2P Require Import Prelude GoStd Messages Results Supervisor.

(** ** static_config.go *)
Definition CommitteeMethod : list string := ["CLPA_Broker"; "CLPA"; "Broker"; "Relay"]%string.

(** [params.CommitteeMethod[mod]] *)
Definition committee_method (md : Z) : res string :=
  if md <? 0 then Panic else must (CommitteeMethod !! Z.to_nat md).

(** ** Text *)
(** [%v] of a bool *)
Definition show_bool (b : bool) : string := if b then "true" else "false".

(** [strings.Replace(s, old, new, -1)] for an [old] that is not empty; [skip]
    counts the characters of an [old] already replaced. *)
Fixpoint replace_go (old new : string) (skip : nat) (s : string) : string :=
  match s with
  | EmptyString => EmptyString
  | String c s' =>
      match skip with
      | S k => replace_go old new k s'
      | O => if String.prefix old s then new +:+ replace_go old new (String.length old - 1) s'
             else String c (replace_go old new 0 s')
      end
  end.
Definition ReplaceAll (old new s : string) : string := replace_go old new 0 s.

(** ** tool.go *)
Open Scope string_scope.

(** The options every line of a script repeats. *)
Definition shell_addons (isUTXO useSyncHotstuff : bool) : string :=
  (if isUTXO then " -u" else "") +:+ (if useSyncHotstuff then " -h" else "").

Definition shell_name (nodenum shardnum : Z) (method addons : string) : string :=
  "bat_shardNum=" +:+ Itoa shardnum +:+ "_NodeNum=" +:+ Itoa nodenum +:+ "_mod=" +:+ method +:+ "_" +:+
  ReplaceAll " -" "" addons +:+ ".sh".

Definition shell_node (i nodenum j shardnum modID : Z) (addons : string) : string :=
  "go run main.go -n " +:+ Itoa i +:+ " -N " +:+ Itoa nodenum +:+ " -s " +:+ Itoa j +:+ " -S " +:+ Itoa shardnum +:+
  " -m " +:+ Itoa modID +:+ addons +:+ " &" +:+ nl +:+ nl.

Definition shell_client (nodenum shardnum modID : Z) (addons : string) : string :=
  "go run main.go -c -N " +:+ Itoa nodenum +:+ " -S " +:+ Itoa shardnum +:+ " -m " +:+ Itoa modID +:+ addons +:+
  "&" +:+ nl +:+ nl.

Definition GenerateShellFile (ok : bool) (nodenum shardnum modID : Z) (isUTXO useSyncHotstuff : bool) (fs : Files) :
    res Files :=
  let addons := shell_addons isUTXO useSyncHotstuff in
  method ← committee_method modID;
  let fileName := shell_name nodenum shardnum method addons in
  fs ← OpenFile ok fileName fs;
  let fs := WriteString fileName ("#!/bin/bash " +:+ nl +:+ nl) fs in
  let fs := foldl (fun fs j =>
    foldl (fun fs i => WriteString fileName (shell_node i nodenum j shardnum modID addons) fs) fs
      (seqZ 1 (nodenum - 1))) fs (seqZ 0 shardnum) in
  let fs := WriteString fileName (shell_client nodenum shardnum modID addons) fs in
  Ret (foldl (fun fs j => WriteString fileName (shell_node 0 nodenum j shardnum modID addons) fs) fs (seqZ 0 shardnum)).

(** *** The scripts [main] does not generate *)
Definition bat_node (i nodenum j shardnum modID : Z) (isUTXO : bool) : string :=
  "start cmd /k go run main.go -n " +:+ Itoa i +:+ " -N " +:+ Itoa nodenum +:+ " -s " +:+ Itoa j +:+ " -S " +:+
  Itoa shardnum +:+ " -m " +:+ Itoa modID +:+ (if isUTXO then " -u" else " ") +:+ nl +:+ nl.

Definition bat_client (nodenum shardnum modID : Z) (isUTXO : bool) : string :=
  "start cmd /k go run main.go -c -N " +:+ Itoa nodenum +:+ " -S " +:+ Itoa shardnum +:+ " -m " +:+ Itoa modID +:+
  (if isUTXO then " -u" else " ") +:+ nl +:+ nl.

Definition GenerateBatFile (ok : bool) (nodenum shardnum modID : Z) (isUTXO : bool) (fs : Files) : res Files :=
  method ← committee_method modID;
  let fileName := "bat_shardNum=" +:+ Itoa shardnum +:+ "_NodeNum=" +:+ Itoa nodenum +:+ "_mod=" +:+ method +:+ "_" +:+
                  show_bool isUTXO +:+ ".bat" in
  fs ← OpenFile ok fileName fs;
  let fs := foldl (fun fs i =>
    foldl (fun fs j => WriteString fileName (bat_node i nodenum j shardnum modID isUTXO) fs) fs
      (seqZ 0 shardnum)) fs (seqZ 1 (nodenum - 1)) in
  let fs := WriteString fileName (bat_client nodenum shardnum modID isUTXO) fs in
  Ret (foldl (fun fs j => WriteString fileName (bat_node 0 nodenum j shardnum modID isUTXO) fs) fs (seqZ 0 shardnum)).

Definition vbs_args (i nodenum j shardnum : Z) : string :=
  Itoa i +:+ " " +:+ Itoa nodenum +:+ " " +:+ Itoa j +:+ " " +:+ Itoa shardnum.
Definition vbs_node (absolute_path : string) (i nodenum j shardnum : Z) : string :=
  "shell.Run " +:+ dquote +:+ "go run " +:+ absolute_path +:+ "/main.go " +:+ vbs_args i nodenum j shardnum +:+
  dquote +:+ ", 0, false " +:+ nl.

Definition GenerateVBSFile (P : Params) (absolute_path : string) (ok okb : bool) (fs : Files) : res Files :=
  let vbs := "batrun_HideWorker.vbs" in
  fs ← OpenFile ok vbs fs;
  let nodenum := NodesInShard P in
  let shardnum := ShardNum P in
  let fs := WriteString vbs ("Dim shell" +:+ nl +:+ "Set shell = CreateObject(" +:+ dquote +:+ "WScript.Shell" +:+
                             dquote +:+ ")" +:+ nl) fs in
  let fs := foldl (fun fs i =>
    foldl (fun fs j => WriteString vbs (vbs_node absolute_path i nodenum j shardnum) fs) fs (seqZ 0 shardnum)) fs
    (seqZ 1 (nodenum - 1)) in
  let fs := foldl (fun fs j => WriteString vbs (vbs_node absolute_path 0 nodenum j shardnum) fs) fs (seqZ 0 shardnum) in
  let bat := "batrun_showSupervisor.bat" in
  fs ← OpenFile okb bat fs;
  let fs := WriteString bat ("start " +:+ absolute_path +:+ "/batrun_HideWorker.vbs " +:+ nl) fs in
  Ret (WriteString bat ("start cmd /k " +:+ dquote +:+ "cd " +:+ absolute_path +:+ " && go run main.go 12345678 " +:+
         Itoa nodenum +:+ " 0 " +:+ Itoa shardnum +:+ " " +:+ dquote +:+ " " +:+ nl) fs).
Close Scope string_scope.

(** ** main.go: the flags *)
Inductive FlagVal := VInt (v : Z) | VBool (b : bool).

(** [pflag.IntVarP(_, name, shorthand, default, _)] and [pflag.BoolVarP]. *)
Record FlagDef := mkFlagDef { fd_name : string; fd_short : ascii; fd_default : FlagVal }.

Definition main_flags : list FlagDef := [
  mkFlagDef "shardNum" "S" (VInt 2); mkFlagDef "nodeNum" "N" (VInt 4); mkFlagDef "shardID" "s" (VInt 0);
  mkFlagDef "nodeID" "n" (VInt 0); mkFlagDef "modID" "m" (VInt 3); mkFlagDef "client" "c" (VBool false);
  mkFlagDef "gen" "g" (VBool false); mkFlagDef "utxo" "u" (VBool false); mkFlagDef "synchotstuff" "h" (VBool false)].

(** The variables of [main]. *)
Record Flags := mkFlags {
  shardNum : Z; nodeNum : Z; shardID : Z; nodeID : Z; modID : Z;
  isClient : bool; isGen : bool; useUTXO : bool; useSyncHotstuff : bool }.

Definition int_var (name : string) (v : gmap string FlagVal) : Z :=
  match v !! name with Some (VInt z) => z | _ => 0 end.
Definition bool_var (name : string) (v : gmap string FlagVal) : bool :=
  match v !! name with Some (VBool b) => b | _ => false end.
Definition flag_vars (v : gmap string FlagVal) : Flags :=
  mkFlags (int_var "shardNum" v) (int_var "nodeNum" v) (int_var "shardID" v) (int_var "nodeID" v)
    (int_var "modID" v) (bool_var "client" v) (bool_var "gen" v) (bool_var "utxo" v) (bool_var "synchotstuff" v).

(** [pflag.Parse]: the values of the flags after the arguments, or the process
    exits. *)
Class PflagLib := pflag_Parse : list FlagDef -> list string -> option (gmap string FlagVal).

(** An argument in its short form: [-n 5], or [-u] for a bool. *)
Record Arg := mkArg { arg_def : FlagDef; arg_val : FlagVal }.
Definition arg_words (a : Arg) : list string :=
  String "-" (String (fd_short (arg_def a)) EmptyString) ::
  match arg_val a with VInt v => [Itoa v] | VBool _ => [] end.
Definition arg_ok (defs : list FlagDef) (a : Arg) : Prop :=
  arg_def a ∈ defs /\
  match fd_default (arg_def a), arg_val a with
  | VInt _, VInt v => 0 <= v < 2 ^ 63
  | VBool _, VBool b => b = true
  | _, _ => False
  end.
Definition flag_defaults (defs : list FlagDef) : gmap string FlagVal :=
  list_to_map ((fun d => (fd_name d, fd_default d)) <$> defs).
Definition set_arg (v : gmap string FlagVal) (a : Arg) : gmap string FlagVal := <[fd_name (arg_def a) := arg_val a]> v.

Definition positional (w : string) : Prop := match w with String "-" _ => False | _ => True end.

(** Flags are set in the order of the arguments; other words are left alone. *)
Class PflagLaws (PF : PflagLib) : Prop :=
  pflag_Parse_args : forall defs args rest,
    NoDup (fd_short <$> defs) -> Forall (arg_ok defs) args -> Forall positional rest ->
    pflag_Parse defs ((args ≫= arg_words) ++ rest) = Some (foldl set_arg (flag_defaults defs) args).

(** ** The shell *)

(** The commands a script starts, as their words. *)
Class Shell := sh_commands : string -> list (list string).

(** A word without a character the shell gives a meaning to. *)
Definition plain_char (c : ascii) : bool :=
  let n := byte_val c in
  ((48 <=? n) && (n <=? 57)) || ((65 <=? n) && (n <=? 90)) || ((97 <=? n) && (n <=? 122)) || (n =? 45) || (n =? 46).
Definition plain (w : string) : Prop := w <> EmptyString /\ ball plain_char w = true.

(** A command in the background, with or without a space before the ampersand. *)
Record Line := mkLine { ln_words : list string; ln_gap : bool }.
Definition line_text (l : Line) : string :=
  String.concat " " (ln_words l) +:+ (if ln_gap l then " " else "") +:+ "&" +:+ nl +:+ nl.

Class ShellLaws (SH : Shell) : Prop :=
  sh_script : forall ls, Forall (fun l => ln_words l <> [] /\ Forall plain (ln_words l)) ls ->
    sh_commands ("#!/bin/bash " +:+ nl +:+ nl +:+ cat (line_text <$> ls)) = ln_words <$> ls.
