(* ===== verification/Build.v ===== *)
(** * Build: src/build/build.go, src/main.go and the choice of modules

    Which process a command line starts, from which parameters.  The disk
    ([db], [file], the csv [rows], the lines [brokers] of ./broker/broker) is
    an argument; [ips] is [params.IPmap_nodeTable], a package-level variable. *)
From stdpp Require Import base gmap strings list.
From Stdlib Require Import ZArith Lia.
From S2P Require Import Prelude GoStd Libs Core Pools Messages StorageDB Chain Pbft RelayMod Partition ClpaMod BrokerMod UtxoMod Hotstuff Committee Measure Results Supervisor Tool.

(** ** static_config.go *)
Definition MeasureBrokerMod : list string :=
  ["TPS_Broker"; "TCL_Broker"; "CrossTxRate_Broker"; "TxNumberCount_Broker"]%string.
Definition MeasureRelayMod : list string :=
  ["TPS_Relay"; "TCL_Relay"; "CrossTxRate_Relay"; "TxNumberCount_Relay"]%string.

Section build.
Context {TL : TrieLib} {BL : BoltLib} {HL : Sha256} {CC : CoreCodecs} {MC : MsgCodecs} {PF : PflagLib}.

(** ** pbft.go, NewPbftNode: the modules that handle a node's messages *)
Inductive PbftModules :=
  | CLPABrokerModules
  | CLPAModules
  | BrokerModules
  | UTXORelayModules
  | RelayModules.

Definition choose_modules (P : Params) (messageHandleType : string) : PbftModules :=
  if bool_decide (messageHandleType = "CLPA_Broker") then CLPABrokerModules
  else if bool_decide (messageHandleType = "CLPA") then CLPAModules
  else if bool_decide (messageHandleType = "Broker") then BrokerModules
  else if UTXO P then UTXORelayModules
  else RelayModules.

(** A node with its modules, by the type of the data they share; a
    SyncHotstuff node has modules only in UTXO mode, and nil ones otherwise. *)
Inductive Worker :=
  | PbftWorker (ms : PbftModules) (p : PbftConsensusNode ())
  | PbftCLPAWorker (ms : PbftModules) (p : PbftConsensusNode CLPAData)
  | SyncWorker (has_modules : bool) (n : SyncHotstuffConsensusNode).

Definition NewPbftWorker (P : Params) (shardID nodeID : Z) (pcc : ChainConfig) (ips : gmap Z (gmap Z string))
    (messageHandleType : string) (db : EthDB) (file : BoltDB) : res Worker :=
  let ms := choose_modules P messageHandleType in
  match ms with
  | CLPABrokerModules | CLPAModules =>
      p ← NewPbftNode P shardID nodeID pcc ips db file (mkCLPAData NewCLPADataSupport AtStart);
      Ret (PbftCLPAWorker ms p)
  | _ => p ← NewPbftNode P shardID nodeID pcc ips db file tt; Ret (PbftWorker ms p)
  end.

(** The goroutines [BuildNewNode] starts beside [TcpListen]. *)
Record Node_goroutines := mkGoroutines { runs_TxTransform : bool; runs_Propose : bool }.

Definition BuildNewNode (P : Params) (ips : gmap Z (gmap Z string)) (db : EthDB) (file : BoltDB)
    (nid nnm sid snm md : Z) : res (Worker * Node_goroutines) :=
  let '(P, ips, pcc) := initConfig P ips nid nnm sid snm in
  method ← committee_method md;
  worker ← (if UseSyncHotstuff P then
              n ← NewSyncHotstuffNode P sid nid pcc ips db file; Ret (SyncWorker (UTXO P) n)
            else NewPbftWorker P sid nid pcc ips method db file);
  Ret (worker, mkGoroutines ((nid =? 0) && UTXO P) (nid =? 0)).

(** ** BuildSupervisor *)
Inductive AnySupervisor :=
  | ClpaBrokerSupervisor (d : Supervisor CLPACommitteeMod_Broker)
  | ClpaSupervisor (d : Supervisor CLPACommitteeModule)
  | BrokerSupervisor (d : Supervisor BrokerCommitteeMod)
  | RelaySupervisor (d : Supervisor RelayCommitteeModule).

Definition BuildSupervisor (P : Params) (ips : gmap Z (gmap Z string)) (brokers : list string) (rows : list Row)
    (nnm snm md : Z) : res AnySupervisor :=
  let measureMod := if (md =? 0) || (md =? 2) then MeasureBrokerMod else MeasureRelayMod in
  let '(P, ips, pcc) := initConfig P ips 123 nnm 123 snm in
  method ← committee_method md;
  Ret (match NewCommittee P brokers ips method with
       | ClpaBrokerCommittee c => ClpaBrokerSupervisor (NewSupervisor (SupervisorAddr P) pcc ips c measureMod rows)
       | ClpaCommittee c => ClpaSupervisor (NewSupervisor (SupervisorAddr P) pcc ips c measureMod rows)
       | BrokerCommittee c => BrokerSupervisor (NewSupervisor (SupervisorAddr P) pcc ips c measureMod rows)
       | RelayCommittee c => RelaySupervisor (NewSupervisor (SupervisorAddr P) pcc ips c measureMod rows)
       end).

(** ** main.go *)
(** The two flags that set a parameter only ever turn it on. *)
Definition set_params (fl : Flags) (P : Params) : Params :=
  {| MaxLatency := MaxLatency P; UTXO := useUTXO fl || UTXO P;
     UseSyncHotstuff := useSyncHotstuff fl || UseSyncHotstuff P;
     TxInputCount := TxInputCount P; Block_Interval := Block_Interval P;
     MaxBlockSize_global := MaxBlockSize_global P; InjectSpeed := InjectSpeed P;
     TotalDataSize := TotalDataSize P; BatchSize := BatchSize P; BrokerNum := BrokerNum P;
     NodesInShard := NodesInShard P; ShardNum := ShardNum P; SupervisorAddr := SupervisorAddr P |}.

(** What the process is; [pflag] exits on arguments it does not understand. *)
Inductive Process :=
  | Exits
  | GeneratesScript (fs : Files)
  | RunsSupervisor (d : AnySupervisor)
  | RunsNode (w : Worker) (gs : Node_goroutines).

(** [args] is [os.Args[1:]], [fs] the files of the working directory. *)
Definition main (args : list string) (P : Params) (ips : gmap Z (gmap Z string)) (brokers : list string)
    (rows : list Row) (db : EthDB) (file : BoltDB) (ok : bool) (fs : Files) : res Process :=
  match pflag_Parse main_flags args with
  | None => Ret Exits
  | Some v =>
      let fl := flag_vars v in
      let P := set_params fl P in
      if isGen fl then
        fs ← GenerateShellFile ok (nodeNum fl) (shardNum fl) (modID fl) (useUTXO fl) (useSyncHotstuff fl) fs;
        Ret (GeneratesScript fs)
      else if isClient fl then
        d ← BuildSupervisor P ips brokers rows (u64 (nodeNum fl)) (u64 (shardNum fl)) (u64 (modID fl));
        Ret (RunsSupervisor d)
      else
        '(w, gs) ← BuildNewNode P ips db file (u64 (nodeID fl)) (u64 (nodeNum fl)) (u64 (shardID fl))
                     (u64 (shardNum fl)) (u64 (modID fl));
        Ret (RunsNode w gs)
  end.
End build.
