(* ===== verification/BuildProps.v ===== *)
(** * BuildProps: the processes that are built, and a supervisor at work

    The supervisor built for the relay method measures any reports of the
    leaders, notices when the shards have run dry, and leaves its csv files. *)
From stdpp Require Import base gmap strings list pretty.
From Stdlib Require Import ZArith Lia SpecFloat.
From S2P Require Import Prelude GoStd Libs Core Pools Messages StorageDB Chain Ledger Execution Pbft PbftProps RelayMod RelayProps Quorum Shard Partition ClpaMod Hotstuff Committee Measure MeasureProps Results Supervisor SupervisorProps Tool Build.

(** ** Reports *)

(** Empty reports since the last block. *)
Definition trailing (bs : list BlockInfoMsg) : Z :=
  foldl (fun n b => if empty_block b then n + 1 else 0) 0 bs.

Lemma trailing_bound bs : forall n, 0 <= n ->
  0 <= foldl (fun n b => if empty_block b then n + 1 else 0) n bs <= n + Z.of_nat (length bs).
Proof.
  induction bs as [|b bs IH]; intros n Hn; cbn [foldl length]; [lia|].
  destruct (empty_block b); [specialize (IH (n + 1))|specialize (IH 0)]; lia.
Qed.

(** A supervisor whose committee does nothing about a report. *)
Section reports.
Context {HL : Sha256} {CC : CoreCodecs} {MC : MsgCodecs} {ML : MsgCodecsLaws}.
Context {C : Type} {IC : CommitteeModule C}.
Context (Hquiet : forall b, AdjustByBlockInfos (C := C) b = mret tt).
Implicit Types (d : Supervisor C) (b : BlockInfoMsg).

(** The modules after a report. *)
Lemma measure_report b ms :
  Forall measure_ok ms -> report_ok b ->
  exists ms', foldM (fun acc m => m ← UpdateMeasureRecord b m; Ret (acc ++ [m])) [] ms = Ret ms' /\
    Forall2 (fun m m' => UpdateMeasureRecord b m = Ret m') ms ms'.
Proof.
  intros Hms Hb. assert (H : forall acc, exists ms',
    foldM (fun acc m => m ← UpdateMeasureRecord b m; Ret (acc ++ [m])) acc ms = Ret (acc ++ ms') /\
    Forall2 (fun m m' => UpdateMeasureRecord b m = Ret m') ms ms'); [|by apply (H [])].
  induction Hms as [|m ms Hm _ IH]; intros acc; cbn [foldM]; [exists []; split; [by rewrite app_nil_r|constructor]|].
  destruct (report_one b m Hm Hb) as (m' & E & _). rewrite E. cbn [mbind res_bind].
  destruct (IH (acc ++ [m'])) as (ms' & -> & H2). exists (m' :: ms'). split; [by rewrite <- app_assoc|by constructor].
Qed.

Lemma relay_report_step b msg d :
  MergeMessage CBlockInfo (json_enc b) = Ret msg -> Forall measure_ok (testMeasureMods d) -> report_ok b ->
  exists d', sup_step (SupReceive (frame msg)) d = Ret (tt, d', []) /\
    Ss (control d') = (if empty_block b then StopGap_Inc else StopGap_Reset) (Ss (control d)) /\
    Forall2 (fun m m' => UpdateMeasureRecord b m = Ret m') (testMeasureMods d) (testMeasureMods d').
Proof.
  intros Hm Hms Hb. cbn [sup_step]. unfold sup_handleMessage.
  rewrite (SplitMessage_MergeMessage CBlockInfo (frame (json_enc b)) (frame msg))
    by (by apply type_ok_dec || by apply MergeMessage_frame).
  rewrite (lift_bind _ _ _ _ eq_refl). change (bool_decide (CBlockInfo = CBlockInfo)) with true. cbv iota.
  unfold handleBlockInfos. rewrite json_dec_frame, (lift_bind _ _ _ b eq_refl).
  destruct (measure_report b (testMeasureMods d) Hms Hb) as (ms & E & H2).
  set (ss := (if empty_block b then StopGap_Inc else StopGap_Reset) (Ss (control d))).
  exists (d <| control := control d <| Ss := ss |> |> <| testMeasureMods := ms |>). split; [|done].
  rewrite (quiet_bind _ _ _ tt (d <| control := control d <| Ss := ss |> |>)).
  2: { unfold in_control, modify_Ss, modify, ss, empty_block. by destruct (_ =? 0). }
  rewrite Hquiet. rewrite (quiet_bind _ _ _ tt (d <| control := control d <| Ss := ss |> |>)) by by destruct d.
  rewrite get_bind. cbn [testMeasureMods set_field]. cbn. rewrite (lift_bind _ _ _ ms E). done.
Qed.

(** Any reports, in their order. *)
Lemma reports_run bs msgs d :
  Forall2 (fun b msg => MergeMessage CBlockInfo (json_enc b) = Ret msg) bs msgs -> Forall report_ok bs ->
  Forall measure_ok (testMeasureMods d) ->
  0 <= stopGap (Ss (control d)) -> stopGap (Ss (control d)) + Z.of_nat (length bs) < 2 ^ 63 ->
  exists d', forM msgs (fun msg => sup_step (SupReceive (frame msg))) d = Ret (tt, d', []) /\
    Ss (control d') = Ss (control d) <| stopGap := foldl (fun n b => if empty_block b then n + 1 else 0)
                                                     (stopGap (Ss (control d))) bs |> /\
    Forall2 (fun m m' => foldM (fun m b => UpdateMeasureRecord b m) m bs = Ret m')
      (testMeasureMods d) (testMeasureMods d').
Proof.
  intros H Hbs. revert d. induction H as [|b msg bs msgs Hm _ IH]; intros d Hms Hn Hlen.
  - exists d. split_and!; [done|by destruct (control d) as [[] ?]|]. by apply Forall_Forall2_diag, Forall_true.
  - apply list.Forall_cons in Hbs as [Hb Hbs]. destruct (relay_report_step b msg d Hm Hms Hb) as (d1 & E1 & Hs1 & Hm1).
    cbn [length] in Hlen.
    assert (Hgap : stopGap (Ss (control d1)) = if empty_block b then stopGap (Ss (control d)) + 1 else 0).
    { rewrite Hs1. destruct (empty_block b); [|done]. cbn. apply i64_small. lia. }
    destruct (IH Hbs d1) as (d2 & E2 & Hs2 & Hm2).
    + eapply Forall2_Forall_r; [exact Hm1|]. eapply list.Forall_impl; [exact Hms|]. intros m Hok m' E.
      destruct (report_one b m Hok Hb) as (m1 & E' & H1). rewrite E in E'. by injection E' as ->.
    + rewrite Hgap. destruct (empty_block b); lia.
    + rewrite Hgap. destruct (empty_block b); lia.
    + exists d2. split_and!.
      * cbn [forM]. by rewrite (quiet_bind _ _ _ _ _ E1).
      * rewrite Hs2, Hgap, Hs1. cbn [foldl]. by destruct (empty_block b).
      * eapply Forall2_trans; [|exact Hm1|exact Hm2]. intros m m1 m2 Ea Eb. cbn [foldM]. by rewrite Ea.
Qed.
End reports.

(** ** The relay supervisor *)

(** Its modules output four metrics. *)
Lemma relay_metrics ms : measure_name <$> ms = MeasureRelayMod -> NoDup (OutputMetricName <$> ms).
Proof.
  intros H. destruct ms as [|m1 [|m2 [|m3 [|m4 [|]]]]]; try discriminate H. injection H as H1 H2 H3 H4.
  destruct m1; try discriminate H1; destruct m2; try discriminate H2; destruct m3; try discriminate H3;
    destruct m4; try discriminate H4; refine (bool_decide_unpack _ _); vm_compute; exact I.
Qed.

Section relay.
Context {HL : Sha256} {CC : CoreCodecs} {MC : MsgCodecs} {ML : MsgCodecsLaws}.

(** C23: the supervisor built for the relay method measures whatever the
    leaders report, and knows when to stop.  [BuildSupervisor] of method 3
    returns; then the supervisor takes any block reports, framed as they arrive,
    without failing and without sending anything; its four measure modules stay
    those of the method, well-formed and up to the latest epoch, and those of
    the TPS cover every block; the stop condition holds exactly when the last
    [2 * snm] reports or more were empty; and closing it adds each metric's
    total, in decimal, as a row to that metric's own file, under the title if
    the file is new, and touches no other file. *)
Theorem relay_supervisor_reports P ips brokers rows nnm snm bs msgs :
  let P' := (initConfig P ips 123 nnm 123 snm).1.1 in
  0 < snm < 2 ^ 61 -> Z.of_nat (length bs) < 2 ^ 63 ->
  Forall2 (fun b msg => MergeMessage CBlockInfo (json_enc b) = Ret msg) bs msgs -> Forall report_ok bs ->
  exists d d', BuildSupervisor P ips brokers rows nnm snm 3 = Ret (RelaySupervisor d) /\
    forM msgs (fun msg => sup_step (IC := relay_module P') (SupReceive (frame msg))) d = Ret (tt, d', []) /\
    measure_name <$> testMeasureMods d' = MeasureRelayMod /\
    Forall (fun m => measure_ok m /\ measure_epoch m = last_epoch bs /\
      forall b, b ∈ bs -> empty_block b = false -> covered m b) (testMeasureMods d') /\
    (GapEnough (Ss (control d')) = true <-> 2 * snm <= trailing bs) /\
    forall now fs, exists fs', CloseSupervisor true now d' fs = Ret fs' /\
      (forall m, m ∈ testMeasureMods d' ->
        fs' !! metric_csv (OutputMetricName m) = Some (metric_rows now m (fs !! metric_csv (OutputMetricName m)))) /\
      forall f, (forall m, m ∈ testMeasureMods d' -> f <> metric_csv (OutputMetricName m)) -> fs' !! f = fs !! f.
Proof.
  intros P' Hs Hlen Hmsgs Hbs. unfold BuildSupervisor. subst P'.
  destruct (initConfig P ips 123 nnm 123 snm) as [[P' ips'] pcc] eqn:EC. cbn [fst].
  assert (Hsn : ShardNums pcc = snm) by (unfold initConfig in EC; by injection EC as _ _ <-).
  set (d := NewSupervisor (SupervisorAddr P') pcc ips'
    (NewRelayCommitteeModule ips' (TotalDataSize P') (BatchSize P')) MeasureRelayMod rows). exists d.
  destruct (reports_run (IC := relay_module P') (fun b => eq_refl) bs msgs d Hmsgs Hbs) as (d' & E & Hss & Hm).
  - unfold d. repeat constructor; done.
  - done.
  - cbn. lia.
  - exists d'. split; [reflexivity|]. split; [exact E|].
    assert (Hall : Forall2 (fun name m => measure_name m = name /\ measure_ok m /\ measure_epoch m = last_epoch bs /\
      forall b, b ∈ bs -> empty_block b = false -> covered m b) MeasureRelayMod (testMeasureMods d')).
    { assert (Hnew : Forall2 (fun name m => measure_name m = name /\ measure_ok m /\ measure_epoch m = -1)
        MeasureRelayMod (testMeasureMods d)) by (unfold d; repeat constructor; done).
      eapply Forall2_trans; [|exact Hnew|exact Hm]. intros name m m' (Hn & Hok & Hep) Hrun.
      destruct (updates_ok bs m Hok Hbs) as (m1 & E1 & H1 & H2 & H3 & H4). rewrite Hrun in E1. injection E1 as <-.
      rewrite Hep in H3. split_and!; [congruence|done|done|]. intros b Hb Hne. apply H4. by left. }
    assert (Hnames : measure_name <$> testMeasureMods d' = MeasureRelayMod).
    { clear -Hall. induction Hall as [|name m names ms [Hn _] _ IH]; [done|]. cbn. by rewrite Hn, IH. }
    split_and!.
    + exact Hnames.
    + eapply Forall2_Forall_r; [exact Hall|]. apply Forall_true. intros name m (_ & H). exact H.
    + unfold GapEnough. rewrite Hss, Z.leb_le. cbn. rewrite Hsn, (i64_small snm), i64_small by lia. reflexivity.
    + intros now fs. by apply CloseSupervisor_files, relay_metrics.
Qed.
End relay.

(** ** The nodes of a shard *)
Section nodes.
Context {TL : TrieLib} {BL : BoltLib} {HL : Sha256} {CC : CoreCodecs} {MC : MsgCodecs}.
Context {TW : TrieLaws TL} {CL : CoreCodecsLaws} {BW : BoltLaws BL} {LB : BoltLive BL}.

(** Nothing is on the node's disk, and bolt takes the genesis block. *)
Definition fresh (P : Params) (cc : ChainConfig) (db : EthDB) (file : BoltDB) : Prop :=
  exists s, NewStorage cc file = Ret s /\
    bolt_Get (DataBase s) (newestBlockHashBucket s) OnlyNewestBlock = Some None /\ storable (genesis P db cc s).

(** A fresh relay node. *)
Lemma NewPbftNode_fresh {X} P shardID nodeID cc ips db file (x : X) :
  UTXO P = false -> fresh P cc db file ->
  exists s s' p, NewPbftNode P shardID nodeID cc ips db file x = Ret p /\ storage_ok s' /\
    CurChain p = mkBlockChain db (Some (triedb_open db)) cc (genesis P db cc s) s' NewTxPool NewUTXOTxPool ∅ "" /\
    p_NodeID p = nodeID /\ p_ShardID p = shardID /\ view p = 0 /\ sequenceID p = 1 /\ ip_nodeTable p = ips /\
    sequenceLock p = false /\ propose_pc p = (if nodeID =? 0 then AtSelect else Returned) /\ stop p = false /\
    malicious_nums p = u64 (Nodes_perShard cc - 1) / 3 /\
    RunningNode p = mkNode nodeID shardID (default "" (ips !! shardID ≫= (.!! nodeID))) /\
    cntPrepareConfirm p = ∅ /\ cntCommitConfirm p = ∅ /\ isCommitBordcast p = ∅ /\ isReply p = ∅.
Proof.
  intros HU (s & Hs & Hn & Hst). destruct (NewBlockChain_fresh P cc db file s HU Hs Hn Hst) as (s' & Ha & E).
  unfold NewPbftNode. rewrite E. exists s, s'. eexists. split; [reflexivity|].
  split; [apply (Storage_AddBlock_chain _ s s' (NewStorage_ok _ _ _ Hs) Ha)|]. cbn.
  split_and!; try done. unfold genesis, NewGenisisBlock. by rewrite HU.
Qed.

(** A shard starts in sync: [BuildNewNode] of the relay method, for
    node 0 and for any other node [k] of one shard on empty disks, returns two
    PBFT nodes with the relay modules that are replicas of each other, at the
    genesis block and sequence number 1, with the same neighbours, where every
    account has the initial balance; node 0 proposes and the other does not. *)
Lemma BuildNewNode_in_sync P ips nnm snm sid k db0 file0 dbk filek :
  let '(P', _, cc0) := initConfig P ips 0 nnm sid snm in
  let cck := (initConfig P ips k nnm sid snm).2 in
  UTXO P = false -> UseSyncHotstuff P = false -> 0 < k -> fresh P' cc0 db0 file0 -> fresh P' cck dbk filek ->
  exists L F,
    BuildNewNode P ips db0 file0 0 nnm sid snm 3 = Ret (PbftWorker RelayModules L, mkGoroutines false true) /\
    BuildNewNode P ips dbk filek k nnm sid snm 3 = Ret (PbftWorker RelayModules F, mkGoroutines false false) /\
    in_sync L F /\ sequenceID L = 1 /\ getNeighborNodes L = getNeighborNodes F /\
    state_is (CurChain L) (state_root (CurChain L)) (fun _ => Init_Balance) /\
    propose_pc L = AtSelect /\ sequenceLock L = false /\ propose_pc F = Returned.
Proof.
  destruct (initConfig P ips 0 nnm sid snm) as [[P' ips'] cc0] eqn:E0.
  destruct (initConfig P ips k nnm sid snm) as [[Pk ipsk] cck] eqn:Ek. cbn [snd].
  intros HU HH Hk H0 Hf.
  assert (HPk : Pk = P' /\ ipsk = ips' /\ UTXO P' = false /\ UseSyncHotstuff P' = false /\
    NodeID cc0 = 0 /\ NodeID cck = k /\ ShardID cc0 = sid /\ ShardID cck = sid).
  { unfold initConfig in E0, Ek. injection E0 as <- <- <-. injection Ek as <- <- <-. done. }
  destruct HPk as (-> & -> & HU' & HH' & Hn0 & Hnk & Hs0 & Hsk).
  destruct (NewPbftNode_fresh P' sid 0 cc0 ips' db0 file0 tt HU' H0)
    as (s1 & s1' & L & EL & HsL & HcL & L1 & L2 & L3 & L4 & L5 & L6 & L7 & _).
  destruct (NewPbftNode_fresh P' sid k cck ips' dbk filek tt HU' Hf)
    as (s2 & s2' & F & EF & HsF & HcF & F1 & F2 & F3 & F4 & F5 & F6 & F7 & _).
  assert (Hk0 : (k =? 0) = false) by (apply Z.eqb_neq; lia). rewrite Hk0 in F7.
  exists L, F. unfold BuildNewNode. rewrite E0, Ek. change (committee_method 3) with (Ret "Relay"%string : res string).
  cbn [mbind res_bind]. rewrite HH', HU', Hk0. unfold NewPbftWorker, choose_modules. rewrite HU'.
  change (bool_decide ("Relay"%string = _)) with false. cbv iota. rewrite EL, EF. cbn [mbind res_bind andb].
  destruct (genesis_state P' db0 cc0 s1 s1' HU') as (t1 & Ht1 & Hc1 & Hst).
  destruct (genesis_state P' dbk cck s2 s2' HU') as (t2 & Ht2 & Hc2 & _).
  rewrite <- HcL in Hst, Ht1. rewrite <- HcF in Ht2.
  split; [reflexivity|]. split; [reflexivity|]. split; [|split_and!; try done].
  - split; [|by rewrite L4, F4|rewrite HcL; split; [by rewrite L1, L3|done]|rewrite HcF; cbn; rewrite F1, F3, Hnk; split; lia|by rewrite HcL, HcF].
    split; [rewrite HcL, HcF; cbn; by rewrite (genesis_same P' db0 cc0 s1 dbk cck s2 HU')|by rewrite HcL, HcF
      |rewrite HcL, HcF; cbn; congruence|].
    exists (triedb_open db0), (triedb_open dbk), t1, t2. split_and!; [by rewrite HcL|by rewrite HcF|done|done|].
    intros key. by rewrite (Hc1 key), (Hc2 key), !get_empty.
  - unfold getNeighborNodes. by rewrite L5, F5, L2, F2.
Qed.

(** One node as [BuildNewNode] makes it. *)
Lemma BuildNewNode_fresh P ips nnm snm sid k db file :
  let '(P', ips', cck) := initConfig P ips k nnm sid snm in
  UTXO P = false -> UseSyncHotstuff P = false -> fresh P' cck db file ->
  exists p, BuildNewNode P ips db file k nnm sid snm 3 = Ret (PbftWorker RelayModules p, mkGoroutines false (k =? 0)) /\
    p_NodeID p = k /\ p_ShardID p = sid /\ view p = 0 /\ stop p = false /\ ip_nodeTable p = ips' /\
    malicious_nums p = u64 (u64 (i64 nnm) - 1) / 3 /\
    RunningNode p = mkNode k sid (default "" (ips' !! sid ≫= (.!! k))) /\
    cntPrepareConfirm p = ∅ /\ cntCommitConfirm p = ∅ /\ isCommitBordcast p = ∅ /\ isReply p = ∅ /\
    bc_PartitionMap (CurChain p) = ∅ /\ TxQueue (bc_Txpool (CurChain p)) = [] /\ sequenceID p = 1.
Proof.
  destruct (initConfig P ips k nnm sid snm) as [[P' ips'] cck] eqn:Ek. intros HU HH Hf.
  assert (HP : UTXO P' = false /\ UseSyncHotstuff P' = false /\ Nodes_perShard cck = u64 (i64 nnm))
    by (unfold initConfig in Ek; injection Ek as <- <- <-; done).
  destruct HP as (HU' & HH' & Hper).
  destruct (NewPbftNode_fresh P' sid k cck ips' db file tt HU' Hf)
    as (s & s' & p & E & _ & Hc & F1 & F2 & F3 & F4 & F5 & F6 & F7 & F8 & F9 & F10 & F11 & F12 & F13 & F14).
  exists p. unfold BuildNewNode. rewrite Ek. change (committee_method 3) with (Ret "Relay"%string : res string).
  cbn [mbind res_bind]. rewrite HH', HU', andb_false_r. unfold NewPbftWorker, choose_modules. rewrite HU'.
  change (bool_decide ("Relay"%string = _)) with false. cbv iota. rewrite E. cbn [mbind res_bind].
  rewrite <- Hper. rewrite Hc. by split_and!.
Qed.

(** The shard's addresses. *)
Lemma add_nodes_rows nnm i : (map_to_list (add_nodes nnm i ∅)).*2 ≡ₚ node_addr i <$> seqZ 0 nnm.
Proof.
  assert (E : add_nodes nnm i ∅ = list_to_map ((fun j => (j, node_addr i j)) <$> seqZ 0 nnm)).
  { apply map_eq. intros k. unfold add_nodes. rewrite (foldl_update_lookup (fun j _ => node_addr i j)). symmetry.
    destruct (decide (0 <= k < nnm)) as [Hk|Hk].
    - apply elem_of_list_to_map_1; [rewrite <- list_fmap_compose; cbn; rewrite list_fmap_id; apply NoDup_seqZ|].
      apply list_elem_of_fmap. exists k. split; [done|]. by apply elem_of_seqZ.
    - rewrite lookup_empty. apply not_elem_of_list_to_map_1. rewrite <- list_fmap_compose. cbn. rewrite list_fmap_id.
      by rewrite elem_of_seqZ. }
  rewrite E, map_to_list_to_map by (rewrite <- list_fmap_compose; cbn; rewrite list_fmap_id; apply NoDup_seqZ).
  by rewrite <- list_fmap_compose.
Qed.

(** The leader takes the supervisor's transactions. *)
Definition with_injected (now : Z) (txs : list Transaction) (L : PbftConsensusNode ()) : PbftConsensusNode () :=
  L <| CurChain ::= fun bc => bc <| bc_Txpool ::= TxPool_AddTxs2Pool now txs |> |>.

Lemma inject_step {ML : MsgCodecsLaws} P now it msg (L : PbftConsensusNode ()) :
  MergeMessage CInject (json_enc it) = Ret msg -> stop L = false ->
  step (IM := RawRelayPbftExtraHandleMod P) (OM := RawRelayOutsideModule) (Receive now (frame msg)) L =
    Ret (tt, with_injected now (it_Txs it) L, []).
Proof.
  intros Hm Hs. cbn [step]. rewrite get_bind, Hs. unfold handleMessage.
  rewrite (SplitMessage_MergeMessage CInject (frame (json_enc it)) (frame msg))
    by (by apply type_ok_dec || by apply MergeMessage_frame).
  rewrite (lift_bind _ _ _ _ eq_refl). cbn beta iota. repeat (rewrite bool_decide_eq_false_2 by done).
  cbn [HandleMessageOutsidePBFT RawRelayOutsideModule]. unfold Relay_HandleMessageOutsidePBFT.
  rewrite bool_decide_eq_false_2, bool_decide_eq_true_2 by done. unfold handleInjectTx.
  rewrite bind_bind, json_dec_frame, bind_bind, (lift_bind _ _ _ it eq_refl), modify_bind, ret_bind. reflexivity.
Qed.

Lemma stamped_ok P bc bc' now txs : bc_PartitionMap bc = bc_PartitionMap bc' ->
  Forall (addr_ok P bc) txs -> Forall (addr_ok P bc') (stamp now <$> txs).
Proof.
  intros Hm H. apply list.Forall_fmap. eapply list.Forall_impl; [exact H|]. intros tx Htx. cbn.
  apply (addr_ok_ext P bc); [done|]. unfold stamp. by destruct (IsZero _).
Qed.

(** A leader of a new shard that has taken transactions and is past its
    [select] can start a round. *)
Lemma built_ready P addrs (L : PbftConsensusNode ()) (Fs : list (PbftConsensusNode ())) now0 txs :
  let L2 := with_injected now0 txs L <| propose_pc := AtLock |> in
  UTXO P = false -> NoDup addrs -> length (L :: Fs) = length addrs -> Z.of_nat (length addrs) < 2 ^ 62 -> sequenceID L = 1 ->
  (forall d i p, (L :: Fs) !! i = Some p -> p_NodeID p = Z.of_nat i /\ view p = 0 /\ stop p = false /\
     malicious_nums p = Z.of_nat ((length addrs - 1) / 3) /\ nd_IPaddr (RunningNode p) = ip addrs i /\
     getNeighborNodes p ≡ₚ addrs /\ sequenceID p = 1 /\ cntPrepareConfirm p !! d = None /\ cntCommitConfirm p !! d = None /\
     flag_of (isCommitBordcast p) d = false /\ flag_of (isReply p) d = false) ->
  Forall (in_sync L) Fs -> state_is (CurChain L) (state_root (CurChain L)) (fun _ => Init_Balance) ->
  TxQueue (bc_Txpool (CurChain L)) = [] -> Forall (addr_ok P (CurChain L)) txs -> sequenceLock L = false ->
  forall now b bc1, GenerateBlock P now (CurChain L2) = Ret (b, bc1) -> storable b ->
    round_start P now L2 Fs addrs b bc1 (fun _ => Init_Balance).
Proof.
  intros L2 HU Hdup Hlen Hsmall Hseq Hnodes HFs Hst Hq Htxs Hlock now b bc1 Hgen Hb.
  split; try done.
  - change (sequenceID L2) with (sequenceID L). rewrite Hseq. lia.
  - intros i p Hp. change (sequenceID L2) with (sequenceID L). rewrite Hseq.
    destruct i as [|i].
    + injection Hp as <-.
      destruct (Hnodes (getDigest (mkRequest BlockRequest (enc b) now)) O L eq_refl) as (H1 & H2 & H3 & H4 & H5 & H6 & H7 & H8).
      by split.
    + destruct (Hnodes (getDigest (mkRequest BlockRequest (enc b) now)) (S i) p Hp) as (H1 & H2 & H3 & H4 & H5 & H6 & H7 & H8).
      by split.
  - eapply list.Forall_impl; [exact HFs|]. intros F [[R1 R2 R3 R4] H2 H3 H4 H5]. by split.
  - unfold TxPool_PackTxs, pool_PackTxs. cbn [fst]. apply list.Forall_take.
    change (bc_Txpool (CurChain L2)) with (TxPool_AddTxs2Pool now0 txs (bc_Txpool (CurChain L))).
    unfold TxPool_AddTxs2Pool. rewrite pool_AddTxs2Pool_TxQueue, Hq. by apply (stamped_ok P (CurChain L)).
Qed.

(** The nodes of a shard, in the order of their numbers. *)
Lemma choose_nodes nnm (Q : Z -> PbftConsensusNode () -> Prop) :
  (forall k, 0 <= k < nnm -> exists p, Q k p) ->
  exists ns, length ns = Z.to_nat nnm /\ forall i p, ns !! i = Some p -> Q (Z.of_nat i) p.
Proof.
  intros H. assert (Hn : forall n, (n <= Z.to_nat nnm)%nat ->
    exists ns, length ns = n /\ forall i p, ns !! i = Some p -> Q (Z.of_nat i) p).
  { induction n as [|n IH]; intros Hle; [by exists []|]. destruct IH as (ns & Hl & Hns); [lia|].
    destruct (H (Z.of_nat n)) as [p Hp]; [lia|]. exists (ns ++ [p]). split; [rewrite length_app, Hl; cbn; lia|].
    intros i q Hq. apply lookup_app_Some in Hq as [Hq|[Hle' Hq]]; [by apply Hns|].
    apply list_lookup_singleton_Some in Hq as [Hi ->]. by replace i with n by lia. }
  by apply Hn.
Qed.

Lemma addrs_ip nnm sid i : (i < Z.to_nat nnm)%nat -> ip (node_addr sid <$> seqZ 0 nnm) i = node_addr sid (Z.of_nat i).
Proof. intros Hi. unfold ip. rewrite list_lookup_fmap, lookup_seqZ_lt by lia. by rewrite Z.add_0_l. Qed.

Lemma addrs_NoDup nnm sid : 0 <= sid < 2 ^ 32 -> nnm <= 100 -> NoDup (node_addr sid <$> seqZ 0 nnm).
Proof.
  intros Hs Hn. apply NoDup_fmap_2_strong; [|apply NoDup_seqZ].
  intros x y Hx%elem_of_seqZ Hy%elem_of_seqZ E. apply node_addr_inj in E; lia.
Qed.

Lemma initConfig_row P nid nnm sid snm i : 0 <= i < snm -> snm <= DeciderShard ->
  (initConfig P ∅ nid nnm sid snm).1.2 !! i = Some (add_nodes nnm i ∅).
Proof.
  intros Hi Hs. unfold initConfig. cbn [fst snd]. rewrite lookup_insert_ne by (unfold DeciderShard in *; lia).
  unfold add_shards. rewrite (foldl_update_lookup (fun i row => add_nodes nnm i (default ∅ row))), decide_True by lia.
  by rewrite lookup_empty.
Qed.

(** What node [i] of the new shard is. *)
Definition built (addrs : list string) (i : nat) (p : PbftConsensusNode ()) : Prop :=
  forall d, p_NodeID p = Z.of_nat i /\ view p = 0 /\ stop p = false /\
    malicious_nums p = Z.of_nat ((length addrs - 1) / 3) /\ nd_IPaddr (RunningNode p) = ip addrs i /\
    getNeighborNodes p ≡ₚ addrs /\ sequenceID p = 1 /\ cntPrepareConfirm p !! d = None /\ cntCommitConfirm p !! d = None /\
    flag_of (isCommitBordcast p) d = false /\ flag_of (isReply p) d = false.

Lemma built_node P nnm snm sid k db file :
  let addrs := node_addr sid <$> seqZ 0 nnm in
  UTXO P = false -> UseSyncHotstuff P = false -> 0 <= sid < snm -> snm <= DeciderShard -> 0 <= k < nnm -> nnm <= 100 ->
  fresh (initConfig P ∅ 0 nnm sid snm).1.1 (initConfig P ∅ k nnm sid snm).2 db file ->
  exists p, BuildNewNode P ∅ db file k nnm sid snm 3 = Ret (PbftWorker RelayModules p, mkGoroutines false (k =? 0)) /\
    built addrs (Z.to_nat k) p /\ TxQueue (bc_Txpool (CurChain p)) = [] /\ bc_PartitionMap (CurChain p) = ∅.
Proof.
  intros addrs HU HH Hsid Hsnm Hk Hn Hf. pose proof (BuildNewNode_fresh P ∅ nnm snm sid k db file) as H.
  pose proof (initConfig_row P k nnm sid snm sid Hsid Hsnm) as Hrow.
  change (initConfig P ∅ 0 nnm sid snm).1.1 with (initConfig P ∅ k nnm sid snm).1.1 in Hf.
  destruct (initConfig P ∅ k nnm sid snm) as [[P' ips] cck]. cbn [fst snd] in *.
  destruct (H HU HH Hf) as (p & E & F1 & F2 & F3 & F4 & F5 & F6 & F7 & F8 & F9 & F10 & F11 & F12 & F13 & F14).
  exists p. split; [exact E|]. split; [|split; [exact F13|exact F12]]. intros d.
  assert (Hl : length addrs = Z.to_nat nnm) by (unfold addrs; by rewrite length_fmap, length_seqZ).
  split_and!; [lia|done|done| | | |done|by rewrite F8|by rewrite F9|by rewrite F10|by rewrite F11].
  - rewrite F6, i64_small, (u64_small nnm), u64_small, Hl by lia. rewrite Nat2Z.inj_div. f_equal. lia.
  - rewrite F7, Hrow. cbn [nd_IPaddr]. unfold addrs. rewrite addrs_ip, Z2Nat.id by lia.
    change (Some (add_nodes nnm sid ∅) ≫= (.!! k)) with (add_nodes nnm sid ∅ !! k). unfold add_nodes.
    by rewrite (foldl_update_lookup (fun j _ => node_addr sid j)), decide_True by lia.
  - unfold getNeighborNodes. rewrite F5, F2, Hrow. apply add_nodes_rows.
Qed.

(** C22: a freshly built shard is ready for a round.  The processes
    that [BuildNewNode] makes for all nodes of one shard of the relay method, on empty
    disks, with at most 100 nodes, are a leader and its followers in sync.
    After the leader has handled an injection of any transactions between valid
    addresses and has passed its [select], whatever block it generates, the
    shard satisfies what [round_completes] asks of it. *)
Theorem built_shard_starts {ML : MsgCodecsLaws} P nnm snm sid (db : Z -> EthDB) (file : Z -> BoltDB) :
  let P' := (initConfig P ∅ 0 nnm sid snm).1.1 in
  UTXO P = false -> UseSyncHotstuff P = false -> 2 <= nnm <= 100 -> 0 <= sid < snm -> snm <= DeciderShard ->
  (forall k, 0 <= k < nnm -> fresh P' (initConfig P ∅ k nnm sid snm).2 (db k) (file k)) ->
  exists L Fs, length (L :: Fs) = Z.to_nat nnm /\
    (forall i p, (L :: Fs) !! i = Some p ->
       BuildNewNode P ∅ (db (Z.of_nat i)) (file (Z.of_nat i)) (Z.of_nat i) nnm sid snm 3 =
       Ret (PbftWorker RelayModules p, mkGoroutines false (Z.of_nat i =? 0))) /\
    bc_PartitionMap (CurChain L) = ∅ /\
    forall now0 it msg, MergeMessage CInject (json_enc it) = Ret msg -> Forall (addr_ok P' (CurChain L)) (it_Txs it) ->
      exists L1 L2,
        step (IM := RawRelayPbftExtraHandleMod P') (OM := RawRelayOutsideModule) (Receive now0 (frame msg)) L = Ret (tt, L1, []) /\
        step (IM := RawRelayPbftExtraHandleMod P') (OM := RawRelayOutsideModule) (RunPropose now0) L1 = Ret (tt, L2, []) /\
        forall now b bc1, GenerateBlock P' now (CurChain L2) = Ret (b, bc1) -> storable b ->
          round_start P' now L2 Fs (node_addr sid <$> seqZ 0 nnm) b bc1 (fun _ => Init_Balance).
Proof.
  intros P' HU HH Hn Hsid Hsnm Hf. set (addrs := node_addr sid <$> seqZ 0 nnm).
  destruct (choose_nodes nnm (fun k p => BuildNewNode P ∅ (db k) (file k) k nnm sid snm 3 =
      Ret (PbftWorker RelayModules p, mkGoroutines false (k =? 0)) /\
    built addrs (Z.to_nat k) p /\ TxQueue (bc_Txpool (CurChain p)) = [] /\ bc_PartitionMap (CurChain p) = ∅)) as (ns & Hlen & Hns).
  { intros k Hk. apply built_node; try done; [lia|]. by apply Hf. }
  destruct ns as [|L Fs]; [cbn in Hlen; lia|]. exists L, Fs.
  split; [exact Hlen|]. split; [intros i p Hp; by destruct (Hns i p Hp)|].
  destruct (Hns O L eq_refl) as (EL & HbL & HqL & HmL). split; [exact HmL|]. intros now0 it msg Hm Hok.
  assert (Hpair : forall i F, Fs !! i = Some F -> in_sync L F /\ sequenceID L = 1 /\
    state_is (CurChain L) (state_root (CurChain L)) (fun _ => Init_Balance) /\ propose_pc L = AtSelect /\ sequenceLock L = false).
  { intros i F HF. assert (Hi : 0 <= Z.of_nat (S i) < nnm) by (apply lookup_lt_Some in HF; cbn in Hlen; lia).
    destruct (Hns (S i) F HF) as (EF & _).
    pose proof (BuildNewNode_in_sync P ∅ nnm snm sid (Z.of_nat (S i)) (db 0) (file 0) (db (Z.of_nat (S i))) (file (Z.of_nat (S i)))) as H.
    pose proof (Hf 0 ltac:(lia)) as Hf0. pose proof (Hf _ Hi) as Hfi. unfold P' in Hf0, Hfi.
    destruct (initConfig P ∅ 0 nnm sid snm) as [[P1 ips] cc0]. cbn [fst snd] in *.
    destruct (H HU HH ltac:(lia) Hf0 Hfi) as (L' & F' & E1 & E2 & Hsync & Hs & _ & Hst & Hpc & Hl & _).
    change (Z.of_nat 0) with 0 in EL. rewrite EL in E1. injection E1 as <-. rewrite EF in E2. injection E2 as <-. done. }
  destruct Fs as [|F0 Fs]; [cbn in Hlen; lia|].
  destruct (Hpair O F0 eq_refl) as (_ & Hseq & Hst & Hpc & Hl). destruct (HbL EmptyString) as (Hid & Hv & Hstop & _).
  exists (with_injected now0 (it_Txs it) L), (with_injected now0 (it_Txs it) L <| propose_pc := AtLock |>).
  split; [by apply inject_step|]. split.
  { cbn [step]. unfold propose_step. rewrite get_bind. change (propose_pc (with_injected now0 (it_Txs it) L)) with (propose_pc L).
    change (view (with_injected _ _ L)) with (view L). change (p_NodeID (with_injected _ _ L)) with (p_NodeID L).
    rewrite Hv, Hid, Hpc. reflexivity. }
  assert (Hal : length addrs = Z.to_nat nnm) by (unfold addrs; by rewrite length_fmap, length_seqZ).
  apply built_ready; try done.
  - apply addrs_NoDup; unfold DeciderShard in *; lia.
  - by rewrite Hal.
  - rewrite Hal. lia.
  - intros d i p Hp. destruct (Hns i p Hp) as (_ & Hb & _). specialize (Hb d). by rewrite Nat2Z.id in Hb.
  - apply list.Forall_forall. intros F HF. apply list_elem_of_lookup_1 in HF as [i HF]. by destruct (Hpair i F HF).
Qed.
End nodes.

(** *** On concrete inputs *)
Import RefChain RefJson.
Lemma relay_supervisor_reports_witness :
  exists d d', BuildSupervisor RefChain.params ∅ [] [] 4 1 3 = Ret (RelaySupervisor d) /\
    forM ((fun b => CBlockInfo +:+ bzeros 21 +:+ json_enc b) <$> RefMeasure.reports)
      (fun msg => sup_step (IC := relay_module (initConfig RefChain.params ∅ 123 4 123 1).1.1) (SupReceive (frame msg))) d = Ret (tt, d', []) /\
    measure_name <$> testMeasureMods d' = MeasureRelayMod /\ GapEnough (Ss (control d')) = false /\
    exists fs, CloseSupervisor true 9 d' ∅ = Ret fs /\
      forall m, m ∈ testMeasureMods d' -> fs !! metric_csv (OutputMetricName m) = Some (metric_rows 9 m None).
Proof.
  destruct (relay_supervisor_reports RefChain.params ∅ [] [] 4 1 RefMeasure.reports
    ((fun b => CBlockInfo +:+ bzeros 21 +:+ json_enc b) <$> RefMeasure.reports)) as (d & d' & E & E2 & Hn & _ & Hg & Hc).
  - done.
  - done.
  - apply Forall2_fmap_r, Forall_Forall2_diag, Forall_true. reflexivity.
  - repeat constructor; by intros.
  - exists d, d'. split; [exact E|]. split; [exact E2|]. split; [exact Hn|]. split.
    + destruct (GapEnough (Ss (control d'))); [|done]. pose proof (proj1 Hg eq_refl) as H. vm_compute in H. by destruct H.
    + destruct (Hc 9 ∅) as (fs & Ec & Hf & _). exists fs. split; [exact Ec|]. intros m Hm. by rewrite (Hf m Hm).
Defined.


Lemma built_shard_starts_witness :
  let P := (initConfig RefChain.params ∅ 0 4 0 2).1.1 in
  exists (L : PbftConsensusNode ()) Fs L1 L2, length (L :: Fs) = 4%nat /\
    step (IM := RawRelayPbftExtraHandleMod P) (OM := RawRelayOutsideModule)
      (Receive 5 (frame (RefNode.wire CInject (json_enc (mkInjectTxs [t1; t2] 0))))) L = Ret (tt, L1, []) /\
    step (IM := RawRelayPbftExtraHandleMod P) (OM := RawRelayOutsideModule) (RunPropose 5) L1 = Ret (tt, L2, []).
Proof.
  intros P. destruct (built_shard_starts RefChain.params 4 2 0 (fun _ => ∅ : EthDB) (fun _ => ∅ : BoltDB))
    as (L & Fs & Hlen & _ & Hm & H).
  - reflexivity.
  - reflexivity.
  - lia.
  - lia.
  - discriminate.
  - intros k Hk. eexists. split; [reflexivity|]. split; [reflexivity|]. unfold storable, bolt_key_ok, bolt_val_ok. vm_compute. intuition congruence.
  - destruct (H 5 (mkInjectTxs [t1; t2] 0) (RefNode.wire CInject (json_enc (mkInjectTxs [t1; t2] 0)))) as (L1 & L2 & E1 & E2 & _).
    + reflexivity.
    + exact (txs_ok (CurChain L) Hm).
    + exists L, Fs, L1, L2. split; [exact Hlen|]. split; [exact E1|exact E2].
Defined.
