(* ===== verification/ToolProps.v ===== *)
(** * ToolProps: a generated script starts the whole system

    The script that [GenerateShellFile] writes, read by the shell and by
    [main], starts every node of every shard once and the supervisor once. *)
From stdpp Require Import base gmap strings list pretty.
From Stdlib Require Import ZArith Lia Ascii.
From S2P Require Import Prelude GoStd Libs Core Pools Messages StorageDB Chain Ledger Execution Pbft Committee Measure Results Supervisor Tool Build.

(** ** Text *)
(** Writing a list of lines appends them all. *)
Lemma write_all {A} name (f : A -> string) l : forall s (fs : Files),
  foldl (fun fs x => WriteString name (f x) fs) (<[name:=s]> fs) l = <[name := s +:+ cat (f <$> l)]> fs.
Proof.
  induction l as [|x l IH]; intros s fs; cbn [foldl]; [by rewrite bapp_nil_r|].
  change (cat (f <$> x :: l)) with (f x +:+ cat (f <$> l)). by rewrite write_one, IH, bapp_assoc.
Qed.

Lemma write_grid {A B} name (f : A -> B -> string) js ks : forall s (fs : Files),
  foldl (fun fs j => foldl (fun fs i => WriteString name (f j i) fs) fs ks) (<[name:=s]> fs) js =
  <[name := s +:+ cat (js ≫= fun j => f j <$> ks)]> fs.
Proof.
  induction js as [|j js IH]; intros s fs; cbn [foldl]; [by rewrite bapp_nil_r|].
  rewrite bind_cons.   by rewrite write_all, IH, cat_app, bapp_assoc.
Qed.

(** ** Numbers *)
Definition digit (c : ascii) : bool := (48 <=? byte_val c) && (byte_val c <=? 57).

Lemma pretty_char_digit x : digit (pretty_N_char (x mod 10)) = true /\
  byte_val (pretty_N_char (x mod 10)) = 48 + Z.of_N (x mod 10).
Proof.
  assert (H : (x mod 10 < 10)%N) by (apply N.mod_lt; lia). revert H. generalize (x mod 10)%N as d. intros d H.
  destruct d as [|p]; [done|]. repeat (destruct p as [p|p|]; try done; try lia).
Qed.

Lemma pretty_N_go_digits x : forall s, ball digit s = true -> ball digit (pretty_N_go x s) = true /\
  (s <> EmptyString \/ x <> 0%N -> pretty_N_go x s <> EmptyString).
Proof.
  induction (N.lt_wf_0 x) as [x _ IH]; intros s Hs.
  destruct (decide (x = 0%N)) as [->|Hx]; [split; [done|]; by intros [H|H]|].
  rewrite pretty_N_go_step by lia.
  destruct (IH (x `div` 10)%N) with (s := String (pretty_N_char (x mod 10)) s) as [H1 H2].
  - apply N.div_lt; lia.
  - cbn. by rewrite (proj1 (pretty_char_digit x)).
  - split; [done|]. intros _. apply H2. by left.
Qed.

Lemma Itoa_digits v : 0 <= v -> Itoa v <> EmptyString /\ ball digit (Itoa v) = true.
Proof.
  intros Hv. unfold Itoa. destruct v as [|p|p]; [done| |lia].
  change (pretty (Z.pos p)) with (pretty_N_go (N.pos p) "").
  destruct (pretty_N_go_digits (N.pos p) "" eq_refl) as [H1 H2]. split; [|done]. apply H2. by right.
Qed.

Lemma ball_impl (f g : ascii -> bool) s : (forall c, f c = true -> g c = true) -> ball f s = true -> ball g s = true.
Proof.
  intros Hfg. induction s as [|c s IH]; [done|]. cbn [ball]. intros [Hc Hs]%andb_true_iff.
  by rewrite (Hfg c Hc), IH.
Qed.

Lemma Itoa_plain v : 0 <= v -> plain (Itoa v).
Proof.
  intros Hv. destruct (Itoa_digits v Hv) as [H1 H2]. split; [done|]. revert H2. apply ball_impl. intros c Hc.
  unfold digit in Hc. unfold plain_char. by rewrite Hc.
Qed.

(** ** The lines of the script *)
Section script.
Context (N S m : Z) (u h : bool).

Definition dS := mkFlagDef "shardNum" "S" (VInt 2).
Definition dN := mkFlagDef "nodeNum" "N" (VInt 4).
Definition ds := mkFlagDef "shardID" "s" (VInt 0).
Definition dn := mkFlagDef "nodeID" "n" (VInt 0).
Definition dm := mkFlagDef "modID" "m" (VInt 3).
Definition dc := mkFlagDef "client" "c" (VBool false).
Definition dg := mkFlagDef "gen" "g" (VBool false).
Definition du := mkFlagDef "utxo" "u" (VBool false).
Definition dh := mkFlagDef "synchotstuff" "h" (VBool false).

Definition mode_args : list Arg :=
  (if u then [mkArg du (VBool true)] else []) ++ (if h then [mkArg dh (VBool true)] else []).
(** The arguments of node [i] of shard [j], and those of the supervisor. *)
Definition node_args (ji : Z * Z) : list Arg :=
  [mkArg dn (VInt ji.2); mkArg dN (VInt N); mkArg ds (VInt ji.1); mkArg dS (VInt S); mkArg dm (VInt m)] ++ mode_args.
Definition client_args : list Arg :=
  [mkArg dc (VBool true); mkArg dN (VInt N); mkArg dS (VInt S); mkArg dm (VInt m)] ++ mode_args.

(** Those of the process that writes the script. *)
Definition gen_args : list Arg :=
  [mkArg dg (VBool true); mkArg dN (VInt N); mkArg dS (VInt S); mkArg dm (VInt m)] ++ mode_args.

Definition role_args (who : option (Z * Z)) : list Arg :=
  match who with Some ji => node_args ji | None => client_args end.
Definition role_line (who : option (Z * Z)) : Line :=
  mkLine (["go"; "run"; "main.go"]%string ++ (role_args who ≫= arg_words)) (bool_decide (is_Some who)).

Lemma node_line j i : line_text (role_line (Some (j, i))) = shell_node i N j S m (shell_addons u h).
Proof.
  unfold line_text, role_line, shell_node, shell_addons. cbn [role_args ln_words ln_gap]. unfold node_args, mode_args.
  destruct u, h; cbn -[Itoa nl]; rewrite ?bapp_assoc; reflexivity.
Qed.
Lemma client_line : line_text (role_line None) = shell_client N S m (shell_addons u h).
Proof.
  unfold line_text, role_line, shell_client, shell_addons. cbn [role_args ln_words ln_gap]. unfold client_args, mode_args.
  destruct u, h; cbn -[Itoa nl]; rewrite ?bapp_assoc; reflexivity.
Qed.

(** The processes in the order of the lines: the leaders come last. *)
Definition workers : list (Z * Z) := j ← seqZ 0 S; (fun i => (j, i)) <$> seqZ 1 (N - 1).
Definition leaders : list (Z * Z) := (fun j => (j, 0)) <$> seqZ 0 S.
Definition roles : list (option (Z * Z)) := (Some <$> workers) ++ None :: (Some <$> leaders).

Lemma roles_text :
  cat (line_text <$> (role_line <$> roles)) =
  cat (seqZ 0 S ≫= fun j => (fun i => shell_node i N j S m (shell_addons u h)) <$> seqZ 1 (N - 1)) +:+
  shell_client N S m (shell_addons u h) +:+
  cat ((fun j => shell_node 0 N j S m (shell_addons u h)) <$> seqZ 0 S).
Proof.
  unfold roles, workers, leaders. rewrite !fmap_app, !fmap_cons, cat_app. f_equal.
  - f_equal. induction (seqZ 0 S) as [|j js IH]; [done|]. rewrite !bind_cons, !fmap_app, <- IH. f_equal.
    rewrite <- !list_fmap_compose. apply list_fmap_ext. intros k i _. apply node_line.
  - change (cat (line_text (role_line None) :: ?l)) with (line_text (role_line None) +:+ cat l). rewrite client_line.
    f_equal. f_equal. rewrite <- !list_fmap_compose. apply list_fmap_ext. intros k j _. apply node_line.
Qed.

Lemma GenerateShellFile_text (fs : Files) :
  0 <= m < 4 ->
  exists name, GenerateShellFile true N S m u h fs =
    Ret (<[name := "#!/bin/bash " +:+ nl +:+ nl +:+ cat (line_text <$> (role_line <$> roles))]> fs).
Proof.
  intros Hm. assert (Hc : exists method, committee_method m = Ret method).
  { assert (Hcase : m = 0 \/ m = 1 \/ m = 2 \/ m = 3) by lia. destruct Hcase as [->|[->|[->| ->]]]; by eexists. }
  destruct Hc as [method Hc]. exists (shell_name N S method (shell_addons u h)).
  unfold GenerateShellFile. rewrite Hc. cbn [mbind res_bind OpenFile].
  rewrite write_one, write_grid, write_one, write_all, roles_text, !bapp_assoc. reflexivity.
Qed.
End script.

(** ** What the script starts *)
Section start.
Context {TL : TrieLib} {BL : BoltLib} {HL : Sha256} {CC : CoreCodecs} {MC : MsgCodecs}.
Context {PF : PflagLib} {PL : PflagLaws PF} {SH : Shell} {SL : ShellLaws SH}.
Context (N S m : Z) (u h : bool) (HN : 1 <= N < 2 ^ 63) (HS : 0 <= S < 2 ^ 63) (Hm : 0 <= m < 4).

(** What [main] is as the supervisor, or as node [i] of shard [j]. *)
Definition role_process (who : option (Z * Z)) P ips brokers rows db file : res Process :=
  match who with
  | None => d ← BuildSupervisor P ips brokers rows N S m; Ret (RunsSupervisor d)
  | Some (j, i) => '(w, gs) ← BuildNewNode P ips db file i N j S m; Ret (RunsNode w gs)
  end.

(** [cmd] runs [main] in the role [who], in the modes asked for. *)
Definition starts (cmd : list string) (who : option (Z * Z)) : Prop :=
  exists args, cmd = ["go"; "run"; "main.go"]%string ++ args /\
    forall P ips brokers rows db file ok fs,
      main args P ips brokers rows db file ok fs =
      role_process who (set_params (mkFlags S N 0 0 m false false u h) P) ips brokers rows db file.

Lemma shorts_NoDup : NoDup (fd_short <$> main_flags).
Proof. apply (bool_decide_unpack _). vm_compute. exact I. Qed.

Lemma parse_args args : Forall (arg_ok main_flags) args ->
  pflag_Parse main_flags (args ≫= arg_words) = Some (foldl set_arg (flag_defaults main_flags) args).
Proof. intros H. rewrite <- (app_nil_r (args ≫= arg_words)). by apply pflag_Parse_args; [apply shorts_NoDup| |]. Qed.

Lemma mode_args_ok : Forall (arg_ok main_flags) (mode_args u h).
Proof. unfold mode_args. destruct u, h; repeat constructor; set_solver. Qed.
Lemma int_arg_ok d v : d ∈ main_flags -> (exists z, fd_default d = VInt z) -> 0 <= v < 2 ^ 63 ->
  arg_ok main_flags (mkArg d (VInt v)).
Proof. intros Hd [z Hz] Hv. split; [done|]. cbn [arg_def arg_val]. by rewrite Hz. Qed.
Lemma node_args_ok j i : 0 <= j < 2 ^ 63 -> 0 <= i < 2 ^ 63 -> Forall (arg_ok main_flags) (node_args N S m u h (j, i)).
Proof.
  intros Hj Hi. unfold node_args. apply list.Forall_app. split; [|apply mode_args_ok].
  repeat (apply list.Forall_cons; split; [apply int_arg_ok; [unfold main_flags; set_solver|by eexists|cbn; lia]|]). constructor.
Qed.
Lemma client_args_ok : Forall (arg_ok main_flags) (client_args N S m u h).
Proof.
  unfold client_args. apply list.Forall_app. split; [|apply mode_args_ok].
  apply list.Forall_cons. split; [by split; [set_solver|]|].
  repeat (apply list.Forall_cons; split; [apply int_arg_ok; [unfold main_flags; set_solver|by eexists|cbn; lia]|]). constructor.
Qed.
Lemma gen_args_ok : Forall (arg_ok main_flags) (gen_args N S m u h).
Proof.
  unfold gen_args. apply list.Forall_app. split; [|apply mode_args_ok].
  apply list.Forall_cons. split; [by split; [set_solver|]|].
  repeat (apply list.Forall_cons; split; [apply int_arg_ok; [unfold main_flags; set_solver|by eexists|cbn; lia]|]). constructor.
Qed.

Lemma node_flags j i :
  flag_vars (foldl set_arg (flag_defaults main_flags) (node_args N S m u h (j, i))) = mkFlags S N j i m false false u h.
Proof. destruct u, h; vm_compute; reflexivity. Qed.
Lemma client_flags :
  flag_vars (foldl set_arg (flag_defaults main_flags) (client_args N S m u h)) = mkFlags S N 0 0 m true false u h.
Proof. destruct u, h; vm_compute; reflexivity. Qed.
Lemma gen_flags :
  flag_vars (foldl set_arg (flag_defaults main_flags) (gen_args N S m u h)) = mkFlags S N 0 0 m false true u h.
Proof. destruct u, h; vm_compute; reflexivity. Qed.

Definition role_ok (who : option (Z * Z)) : Prop :=
  match who with Some (j, i) => 0 <= j < S /\ 0 <= i < N | None => True end.

Lemma role_starts who : role_ok who -> starts (ln_words (role_line N S m u h who)) who.
Proof.
  intros Hw. exists (role_args N S m u h who ≫= arg_words). split; [done|]. intros. unfold main.
  assert (Hu : u64 N = N /\ u64 S = S /\ u64 m = m) by (split_and!; apply u64_small; lia). destruct Hu as (HuN & HuS & Hum).
  destruct who as [[j i]|]; cbn [role_args role_process].
  - destruct Hw as [Hj Hi]. rewrite parse_args, node_flags by (apply node_args_ok; lia).
    cbn [isGen isClient nodeID nodeNum shardID shardNum modID]. by rewrite HuN, HuS, Hum, (u64_small i), (u64_small j) by lia.
  - rewrite parse_args, client_flags by apply client_args_ok.
    cbn [isGen isClient nodeID nodeNum shardID shardNum modID]. by rewrite HuN, HuS, Hum.
Qed.

Lemma role_line_plain who : role_ok who ->
  ln_words (role_line N S m u h who) <> [] /\ Forall plain (ln_words (role_line N S m u h who)).
Proof.
  intros Hw. split; [done|]. cbn [ln_words role_line]. apply list.Forall_app. split; [by repeat constructor|].
  assert (Hmode : Forall plain (mode_args u h ≫= arg_words)) by (destruct u, h; by repeat constructor).
  destruct who as [[j i]|]; cbn [role_args]; unfold node_args, client_args; rewrite bind_app; apply list.Forall_app; (split; [|done]).
  - destruct Hw as [Hj Hi]. repeat (apply list.Forall_cons; split; [first [by apply Itoa_plain; cbn; lia|done]|]). constructor.
  - repeat (apply list.Forall_cons; split; [first [by apply Itoa_plain; cbn; lia|done]|]). constructor.
Qed.
(** Every node once. *)
Lemma nodes_once : NoDup (workers N S ++ leaders S) /\
  (forall j i, (j, i) ∈ workers N S ++ leaders S <-> 0 <= j < S /\ 0 <= i < N) /\
  Forall (fun ji => ji.2 <> 0) (workers N S) /\ Forall (fun ji => ji.2 = 0) (leaders S).
Proof.
  assert (Hw : forall j i, (j, i) ∈ workers N S <-> 0 <= j < S /\ 1 <= i < N).
  { intros j i. unfold workers. rewrite list_elem_of_bind. split.
    - intros (j' & (i' & E & Hi%elem_of_seqZ)%list_elem_of_fmap & Hj%elem_of_seqZ). injection E as -> ->. lia.
    - intros [Hj Hi]. exists j. split; [|by apply elem_of_seqZ; lia].
      apply list_elem_of_fmap. exists i. split; [done|by apply elem_of_seqZ; lia]. }
  assert (Hl : forall j i, (j, i) ∈ leaders S <-> 0 <= j < S /\ i = 0).
  { intros j i. unfold leaders. rewrite list_elem_of_fmap. split.
    - intros (j' & E & Hj%elem_of_seqZ). injection E as -> ->. lia.
    - intros [Hj ->]. exists j. split; [done|by apply elem_of_seqZ; lia]. }
  split_and!.
  - apply list.NoDup_app. split_and!.
    + unfold workers. apply NoDup_bind; [| |apply NoDup_seqZ].
      * intros j1 j2 [j i] _ _ H1 H2. rewrite list_elem_of_fmap in H1, H2. set_solver.
      * intros j _. apply NoDup_fmap_2; [intros x y E; by injection E|apply NoDup_seqZ].
    + intros [j i] H1 H2. apply Hw in H1. apply Hl in H2. lia.
    + unfold leaders. apply NoDup_fmap_2; [intros x y E; by injection E|apply NoDup_seqZ].
  - intros j i. rewrite elem_of_app, Hw, Hl. lia.
  - apply list.Forall_forall. intros [j i] H%Hw. cbn. lia.
  - apply list.Forall_forall. intros [j i] H%Hl. cbn. lia.
Qed.

(** C25: the generated script starts the whole system.  [main] with
    [-g] writes one file, the script; run by the shell, the commands of that
    script run [main] as every node of every shard exactly once and as one
    supervisor, each with the numbers of nodes and shards, the method and the
    modes asked for, the nodes that are not leaders before the supervisor and
    the leaders after it. *)
Theorem script_starts_system P ips brokers rows db file fs :
  exists name text nodes lds,
    main (gen_args N S m u h ≫= arg_words) P ips brokers rows db file true fs =
      Ret (GeneratesScript (<[name := text]> fs)) /\
    Forall2 starts (sh_commands text) ((Some <$> nodes) ++ None :: (Some <$> lds)) /\
    NoDup (nodes ++ lds) /\ (forall j i, (j, i) ∈ nodes ++ lds <-> 0 <= j < S /\ 0 <= i < N) /\
    Forall (fun ji => ji.2 <> 0) nodes /\ Forall (fun ji => ji.2 = 0) lds.
Proof.
  destruct (GenerateShellFile_text N S m u h fs Hm) as [name E].
  destruct nodes_once as (H1 & H2 & H3 & H4).
  exists name. eexists. exists (workers N S), (leaders S). split_and!; try done.
  - unfold main. rewrite parse_args, gen_flags by apply gen_args_ok. cbn [isGen nodeNum shardNum modID useUTXO useSyncHotstuff].
    by rewrite E.
  - assert (Hok : Forall role_ok (roles N S)).
    { unfold roles. apply list.Forall_app. split; [|apply list.Forall_cons; split; [done|]];
        apply list.Forall_fmap, list.Forall_forall; intros [j i] H; cbn; apply H2; set_solver. }
    rewrite sh_script.
    + fold (roles N S). rewrite <- list_fmap_compose. apply Forall2_fmap_l, Forall_Forall2_diag.
      eapply list.Forall_impl; [exact Hok|]. intros who. apply role_starts.
    + apply list.Forall_fmap. eapply list.Forall_impl; [exact Hok|]. intros who. apply role_line_plain.
Qed.
End start.

(** ** Arguments without flags *)
Section positional.
Context {TL : TrieLib} {BL : BoltLib} {HL : Sha256} {CC : CoreCodecs} {MC : MsgCodecs}.
Context {PF : PflagLib} {PL : PflagLaws PF}.

(** The words [GenerateVBSFile] gives to a node all stay unread: whatever they
    are, the process is node 0 of shard 0, of four nodes in two shards. *)
Lemma vbs_words i nodenum j shardnum :
  vbs_args i nodenum j shardnum = String.concat " " [Itoa i; Itoa nodenum; Itoa j; Itoa shardnum].
Proof. reflexivity. Qed.

Lemma vbs_node_defaults i nodenum j shardnum P ips brokers rows db file ok fs :
  0 <= i -> 0 <= nodenum -> 0 <= j -> 0 <= shardnum ->
  main [Itoa i; Itoa nodenum; Itoa j; Itoa shardnum] P ips brokers rows db file ok fs =
  role_process 4 2 3 (Some (0, 0)) (set_params (mkFlags 2 4 0 0 3 false false false false) P) ips brokers rows db file.
Proof.
  intros Hi Hn Hj Hs.
  assert (Hpos : forall v, 0 <= v -> positional (Itoa v)).
  { intros v Hv. destruct (Itoa_digits v Hv) as [_ H]. destruct (Itoa v) as [|c w]; [done|].
    cbn [ball] in H. apply andb_true_iff in H as [H _]. by destruct c as [[] [] [] [] [] [] [] []]. }
  unfold main. rewrite (pflag_Parse_args main_flags [] [Itoa i; Itoa nodenum; Itoa j; Itoa shardnum] shorts_NoDup).
  - reflexivity.
  - constructor.
  - repeat (constructor; [by apply Hpos|]). constructor.
Qed.
End positional.

(** ** Reference readers *)
Module RefTool.

(** A parser of short flags. *)
Fixpoint dec_digits (acc : Z) (s : string) : option Z :=
  match s with
  | EmptyString => Some acc
  | String c s =>
      let n := byte_val c in
      if (48 <=? n) && (n <=? 57) then dec_digits (10 * acc + (n - 48)) s else None
  end.

Fixpoint parse (defs : list FlagDef) (ws : list string) (v : gmap string FlagVal) : option (gmap string FlagVal) :=
  match ws with
  | [] => Some v
  | String "-" (String c EmptyString) :: ws =>
      match list_find (fun d => fd_short d = c) defs with
      | None => None
      | Some (_, d) =>
          match fd_default d, ws with
          | VBool _, _ => parse defs ws (<[fd_name d := VBool true]> v)
          | VInt _, [] => None
          | VInt _, w :: ws =>
              match dec_digits 0 w with
              | Some z => parse defs ws (<[fd_name d := VInt z]> v)
              | None => None
              end
          end
      end
  | String "-" _ :: _ => None
  | _ :: ws => parse defs ws v
  end.

#[export] Instance ref_pflag : PflagLib := fun defs ws => parse defs ws (flag_defaults defs).

(** A shell for plain words, comments and background commands. *)
Definition end_word (word : string) (cmd : list string) : list string :=
  match word with EmptyString => cmd | _ => cmd ++ [word] end.

Fixpoint sh (comment : bool) (word : string) (cmd : list string) (s : string) : list (list string) :=
  match s with
  | EmptyString => match end_word word cmd with [] => [] | cmd => [cmd] end
  | String c s =>
      if comment then sh (negb (Ascii.eqb c newline)) EmptyString [] s
      else if Ascii.eqb c "#" && bool_decide (word = EmptyString) then sh true EmptyString cmd s
      else if Ascii.eqb c " " then sh false EmptyString (end_word word cmd) s
      else if Ascii.eqb c newline || Ascii.eqb c "&" then
        match end_word word cmd with
        | [] => sh false EmptyString [] s
        | cmd => cmd :: sh false EmptyString [] s
        end
      else sh false (word +:+ String c EmptyString) cmd s
  end.

#[export] Instance ref_shell : Shell := sh false EmptyString [].
Lemma dec_pretty x : forall s, dec_digits 0 (pretty_N_go x s) = dec_digits (Z.of_N x) s.
Proof.
  induction (N.lt_wf_0 x) as [x _ IH]; intros s.
  destruct (decide (x = 0%N)) as [->|Hx]; [done|].
  rewrite pretty_N_go_step by lia. rewrite IH by (apply N.div_lt; lia).
  destruct (pretty_char_digit x) as [Hd Hv]. unfold digit in Hd. cbn [dec_digits]. rewrite Hd, Hv. f_equal.
  pose proof (N.div_mod' x 10). lia.
Qed.
Lemma dec_Itoa v : 0 <= v -> dec_digits 0 (Itoa v) = Some v.
Proof.
  intros Hv. unfold Itoa. destruct v as [|p|p]; [done| |lia].
  change (pretty (Z.pos p)) with (pretty_N_go (N.pos p) ""). by rewrite dec_pretty.
Qed.

Lemma find_def defs d : NoDup (fd_short <$> defs) -> d ∈ defs ->
  exists k, list_find (fun d' => fd_short d' = fd_short d) defs = Some (k, d).
Proof.
  intros Hnd Hd. destruct (list_find_elem_of (fun d' => fd_short d' = fd_short d) defs d Hd eq_refl) as [[k d'] E].
  exists k. rewrite E. apply list_find_Some in E as (Hk & Hs & _). f_equal. f_equal.
  apply list_elem_of_lookup in Hd as [k' Hk'].
  assert (k = k').
  { apply (NoDup_lookup (fd_short <$> defs) k k' (fd_short d) Hnd); rewrite list_lookup_fmap; [by rewrite Hk; cbn; rewrite Hs|by rewrite Hk']. }
  subst. congruence.
Qed.

#[export] Instance ref_pflag_laws : PflagLaws ref_pflag.
Proof.
  intros defs args rest Hnd Hargs Hrest. unfold pflag_Parse, ref_pflag.
  generalize (flag_defaults defs) as v. induction Hargs as [|a args [Hin Ha] _ IH]; intros v.
  - cbn [mbind list_bind app foldl]. revert v. induction Hrest as [|w rest Hw _ IH]; intros v; [done|].
    destruct w as [|c w]; [apply IH|]. cbn [positional] in Hw.
    destruct (decide (c = "-"%char)) as [->|Hc]; [done|]. rewrite <- (IH v).
    by destruct c as [[] [] [] [] [] [] [] []].
  - rewrite bind_cons, <- app_assoc. cbn [foldl]. destruct (find_def defs (arg_def a) Hnd Hin) as [k Hf].
    change (arg_words a) with (String "-" (String (fd_short (arg_def a)) EmptyString) ::
      match arg_val a with VInt v => [Itoa v] | VBool _ => [] end). cbn [app parse]. rewrite Hf.
    destruct (fd_default (arg_def a)) as [z0|b0], (arg_val a) as [z|b] eqn:Ev; try done.
    + cbn [app]. rewrite dec_Itoa by lia. unfold set_arg. rewrite Ev. apply IH.
    + subst b. cbn [app]. unfold set_arg. rewrite Ev. apply IH.
Qed.

(** The shell reads a plain word character by character. *)
Lemma sh_plain w : forall word cmd s, ball plain_char w = true ->
  sh false word cmd (w +:+ s) = sh false (word +:+ w) cmd s.
Proof.
  induction w as [|c w IH]; intros word cmd s; [by rewrite bapp_nil_r|]. cbn [ball]. intros [Hc Hw]%andb_true_iff.
  change (String c w +:+ s) with (String c (w +:+ s)).
  assert (E : sh false word cmd (String c (w +:+ s)) = sh false (word +:+ String c EmptyString) cmd (w +:+ s))
    by by destruct c as [[] [] [] [] [] [] [] []].
  rewrite E, IH by done. by rewrite bapp_assoc.
Qed.

Lemma end_word_plain w cmd : plain w -> end_word w cmd = cmd ++ [w].
Proof. by destruct w as [|c w]; intros [H _]. Qed.

Lemma sh_space word cmd s : sh false word cmd (" " +:+ s) = sh false EmptyString (end_word word cmd) s.
Proof. by destruct word. Qed.

Lemma sh_words ws : forall cmd s, Forall plain ws -> ws <> [] ->
  exists w cmd', sh false EmptyString cmd (String.concat " " ws +:+ s) = sh false w cmd' s /\
    plain w /\ cmd' ++ [w] = cmd ++ ws.
Proof.
  induction ws as [|w ws IH]; [done|]. intros cmd s [Hw Hws]%list.Forall_cons _.
  destruct ws as [|w' ws].
  - exists w, cmd. split; [|done]. apply (sh_plain w EmptyString), Hw.
  - change (String.concat " " (w :: w' :: ws)) with (w +:+ " " +:+ String.concat " " (w' :: ws)).
    rewrite !bapp_assoc, (sh_plain w EmptyString) by apply Hw. change ("" +:+ w) with w.
    rewrite sh_space, (end_word_plain w cmd Hw).
    destruct (IH (cmd ++ [w]) s Hws) as (v & cmd' & E & Hv & Hc); [done|].
    exists v, cmd'. split_and!; [done|done|]. by rewrite Hc, <- app_assoc.
Qed.

Lemma sh_amp word cmd s : end_word word cmd <> [] ->
  sh false word cmd ("&" +:+ nl +:+ nl +:+ s) = end_word word cmd :: sh false EmptyString [] s.
Proof. intros H. destruct word; cbn in *; [by destruct cmd|]. by destruct cmd. Qed.

Lemma sh_line l s : ln_words l <> [] -> Forall plain (ln_words l) ->
  sh false EmptyString [] (line_text l +:+ s) = ln_words l :: sh false EmptyString [] s.
Proof.
  intros Hne Hpl. unfold line_text. rewrite !bapp_assoc.
  edestruct (sh_words (ln_words l) []) as (w & cmd & -> & Hw & Hc); [done|done|]. cbn [app] in Hc.
  destruct (ln_gap l).
  - rewrite sh_space, (end_word_plain w cmd Hw), Hc. by rewrite sh_amp.
  - change ("" +:+ ?t) with t. rewrite sh_amp; rewrite (end_word_plain w cmd Hw), Hc; done.
Qed.

#[export] Instance ref_shell_laws : ShellLaws ref_shell.
Proof.
  intros ls Hls. unfold sh_commands, ref_shell.
  change (sh false EmptyString [] ("#!/bin/bash " +:+ nl +:+ nl +:+ ?t)) with (sh false EmptyString [] t).
  induction Hls as [|l ls [Hne Hpl] _ IH]; [done|].
  change (cat (line_text <$> l :: ls)) with (line_text l +:+ cat (line_text <$> ls)).
  by rewrite sh_line, IH.
Qed.
End RefTool.

(** *** On concrete inputs *)
Import RefChain RefJson RefTool.
Lemma script_starts_system_witness :
  exists name text nodes lds,
    main ["-g"; "-N"; "4"; "-S"; "2"; "-m"; "3"]%string RefChain.params ∅ [] [] (∅ : EthDB) (∅ : BoltDB) true ∅ =
      Ret (GeneratesScript (<[name := text]> ∅)) /\
    length (sh_commands text) = (length (nodes ++ lds) + 1)%nat /\ NoDup (nodes ++ lds) /\ (1, 3) ∈ nodes ++ lds.
Proof.
  destruct (script_starts_system 4 2 3 false false) with (P := RefChain.params) (ips := ∅ : gmap Z (gmap Z string))
    (brokers := @nil string) (rows := @nil Row) (db := ∅ : EthDB) (file := ∅ : BoltDB) (fs := ∅ : Files)
    as (name & text & nodes & lds & E & H & Hnd & Hin & _); [lia..|].
  exists name, text, nodes, lds. split_and!; [exact E| |exact Hnd|apply Hin; lia].
  apply Forall2_length in H. rewrite H, !length_app. cbn [length]. rewrite !length_fmap. lia.
Defined.

(** The script of one shard of two nodes. *)
Example script_two :
  GenerateShellFile true 2 1 3 false false ∅ =
  Ret {["bat_shardNum=1_NodeNum=2_mod=Relay_.sh" :=
    "#!/bin/bash " +:+ nl +:+ nl +:+
    "go run main.go -n 1 -N 2 -s 0 -S 1 -m 3 &" +:+ nl +:+ nl +:+
    "go run main.go -c -N 2 -S 1 -m 3&" +:+ nl +:+ nl +:+
    "go run main.go -n 0 -N 2 -s 0 -S 1 -m 3 &" +:+ nl +:+ nl]}%string.
Proof. vm_compute. reflexivity. Qed.
